(** * yuzu audio core: renderer, voices and output stream

    A shallow embedding of [audio_core/audio_renderer.{h,cpp}] and
    [audio_core/stream.cpp], with the properties of the update cycle, of the
    per-voice playback cursor, of mixing and of the output queue; and of the
    format tables and addresses of the GPU registers in
    [video_core/engines/maxwell_3d.h].

    Conventions.
    - Unsigned machine integers are [Z] with the wrap-around written out
      ([wrap8], [wrap32], [wrap64]); [std::size_t] is 64 bits wide.
    - A [std::queue] is a [list] whose head is the front.
    - A failed [ASSERT]/[UNIMPLEMENTED] stops the program, as does the
      exception of a vector that cannot be allocated; an access outside a
      vector is undefined in C++.  All are results of type [Result], so that
      no behaviour is invented for them. *)

From Stdlib Require Import ZArith List Bool Lia PeanoNat Permutation.
From Stdlib Require Import Floats.SpecFloat.
From Stdlib Require Import Strings.Byte.
From Stdlib Require Strings.Ascii Strings.String.
Import ListNotations.
Open Scope Z_scope.

(** ** Machine integers *)

Definition wrap8 (z : Z) : Z := z mod 2 ^ 8.
Definition wrap32 (z : Z) : Z := z mod 2 ^ 32.
Definition wrap64 (z : Z) : Z := z mod 2 ^ 64.

(** Length of a vector as a [std::size_t]. *)
Definition size {A} (l : list A) : Z := Z.of_nat (length l).

(** ** Results of fallible code *)

Inductive Fault : Type :=
| AssertionFailed      (* ASSERT / ASSERT_MSG *)
| Unimplemented        (* UNIMPLEMENTED / UNIMPLEMENTED_MSG *)
| UndefinedBehaviour   (* access outside a vector, float out of int range *)
| OutOfMemory          (* std::length_error / std::bad_alloc from a vector *)
| OutOfFuel.           (* the model's loop bound, shown unreachable below *)

Inductive Result (A : Type) : Type :=
| Ok (a : A)
| Err (f : Fault).
Arguments Ok {A} a.
Arguments Err {A} f.

Definition bind {A B} (r : Result A) (k : A -> Result B) : Result B :=
  match r with
  | Ok a => k a
  | Err f => Err f
  end.

Notation "x <- c ;; k" := (bind c (fun x => k))
  (at level 61, c at next level, right associativity).
Notation "' pat <- c ;; k" := (bind c (fun x => match x with pat => k end))
  (at level 61, pat pattern, c at next level, right associativity).

Definition is_ok {A} (r : Result A) : bool :=
  match r with Ok _ => true | Err _ => false end.

(** ** IEEE binary32, the C++ [float] *)

Module F32.
Definition prec : Z := 24.
Definition emax : Z := 128.

(** The value held by the 32 bits [w] of a [float_le]. *)
Definition of_bits (w : Z) : spec_float :=
  let s := Z.testbit w 31 in
  let e := Z.land (Z.shiftr w 23) 255 in
  let m := Z.land w 8388607 in
  if e =? 0 then
    (if m =? 0 then S754_zero s else S754_finite s (Z.to_pos m) (-149))
  else if e =? 255 then
    (if m =? 0 then S754_infinity s else S754_nan)
  else S754_finite s (Z.to_pos (m + 8388608)) (e - 150).

(** Conversion of an integer operand ([s16] promoted to [int]). *)
Definition of_int (z : Z) : spec_float := binary_normalize prec emax z 0 false.

Definition mul (x y : spec_float) : spec_float := SFmul prec emax x y.

(** [static_cast<s32>(f)]: truncation toward zero; undefined when the
    truncated value is not an [s32] (or [f] is not finite). *)
Definition to_s32 (f : spec_float) : Result Z :=
  match f with
  | S754_zero _ => Ok 0
  | S754_finite s m e =>
      let mag := if 0 <=? e then Z.pos m * 2 ^ e else Z.pos m / 2 ^ (- e) in
      let v := if s then - mag else mag in
      if (-2147483648 <=? v) && (v <=? 2147483647) then Ok v
      else Err UndefinedBehaviour
  | _ => Err UndefinedBehaviour
  end.

Definition one : spec_float := of_bits 1065353216. (* 0x3f800000 *)
End F32.

(** ** External collaborators

    Guest memory, the allocator, the ADPCM codec, the interpolator and the
    volume curve of the output stream live outside these files; the code
    only calls them. *)

Record Platform : Type := {
  ADPCMState : Type;
  adpcm_init : ADPCMState;
  InterpolationState : Type;
  interp_init : InterpolationState;
  (** The longest [std::vector<s16>] that can be held here ([max_size()] and
      the memory at hand): creating or growing one beyond it throws. *)
  max_samples : Z;
  (** [memory.ReadBlock(addr, dst, size)] into a vector of [size / 2] s16,
      for an even [size]. *)
  ReadBlock16 : Z -> Z -> list Z;
  (** [memory.Read32(addr)]. *)
  Read32 : Z -> Z;
  (** [Codec::DecodeADPCM] with the coefficients read at the given address. *)
  DecodeADPCM : list Z -> Z -> ADPCMState -> list Z * ADPCMState;
  (** [Interpolate(state, input, input_rate, output_rate)]. *)
  Interpolate : InterpolationState -> list Z -> Z -> Z ->
                list Z * InterpolationState;
  (** [VolumeAdjustSamples(samples, game_volume)]. *)
  VolumeAdjustSamples : list Z -> spec_float -> list Z;
  (** [Codec::PcmFormat::Int16] and [Codec::PcmFormat::Adpcm] (codec.h). *)
  PcmFormat_Int16 : Z;
  PcmFormat_Adpcm : Z
}.

(** ** Output stream ([Stream], stream.cpp)

    The member functions are those of stream.cpp.  The class declaration
    (stream.h) and [Buffer] (buffer.h) are not among the sources; the members
    below are the ones stream.cpp reads and writes. *)

Module Stream.

Definition MaxAudioBufferCount : Z := 32.

(** Modelled from the spec: buffer.h is missing.  A frame is "queued to the
    Output Stream tagged with a caller-supplied identifier"; stream.cpp uses
    [GetTag()] and [GetSamples()]. *)
Record Buffer : Type := { GetTag : Z; GetSamples : list Z }.

(** Modelled from the spec: stream.h is missing.  "States: Stopped, Playing
    (no separate Paused state)". *)
Inductive State : Type := Stopped | Playing.

(** The formats [GetNumChannels] switches over. *)
Inductive Format : Type := Mono16 | Stereo16 | Multi51Channel16.

(** What the stream does to its sink, its timer and its owner. *)
Inductive Event : Type :=
| SinkFlush
| SinkEnqueueSamples (num_channels : Z) (samples : list Z)
| ScheduleRelease (tag : Z)
| ReleaseCallback.

(** Modelled from the spec: stream.h is missing.  The stream "owns the queue
    of mixed PCM buffers awaiting playback, the play/stop state machine", an
    active buffer and "a released queue"; [events] records the calls it makes
    on its collaborators. *)
Record t : Type := {
  sample_rate : Z;
  format : Format;
  state : State;
  game_volume : spec_float;
  queued_buffers : list Buffer;
  active_buffer : option Buffer;
  released_buffers : list Buffer;
  events : list Event
}.

Definition with_events (s : t) (ev : list Event) : t :=
  {| sample_rate := sample_rate s; format := format s; state := state s;
     game_volume := game_volume s; queued_buffers := queued_buffers s;
     active_buffer := active_buffer s;
     released_buffers := released_buffers s;
     events := events s ++ ev |}.

Definition with_state (s : t) (st : State) : t :=
  {| sample_rate := sample_rate s; format := format s; state := st;
     game_volume := game_volume s; queued_buffers := queued_buffers s;
     active_buffer := active_buffer s;
     released_buffers := released_buffers s;
     events := events s |}.

Definition with_queues (s : t) (q : list Buffer) (a : option Buffer)
    (r : list Buffer) : t :=
  {| sample_rate := sample_rate s; format := format s; state := state s;
     game_volume := game_volume s; queued_buffers := q;
     active_buffer := a; released_buffers := r;
     events := events s |}.

Definition GetNumChannels (s : t) : Z :=
  match format s with
  | Mono16 => 1
  | Stereo16 => 2
  | Multi51Channel16 => 6
  end.

(** Modelled from the spec: stream.h is missing.  Playback starts only
    when the stream is "Playing". *)
Definition IsPlaying (s : t) : bool :=
  match state s with Playing => true | Stopped => false end.

Section WithPlatform.
Variable P : Platform.

Definition PlayNextBuffer (s : t) : t :=
  if negb (IsPlaying s) then with_events s [SinkFlush]
  else match active_buffer s with
       | Some _ => s
       | None =>
           match queued_buffers s with
           | [] => with_events s [SinkFlush]
           | front :: rest =>
               let active :=
                 {| GetTag := GetTag front;
                    GetSamples := VolumeAdjustSamples P (GetSamples front)
                                    (game_volume s) |} in
               with_events
                 (with_queues s rest (Some active) (released_buffers s))
                 [SinkEnqueueSamples (GetNumChannels s) (GetSamples active);
                  ScheduleRelease (GetTag active)]
           end
       end.

Definition Play (s : t) : t := PlayNextBuffer (with_state s Playing).

(** [state = State::Stopped; UNIMPLEMENTED();] *)
Definition Stop (s : t) : Result t := Err Unimplemented.

(** Fired by the timer. *)
Definition ReleaseActiveBuffer (s : t) : Result t :=
  match active_buffer s with
  | None => Err AssertionFailed
  | Some b =>
      Ok (PlayNextBuffer
            (with_events
               (with_queues s (queued_buffers s) None
                  (released_buffers s ++ [b]))
               [ReleaseCallback]))
  end.

(** The outcome of [QueueBuffer(BufferPtr&& buffer)]: the returned flag,
    the stream, and what the caller's [buffer] holds afterwards ([None]
    once it has been moved into the queue). *)
Record Queued : Type := {
  accepted : bool;
  stream_after : t;
  buffer_after : option Buffer
}.

Definition QueueBuffer (s : t) (buffer : Buffer) : Queued :=
  if size (queued_buffers s) <? MaxAudioBufferCount then
    {| accepted := true;
       stream_after :=
         PlayNextBuffer
           (with_queues s (queued_buffers s ++ [buffer]) (active_buffer s)
              (released_buffers s));
       buffer_after := None |}
  else {| accepted := false; stream_after := s; buffer_after := Some buffer |}.

(** Successive calls, oldest first. *)
Fixpoint QueueBuffers (s : t) (buffers : list Buffer) : list Queued :=
  match buffers with
  | [] => []
  | b :: more =>
      let q := QueueBuffer s b in q :: QueueBuffers (stream_after q) more
  end.
End WithPlatform.

(** [game_volume = volume;] *)
Definition SetVolume (s : t) (volume : spec_float) : t :=
  {| sample_rate := sample_rate s; format := format s; state := state s;
     game_volume := volume; queued_buffers := queued_buffers s;
     active_buffer := active_buffer s;
     released_buffers := released_buffers s;
     events := events s |}.

Definition GetState (s : t) : State := state s.

(** The loop of [GetTagsAndReleaseBuffers]; [budget] is
    [max_count - count]. *)
Fixpoint release_loop (budget : nat) (released : list Buffer) (tags : list Z)
    : list Z * list Buffer :=
  match budget, released with
  | S budget', front :: rest => release_loop budget' rest (tags ++ [GetTag front])
  | _, _ => (tags, released)
  end.

Definition GetTagsAndReleaseBuffers (s : t) (max_count : nat) : list Z * t :=
  let '(tags, released) := release_loop max_count (released_buffers s) [] in
  (tags, with_queues s (queued_buffers s) (active_buffer s) released).

(** Successive calls with the given limits; the results of all calls. *)
Fixpoint Drain (s : t) (limits : list nat) : list (list Z) * t :=
  match limits with
  | [] => ([], s)
  | n :: more =>
      let '(tags, s1) := GetTagsAndReleaseBuffers s n in
      let '(rest, s2) := Drain s1 more in
      (tags :: rest, s2)
  end.

(** A stream in state [st] that holds no buffer. *)
Definition empty (rate : Z) (f : Format) (st : State) : t :=
  {| sample_rate := rate; format := f; state := st;
     game_volume := F32.one; queued_buffers := []; active_buffer := None;
     released_buffers := []; events := [] |}.

End Stream.

(** ** Raw bytes and [std::memcpy] *)

Module Bytes.
Definition to_Z (b : byte) : Z := Z.of_N (Byte.to_N b).

Definition of_Z (z : Z) : byte :=
  match Byte.of_N (Z.to_N (wrap8 z)) with
  | Some b => b
  | None => x00
  end.

Definition zeros (n : Z) : list byte := repeat x00 (Z.to_nat n).

(** [len] bytes of [data] starting at [off].  A copy of no bytes reads
    nothing, wherever it starts; otherwise reading past the end of the
    vector is undefined (the source checks nothing). *)
Definition memcpy_from (data : list byte) (off len : Z) : Result (list byte) :=
  if len =? 0 then Ok []
  else if (0 <=? off) && (0 <=? len) && (off + len <=? size data) then
    Ok (firstn (Z.to_nat len) (skipn (Z.to_nat off) data))
  else Err UndefinedBehaviour.

(** [src] copied over [dst] at [off].  A copy of no bytes writes nothing,
    wherever it starts; otherwise writing past the end is undefined. *)
Definition memcpy_to (dst : list byte) (off : Z) (src : list byte)
    : Result (list byte) :=
  if size src =? 0 then Ok dst
  else if (0 <=? off) && (off + size src <=? size dst) then
    Ok (firstn (Z.to_nat off) dst ++ src
          ++ skipn (Z.to_nat off + length src) dst)
  else Err UndefinedBehaviour.

(** Little-endian fields of a struct image [c], at byte offset [off]. *)
Definition u8 (c : list byte) (off : nat) : Z := to_Z (nth off c x00).
Fixpoint le (width : nat) (c : list byte) (off : nat) : Z :=
  match width with
  | O => 0
  | S w => u8 c off + 256 * le w c (S off)
  end.
Definition u32 := le 4.
Definition u64 := le 8.
(** A two's-complement [s32_le] field. *)
Definition s32 (c : list byte) (off : nat) : Z :=
  let w := u32 c off in if w <? 2 ^ 31 then w else w - 2 ^ 32.
Definition f32 (c : list byte) (off : nat) : spec_float := F32.of_bits (u32 c off).

(** The image of an unsigned little-endian field. *)
Fixpoint put (width : nat) (z : Z) : list byte :=
  match width with
  | O => []
  | S w => of_Z z :: put w (z / 256)
  end.
End Bytes.

(** ** Wire structs (audio_renderer.h)

    One module per struct: the record [t], the value-initialised [zero], the
    fields a [memcpy] of [sizeof] bytes puts in it ([parse], offsets follow the
    declarations and their padding) and, for the structs that are copied out,
    the bytes they occupy ([image], padding members written as zero). *)

Module PlayState.
Definition Started : Z := 0.
Definition Stopped : Z := 1.
Definition Paused : Z := 2.
End PlayState.

Module Effect.
Definition None : Z := 0.
Definition Aux : Z := 2.
End Effect.

Module EffectStatus.
Definition None : Z := 0.
Definition New : Z := 1.
End EffectStatus.

Module MemoryPoolStates.
Definition Invalid : Z := 0.
Definition Unknown : Z := 1.
Definition RequestDetach : Z := 2.
Definition Detached : Z := 3.
Definition RequestAttach : Z := 4.
Definition Attached : Z := 5.
Definition Released : Z := 6.
End MemoryPoolStates.

Module AudioRendererParameter.
Record t : Type := {
  sample_rate : Z;
  sample_count : Z;
  mix_buffer_count : Z;
  submix_count : Z;
  voice_count : Z;
  sink_count : Z;
  effect_count : Z;
  performance_frame_count : Z;
  is_voice_drop_enabled : Z;
  execution_mode : Z;
  splitter_count : Z;
  num_splitter_send_channels : Z;
  revision : Z
}.
End AudioRendererParameter.

Module MemoryPoolEntry.
Record t : Type := { state : Z; unknown_4 : Z; unknown_8 : Z; unknown_c : Z }.
Definition sizeof : Z := 16. (* 0x10 *)
Definition zero : t :=
  {| state := MemoryPoolStates.Invalid; unknown_4 := 0; unknown_8 := 0;
     unknown_c := 0 |}.
Definition with_state (e : t) (s : Z) : t :=
  {| state := s; unknown_4 := unknown_4 e; unknown_8 := unknown_8 e;
     unknown_c := unknown_c e |}.
Definition image (e : t) : list byte :=
  Bytes.put 4 (state e) ++ Bytes.put 4 (unknown_4 e)
    ++ Bytes.put 4 (unknown_8 e) ++ Bytes.put 4 (unknown_c e).
End MemoryPoolEntry.

Module MemoryPoolInfo.
Record t : Type := { pool_address : Z; pool_size : Z; pool_state : Z }.
Definition sizeof : Z := 32. (* 0x20 *)
Definition parse (c : list byte) : t :=
  {| pool_address := Bytes.u64 c 0; pool_size := Bytes.u64 c 8;
     pool_state := Bytes.u32 c 16 |}.
End MemoryPoolInfo.

Module WaveBuffer.
Record t : Type := {
  buffer_addr : Z;
  buffer_sz : Z;
  start_sample_offset : Z;
  end_sample_offset : Z;
  is_looping : Z;
  end_of_stream : Z;
  sent_to_server : Z;
  context_addr : Z;
  context_sz : Z
}.
Definition sizeof : Z := 56. (* 0x38 *)
Definition zero : t :=
  {| buffer_addr := 0; buffer_sz := 0; start_sample_offset := 0;
     end_sample_offset := 0; is_looping := 0; end_of_stream := 0;
     sent_to_server := 0; context_addr := 0; context_sz := 0 |}.
(** The wave buffer at byte offset [o] of the image [c]. *)
Definition parse (c : list byte) (o : nat) : t :=
  {| buffer_addr := Bytes.u64 c o; buffer_sz := Bytes.u64 c (o + 8);
     start_sample_offset := Bytes.s32 c (o + 16);
     end_sample_offset := Bytes.s32 c (o + 20);
     is_looping := Bytes.u8 c (o + 24); end_of_stream := Bytes.u8 c (o + 25);
     sent_to_server := Bytes.u8 c (o + 26);
     context_addr := Bytes.u64 c (o + 32);
     context_sz := Bytes.u64 c (o + 40) |}%nat.
End WaveBuffer.

Module VoiceInfo.
Record t : Type := {
  id : Z;
  node_id : Z;
  is_new : Z;
  is_in_use : Z;
  play_state : Z;
  sample_format : Z;
  sample_rate : Z;
  priority : Z;
  sorting_order : Z;
  channel_count : Z;
  pitch : spec_float;
  volume : spec_float;
  wave_buffer_count : Z;
  wave_buffer_head : Z;
  additional_params_addr : Z;
  additional_params_sz : Z;
  mix_id : Z;
  splitter_info_id : Z;
  wave_buffer : list WaveBuffer.t    (* std::array<WaveBuffer, 4> *)
}.
Definition sizeof : Z := 368. (* 0x170 *)
Definition zero : t :=
  {| id := 0; node_id := 0; is_new := 0; is_in_use := 0; play_state := 0;
     sample_format := 0; sample_rate := 0; priority := 0; sorting_order := 0;
     channel_count := 0; pitch := S754_zero false; volume := S754_zero false;
     wave_buffer_count := 0; wave_buffer_head := 0;
     additional_params_addr := 0; additional_params_sz := 0; mix_id := 0;
     splitter_info_id := 0; wave_buffer := repeat WaveBuffer.zero 4 |}.
Definition parse (c : list byte) : t :=
  {| id := Bytes.u32 c 0; node_id := Bytes.u32 c 4; is_new := Bytes.u8 c 8;
     is_in_use := Bytes.u8 c 9; play_state := Bytes.u8 c 10;
     sample_format := Bytes.u8 c 11; sample_rate := Bytes.u32 c 12;
     priority := Bytes.u32 c 16; sorting_order := Bytes.u32 c 20;
     channel_count := Bytes.u32 c 24; pitch := Bytes.f32 c 28;
     volume := Bytes.f32 c 32; wave_buffer_count := Bytes.u32 c 60;
     wave_buffer_head := Bytes.u32 c 64;
     additional_params_addr := Bytes.u64 c 72;
     additional_params_sz := Bytes.u64 c 80; mix_id := Bytes.u32 c 88;
     splitter_info_id := Bytes.u32 c 92;
     wave_buffer :=
       map (fun k => WaveBuffer.parse c (96 + 56 * k)%nat) (seq 0 4) |}.
(** [info.play_state = s] *)
Definition with_play_state (i : t) (s : Z) : t :=
  {| id := id i; node_id := node_id i; is_new := is_new i;
     is_in_use := is_in_use i; play_state := s;
     sample_format := sample_format i; sample_rate := sample_rate i;
     priority := priority i; sorting_order := sorting_order i;
     channel_count := channel_count i; pitch := pitch i; volume := volume i;
     wave_buffer_count := wave_buffer_count i;
     wave_buffer_head := wave_buffer_head i;
     additional_params_addr := additional_params_addr i;
     additional_params_sz := additional_params_sz i; mix_id := mix_id i;
     splitter_info_id := splitter_info_id i; wave_buffer := wave_buffer i |}.
End VoiceInfo.

Module VoiceOutStatus.
Record t : Type := {
  played_sample_count : Z;
  wave_buffer_consumed : Z;
  voice_drops_count : Z
}.
Definition sizeof : Z := 16. (* 0x10 *)
Definition zero : t :=
  {| played_sample_count := 0; wave_buffer_consumed := 0;
     voice_drops_count := 0 |}.
Definition image (o : t) : list byte :=
  Bytes.put 8 (played_sample_count o) ++ Bytes.put 4 (wave_buffer_consumed o)
    ++ Bytes.put 4 (voice_drops_count o).
End VoiceOutStatus.

Module ChannelInfoIn.
Record t : Type := {
  id : Z;
  mix : list spec_float;             (* std::array<float_le, 24> *)
  is_used : Z
}.
Definition sizeof : Z := 112. (* 0x70 *)
Definition zero : t :=
  {| id := 0; mix := repeat (S754_zero false) 24; is_used := 0 |}.
Definition parse (c : list byte) : t :=
  {| id := Bytes.u32 c 0;
     mix := map (fun k => Bytes.f32 c (4 + 4 * k)%nat) (seq 0 24);
     is_used := Bytes.u8 c 100 |}.
End ChannelInfoIn.

Module AuxInfo.
Record t : Type := {
  send_buffer_info : Z;
  send_buffer_base : Z;
  return_buffer_info : Z;
  return_buffer_base : Z
}.
Definition zero : t :=
  {| send_buffer_info := 0; send_buffer_base := 0; return_buffer_info := 0;
     return_buffer_base := 0 |}.
End AuxInfo.

Module EffectInStatus.
Record t : Type := {
  type : Z;
  is_new : Z;
  is_enabled : Z;
  mix_id : Z;
  buffer_base : Z;
  buffer_sz : Z;
  priority : Z;
  aux_info : AuxInfo.t
}.
Definition sizeof : Z := 192. (* 0xc0 *)
Definition zero : t :=
  {| type := 0; is_new := 0; is_enabled := 0; mix_id := 0; buffer_base := 0;
     buffer_sz := 0; priority := 0; aux_info := AuxInfo.zero |}.
Definition parse (c : list byte) : t :=
  {| type := Bytes.u8 c 0; is_new := Bytes.u8 c 1; is_enabled := Bytes.u8 c 2;
     mix_id := Bytes.u32 c 4; buffer_base := Bytes.u64 c 8;
     buffer_sz := Bytes.u64 c 16; priority := Bytes.s32 c 24;
     aux_info :=
       {| AuxInfo.send_buffer_info := Bytes.u64 c 96;
          AuxInfo.send_buffer_base := Bytes.u64 c 104;
          AuxInfo.return_buffer_info := Bytes.u64 c 112;
          AuxInfo.return_buffer_base := Bytes.u64 c 120 |} |}.
End EffectInStatus.

Module EffectOutStatus.
Record t : Type := { state : Z }.
Definition sizeof : Z := 16. (* 0x10 *)
Definition zero : t := {| state := EffectStatus.None |}.
Definition image (o : t) : list byte := Bytes.put 1 (state o) ++ Bytes.zeros 15.
End EffectOutStatus.

Module UpdateDataHeader.
Record t : Type := {
  revision : Z;
  behavior_size : Z;
  memory_pools_size : Z;
  voices_size : Z;
  voice_resource_size : Z;
  effects_size : Z;
  mixes_size : Z;
  sinks_size : Z;
  performance_manager_size : Z;
  frame_count : Z;
  total_size : Z
}.
Definition sizeof : Z := 64. (* 0x40 *)
Definition parse (c : list byte) : t :=
  {| revision := Bytes.u32 c 0; behavior_size := Bytes.u32 c 4;
     memory_pools_size := Bytes.u32 c 8; voices_size := Bytes.u32 c 12;
     voice_resource_size := Bytes.u32 c 16; effects_size := Bytes.u32 c 20;
     mixes_size := Bytes.u32 c 24; sinks_size := Bytes.u32 c 28;
     performance_manager_size := Bytes.u32 c 32; frame_count := Bytes.u32 c 40;
     total_size := Bytes.u32 c 60 |}.
Definition image (h : t) : list byte :=
  Bytes.put 4 (revision h) ++ Bytes.put 4 (behavior_size h)
    ++ Bytes.put 4 (memory_pools_size h) ++ Bytes.put 4 (voices_size h)
    ++ Bytes.put 4 (voice_resource_size h) ++ Bytes.put 4 (effects_size h)
    ++ Bytes.put 4 (mixes_size h) ++ Bytes.put 4 (sinks_size h)
    ++ Bytes.put 4 (performance_manager_size h) ++ Bytes.zeros 4
    ++ Bytes.put 4 (frame_count h) ++ Bytes.zeros 16
    ++ Bytes.put 4 (total_size h).

(** [Common::MakeMagic('R', 'E', 'V', '4')] *)
Definition REV4 : Z := 82 + 69 * 2 ^ 8 + 86 * 2 ^ 16 + 52 * 2 ^ 24.

(** The constructor [UpdateDataHeader(const AudioRendererParameter&)].  The
    fields are [u32]; the sum for [total_size] is taken in [std::size_t]
    and stored in a [u32]. *)
Definition create (config : AudioRendererParameter.t) : t :=
  let voice_count := AudioRendererParameter.voice_count config in
  let effect_count := AudioRendererParameter.effect_count config in
  let sink_count := AudioRendererParameter.sink_count config in
  let behavior := 176 (* 0xb0 *) in
  let memory_pools := wrap32 (wrap32 (effect_count + wrap32 (voice_count * 4)) * 16) in
  let voices := wrap32 (voice_count * 16) in
  let effects := wrap32 (effect_count * 16) in
  let sinks := wrap32 (sink_count * 32) in
  let performance := 16 in
  {| revision := REV4; behavior_size := behavior;
     memory_pools_size := memory_pools; voices_size := voices;
     voice_resource_size := 0; effects_size := effects; mixes_size := 0;
     sinks_size := sinks; performance_manager_size := performance;
     frame_count := 0;
     total_size :=
       wrap32 (wrap64 (sizeof + behavior + memory_pools + voices + effects
                         + sinks + performance)) |}.

(** [response_data.frame_count = 0x10; response_data.total_size += 0x10;] *)
Definition bump (h : t) : t :=
  {| revision := revision h; behavior_size := behavior_size h;
     memory_pools_size := memory_pools_size h; voices_size := voices_size h;
     voice_resource_size := voice_resource_size h;
     effects_size := effects_size h; mixes_size := mixes_size h;
     sinks_size := sinks_size h;
     performance_manager_size := performance_manager_size h;
     frame_count := 16; total_size := wrap32 (total_size h + 16) |}.
End UpdateDataHeader.


Definition STREAM_SAMPLE_RATE : Z := 48000.
Definition STREAM_NUM_CHANNELS : Z := 2.

(** ** Per-voice playback state ([AudioRenderer::VoiceState]) *)

Module VoiceState.
Section WithPlatform.
Variable P : Platform.

Record t : Type := {
  is_in_use : bool;
  is_refresh_pending : bool;
  wave_index : Z;
  offset : Z;
  adpcm_state : ADPCMState P;
  interp_state : InterpolationState P;
  samples : list Z;
  out_status : VoiceOutStatus.t;
  info : VoiceInfo.t
}.

(** [VoiceState{}] *)
Definition create : t :=
  {| is_in_use := false; is_refresh_pending := false; wave_index := 0;
     offset := 0; adpcm_state := adpcm_init P; interp_state := interp_init P;
     samples := []; out_status := VoiceOutStatus.zero; info := VoiceInfo.zero |}.

Definition IsPlaying (v : t) : bool :=
  is_in_use v && (VoiceInfo.play_state (info v) =? PlayState.Started).

Definition GetOutStatus (v : t) : VoiceOutStatus.t := out_status v.
Definition GetInfo (v : t) : VoiceInfo.t := info v.

(** [memcpy(&voice.GetInfo(), ...)] *)
Definition SetInfo (v : t) (i : VoiceInfo.t) : t :=
  {| is_in_use := is_in_use v; is_refresh_pending := is_refresh_pending v;
     wave_index := wave_index v; offset := offset v;
     adpcm_state := adpcm_state v; interp_state := interp_state v;
     samples := samples v; out_status := out_status v; info := i |}.

Definition SetWaveIndex (v : t) (index : Z) : t :=
  {| is_in_use := is_in_use v; is_refresh_pending := true;
     wave_index := Z.land index 3; offset := offset v;
     adpcm_state := adpcm_state v; interp_state := interp_state v;
     samples := samples v; out_status := out_status v; info := info v |}.

Definition UpdateState (v : t) : t :=
  let in_use := negb (VoiceInfo.is_in_use (info v) =? 0) in
  if is_in_use v && negb in_use then
    {| is_in_use := in_use; is_refresh_pending := true; wave_index := 0;
       offset := 0; adpcm_state := adpcm_state v;
       interp_state := interp_state v; samples := samples v;
       out_status := VoiceOutStatus.zero; info := info v |}
  else
    {| is_in_use := in_use; is_refresh_pending := is_refresh_pending v;
       wave_index := wave_index v; offset := offset v;
       adpcm_state := adpcm_state v; interp_state := interp_state v;
       samples := samples v; out_status := out_status v; info := info v |}.

(** [info.wave_buffer[index]]; the array has four slots. *)
Definition wave_buffer_at (i : VoiceInfo.t) (index : Z) : Result WaveBuffer.t :=
  if (0 <=? index) && (index <? 4) then
    match nth_error (VoiceInfo.wave_buffer i) (Z.to_nat index) with
    | Some w => Ok w
    | None => Err UndefinedBehaviour
    end
  else Err UndefinedBehaviour.

(** 1 channel is upsampled to 2 channels. *)
Fixpoint duplicate (l : list Z) : list Z :=
  match l with
  | [] => []
  | x :: l' => x :: x :: duplicate l'
  end.

(** [std::vector<s16> x(n)] and [x.resize(n)]: the exception leaves the
    call when the platform cannot hold [n] samples. *)
Definition allocate (n : Z) : Result unit :=
  if n <=? max_samples P then Ok tt else Err OutOfMemory.

Definition RefreshBuffer (v : t) : Result t :=
  w <- wave_buffer_at (info v) (wave_index v) ;;
  let wave_buffer_size := WaveBuffer.buffer_sz w in
  (* std::vector<s16> new_samples(wave_buffer_size / sizeof(s16)); *)
  _ <- allocate (wave_buffer_size / 2) ;;
  (* ReadBlock writes wave_buffer_size bytes into new_samples: an odd size
     is one byte more than the vector holds *)
  raw <-
      (if Z.even wave_buffer_size then
         Ok (ReadBlock16 P (WaveBuffer.buffer_addr w) wave_buffer_size)
       else Err UndefinedBehaviour) ;;
  ' (new_samples, adpcm) <-
      (if VoiceInfo.sample_format (info v) =? PcmFormat_Int16 P then
         Ok (raw, adpcm_state v)
       else if VoiceInfo.sample_format (info v) =? PcmFormat_Adpcm P then
         Ok (DecodeADPCM P raw (VoiceInfo.additional_params_addr (info v))
               (adpcm_state v))
       else Err Unimplemented) ;;
  stereo <-
      (if VoiceInfo.channel_count (info v) =? 1 then
         (* samples.resize(new_samples.size() * 2); *)
         _ <- allocate (size new_samples * 2) ;;
         Ok (duplicate new_samples)
       else if VoiceInfo.channel_count (info v) =? 2 then Ok new_samples
       else Err Unimplemented) ;;
  let '(resampled, interp) :=
      if negb (VoiceInfo.sample_rate (info v) =? STREAM_SAMPLE_RATE) then
        Interpolate P (interp_state v) stereo (VoiceInfo.sample_rate (info v))
          STREAM_SAMPLE_RATE
      else (stereo, interp_state v) in
  Ok {| is_in_use := is_in_use v; is_refresh_pending := false;
        wave_index := wave_index v; offset := offset v;
        adpcm_state := adpcm; interp_state := interp; samples := resampled;
        out_status := out_status v; info := info v |}.

(** The end-of-buffer block of [DequeueSamples], entered when the advanced
    offset equals [samples.size()].  [w] is the wave buffer bound before
    [SetWaveIndex] runs; [played] is the played count already advanced. *)
Definition buffer_finished (v : t) (w : WaveBuffer.t) (played : Z) : t :=
  let looping := negb (WaveBuffer.is_looping w =? 0) in
  let has_size := negb (WaveBuffer.buffer_sz w =? 0) in
  let advance := negb looping && has_size in
  let pause := negb (WaveBuffer.end_of_stream w =? 0) || negb has_size in
  {| is_in_use := is_in_use v;
     is_refresh_pending := if advance then true else is_refresh_pending v;
     wave_index :=
       if advance then Z.land (wrap64 (wave_index v + 1)) 3 else wave_index v;
     offset := 0;
     adpcm_state := adpcm_state v; interp_state := interp_state v;
     samples := samples v;
     out_status :=
       {| VoiceOutStatus.played_sample_count := played;
          VoiceOutStatus.wave_buffer_consumed :=
            if has_size then
              wrap32 (VoiceOutStatus.wave_buffer_consumed (out_status v) + 1)
            else VoiceOutStatus.wave_buffer_consumed (out_status v);
          VoiceOutStatus.voice_drops_count :=
            VoiceOutStatus.voice_drops_count (out_status v) |};
     info :=
       if pause then VoiceInfo.with_play_state (info v) PlayState.Paused
       else info v |}.

(** The other branch: only the cursor and the played count move. *)
Definition buffer_continues (v : t) (new_offset played : Z) : t :=
  {| is_in_use := is_in_use v; is_refresh_pending := is_refresh_pending v;
     wave_index := wave_index v; offset := new_offset;
     adpcm_state := adpcm_state v; interp_state := interp_state v;
     samples := samples v;
     out_status :=
       {| VoiceOutStatus.played_sample_count := played;
          VoiceOutStatus.wave_buffer_consumed :=
            VoiceOutStatus.wave_buffer_consumed (out_status v);
          VoiceOutStatus.voice_drops_count :=
            VoiceOutStatus.voice_drops_count (out_status v) |};
     info := info v |}.

(** The state in which the cursor arithmetic of [DequeueSamples] runs: after
    the pending refresh, if any. *)
Definition refreshed (v : t) : Result t :=
  if is_refresh_pending v then RefreshBuffer v else Ok v.

(** [size] as clipped by [DequeueSamples]. *)
Definition dequeue_size (v : t) (sample_count : Z) : Z :=
  let max_size := wrap64 (size (samples v) - offset v) in
  let sz := wrap64 (sample_count * STREAM_NUM_CHANNELS) in
  if sz >? max_size then max_size else sz.

Definition DequeueSamples (v : t) (sample_count : Z) : Result (list Z * t) :=
  if negb (IsPlaying v) then Ok ([], v)
  else
    v1 <- refreshed v ;;
    let dequeue_offset := offset v1 in
    let sz := dequeue_size v1 sample_count in
    let played :=
      wrap64 (VoiceOutStatus.played_sample_count (out_status v1)
              + sz / STREAM_NUM_CHANNELS) in
    let new_offset := wrap64 (offset v1 + sz) in
    w <- wave_buffer_at (info v1) (wave_index v1) ;;
    let v2 :=
      if new_offset =? size (samples v1) then buffer_finished v1 w played
      else buffer_continues v1 new_offset played in
    if dequeue_offset + sz <=? size (samples v1) then
      Ok (firstn (Z.to_nat sz) (skipn (Z.to_nat dequeue_offset) (samples v1)), v2)
    else Err UndefinedBehaviour.

End WithPlatform.
End VoiceState.

(** ** Effects and mix channels *)

Module EffectState.
Section WithPlatform.
Variable P : Platform.

Record t : Type := { out_status : EffectOutStatus.t; info : EffectInStatus.t }.

Definition create : t :=
  {| out_status := EffectOutStatus.zero; info := EffectInStatus.zero |}.

Definition GetOutStatus (e : t) : EffectOutStatus.t := out_status e.

Definition SetInfo (e : t) (i : EffectInStatus.t) : t :=
  {| out_status := out_status e; info := i |}.

(** [ASSERT_MSG(memory.Read32(addr) == 0, ...)] *)
Definition assert_zero (addr : Z) : Result unit :=
  if Read32 P addr =? 0 then Ok tt else Err AssertionFailed.

Definition UpdateState (e : t) : Result t :=
  if negb (EffectInStatus.is_new (info e) =? 0) then
    Ok {| out_status := {| EffectOutStatus.state := EffectStatus.New |};
          info := info e |}
  else if EffectInStatus.type (info e) =? Effect.Aux then
    let aux := EffectInStatus.aux_info (info e) in
    _ <- assert_zero (AuxInfo.return_buffer_info aux) ;;
    _ <- assert_zero (AuxInfo.send_buffer_info aux) ;;
    _ <- assert_zero (AuxInfo.return_buffer_base aux) ;;
    _ <- assert_zero (AuxInfo.send_buffer_base aux) ;;
    Ok e
  else Ok e.

End WithPlatform.
End EffectState.

Module ChannelState.
Record t : Type := { info : ChannelInfoIn.t }.
Definition create : t := {| info := ChannelInfoIn.zero |}.
Definition GetInfo (c : t) : ChannelInfoIn.t := info c.
End ChannelState.

(** ** [AudioOut] (audio_out.cpp) *)

Module AudioOut.
Section WithPlatform.
Variable P : Platform.

(** Modelled from the spec: audio_out.cpp is not among the sources.  The
    renderer "queues the completed frame to the Output Stream tagged with a
    caller-supplied identifier"; the flag of [Stream::QueueBuffer] is what the
    call returns, and a frame the stream does not take is gone with the
    temporary that held it. *)
Definition QueueBuffer (s : Stream.t) (tag : Z) (data : list Z) : bool * Stream.t :=
  let q := Stream.QueueBuffer P s {| Stream.GetTag := tag; Stream.GetSamples := data |} in
  (Stream.accepted q, Stream.stream_after q).

(** Modelled from the spec: audio_out.cpp is not among the sources.
    "[GetTagsAndReleaseBuffers(maxCount)] drains up to [maxCount] tags from
    the released queue in FIFO order - used by the Renderer": the call is
    handed to the stream. *)
Definition GetTagsAndReleaseBuffers (s : Stream.t) (max_count : nat)
    : list Z * Stream.t :=
  Stream.GetTagsAndReleaseBuffers s max_count.

(** Modelled from the spec: audio_out.cpp is not among the sources.
    Starting a stream is [Play()]. *)
Definition StartStream (s : Stream.t) : Stream.t := Stream.Play P s.

End WithPlatform.
End AudioOut.

(** ** The renderer ([AudioRenderer]) *)

Definition ClampToS16 (value : Z) : Z := Z.max (-32768) (Z.min value 32767).

(** [((rev >> 24) & 0xff) - 0x30] in [u32]. *)
Definition VersionFromRevision (rev : Z) : Z :=
  wrap32 (Z.land (Z.shiftr rev 24) 255 - 48).

Module AudioRenderer.
Section WithPlatform.
Variable P : Platform.

Record t : Type := {
  worker_params : AudioRendererParameter.t;
  channels : list ChannelState.t;
  voices : list (VoiceState.t P);
  effects : list (EffectState.t);
  stream : Stream.t
}.

Definition with_voices (r : t) (vs : list (VoiceState.t P)) : t :=
  {| worker_params := worker_params r; channels := channels r; voices := vs;
     effects := effects r; stream := stream r |}.

Definition with_stream (r : t) (s : Stream.t) : t :=
  {| worker_params := worker_params r; channels := channels r;
     voices := voices r; effects := effects r; stream := s |}.

Definition BUFFER_SIZE : Z := 512.

(** [buffer[offset]] of a vector. *)
Definition at_index {A} (l : list A) (i : Z) : Result A :=
  if 0 <=? i then
    match nth_error l (Z.to_nat i) with
    | Some a => Ok a
    | None => Err UndefinedBehaviour
    end
  else Err UndefinedBehaviour.

(** [buffer[offset] = x] *)
Definition set_index {A} (l : list A) (i : Z) (x : A) : Result (list A) :=
  if (0 <=? i) && (i <? size l) then
    Ok (firstn (Z.to_nat i) l ++ x :: skipn (S (Z.to_nat i)) l)
  else Err UndefinedBehaviour.

(** [static_cast<s32>(sample * volume * submix)] *)
Definition scale_sample (sample : Z) (volume submix : spec_float) : Result Z :=
  F32.to_s32 (F32.mul (F32.mul (F32.of_int sample) volume) submix).

(** One step of the innermost loop of [QueueMixedBuffer]: the new value of
    [buffer[offset]].  The sum is an [s32]. *)
Definition mix_sample (buffer_sample sample : Z) (volume submix : spec_float)
    : Result Z :=
  scaled <- scale_sample sample volume submix ;;
  let sum := buffer_sample + scaled in
  if (-2147483648 <=? sum) && (sum <=? 2147483647) then Ok (ClampToS16 sum)
  else Err UndefinedBehaviour.

(** [for (const auto& sample : samples) { ... buffer[offset++] = ... }] *)
Fixpoint mix_samples (buffer : list Z) (offset : Z) (samples : list Z)
    (volume : spec_float) (mix : list spec_float) : Result (list Z * Z) :=
  match samples with
  | [] => Ok (buffer, offset)
  | sample :: more =>
      buffer_sample <- at_index buffer offset ;;
      submix <- at_index mix (offset mod 2) ;;
      mixed <- mix_sample buffer_sample sample volume submix ;;
      buffer' <- set_index buffer offset mixed ;;
      mix_samples buffer' (offset + 1) more volume mix
  end.

(** [while (samples_remaining > 0) { ... }] for one voice.  Every round that
    does not leave the loop moves [offset] forward inside [buffer], which
    bounds the number of rounds; [fuel] is that bound. *)
Fixpoint mix_voice (fuel : nat) (num_channels : Z) (chans : list ChannelState.t)
    (v : VoiceState.t P) (buffer : list Z) (offset samples_remaining : Z)
    : Result (VoiceState.t P * list Z) :=
  match fuel with
  | O => Err OutOfFuel
  | S fuel' =>
      if samples_remaining >? 0 then
        ' (samples, v') <- VoiceState.DequeueSamples P v samples_remaining ;;
        match samples with
        | [] => Ok (v', buffer)
        | _ :: _ =>
            let remaining := samples_remaining - size samples / num_channels in
            channel <- at_index chans (VoiceInfo.id (VoiceState.GetInfo P v')) ;;
            ' (buffer', offset') <-
                mix_samples buffer offset samples
                  (VoiceInfo.volume (VoiceState.GetInfo P v'))
                  (ChannelInfoIn.mix (ChannelState.GetInfo channel)) ;;
            mix_voice fuel' num_channels chans v' buffer' offset' remaining
        end
      else Ok (v, buffer)
  end.

(** [for (auto& voice : voices) { ... }] of [QueueMixedBuffer]. *)
Fixpoint mix_voices (num_channels : Z) (chans : list ChannelState.t)
    (vs : list (VoiceState.t P)) (buffer : list Z)
    : Result (list (VoiceState.t P) * list Z) :=
  match vs with
  | [] => Ok ([], buffer)
  | v :: more =>
      ' (v', buffer') <-
          (if negb (VoiceState.IsPlaying P v) then Ok (v, buffer)
           else mix_voice (S (length buffer)) num_channels chans v buffer 0
                  BUFFER_SIZE) ;;
      ' (more', buffer'') <- mix_voices num_channels chans more buffer' ;;
      Ok (v' :: more', buffer'')
  end.

(** The frame [QueueMixedBuffer] hands to the stream, with the voices as
    mixing leaves them. *)
Definition MixFrame (r : t) : Result (list (VoiceState.t P) * list Z) :=
  let num_channels := Stream.GetNumChannels (stream r) in
  mix_voices num_channels (channels r) (voices r)
    (repeat 0 (Z.to_nat (BUFFER_SIZE * num_channels))).

Definition QueueMixedBuffer (r : t) (tag : Z) : Result t :=
  ' (vs, buffer) <- MixFrame r ;;
  let '(_, s) := AudioOut.QueueBuffer P (stream r) tag buffer in
  Ok (with_stream (with_voices r vs) s).

(** [for (const auto& tag : released_buffers) QueueMixedBuffer(tag);] *)
Fixpoint QueueMixedBuffers (r : t) (tags : list Z) : Result t :=
  match tags with
  | [] => Ok r
  | tag :: more => r' <- QueueMixedBuffer r tag ;; QueueMixedBuffers r' more
  end.

Definition ReleaseAndQueueBuffers (r : t) : Result t :=
  let '(released_buffers, s) :=
    AudioOut.GetTagsAndReleaseBuffers (stream r) 2 in
  QueueMixedBuffers (with_stream r s) released_buffers.

(** [for (auto& x : xs) { memcpy(&x.GetInfo(), input + offset, sizeof(T));
    offset += sizeof(T); }]: the updated elements and the final offset. *)
Fixpoint copy_infos {A} (set : A -> list byte -> A) (sizeof : Z)
    (input : list byte) (offset : Z) (xs : list A) : Result (list A * Z) :=
  match xs with
  | [] => Ok ([], offset)
  | x :: more =>
      c <- Bytes.memcpy_from input offset sizeof ;;
      ' (more', last) <- copy_infos set sizeof input (offset + sizeof) more ;;
      Ok (set x c :: more', last)
  end.

(** [v.resize(n)] *)
Definition resize {A} (l : list A) (n : Z) (fresh : A) : list A :=
  firstn (Z.to_nat n) l ++ repeat fresh (Z.to_nat n - length l).

(** The body of the "Update memory pool state" loop for one index. *)
Definition update_memory_pool (i : MemoryPoolInfo.t) (e : MemoryPoolEntry.t)
    : MemoryPoolEntry.t :=
  if MemoryPoolInfo.pool_state i =? MemoryPoolStates.RequestAttach then
    MemoryPoolEntry.with_state e MemoryPoolStates.Attached
  else if MemoryPoolInfo.pool_state i =? MemoryPoolStates.RequestDetach then
    MemoryPoolEntry.with_state e MemoryPoolStates.Detached
  else e.

(** The vector [memory_pool] once that loop is done: it is built at this
    point of every call, one value-initialised entry per slot. *)
Definition memory_pool_of (mem_pool_info : list MemoryPoolInfo.t)
    : list MemoryPoolEntry.t :=
  map (fun ie => update_memory_pool (fst ie) (snd ie))
    (combine mem_pool_info (repeat MemoryPoolEntry.zero (length mem_pool_info))).

(** The body of the "Update voices" loop. *)
Definition update_voice (v : VoiceState.t P) : VoiceState.t P :=
  let v1 := VoiceState.UpdateState P v in
  if VoiceInfo.is_in_use (VoiceState.GetInfo P v1) =? 0 then v1
  else if negb (VoiceInfo.is_new (VoiceState.GetInfo P v1) =? 0) then
    VoiceState.SetWaveIndex P v1 (VoiceInfo.wave_buffer_head (VoiceState.GetInfo P v1))
  else v1.

Fixpoint update_effects (es : list EffectState.t) : Result (list EffectState.t) :=
  match es with
  | [] => Ok []
  | e :: more =>
      e' <- EffectState.UpdateState P e ;;
      more' <- update_effects more ;;
      Ok (e' :: more')
  end.

(** [for (const auto& x : xs) { memcpy(output + offset, &x.GetOutStatus(),
    sizeof(T)); offset += sizeof(T); }] *)
Fixpoint copy_out {A} (image : A -> list byte) (sizeof : Z)
    (output : list byte) (offset : Z) (xs : list A) : Result (list byte) :=
  match xs with
  | [] => Ok output
  | x :: more =>
      output' <- Bytes.memcpy_to output offset (image x) ;;
      copy_out image sizeof output' (offset + sizeof) more
  end.

(** The response header as it stands when it is copied into the output. *)
Definition response_header (params : AudioRendererParameter.t) (config : UpdateDataHeader.t)
    : UpdateDataHeader.t :=
  let response_data := UpdateDataHeader.create params in
  if 5 <=? VersionFromRevision (UpdateDataHeader.revision config) then
    UpdateDataHeader.bump response_data
  else response_data.

(** The memory-pool requests read from an update blob. *)
Definition read_mem_pool_info (params : AudioRendererParameter.t)
    (input_params : list byte) : Result (list MemoryPoolInfo.t) :=
  header <- Bytes.memcpy_from input_params 0 UpdateDataHeader.sizeof ;;
  let config := UpdateDataHeader.parse header in
  let memory_pool_count :=
    wrap32 (AudioRendererParameter.effect_count params
            + wrap32 (AudioRendererParameter.voice_count params * 4)) in
  pools <- Bytes.memcpy_from input_params
             (UpdateDataHeader.sizeof + UpdateDataHeader.behavior_size config)
             (memory_pool_count * MemoryPoolInfo.sizeof) ;;
  Ok (map (fun k => MemoryPoolInfo.parse (skipn (k * 32) pools))
        (seq 0 (Z.to_nat memory_pool_count))).

Definition UpdateAudioRenderer (r : t) (input_params : list byte)
    : Result (list byte * t) :=
  (* Copy UpdateDataHeader struct *)
  header <- Bytes.memcpy_from input_params 0 UpdateDataHeader.sizeof ;;
  let config := UpdateDataHeader.parse header in
  (* Copy MemoryPoolInfo structs *)
  mem_pool_info <- read_mem_pool_info (worker_params r) input_params ;;
  (* Copy VoiceInfo structs *)
  let voice_offset :=
    UpdateDataHeader.sizeof + UpdateDataHeader.behavior_size config
    + UpdateDataHeader.memory_pools_size config
    + UpdateDataHeader.voice_resource_size config in
  ' (voices1, voice_end) <-
      copy_infos (fun v c => VoiceState.SetInfo P v (VoiceInfo.parse c))
        VoiceInfo.sizeof input_params voice_offset (voices r) ;;
  let channel_offset :=
    UpdateDataHeader.sizeof + UpdateDataHeader.behavior_size config
    + UpdateDataHeader.memory_pools_size config in
  ' (channels1, _) <-
      copy_infos (fun (_ : ChannelState.t) c =>
                    {| ChannelState.info := ChannelInfoIn.parse c |})
        ChannelInfoIn.sizeof input_params channel_offset
        (resize (channels r)
           (wrap64 (voice_end - channel_offset) / ChannelInfoIn.sizeof)
           ChannelState.create) ;;
  let effect_offset :=
    UpdateDataHeader.sizeof + UpdateDataHeader.behavior_size config
    + UpdateDataHeader.memory_pools_size config
    + UpdateDataHeader.voice_resource_size config
    + UpdateDataHeader.voices_size config in
  ' (effects1, _) <-
      copy_infos (fun e c => EffectState.SetInfo e (EffectInStatus.parse c))
        EffectInStatus.sizeof input_params effect_offset (effects r) ;;
  (* Update memory pool state *)
  let memory_pool := memory_pool_of mem_pool_info in
  (* Update voices *)
  let voices2 := map update_voice voices1 in
  effects2 <- update_effects effects1 ;;
  (* Release previous buffers and queue next ones for playback *)
  r3 <- ReleaseAndQueueBuffers
          {| worker_params := worker_params r; channels := channels1;
             voices := voices2; effects := effects2; stream := stream r |} ;;
  (* Copy output header *)
  let response_data := UpdateDataHeader.create (worker_params r) in
  let output_params := Bytes.zeros (UpdateDataHeader.total_size response_data) in
  let response_data := response_header (worker_params r) config in
  out1 <- Bytes.memcpy_to output_params 0 (UpdateDataHeader.image response_data) ;;
  (* Copy output memory pool entries *)
  pool_bytes <- Bytes.memcpy_from (concat (map MemoryPoolEntry.image memory_pool)) 0
                  (UpdateDataHeader.memory_pools_size response_data) ;;
  out2 <- Bytes.memcpy_to out1 UpdateDataHeader.sizeof pool_bytes ;;
  (* Copy output voice status *)
  out3 <- copy_out (fun v => VoiceOutStatus.image (VoiceState.GetOutStatus P v))
            VoiceOutStatus.sizeof out2
            (UpdateDataHeader.sizeof + UpdateDataHeader.memory_pools_size response_data)
            (voices r3) ;;
  out4 <- copy_out (fun e => EffectOutStatus.image (EffectState.GetOutStatus e))
            EffectOutStatus.sizeof out3
            (UpdateDataHeader.sizeof + UpdateDataHeader.memory_pools_size response_data
             + UpdateDataHeader.voices_size response_data
             + UpdateDataHeader.voice_resource_size response_data)
            (effects r3) ;;
  Ok (out4, r3).

(** The constructor: [voice_count] voices, [effect_count] effects, a started
    stereo stream, and three frames queued. *)
Definition create (params : AudioRendererParameter.t) : Result t :=
  let r0 :=
    {| worker_params := params; channels := [];
       voices := repeat (VoiceState.create P)
                   (Z.to_nat (AudioRendererParameter.voice_count params));
       effects := repeat EffectState.create
                    (Z.to_nat (AudioRendererParameter.effect_count params));
       stream := AudioOut.StartStream P
                   (Stream.empty STREAM_SAMPLE_RATE Stream.Stereo16 Stream.Stopped) |} in
  r1 <- QueueMixedBuffer r0 0 ;;
  r2 <- QueueMixedBuffer r1 1 ;;
  QueueMixedBuffer r2 2.

End WithPlatform.
End AudioRenderer.

(** ** Concrete collaborators and inputs

    Used to run the definitions above on explicit values. *)

Module Example.

(** Guest memory in which every 16-bit sample is [level] and every 32-bit
    word is zero; vectors of up to 2^62 - 1 samples; no resampling, no
    ADPCM, master volume at 1.0. *)
Definition platform (level : Z) : Platform :=
  {| ADPCMState := unit; adpcm_init := tt;
     InterpolationState := unit; interp_init := tt;
     max_samples := 2 ^ 62 - 1;
     ReadBlock16 := fun _ sz => repeat level (Z.to_nat (sz / 2));
     Read32 := fun _ => 0;
     DecodeADPCM := fun raw _ st => (raw, st);
     Interpolate := fun st input _ _ => (input, st);
     VolumeAdjustSamples := fun s _ => s;
     PcmFormat_Int16 := 2; PcmFormat_Adpcm := 6 |}.

Definition silent : Platform := platform 0.
Definition loud : Platform := platform 20000.

(** [n] frames of two samples, tagged [first], [first + 1], ... *)
Definition frames (first : Z) (n : nat) : list Stream.Buffer :=
  map (fun k => {| Stream.GetTag := first + Z.of_nat k;
                   Stream.GetSamples := [0; 0] |}) (seq 0 n).

Definition playing_stream : Stream.t :=
  Stream.empty STREAM_SAMPLE_RATE Stream.Stereo16 Stream.Playing.

Definition stopped_stream : Stream.t :=
  Stream.empty STREAM_SAMPLE_RATE Stream.Stereo16 Stream.Stopped.

(** A stream with three buffers released and not yet collected. *)
Definition released_stream : Stream.t :=
  Stream.with_queues playing_stream [] None (frames 7 3).

(** One wave buffer of [sz] bytes. *)
Definition wave (sz looping eos : Z) : WaveBuffer.t :=
  {| WaveBuffer.buffer_addr := 4096; WaveBuffer.buffer_sz := sz;
     WaveBuffer.start_sample_offset := 0; WaveBuffer.end_sample_offset := 0;
     WaveBuffer.is_looping := looping; WaveBuffer.end_of_stream := eos;
     WaveBuffer.sent_to_server := 0; WaveBuffer.context_addr := 0;
     WaveBuffer.context_sz := 0 |}.

(** What the guest sends for a stereo PCM16 voice at 48 kHz, volume 1.0,
    with the given flags and the same wave buffer in its four slots. *)
Definition voice_info (id is_new is_in_use head : Z) (w : WaveBuffer.t)
    : VoiceInfo.t :=
  {| VoiceInfo.id := id; VoiceInfo.node_id := 0; VoiceInfo.is_new := is_new;
     VoiceInfo.is_in_use := is_in_use;
     VoiceInfo.play_state := PlayState.Started;
     VoiceInfo.sample_format := 2; VoiceInfo.sample_rate := 48000;
     VoiceInfo.priority := 0; VoiceInfo.sorting_order := 0;
     VoiceInfo.channel_count := 2; VoiceInfo.pitch := F32.one;
     VoiceInfo.volume := F32.one; VoiceInfo.wave_buffer_count := 1;
     VoiceInfo.wave_buffer_head := head;
     VoiceInfo.additional_params_addr := 0;
     VoiceInfo.additional_params_sz := 0; VoiceInfo.mix_id := 0;
     VoiceInfo.splitter_info_id := 0; VoiceInfo.wave_buffer := repeat w 4 |}.

(** A voice slot that has just received [i] and has not been updated yet. *)
Definition fresh_voice (P : Platform) (i : VoiceInfo.t) : VoiceState.t P :=
  VoiceState.SetInfo P (VoiceState.create P) i.

(** A voice that is playing [i], with a refresh pending. *)
Definition started_voice (P : Platform) (i : VoiceInfo.t) : VoiceState.t P :=
  AudioRenderer.update_voice P (fresh_voice P i).

(** A mix channel with gain 1.0 in every entry. *)
Definition unit_channel : ChannelState.t :=
  {| ChannelState.info :=
       {| ChannelInfoIn.id := 0; ChannelInfoIn.mix := repeat F32.one 24;
          ChannelInfoIn.is_used := 1 |} |}.

Definition params (voice_count effect_count : Z) : AudioRendererParameter.t :=
  {| AudioRendererParameter.sample_rate := 48000;
     AudioRendererParameter.sample_count := 240;
     AudioRendererParameter.mix_buffer_count := 2;
     AudioRendererParameter.submix_count := 0;
     AudioRendererParameter.voice_count := voice_count;
     AudioRendererParameter.sink_count := 1;
     AudioRendererParameter.effect_count := effect_count;
     AudioRendererParameter.performance_frame_count := 0;
     AudioRendererParameter.is_voice_drop_enabled := 0;
     AudioRendererParameter.execution_mode := 0;
     AudioRendererParameter.splitter_count := 0;
     AudioRendererParameter.num_splitter_send_channels := 0;
     AudioRendererParameter.revision := UpdateDataHeader.REV4 |}.

(** A renderer with two playing voices of 4 samples per channel at +20000,
    both sent to channel 0 with unit gain, and two released frames. *)
Definition two_loud_voices : AudioRenderer.t loud :=
  {| AudioRenderer.worker_params := params 2 0;
     AudioRenderer.channels := [unit_channel];
     AudioRenderer.voices :=
       [started_voice loud (voice_info 0 1 1 0 (wave 16 0 1));
        started_voice loud (voice_info 0 1 1 0 (wave 16 0 1))];
     AudioRenderer.effects := [];
     AudioRenderer.stream :=
       Stream.with_queues playing_stream [] None (frames 7 5) |}.

(** The same renderer with the first voice only. *)
Definition one_loud_voice : AudioRenderer.t loud :=
  AudioRenderer.with_voices loud two_loud_voices
    (firstn 1 (AudioRenderer.voices loud two_loud_voices)).

(** The frame a renderer mixes, when mixing succeeds. *)
Definition frame_of {P : Platform} (r : AudioRenderer.t P) : list Z :=
  match AudioRenderer.MixFrame P r with
  | Ok (_, frame) => frame
  | Err _ => []
  end.

(** The image of a [MemoryPoolInfo] that carries [pool_state]. *)
Definition pool_info_bytes (pool_state : Z) : list byte :=
  Bytes.zeros 16 ++ Bytes.put 4 pool_state ++ Bytes.zeros 12.

(** The image of a [VoiceInfo] with the given flags; everything else zero. *)
Definition voice_info_bytes (is_new is_in_use head : Z) : list byte :=
  Bytes.zeros 8 ++ [Bytes.of_Z is_new; Bytes.of_Z is_in_use] ++ Bytes.zeros 54
    ++ Bytes.put 4 head ++ Bytes.zeros 300.

(** ['R' 'E' 'V' digit] *)
Definition REV (digit : Z) : Z := 82 + 69 * 2 ^ 8 + 86 * 2 ^ 16 + digit * 2 ^ 24.

(** An update blob for a renderer with one voice and no effect: header,
    behaviour section, four memory pools, one voice. *)
Definition update_blob (revision : Z) (pool_states : list Z)
    (is_new is_in_use head : Z) : list byte :=
  UpdateDataHeader.image
    {| UpdateDataHeader.revision := revision;
       UpdateDataHeader.behavior_size := 176;
       UpdateDataHeader.memory_pools_size := 128;
       UpdateDataHeader.voices_size := 368;
       UpdateDataHeader.voice_resource_size := 0;
       UpdateDataHeader.effects_size := 0;
       UpdateDataHeader.mixes_size := 0;
       UpdateDataHeader.sinks_size := 0;
       UpdateDataHeader.performance_manager_size := 0;
       UpdateDataHeader.frame_count := 0;
       UpdateDataHeader.total_size := 736 |}
    ++ Bytes.zeros 176
    ++ concat (map pool_info_bytes pool_states)
    ++ voice_info_bytes is_new is_in_use head.

(** One update on a new renderer with one voice and no effect. *)
Definition one_update (P : Platform) (blob : list byte)
    : Result (list byte * AudioRenderer.t P) :=
  r0 <- AudioRenderer.create P (params 1 0) ;;
  AudioRenderer.UpdateAudioRenderer P r0 blob.

(** Two updates in a row on a new renderer; the result of the second. *)
Definition two_updates (P : Platform) (first second : list byte)
    : Result (list byte * AudioRenderer.t P) :=
  r0 <- AudioRenderer.create P (params 1 0) ;;
  ' (_, r1) <- AudioRenderer.UpdateAudioRenderer P r0 first ;;
  AudioRenderer.UpdateAudioRenderer P r1 second.

(** A voice in the middle of its third wave buffer whose guest has just
    cleared [is_in_use]. *)
Definition abandoned_voice (P : Platform) : VoiceState.t P :=
  {| VoiceState.is_in_use := true; VoiceState.is_refresh_pending := false;
     VoiceState.wave_index := 2; VoiceState.offset := 4;
     VoiceState.adpcm_state := adpcm_init P;
     VoiceState.interp_state := interp_init P;
     VoiceState.samples := repeat 0 8;
     VoiceState.out_status :=
       {| VoiceOutStatus.played_sample_count := 10;
          VoiceOutStatus.wave_buffer_consumed := 2;
          VoiceOutStatus.voice_drops_count := 0 |};
     VoiceState.info := voice_info 0 0 0 0 (wave 16 0 0) |}.

(** One non-looping wave buffer of 4 stereo samples, marked end of stream. *)
Definition last_buffer_voice : VoiceState.t loud :=
  started_voice loud (voice_info 0 1 1 0 (wave 16 0 1)).

(** The guest marks the slot in use, not new, and declares head index 2. *)
Definition reused_voice : VoiceState.t silent :=
  fresh_voice silent (voice_info 0 0 1 2 (wave 16 0 0)).

(** The guest marks the slot in use and new, and declares head index 6. *)
Definition new_voice : VoiceState.t silent :=
  fresh_voice silent (voice_info 0 1 1 6 (wave 16 0 0)).

(** The voices of a renderer after a call that succeeded. *)
Definition voices_after {P : Platform}
    (r : Result (list byte * AudioRenderer.t P)) : list (VoiceState.t P) :=
  match r with
  | Ok (_, r') => AudioRenderer.voices P r'
  | Err _ => []
  end.

(** The response bytes of a call that succeeded. *)
Definition output_of {P : Platform}
    (r : Result (list byte * AudioRenderer.t P)) : list byte :=
  match r with
  | Ok (out, _) => out
  | Err _ => []
  end.

End Example.

(** ** Notions used in the statements *)

Module StreamView.

(** A playing stream with no active buffer: the next buffer queued starts
    playing at once and leaves the queue. *)
Definition idle (s : Stream.t) : bool :=
  Stream.IsPlaying s
  && match Stream.active_buffer s with Some _ => false | None => true end.

(** The number of buffers a stream with an empty queue takes before
    [QueueBuffer] refuses one, when nothing is released in between. *)
Definition capacity (s : Stream.t) : nat := if idle s then 33%nat else 32%nat.

(** The tags of the buffers handed to the stream and not yet released: the
    active one, then the queued ones. *)
Definition pending_tags (s : Stream.t) : list Z :=
  map Stream.GetTag
    (match Stream.active_buffer s with Some b => [b] | None => [] end
     ++ Stream.queued_buffers s).

End StreamView.

Module VoiceView.
Section WithPlatform.
Variable P : Platform.

(** The wave index addresses one of the four wave-buffer slots. *)
Definition in_ring (v : VoiceState.t P) : Prop :=
  0 <= VoiceState.wave_index P v < 4.

(** The voice holds a full ring, as every parsed [VoiceInfo] does. *)
Definition full_ring (v : VoiceState.t P) : Prop :=
  length (VoiceInfo.wave_buffer (VoiceState.info P v)) = 4%nat.

End WithPlatform.
End VoiceView.

(** A result that is not the model's own loop bound: either a value, or a
    fault the program itself can raise. *)
Definition fuel_free {A} (r : Result A) : Prop := r <> Err OutOfFuel.

(** Reading a response as the guest does. *)
Module Response.

(** The header at the start of the blob. *)
Definition header (output : list byte) : UpdateDataHeader.t :=
  UpdateDataHeader.parse output.

(** The [state] field of entry [index] of the memory-pool section, which
    follows the header. *)
Definition pool_state (output : list byte) (index : nat) : Z :=
  Bytes.u32 output (64 + 16 * index).

(** What the update loop makes of a guest-supplied pool state. *)
Definition answer (guest_state : Z) : Z :=
  if guest_state =? MemoryPoolStates.RequestAttach then MemoryPoolStates.Attached
  else if guest_state =? MemoryPoolStates.RequestDetach then MemoryPoolStates.Detached
  else MemoryPoolStates.Invalid.

End Response.

(** Splits a successful [bind] into its two steps. *)
Ltac bind_ok H :=
  match type of H with
  | bind ?c _ = Ok _ =>
      let E := fresh "E" in
      destruct c eqn:E; cbn [bind] in H; [|discriminate H]
  end.

(** ** A stream under any sequence of calls

    The calls a stream receives from its owner and from the timer, in the
    order they arrive. *)

Module StreamRun.

Inductive Call : Type :=
| Start                            (* Play() *)
| Queue (buffer : Stream.Buffer)   (* QueueBuffer(buffer) *)
| Fire                             (* the release event: ReleaseActiveBuffer() *)
| Collect (max_count : nat)        (* GetTagsAndReleaseBuffers(max_count) *)
| Volume (volume : spec_float).    (* SetVolume(volume) *)

(** The stream, the tags handed back by [Collect] so far and the tags of the
    buffers [Queue] has taken so far, both oldest first. *)
Record t : Type := {
  stream : Stream.t;
  collected : list Z;
  taken : list Z
}.

Definition start (s : Stream.t) : t :=
  {| stream := s; collected := []; taken := [] |}.

Section WithPlatform.
Variable P : Platform.

Definition step (x : t) (c : Call) : Result t :=
  match c with
  | Start =>
      Ok {| stream := Stream.Play P (stream x); collected := collected x;
            taken := taken x |}
  | Queue buffer =>
      let q := Stream.QueueBuffer P (stream x) buffer in
      Ok {| stream := Stream.stream_after q; collected := collected x;
            taken := if Stream.accepted q
                     then taken x ++ [Stream.GetTag buffer] else taken x |}
  | Fire =>
      s <- Stream.ReleaseActiveBuffer P (stream x) ;;
      Ok {| stream := s; collected := collected x; taken := taken x |}
  | Collect max_count =>
      let '(tags, s) := Stream.GetTagsAndReleaseBuffers (stream x) max_count in
      Ok {| stream := s; collected := collected x ++ tags; taken := taken x |}
  | Volume volume =>
      Ok {| stream := Stream.SetVolume (stream x) volume; collected := collected x;
            taken := taken x |}
  end.

Fixpoint run (x : t) (calls : list Call) : Result t :=
  match calls with
  | [] => Ok x
  | c :: more => x' <- step x c ;; run x' more
  end.

End WithPlatform.
End StreamRun.

Module StreamCount.

Definition is_schedule (e : Stream.Event) : bool :=
  match e with Stream.ScheduleRelease _ => true | _ => false end.

Definition is_callback (e : Stream.Event) : bool :=
  match e with Stream.ReleaseCallback => true | _ => false end.

Definition is_enqueue (e : Stream.Event) : bool :=
  match e with Stream.SinkEnqueueSamples _ _ => true | _ => false end.

(** Release events scheduled on the timer so far. *)
Definition scheduled (s : Stream.t) : nat :=
  length (filter is_schedule (Stream.events s)).

(** Release callbacks made so far. *)
Definition called_back (s : Stream.t) : nat :=
  length (filter is_callback (Stream.events s)).

(** Buffers handed to the sink so far. *)
Definition enqueued (s : Stream.t) : nat :=
  length (filter is_enqueue (Stream.events s)).

(** 1 with an active buffer, 0 without. *)
Definition active (s : Stream.t) : nat :=
  match Stream.active_buffer s with Some _ => 1%nat | None => 0%nat end.

(** Every scheduled release event has fired, but one when a buffer is
    active; and each buffer handed to the sink has had its event scheduled. *)
Definition balanced (s : Stream.t) : Prop :=
  scheduled s = (called_back s + active s)%nat /\ enqueued s = scheduled s.

(** The queue is within its limit, and no buffer waits in it while the stream
    is playing with nothing active. *)
Definition settled (s : Stream.t) : Prop :=
  (length (Stream.queued_buffers s) <= 32)%nat
  /\ (StreamView.idle s = true -> Stream.queued_buffers s = []).

(** The tags of the released buffers not collected yet, oldest first. *)
Definition released_tags (s : Stream.t) : list Z :=
  map Stream.GetTag (Stream.released_buffers s).

End StreamCount.

(** A sequence of calls on a stream, for running the definitions. *)
Module StreamExample.

Definition frame (tag : Z) : Stream.Buffer :=
  {| Stream.GetTag := tag; Stream.GetSamples := [0; 0] |}.

Definition calls : list StreamRun.Call :=
  [StreamRun.Queue (frame 10); StreamRun.Start; StreamRun.Queue (frame 11);
   StreamRun.Fire; StreamRun.Volume F32.one; StreamRun.Queue (frame 12);
   StreamRun.Collect 1; StreamRun.Fire; StreamRun.Collect 5].

End StreamExample.

(** Reading blobs by byte ranges. *)
Module Layout.

(** [len] elements of [c] from position [off] on. *)
Definition slice {A} (c : list A) (off len : Z) : list A :=
  firstn (Z.to_nat len) (skipn (Z.to_nat off) c).

(** The header at the start of an update blob. *)
Definition config (input : list byte) : UpdateDataHeader.t :=
  UpdateDataHeader.parse (slice input 0 UpdateDataHeader.sizeof).

(** A header whose fields are cut to 32 bits, as the [u32] members hold
    them. *)
Definition as_u32 (h : UpdateDataHeader.t) : UpdateDataHeader.t :=
  {| UpdateDataHeader.revision := wrap32 (UpdateDataHeader.revision h);
     UpdateDataHeader.behavior_size := wrap32 (UpdateDataHeader.behavior_size h);
     UpdateDataHeader.memory_pools_size := wrap32 (UpdateDataHeader.memory_pools_size h);
     UpdateDataHeader.voices_size := wrap32 (UpdateDataHeader.voices_size h);
     UpdateDataHeader.voice_resource_size :=
       wrap32 (UpdateDataHeader.voice_resource_size h);
     UpdateDataHeader.effects_size := wrap32 (UpdateDataHeader.effects_size h);
     UpdateDataHeader.mixes_size := wrap32 (UpdateDataHeader.mixes_size h);
     UpdateDataHeader.sinks_size := wrap32 (UpdateDataHeader.sinks_size h);
     UpdateDataHeader.performance_manager_size :=
       wrap32 (UpdateDataHeader.performance_manager_size h);
     UpdateDataHeader.frame_count := wrap32 (UpdateDataHeader.frame_count h);
     UpdateDataHeader.total_size := wrap32 (UpdateDataHeader.total_size h) |}.

End Layout.

(** An update for a renderer with no voice and one effect. *)
Module EffectExample.

(** The image of an [EffectInStatus] with the given type and flag;
    everything else zero. *)
Definition effect_info_bytes (type is_new : Z) : list byte :=
  [Bytes.of_Z type; Bytes.of_Z is_new] ++ Bytes.zeros 190.

(** Header, behaviour section, one memory pool, one effect. *)
Definition update_blob (type is_new : Z) : list byte :=
  UpdateDataHeader.image
    {| UpdateDataHeader.revision := UpdateDataHeader.REV4;
       UpdateDataHeader.behavior_size := 176;
       UpdateDataHeader.memory_pools_size := 32;
       UpdateDataHeader.voices_size := 0;
       UpdateDataHeader.voice_resource_size := 0;
       UpdateDataHeader.effects_size := 192;
       UpdateDataHeader.mixes_size := 0;
       UpdateDataHeader.sinks_size := 0;
       UpdateDataHeader.performance_manager_size := 0;
       UpdateDataHeader.frame_count := 0;
       UpdateDataHeader.total_size := 464 |}
    ++ Bytes.zeros 176
    ++ Example.pool_info_bytes 0
    ++ effect_info_bytes type is_new.

(** Two updates in a row on a new renderer with one effect. *)
Definition two_updates (P : Platform) (first second : list byte)
    : Result (list byte * AudioRenderer.t P) :=
  r0 <- AudioRenderer.create P (Example.params 0 1) ;;
  ' (_, r1) <- AudioRenderer.UpdateAudioRenderer P r0 first ;;
  AudioRenderer.UpdateAudioRenderer P r1 second.

(** Guest memory in which every 32-bit word reads as 7. *)
Definition busy_memory : Platform :=
  {| ADPCMState := unit; adpcm_init := tt;
     InterpolationState := unit; interp_init := tt;
     max_samples := 2 ^ 62 - 1;
     ReadBlock16 := fun _ sz => repeat 0 (Z.to_nat (sz / 2));
     Read32 := fun _ => 7;
     DecodeADPCM := fun raw _ st => (raw, st);
     Interpolate := fun st input _ _ => (input, st);
     VolumeAdjustSamples := fun s _ => s;
     PcmFormat_Int16 := 2; PcmFormat_Adpcm := 6 |}.

End EffectExample.

(** Voices at the edges of their buffers. *)
Module EdgeExample.

(** A voice in the middle of a cache of 8 samples. *)
Definition mid_buffer_voice (P : Platform) : VoiceState.t P :=
  {| VoiceState.is_in_use := true; VoiceState.is_refresh_pending := false;
     VoiceState.wave_index := 0; VoiceState.offset := 4;
     VoiceState.adpcm_state := adpcm_init P;
     VoiceState.interp_state := interp_init P;
     VoiceState.samples := repeat 0 8;
     VoiceState.out_status := VoiceOutStatus.zero;
     VoiceState.info := Example.voice_info 0 0 1 0 (Example.wave 16 0 0) |}.

(** The same voice, paused by the guest. *)
Definition paused_voice (P : Platform) : VoiceState.t P :=
  VoiceState.SetInfo P (mid_buffer_voice P)
    (VoiceInfo.with_play_state (Example.voice_info 0 0 1 0 (Example.wave 16 0 0))
       PlayState.Paused).

(** The same voice after the guest has announced it as new again, with a
    wave buffer of 4 bytes, and the update loop has run over it. *)
Definition restarted_voice (P : Platform) : VoiceState.t P :=
  AudioRenderer.update_voice P
    (VoiceState.SetInfo P (mid_buffer_voice P)
       (Example.voice_info 0 1 1 0 (Example.wave 4 0 0))).

(** What the guest sends for a mono PCM16 voice at 48 kHz. *)
Definition mono_info (w : WaveBuffer.t) : VoiceInfo.t :=
  {| VoiceInfo.id := 0; VoiceInfo.node_id := 0; VoiceInfo.is_new := 1;
     VoiceInfo.is_in_use := 1;
     VoiceInfo.play_state := PlayState.Started;
     VoiceInfo.sample_format := 2; VoiceInfo.sample_rate := 48000;
     VoiceInfo.priority := 0; VoiceInfo.sorting_order := 0;
     VoiceInfo.channel_count := 1; VoiceInfo.pitch := F32.one;
     VoiceInfo.volume := F32.one; VoiceInfo.wave_buffer_count := 1;
     VoiceInfo.wave_buffer_head := 0;
     VoiceInfo.additional_params_addr := 0;
     VoiceInfo.additional_params_sz := 0; VoiceInfo.mix_id := 0;
     VoiceInfo.splitter_info_id := 0; VoiceInfo.wave_buffer := repeat w 4 |}.

(** Guest memory whose 16-bit samples count up from the address. *)
Definition ramp : Platform :=
  {| ADPCMState := unit; adpcm_init := tt;
     InterpolationState := unit; interp_init := tt;
     max_samples := 2 ^ 62 - 1;
     ReadBlock16 := fun addr sz =>
       map (fun k => addr + Z.of_nat k) (seq 0 (Z.to_nat (sz / 2)));
     Read32 := fun _ => 0;
     DecodeADPCM := fun raw _ st => (raw, st);
     Interpolate := fun st input _ _ => (input, st);
     VolumeAdjustSamples := fun s _ => s;
     PcmFormat_Int16 := 2; PcmFormat_Adpcm := 6 |}.

End EdgeExample.

(** Samples as the sink receives them. *)
Module FrameView.

(** The range of an [s16]. *)
Definition is_s16 (x : Z) : Prop := -32768 <= x <= 32767.

End FrameView.

(** ** A renderer under any sequence of updates and release events *)

Module RendererRun.

Inductive Call : Type :=
| Update (input_params : list byte)   (* UpdateAudioRenderer(input_params) *)
| Fire.                               (* the stream's release event *)

Section WithPlatform.
Variable P : Platform.

Definition step (r : AudioRenderer.t P) (c : Call) : Result (AudioRenderer.t P) :=
  match c with
  | Update input_params =>
      ' (_, r') <- AudioRenderer.UpdateAudioRenderer P r input_params ;; Ok r'
  | Fire =>
      s <- Stream.ReleaseActiveBuffer P (AudioRenderer.stream P r) ;;
      Ok (AudioRenderer.with_stream P r s)
  end.

Fixpoint run (r : AudioRenderer.t P) (calls : list Call)
    : Result (AudioRenderer.t P) :=
  match calls with
  | [] => Ok r
  | c :: more => r' <- step r c ;; run r' more
  end.

(** A renderer is constructed and then receives [calls]. *)
Definition from_start (params : AudioRendererParameter.t) (calls : list Call)
    : Result (AudioRenderer.t P) :=
  r0 <- AudioRenderer.create P params ;; run r0 calls.

End WithPlatform.
End RendererRun.

(** What mixing may do to the [VoiceInfo] the guest sent. *)
Module InfoView.

(** [i'] is [i], or [i] with its play state set to Paused. *)
Definition kept_but_paused (i i' : VoiceInfo.t) : Prop :=
  i' = i \/ i' = VoiceInfo.with_play_state i PlayState.Paused.

(** The guest's info is kept, but for a pause; the slot stays as it is. *)
Definition same_voice (P : Platform) (v v' : VoiceState.t P) : Prop :=
  kept_but_paused (VoiceState.info P v) (VoiceState.info P v')
  /\ VoiceState.is_in_use P v' = VoiceState.is_in_use P v.

End InfoView.

(** A looping voice, seen from the mixing loop. *)
Module LoopView.
Section WithPlatform.
Variable P : Platform.

(** [v] is playing from the start of [cache], nothing is pending, and the
    wave buffer it is on loops, is not empty and does not end the stream. *)
Definition loops_over (v : VoiceState.t P) (cache : list Z) : Prop :=
  VoiceState.IsPlaying P v = true
  /\ VoiceState.is_refresh_pending P v = false
  /\ VoiceState.offset P v = 0
  /\ VoiceState.samples P v = cache
  /\ exists w,
      VoiceState.wave_buffer_at (VoiceState.info P v) (VoiceState.wave_index P v) = Ok w
      /\ WaveBuffer.is_looping w <> 0
      /\ WaveBuffer.buffer_sz w <> 0
      /\ WaveBuffer.end_of_stream w = 0.

End WithPlatform.

(** A looping stereo PCM16 voice whose wave buffer holds 6 bytes, with its
    cache of three samples loaded. *)
Definition three_sample_voice : VoiceState.t Example.loud :=
  match VoiceState.refreshed Example.loud
          (Example.started_voice Example.loud
             (Example.voice_info 0 1 1 0 (Example.wave 6 1 0))) with
  | Ok v => v
  | Err _ => VoiceState.create Example.loud
  end.

End LoopView.

(** A result that, if it is a fault, is an access outside a vector or a
    conversion out of range. *)
Definition only_undefined {A} (r : Result A) : Prop :=
  forall f, r = Err f -> f = UndefinedBehaviour.

(** ** GPU registers ([Maxwell3D::Regs], maxwell_3d.h)

    The members that carry code: the format tables of a vertex attribute and
    the addresses of the index and vertex arrays.  A field that the header
    declares as a bit field is taken here by its value. *)

Module Maxwell3D.
Import Stdlib.Strings.Ascii Stdlib.Strings.String.

(** [UNREACHABLE()] *)
Definition unreachable {A} : Result A := Err AssertionFailed.

(** [static_cast<GPUVAddr>((static_cast<GPUVAddr>(high) << 32) | low)] *)
Definition gpu_address (high low : Z) : Z :=
  wrap64 (Z.lor (wrap64 (Z.shiftl high 32)) low).

Module VertexAttribute.

Module Size.
Definition Invalid : Z := 0.            (* 0x0 *)
Definition Size_32_32_32_32 : Z := 1.   (* 0x01 *)
Definition Size_32_32_32 : Z := 2.      (* 0x02 *)
Definition Size_16_16_16_16 : Z := 3.   (* 0x03 *)
Definition Size_32_32 : Z := 4.         (* 0x04 *)
Definition Size_16_16_16 : Z := 5.      (* 0x05 *)
Definition Size_8_8_8_8 : Z := 10.      (* 0x0a *)
Definition Size_16_16 : Z := 15.        (* 0x0f *)
Definition Size_32 : Z := 18.           (* 0x12 *)
Definition Size_8_8_8 : Z := 19.        (* 0x13 *)
Definition Size_8_8 : Z := 24.          (* 0x18 *)
Definition Size_16 : Z := 27.           (* 0x1b *)
Definition Size_8 : Z := 29.            (* 0x1d *)
Definition Size_10_10_10_2 : Z := 48.   (* 0x30 *)
Definition Size_11_11_10 : Z := 49.     (* 0x31 *)
End Size.

Module Type_.
Definition SignedNorm : Z := 1.
Definition UnsignedNorm : Z := 2.
Definition SignedInt : Z := 3.
Definition UnsignedInt : Z := 4.
Definition UnsignedScaled : Z := 5.
Definition SignedScaled : Z := 6.
Definition Float : Z := 7.
End Type_.

(** The fields [size] (6 bits) and [type] (3 bits) of the attribute word. *)
Record t : Type := { size : Z; type : Z }.

Definition ComponentCount (a : t) : Result Z :=
  if size a =? Size.Size_32_32_32_32 then Ok 4
  else if size a =? Size.Size_32_32_32 then Ok 3
  else if size a =? Size.Size_16_16_16_16 then Ok 4
  else if size a =? Size.Size_32_32 then Ok 2
  else if size a =? Size.Size_16_16_16 then Ok 3
  else if size a =? Size.Size_8_8_8_8 then Ok 4
  else if size a =? Size.Size_16_16 then Ok 2
  else if size a =? Size.Size_32 then Ok 1
  else if size a =? Size.Size_8_8_8 then Ok 3
  else if size a =? Size.Size_8_8 then Ok 2
  else if size a =? Size.Size_16 then Ok 1
  else if size a =? Size.Size_8 then Ok 1
  else if size a =? Size.Size_10_10_10_2 then Ok 4
  else if size a =? Size.Size_11_11_10 then Ok 3
  else unreachable.

Definition SizeInBytes (a : t) : Result Z :=
  if size a =? Size.Size_32_32_32_32 then Ok 16
  else if size a =? Size.Size_32_32_32 then Ok 12
  else if size a =? Size.Size_16_16_16_16 then Ok 8
  else if size a =? Size.Size_32_32 then Ok 8
  else if size a =? Size.Size_16_16_16 then Ok 6
  else if size a =? Size.Size_8_8_8_8 then Ok 4
  else if size a =? Size.Size_16_16 then Ok 4
  else if size a =? Size.Size_32 then Ok 4
  else if size a =? Size.Size_8_8_8 then Ok 3
  else if size a =? Size.Size_8_8 then Ok 2
  else if size a =? Size.Size_16 then Ok 2
  else if size a =? Size.Size_8 then Ok 1
  else if size a =? Size.Size_10_10_10_2 then Ok 4
  else if size a =? Size.Size_11_11_10 then Ok 4
  else unreachable.

Definition SizeString (a : t) : Result string :=
  if size a =? Size.Size_32_32_32_32 then Ok "32_32_32_32"%string
  else if size a =? Size.Size_32_32_32 then Ok "32_32_32"%string
  else if size a =? Size.Size_16_16_16_16 then Ok "16_16_16_16"%string
  else if size a =? Size.Size_32_32 then Ok "32_32"%string
  else if size a =? Size.Size_16_16_16 then Ok "16_16_16"%string
  else if size a =? Size.Size_8_8_8_8 then Ok "8_8_8_8"%string
  else if size a =? Size.Size_16_16 then Ok "16_16"%string
  else if size a =? Size.Size_32 then Ok "32"%string
  else if size a =? Size.Size_8_8_8 then Ok "8_8_8"%string
  else if size a =? Size.Size_8_8 then Ok "8_8"%string
  else if size a =? Size.Size_16 then Ok "16"%string
  else if size a =? Size.Size_8 then Ok "8"%string
  else if size a =? Size.Size_10_10_10_2 then Ok "10_10_10_2"%string
  else if size a =? Size.Size_11_11_10 then Ok "11_11_10"%string
  else unreachable.

Definition TypeString (a : t) : Result string :=
  if type a =? Type_.SignedNorm then Ok "SNORM"%string
  else if type a =? Type_.UnsignedNorm then Ok "UNORM"%string
  else if type a =? Type_.SignedInt then Ok "SINT"%string
  else if type a =? Type_.UnsignedInt then Ok "UINT"%string
  else if type a =? Type_.UnsignedScaled then Ok "USCALED"%string
  else if type a =? Type_.SignedScaled then Ok "SSCALED"%string
  else if type a =? Type_.Float then Ok "FLOAT"%string
  else unreachable.

Definition IsNormalized (a : t) : bool :=
  (type a =? Type_.SignedNorm) || (type a =? Type_.UnsignedNorm).

Definition IsValid (a : t) : bool := negb (size a =? Size.Invalid).

End VertexAttribute.

Module IndexFormat.
Definition UnsignedByte : Z := 0.
Definition UnsignedShort : Z := 1.
Definition UnsignedInt : Z := 2.
End IndexFormat.

(** The member [index_array]. *)
Module IndexArray.
Record t : Type := {
  start_addr_high : Z;
  start_addr_low : Z;
  end_addr_high : Z;
  end_addr_low : Z;
  format : Z;
  first : Z;
  count : Z
}.

Definition FormatSizeInBytes (a : t) : Result Z :=
  if format a =? IndexFormat.UnsignedByte then Ok 1
  else if format a =? IndexFormat.UnsignedShort then Ok 2
  else if format a =? IndexFormat.UnsignedInt then Ok 4
  else unreachable.

Definition StartAddress (a : t) : Z :=
  gpu_address (start_addr_high a) (start_addr_low a).

Definition EndAddress (a : t) : Z :=
  gpu_address (end_addr_high a) (end_addr_low a).

(** Adjust the index buffer offset so it points to the first desired index. *)
Definition IndexStart (a : t) : Result Z :=
  sz <- FormatSizeInBytes a ;;
  Ok (wrap64 (StartAddress a + wrap64 (first a * sz))).
End IndexArray.

(** An element of [vertex_array]. *)
Module VertexArray.
Record t : Type := {
  stride : Z;
  enable : Z;
  start_high : Z;
  start_low : Z;
  divisor : Z
}.

Definition StartAddress (a : t) : Z := gpu_address (start_high a) (start_low a).

Definition IsEnabled (a : t) : bool :=
  negb (enable a =? 0) && negb (StartAddress a =? 0).
End VertexArray.

(** The value of a [u32] member. *)
Definition is_u32 (z : Z) : Prop := 0 <= z < 2 ^ 32.

(** The decimal numbers of a name such as ["10_10_10_2"], in order. *)
Fixpoint numbers_from (name : string) (current : option Z) : list Z :=
  let flush := match current with Some n => [n] | None => [] end in
  match name with
  | EmptyString => flush
  | String c rest =>
      if Ascii.eqb c "_"%char then flush ++ numbers_from rest None
      else
        let digit := Z.of_nat (Ascii.nat_of_ascii c) - 48 in
        let so_far := match current with Some n => n | None => 0 end in
        numbers_from rest (Some (10 * so_far + digit))
  end.

Definition numbers (name : string) : list Z := numbers_from name None.

End Maxwell3D.

(** The two stages of an update call. *)
Module UpdateView.
Section WithPlatform.
Variable P : Platform.

(** The renderer holds the voices and effects its parameters declare, and
    the size of its responses fits a [u32]. *)
Definition sized (r : AudioRenderer.t P) : Prop :=
  let params := AudioRenderer.worker_params P r in
  size (AudioRenderer.voices P r) = AudioRendererParameter.voice_count params
  /\ size (AudioRenderer.effects P r) = AudioRendererParameter.effect_count params
  /\ 0 <= AudioRendererParameter.sink_count params
  /\ 256 + 80 * AudioRendererParameter.voice_count params
     + 32 * AudioRendererParameter.effect_count params
     + 32 * AudioRendererParameter.sink_count params < 2 ^ 32.

(** The first stage: the header, the memory pools, the voices, the channels
    and the effects are read from [input], the voices and effects are
    updated, and the released frames are mixed again, which leaves [r']. *)
Definition taken_in (r : AudioRenderer.t P) (input : list byte)
    (r' : AudioRenderer.t P) : Prop :=
  exists mem_pool_info voices1 channels1 effects1 effects2
         voice_end channel_end effect_end,
    let config := Layout.config input in
    let params := AudioRenderer.worker_params P r in
    let pools_end :=
      UpdateDataHeader.sizeof + UpdateDataHeader.behavior_size config
      + UpdateDataHeader.memory_pools_size config in
    64 <= size input
    /\ AudioRenderer.read_mem_pool_info params input = Ok mem_pool_info
    /\ AudioRenderer.copy_infos (fun v c => VoiceState.SetInfo P v (VoiceInfo.parse c))
         VoiceInfo.sizeof input
         (pools_end + UpdateDataHeader.voice_resource_size config)
         (AudioRenderer.voices P r) = Ok (voices1, voice_end)
    /\ AudioRenderer.copy_infos
         (fun (_ : ChannelState.t) c => {| ChannelState.info := ChannelInfoIn.parse c |})
         ChannelInfoIn.sizeof input pools_end
         (AudioRenderer.resize (AudioRenderer.channels P r)
            (wrap64 (voice_end - pools_end) / ChannelInfoIn.sizeof)
            ChannelState.create) = Ok (channels1, channel_end)
    /\ AudioRenderer.copy_infos
         (fun e c => EffectState.SetInfo e (EffectInStatus.parse c))
         EffectInStatus.sizeof input
         (pools_end + UpdateDataHeader.voice_resource_size config
          + UpdateDataHeader.voices_size config)
         (AudioRenderer.effects P r) = Ok (effects1, effect_end)
    /\ AudioRenderer.update_effects P effects1 = Ok effects2
    /\ AudioRenderer.ReleaseAndQueueBuffers P
         {| AudioRenderer.worker_params := params;
            AudioRenderer.channels := channels1;
            AudioRenderer.voices := map (AudioRenderer.update_voice P) voices1;
            AudioRenderer.effects := effects2;
            AudioRenderer.stream := AudioRenderer.stream P r |} = Ok r'.

(** Record [k] of the voices, and of the effects, in an update blob. *)
Definition voice_record (input : list byte) (k : nat) : VoiceInfo.t :=
  let config := Layout.config input in
  VoiceInfo.parse
    (Layout.slice input
       (64 + UpdateDataHeader.behavior_size config
        + UpdateDataHeader.memory_pools_size config
        + UpdateDataHeader.voice_resource_size config + 368 * Z.of_nat k) 368).

Definition effect_record (input : list byte) (k : nat) : EffectInStatus.t :=
  let config := Layout.config input in
  EffectInStatus.parse
    (Layout.slice input
       (64 + UpdateDataHeader.behavior_size config
        + UpdateDataHeader.memory_pools_size config
        + UpdateDataHeader.voice_resource_size config
        + UpdateDataHeader.voices_size config + 192 * Z.of_nat k) 192).

(** The blob reaches to the end of every range a call on [r] reads. *)
Definition covers (r : AudioRenderer.t P) (input : list byte) : Prop :=
  let config := Layout.config input in
  let params := AudioRenderer.worker_params P r in
  let pools_end :=
    64 + UpdateDataHeader.behavior_size config
    + UpdateDataHeader.memory_pools_size config in
  64 + UpdateDataHeader.behavior_size config
  + 32 * (AudioRendererParameter.effect_count params
          + 4 * AudioRendererParameter.voice_count params) <= size input
  /\ pools_end + UpdateDataHeader.voice_resource_size config
     + 368 * AudioRendererParameter.voice_count params <= size input
  /\ pools_end + UpdateDataHeader.voice_resource_size config
     + UpdateDataHeader.voices_size config
     + 192 * AudioRendererParameter.effect_count params <= size input.

(** No voice record of the blob asks for playback. *)
Definition quiet (r : AudioRenderer.t P) (input : list byte) : Prop :=
  forall k,
    (k < length (AudioRenderer.voices P r))%nat ->
    VoiceInfo.is_in_use (voice_record input k) = 0
    \/ VoiceInfo.play_state (voice_record input k) <> PlayState.Started.

(** No effect record of the blob is an aux effect that is not new. *)
Definition no_aux_check (r : AudioRenderer.t P) (input : list byte) : Prop :=
  forall k,
    (k < length (AudioRenderer.effects P r))%nat ->
    EffectInStatus.is_new (effect_record input k) <> 0
    \/ EffectInStatus.type (effect_record input k) <> Effect.Aux.

End WithPlatform.
End UpdateView.

(** ** Volumes and gains other than one *)

Module GainExample.

Definition half : spec_float := F32.of_bits 1056964608.          (* 0x3f000000: 0.5f *)
Definition minus_one : spec_float := F32.of_bits 3212836864.     (* 0xbf800000: -1.0f *)
Definition seven_tenths : spec_float := F32.of_bits 1060320051.  (* 0x3f333333: 0.7f *)
Definition million : spec_float := F32.of_bits 1232348160.       (* 0x49742400: 1.0e6f *)

(** What the guest sends for the voice of [Example.one_loud_voice], with
    another volume. *)
Definition info_at (volume : spec_float) : VoiceInfo.t :=
  let i := Example.voice_info 0 1 1 0 (Example.wave 16 0 1) in
  {| VoiceInfo.id := VoiceInfo.id i; VoiceInfo.node_id := VoiceInfo.node_id i;
     VoiceInfo.is_new := VoiceInfo.is_new i;
     VoiceInfo.is_in_use := VoiceInfo.is_in_use i;
     VoiceInfo.play_state := VoiceInfo.play_state i;
     VoiceInfo.sample_format := VoiceInfo.sample_format i;
     VoiceInfo.sample_rate := VoiceInfo.sample_rate i;
     VoiceInfo.priority := VoiceInfo.priority i;
     VoiceInfo.sorting_order := VoiceInfo.sorting_order i;
     VoiceInfo.channel_count := VoiceInfo.channel_count i;
     VoiceInfo.pitch := VoiceInfo.pitch i; VoiceInfo.volume := volume;
     VoiceInfo.wave_buffer_count := VoiceInfo.wave_buffer_count i;
     VoiceInfo.wave_buffer_head := VoiceInfo.wave_buffer_head i;
     VoiceInfo.additional_params_addr := VoiceInfo.additional_params_addr i;
     VoiceInfo.additional_params_sz := VoiceInfo.additional_params_sz i;
     VoiceInfo.mix_id := VoiceInfo.mix_id i;
     VoiceInfo.splitter_info_id := VoiceInfo.splitter_info_id i;
     VoiceInfo.wave_buffer := VoiceInfo.wave_buffer i |}.

(** [Example.one_loud_voice] with the voice at that volume: 4 samples per
    channel at +20000, sent to channel 0 with unit gain. *)
Definition renderer_at (volume : spec_float) : AudioRenderer.t Example.loud :=
  AudioRenderer.with_voices Example.loud Example.two_loud_voices
    [Example.started_voice Example.loud (info_at volume)].

(** [p] holds of the [n] integers from [from] on. *)
Fixpoint all_from (n : nat) (from : Z) (p : Z -> bool) : bool :=
  match n with
  | O => true
  | S n' => p from && all_from n' (from + 1) p
  end.

(** [p] holds of every 16-bit sample. *)
Definition all_s16 (p : Z -> bool) : bool := all_from (Z.to_nat 65536) (-32768) p.

(** The sample comes out of [scale_sample] as [expected]. *)
Definition scales_to (volume gain : spec_float) (expected : Z -> Z) (sample : Z)
    : bool :=
  match AudioRenderer.scale_sample sample volume gain with
  | Ok scaled => scaled =? expected sample
  | Err _ => false
  end.

End GainExample.

(** * Properties *)

(** ** Output stream: the released queue *)

Section StreamFacts.

Lemma firstn_plus {A} (a b : nat) (l : list A) :
  firstn (a + b) l = firstn a l ++ firstn b (skipn a l).
Proof.
  revert l; induction a as [|a IH]; intros [|x l]; simpl; trivial.
  - now rewrite firstn_nil.
  - now rewrite IH.
Qed.

Lemma release_loop_spec (budget : nat) :
  forall released tags,
    Stream.release_loop budget released tags
    = (tags ++ map Stream.GetTag (firstn budget released), skipn budget released).
Proof.
  induction budget as [|n IH]; intros released tags; simpl.
  - now rewrite app_nil_r.
  - destruct released as [|front rest]; simpl.
    + now rewrite app_nil_r.
    + rewrite IH, <- app_assoc. reflexivity.
Qed.

Lemma GetTagsAndReleaseBuffers_spec (s : Stream.t) (max_count : nat) :
  Stream.GetTagsAndReleaseBuffers s max_count
  = (map Stream.GetTag (firstn max_count (Stream.released_buffers s)),
     Stream.with_queues s (Stream.queued_buffers s) (Stream.active_buffer s)
       (skipn max_count (Stream.released_buffers s))).
Proof.
  unfold Stream.GetTagsAndReleaseBuffers. now rewrite release_loop_spec.
Qed.

Lemma Drain_spec (limits : list nat) :
  forall s,
    Stream.Drain s limits
    = (fst (Stream.Drain s limits),
       Stream.with_queues s (Stream.queued_buffers s) (Stream.active_buffer s)
         (skipn (list_sum limits) (Stream.released_buffers s)))
    /\ concat (fst (Stream.Drain s limits))
       = map Stream.GetTag (firstn (list_sum limits) (Stream.released_buffers s)).
Proof.
  induction limits as [|n more IH]; intros s.
  - simpl. split; trivial. now destruct s.
  - cbn [Stream.Drain list_sum fold_right].
    rewrite GetTagsAndReleaseBuffers_spec.
    set (s1 := Stream.with_queues s _ _ _).
    destruct (IH s1) as [Hs Hc].
    destruct (Stream.Drain s1 more) as [rest s2] eqn:E.
    cbn [fst] in *. injection Hs as ->. split.
    + unfold s1; cbn. now rewrite skipn_skipn, Nat.add_comm.
    + cbn [concat]. rewrite Hc, firstn_plus, map_app. reflexivity.
Qed.

Lemma repeat_sum (n k : nat) : list_sum (repeat n k) = (k * n)%nat.
Proof. induction k as [|k IH]; simpl; [trivial | now rewrite IH]. Qed.

End StreamFacts.

(** C5.  [GetTagsAndReleaseBuffers(max_count)] returns at most [max_count]
    tags, the oldest released first, and removes exactly those from the
    released queue.  Over any sequence of calls no tag is lost, repeated or
    reordered; with a positive limit, as many calls as there are released
    buffers return every tag exactly once, in the order of release, and every
    call after that returns nothing. *)
Theorem GetTagsAndReleaseBuffers_fifo (s : Stream.t) (n rounds : nat)
    (Hn : (1 <= n)%nat)
    (Hrounds : (length (Stream.released_buffers s) <= rounds)%nat) :
  let released := map Stream.GetTag (Stream.released_buffers s) in
  let drained := Stream.Drain s (repeat n rounds) in
  (forall max_count,
      let call := Stream.GetTagsAndReleaseBuffers s max_count in
      (length (fst call) <= max_count)%nat
      /\ fst call = firstn max_count released
      /\ map Stream.GetTag (Stream.released_buffers (snd call))
         = skipn max_count released)
  /\ (forall limits,
         concat (fst (Stream.Drain s limits))
           ++ map Stream.GetTag
                (Stream.released_buffers (snd (Stream.Drain s limits)))
         = released)
  /\ concat (fst drained) = released
  /\ Stream.released_buffers (snd drained) = []
  /\ (forall max_count,
         fst (Stream.GetTagsAndReleaseBuffers (snd drained) max_count) = []).
Proof.
  intros released drained.
  assert (Hall : skipn (list_sum (repeat n rounds)) (Stream.released_buffers s) = []).
  { apply skipn_all2. rewrite repeat_sum. nia. }
  repeat split.
  - rewrite GetTagsAndReleaseBuffers_spec; cbn [fst].
    rewrite length_map. apply firstn_le_length.
  - rewrite GetTagsAndReleaseBuffers_spec; cbn [fst].
    unfold released. now rewrite firstn_map.
  - rewrite GetTagsAndReleaseBuffers_spec; cbn.
    unfold released. now rewrite skipn_map.
  - intros limits. destruct (Drain_spec limits s) as [Hs Hc].
    rewrite Hc, Hs; cbn. rewrite <- map_app, firstn_skipn. reflexivity.
  - destruct (Drain_spec (repeat n rounds) s) as [_ Hc].
    unfold drained. rewrite Hc. unfold released. f_equal.
    rewrite <- (firstn_skipn (list_sum (repeat n rounds)) (Stream.released_buffers s)) at 2.
    rewrite Hall, app_nil_r. reflexivity.
  - destruct (Drain_spec (repeat n rounds) s) as [Hs _].
    unfold drained. rewrite Hs; cbn. exact Hall.
  - intros max_count. destruct (Drain_spec (repeat n rounds) s) as [Hs _].
    unfold drained. rewrite Hs; cbn [snd].
    rewrite GetTagsAndReleaseBuffers_spec; cbn. rewrite Hall.
    now rewrite firstn_nil.
Qed.

Lemma GetTagsAndReleaseBuffers_fifo_witness :
  let s := Example.released_stream in
  let drained := Stream.Drain s (repeat 2%nat 3%nat) in
  fst (Stream.GetTagsAndReleaseBuffers s 2) = [7; 8]
  /\ fst drained = [[7; 8]; [9]; []]
  /\ concat (fst drained) = [7; 8; 9]
  /\ Stream.released_buffers (snd drained) = [].
Proof.
  destruct (GetTagsAndReleaseBuffers_fifo Example.released_stream 2 3
              ltac:(lia) ltac:(vm_compute; lia)) as (_ & _ & Hc & He & _).
  cbv zeta. split; [reflexivity|]. split; [reflexivity|].
  split; [rewrite Hc; reflexivity | exact He].
Defined.

(** ** Output stream: the queue limit *)

Section QueueFacts.
Variable P : Platform.

Lemma PlayNextBuffer_busy (s : Stream.t) :
  StreamView.idle s = false ->
  Stream.queued_buffers (Stream.PlayNextBuffer P s) = Stream.queued_buffers s
  /\ Stream.active_buffer (Stream.PlayNextBuffer P s) = Stream.active_buffer s
  /\ Stream.released_buffers (Stream.PlayNextBuffer P s) = Stream.released_buffers s
  /\ Stream.state (Stream.PlayNextBuffer P s) = Stream.state s.
Proof.
  unfold StreamView.idle, Stream.PlayNextBuffer, Stream.IsPlaying.
  destruct s as [rate fmt [|] vol q [a|] r ev]; cbn; intros H;
    try discriminate; repeat split.
Qed.

Lemma PlayNextBuffer_pending (s : Stream.t) :
  StreamView.pending_tags (Stream.PlayNextBuffer P s) = StreamView.pending_tags s
  /\ Stream.released_buffers (Stream.PlayNextBuffer P s) = Stream.released_buffers s.
Proof.
  unfold StreamView.pending_tags, Stream.PlayNextBuffer, Stream.IsPlaying.
  destruct s as [rate fmt [|] vol [|front q] [a|] r ev]; cbn; now split.
Qed.

Lemma QueueBuffer_busy (s : Stream.t) (b : Stream.Buffer) :
  StreamView.idle s = false ->
  let q := Stream.QueueBuffer P s b in
  Stream.accepted q = (length (Stream.queued_buffers s) <? 32)%nat
  /\ StreamView.idle (Stream.stream_after q) = false
  /\ length (Stream.queued_buffers (Stream.stream_after q))
     = if Stream.accepted q then S (length (Stream.queued_buffers s))
       else length (Stream.queued_buffers s).
Proof.
  intros Hidle. unfold Stream.QueueBuffer, Stream.MaxAudioBufferCount, size.
  destruct (Z.ltb_spec (Z.of_nat (length (Stream.queued_buffers s))) 32) as [Hlt|Hge];
    cbn [Stream.accepted Stream.stream_after].
  - set (s1 := Stream.with_queues s _ _ _).
    assert (H1 : StreamView.idle s1 = false) by exact Hidle.
    destruct (PlayNextBuffer_busy s1 H1) as (Hq & Ha & _ & Hs).
    split; [symmetry; apply Nat.ltb_lt; lia|]. split.
    + unfold StreamView.idle, Stream.IsPlaying in *. now rewrite Ha, Hs.
    + rewrite Hq. unfold s1; cbn. rewrite length_app; cbn. lia.
  - split; [symmetry; apply Nat.ltb_ge; lia|]. now split.
Qed.

Lemma QueueBuffers_busy (buffers : list Stream.Buffer) :
  forall s,
    StreamView.idle s = false ->
    map Stream.accepted (Stream.QueueBuffers P s buffers)
    = map (fun k => (length (Stream.queued_buffers s) + k <? 32)%nat)
        (seq 0 (length buffers)).
Proof.
  induction buffers as [|b more IH]; intros s Hidle; [reflexivity|].
  cbn [Stream.QueueBuffers map length seq].
  destruct (QueueBuffer_busy s b Hidle) as (Hacc & Hidle' & Hlen).
  rewrite Nat.add_0_r, Hacc. f_equal.
  rewrite (IH _ Hidle'), <- seq_shift, map_map.
  apply map_ext; intros k. rewrite Hlen, Hacc.
  destruct (Nat.ltb_spec (length (Stream.queued_buffers s)) 32).
  - f_equal; lia.
  - symmetry. destruct (Nat.ltb_spec (length (Stream.queued_buffers s) + S k) 32);
      destruct (Nat.ltb_spec (length (Stream.queued_buffers s) + k) 32); trivial; lia.
Qed.

Lemma QueueBuffer_idle (s : Stream.t) (b : Stream.Buffer) :
  StreamView.idle s = true ->
  Stream.queued_buffers s = [] ->
  let q := Stream.QueueBuffer P s b in
  Stream.accepted q = true
  /\ StreamView.idle (Stream.stream_after q) = false
  /\ Stream.queued_buffers (Stream.stream_after q) = [].
Proof.
  unfold StreamView.idle, Stream.QueueBuffer, Stream.PlayNextBuffer,
    Stream.IsPlaying.
  destruct s as [rate fmt [|] vol q [a|] r ev]; cbn; intros Hidle Hq;
    try discriminate.
  subst q. cbn. repeat split.
Qed.

Lemma QueueBuffer_outcome (s : Stream.t) (b : Stream.Buffer) :
  let q := Stream.QueueBuffer P s b in
  (Stream.accepted q = false ->
     Stream.stream_after q = s /\ Stream.buffer_after q = Some b)
  /\ (Stream.accepted q = true ->
        StreamView.pending_tags (Stream.stream_after q)
        = StreamView.pending_tags s ++ [Stream.GetTag b]
        /\ Stream.released_buffers (Stream.stream_after q)
           = Stream.released_buffers s
        /\ Stream.buffer_after q = None).
Proof.
  unfold Stream.QueueBuffer.
  destruct (size (Stream.queued_buffers s) <? Stream.MaxAudioBufferCount);
    cbn [Stream.accepted Stream.stream_after Stream.buffer_after];
    split; intros H; try discriminate; [|now split].
  destruct (PlayNextBuffer_pending
              (Stream.with_queues s (Stream.queued_buffers s ++ [b])
                 (Stream.active_buffer s) (Stream.released_buffers s))) as [Hp Hr].
  rewrite Hp, Hr. split; [|now split].
  unfold StreamView.pending_tags; cbn.
  now rewrite app_assoc, map_app.
Qed.

End QueueFacts.

(** C4, as the code has it.  On a stream whose queue is empty, with nothing
    released in between, [QueueBuffer] takes buffer number [k] (from 0)
    exactly when [k] is below the stream's capacity: 32 when the stream is
    stopped or already has an active buffer, 33 when it is playing with no
    active buffer, because the first buffer then leaves the queue at once to
    become the active one.  A call that returns false leaves the stream as it
    was and the caller's buffer in the caller's hands; a call that returns
    true puts the buffer behind all pending ones and touches no released
    buffer. *)
Theorem QueueBuffer_capacity (P : Platform) (s : Stream.t)
    (buffers : list Stream.Buffer)
    (Hempty : Stream.queued_buffers s = []) :
  map Stream.accepted (Stream.QueueBuffers P s buffers)
  = map (fun k => (k <? StreamView.capacity s)%nat) (seq 0 (length buffers))
  /\ (forall s' b,
         let q := Stream.QueueBuffer P s' b in
         (Stream.accepted q = false ->
            Stream.stream_after q = s' /\ Stream.buffer_after q = Some b)
         /\ (Stream.accepted q = true ->
               StreamView.pending_tags (Stream.stream_after q)
               = StreamView.pending_tags s' ++ [Stream.GetTag b]
               /\ Stream.released_buffers (Stream.stream_after q)
                  = Stream.released_buffers s'
               /\ Stream.buffer_after q = None)).
Proof.
  split; [|intros s' b; apply QueueBuffer_outcome].
  unfold StreamView.capacity.
  destruct (StreamView.idle s) eqn:Hidle.
  - destruct buffers as [|b more]; [reflexivity|].
    cbn [Stream.QueueBuffers map length seq].
    destruct (QueueBuffer_idle P s b Hidle Hempty) as (Hacc & Hidle' & Hq).
    rewrite Hacc. f_equal.
    rewrite (QueueBuffers_busy P more _ Hidle'), Hq, <- seq_shift, map_map.
    apply map_ext; intros k. reflexivity.
  - rewrite (QueueBuffers_busy P buffers s Hidle), Hempty. reflexivity.
Qed.

Lemma QueueBuffer_capacity_witness :
  Stream.queued_buffers Example.stopped_stream = []
  /\ map Stream.accepted
       (Stream.QueueBuffers Example.silent Example.stopped_stream
          (Example.frames 0 33))
     = repeat true 32 ++ [false].
Proof.
  split; [reflexivity|].
  destruct (QueueBuffer_capacity Example.silent Example.stopped_stream
              (Example.frames 0 33) eq_refl) as [H _].
  rewrite H. reflexivity.
Defined.

(** C4 as stated fails on a stream that is playing: the stream is empty and
    nothing is released, yet the 33rd buffer is taken; the first one to be
    refused is the 34th. *)
Lemma QueueBuffer_33rd_accepted_when_playing :
  let s := Example.playing_stream in
  let results := Stream.QueueBuffers Example.silent s (Example.frames 0 34) in
  Stream.queued_buffers s = []
  /\ Stream.active_buffer s = None
  /\ Stream.released_buffers s = []
  /\ nth_error (map Stream.accepted results) 32 = Some true
  /\ map Stream.accepted results = repeat true 33 ++ [false].
Proof. vm_compute. repeat split. Qed.

(** ** Voices *)

Lemma land_3 (x : Z) : 0 <= Z.land x 3 < 4 /\ Z.land x 3 = x mod 4.
Proof.
  change 3 with (Z.ones 2). rewrite Z.land_ones by lia.
  change (2 ^ 2) with 4. split; [apply Z.mod_pos_bound; lia | reflexivity].
Qed.

Lemma wrap64_mod_4 (x : Z) : wrap64 x mod 4 = x mod 4.
Proof.
  unfold wrap64. apply Z.mod_mod_divide.
  exists 4611686018427387904. reflexivity.
Qed.

Section VoiceFacts.
Variable P : Platform.

Lemma RefreshBuffer_keeps (v v' : VoiceState.t P) :
  VoiceState.RefreshBuffer P v = Ok v' ->
  VoiceState.wave_index P v' = VoiceState.wave_index P v
  /\ VoiceState.offset P v' = VoiceState.offset P v
  /\ VoiceState.out_status P v' = VoiceState.out_status P v
  /\ VoiceState.info P v' = VoiceState.info P v
  /\ VoiceState.is_in_use P v' = VoiceState.is_in_use P v
  /\ VoiceState.is_refresh_pending P v' = false.
Proof.
  unfold VoiceState.RefreshBuffer. intros H.
  bind_ok H. bind_ok H. bind_ok H. bind_ok H.
  match goal with p : (list Z * ADPCMState P)%type |- _ =>
    destruct p as [new_samples adpcm]
  end.
  bind_ok H.
  destruct (if negb _ then _ else _) as [resampled interp] in H.
  injection H as <-. cbn. repeat split.
Qed.

Lemma refreshed_keeps (v v' : VoiceState.t P) :
  VoiceState.refreshed P v = Ok v' ->
  VoiceState.wave_index P v' = VoiceState.wave_index P v
  /\ VoiceState.offset P v' = VoiceState.offset P v
  /\ VoiceState.out_status P v' = VoiceState.out_status P v
  /\ VoiceState.info P v' = VoiceState.info P v
  /\ VoiceState.is_in_use P v' = VoiceState.is_in_use P v
  /\ VoiceState.is_refresh_pending P v' = false.
Proof.
  unfold VoiceState.refreshed.
  destruct (VoiceState.is_refresh_pending P v) eqn:Hp.
  - apply RefreshBuffer_keeps.
  - intros H; injection H as <-. repeat split; trivial.
Qed.

(** What a successful [DequeueSamples] on a playing voice went through. *)
Lemma DequeueSamples_playing (v v' : VoiceState.t P) (n : Z) (out : list Z) :
  VoiceState.IsPlaying P v = true ->
  VoiceState.DequeueSamples P v n = Ok (out, v') ->
  exists v1 w,
    VoiceState.refreshed P v = Ok v1
    /\ VoiceState.wave_buffer_at (VoiceState.info P v1) (VoiceState.wave_index P v1) = Ok w
    /\ VoiceState.offset P v1 + VoiceState.dequeue_size P v1 n
       <= size (VoiceState.samples P v1)
    /\ out = firstn (Z.to_nat (VoiceState.dequeue_size P v1 n))
               (skipn (Z.to_nat (VoiceState.offset P v1)) (VoiceState.samples P v1))
    /\ v' = (let played :=
               wrap64 (VoiceOutStatus.played_sample_count (VoiceState.out_status P v1)
                       + VoiceState.dequeue_size P v1 n / STREAM_NUM_CHANNELS) in
             let new_offset :=
               wrap64 (VoiceState.offset P v1 + VoiceState.dequeue_size P v1 n) in
             if new_offset =? size (VoiceState.samples P v1)
             then VoiceState.buffer_finished P v1 w played
             else VoiceState.buffer_continues P v1 new_offset played).
Proof.
  intros Hplay H. unfold VoiceState.DequeueSamples in H.
  rewrite Hplay in H. cbn [negb] in H.
  bind_ok H. bind_ok H.
  destruct (Z.leb_spec (VoiceState.offset P a + VoiceState.dequeue_size P a n)
              (size (VoiceState.samples P a))) as [Hle|Hgt]; [|discriminate H].
  injection H as <- <-. exists a, a0. repeat split; trivial.
Qed.

Lemma DequeueSamples_idle (v : VoiceState.t P) (n : Z) :
  VoiceState.IsPlaying P v = false ->
  VoiceState.DequeueSamples P v n = Ok ([], v).
Proof. intros H. unfold VoiceState.DequeueSamples. now rewrite H. Qed.

Lemma SetWaveIndex_in_ring (v : VoiceState.t P) (index : Z) :
  VoiceView.in_ring P (VoiceState.SetWaveIndex P v index)
  /\ VoiceState.wave_index P (VoiceState.SetWaveIndex P v index) = index mod 4.
Proof. unfold VoiceView.in_ring; cbn. apply land_3. Qed.

Lemma UpdateState_in_ring (v : VoiceState.t P) :
  VoiceView.in_ring P v -> VoiceView.in_ring P (VoiceState.UpdateState P v).
Proof.
  unfold VoiceView.in_ring, VoiceState.UpdateState.
  destruct (_ && _); cbn; lia.
Qed.

Lemma update_voice_in_ring (v : VoiceState.t P) :
  VoiceView.in_ring P v -> VoiceView.in_ring P (AudioRenderer.update_voice P v).
Proof.
  intros Hv. unfold AudioRenderer.update_voice.
  destruct (_ =? 0); [now apply UpdateState_in_ring|].
  destruct (negb _); [apply SetWaveIndex_in_ring | now apply UpdateState_in_ring].
Qed.

(** While the guest keeps the slot in use, [UpdateState] only sets the flag. *)
Lemma UpdateState_still_in_use (v : VoiceState.t P) :
  VoiceInfo.is_in_use (VoiceState.info P v) <> 0 ->
  VoiceState.is_in_use P (VoiceState.UpdateState P v) = true
  /\ VoiceState.info P (VoiceState.UpdateState P v) = VoiceState.info P v
  /\ VoiceState.wave_index P (VoiceState.UpdateState P v) = VoiceState.wave_index P v
  /\ VoiceState.is_refresh_pending P (VoiceState.UpdateState P v)
     = VoiceState.is_refresh_pending P v.
Proof.
  intros Huse. apply Z.eqb_neq in Huse. unfold VoiceState.UpdateState.
  rewrite Huse. cbn [negb]. rewrite andb_false_r. cbn. repeat split.
Qed.

Lemma DequeueSamples_in_ring (v v' : VoiceState.t P) (n : Z) (out : list Z) :
  VoiceView.in_ring P v ->
  VoiceState.DequeueSamples P v n = Ok (out, v') ->
  VoiceView.in_ring P v'.
Proof.
  intros Hv H.
  destruct (VoiceState.IsPlaying P v) eqn:Hplay.
  - destruct (DequeueSamples_playing v v' n out Hplay H)
      as (v1 & w & Hr & _ & _ & _ & ->).
    destruct (refreshed_keeps v v1 Hr) as (Hw & _).
    unfold VoiceView.in_ring in *. cbv zeta.
    destruct (_ =? _); cbn; [|lia].
    destruct (_ && _); [apply land_3 | lia].
  - rewrite (DequeueSamples_idle v n Hplay) in H. now injection H as _ <-.
Qed.

Lemma wave_buffer_at_in_ring (v : VoiceState.t P) :
  VoiceView.in_ring P v -> VoiceView.full_ring P v ->
  exists w,
    VoiceState.wave_buffer_at (VoiceState.info P v) (VoiceState.wave_index P v) = Ok w.
Proof.
  unfold VoiceView.in_ring, VoiceView.full_ring, VoiceState.wave_buffer_at.
  intros Hv Hfull.
  destruct (Z.leb_spec 0 (VoiceState.wave_index P v)); [|lia].
  destruct (Z.ltb_spec (VoiceState.wave_index P v) 4); [|lia]. cbn.
  destruct (nth_error _ _) as [w|] eqn:E; [now exists w|].
  apply nth_error_None in E. lia.
Qed.

(** With the cache in place and the cursor inside it, [DequeueSamples]
    returns. *)
Lemma DequeueSamples_returns (v : VoiceState.t P) (n : Z) :
  VoiceView.in_ring P v -> VoiceView.full_ring P v ->
  VoiceState.is_refresh_pending P v = false ->
  0 <= VoiceState.offset P v <= size (VoiceState.samples P v) ->
  size (VoiceState.samples P v) < 2 ^ 64 ->
  exists out v', VoiceState.DequeueSamples P v n = Ok (out, v').
Proof.
  intros Hring Hfull Hpend Hoff Hsize. unfold VoiceState.DequeueSamples.
  destruct (VoiceState.IsPlaying P v); cbn [negb];
    [|eexists; eexists; reflexivity].
  unfold VoiceState.refreshed. rewrite Hpend. cbn [bind].
  destruct (wave_buffer_at_in_ring v Hring Hfull) as [w Hw].
  rewrite Hw. cbn [bind].
  assert (Hclip : VoiceState.dequeue_size P v n
                  <= size (VoiceState.samples P v) - VoiceState.offset P v).
  { unfold VoiceState.dequeue_size.
    assert (Hmax : wrap64 (size (VoiceState.samples P v) - VoiceState.offset P v)
                   = size (VoiceState.samples P v) - VoiceState.offset P v)
      by (unfold wrap64; apply Z.mod_small; lia).
    rewrite Hmax.
    destruct (Z.gtb_spec (wrap64 (n * STREAM_NUM_CHANNELS))
                (size (VoiceState.samples P v) - VoiceState.offset P v)); lia. }
  destruct (Z.leb_spec (VoiceState.offset P v + VoiceState.dequeue_size P v n)
              (size (VoiceState.samples P v))); [|lia].
  eexists; eexists; reflexivity.
Qed.

End VoiceFacts.

(** C8.  [UpdateState] always copies the parsed [is_in_use] into the voice's
    own flag and leaves the parsed info alone.  When the voice was in use and
    the parsed flag is clear, the offset and the wave index go to 0, the out
    status (played samples, consumed wave buffers, voice drops) goes to zero
    and a refresh is marked pending; in every other case the offset, the wave
    index, the out status and the pending flag are what they were. *)
Theorem UpdateState_resets_on_deactivation (P : Platform) (v : VoiceState.t P) :
  let v' := VoiceState.UpdateState P v in
  let deactivated :=
    VoiceState.is_in_use P v = true
    /\ VoiceInfo.is_in_use (VoiceState.info P v) = 0 in
  VoiceState.is_in_use P v'
  = negb (VoiceInfo.is_in_use (VoiceState.info P v) =? 0)
  /\ VoiceState.info P v' = VoiceState.info P v
  /\ (deactivated ->
        VoiceState.offset P v' = 0
        /\ VoiceState.wave_index P v' = 0
        /\ VoiceState.out_status P v' = VoiceOutStatus.zero
        /\ VoiceState.is_refresh_pending P v' = true)
  /\ (~ deactivated ->
        VoiceState.offset P v' = VoiceState.offset P v
        /\ VoiceState.wave_index P v' = VoiceState.wave_index P v
        /\ VoiceState.out_status P v' = VoiceState.out_status P v
        /\ VoiceState.is_refresh_pending P v' = VoiceState.is_refresh_pending P v).
Proof.
  cbv zeta. unfold VoiceState.UpdateState.
  destruct (VoiceState.is_in_use P v) eqn:Huse;
    destruct (Z.eqb_spec (VoiceInfo.is_in_use (VoiceState.info P v)) 0) as [Hz|Hnz];
    cbn.
  all: split; [reflexivity|]; split; [reflexivity|]; split.
  all: try (intros [H1 H2];
            first [discriminate | contradiction | now repeat split]).
  all: intros Hn; try (exfalso; apply Hn; now split); now repeat split.
Qed.

Lemma UpdateState_resets_on_deactivation_witness :
  let v := Example.abandoned_voice Example.silent in
  let v' := VoiceState.UpdateState Example.silent v in
  VoiceState.offset Example.silent v = 4
  /\ VoiceState.wave_index Example.silent v = 2
  /\ VoiceState.offset Example.silent v' = 0
  /\ VoiceState.wave_index Example.silent v' = 0
  /\ VoiceState.out_status Example.silent v' = VoiceOutStatus.zero
  /\ VoiceState.is_refresh_pending Example.silent v' = true.
Proof.
  split; [reflexivity|]. split; [reflexivity|].
  destruct (UpdateState_resets_on_deactivation Example.silent
              (Example.abandoned_voice Example.silent)) as (_ & _ & H & _).
  apply H. split; reflexivity.
Defined.

(** C2.  A successful [DequeueSamples] on a playing voice first refreshes the
    cache if a refresh is pending, then moves the offset forward by the
    clipped size.  [w] is the wave buffer at the voice's wave index.  If the
    moved offset equals the size of the cache: the offset becomes 0; when [w]
    is not looping and has a nonzero size the wave index becomes
    (index + 1) mod 4 and a refresh is pending, otherwise the index stays and
    none is pending; when [w] has a nonzero size the consumed counter goes up
    by one (in [u32]), otherwise it stays; when [w] is marked end of stream
    or has size zero the play state becomes Paused, otherwise it stays
    Started.  If the moved offset is not the size of the cache, the wave
    index and the consumed counter are unchanged, no refresh is pending and
    the play state is still Started. *)
Theorem DequeueSamples_end_of_buffer (P : Platform) (v v' : VoiceState.t P)
    (sample_count : Z) (out : list Z)
    (Hplaying : VoiceState.IsPlaying P v = true)
    (Hok : VoiceState.DequeueSamples P v sample_count = Ok (out, v')) :
  exists v1 w,
    VoiceState.refreshed P v = Ok v1
    /\ VoiceState.wave_buffer_at (VoiceState.info P v) (VoiceState.wave_index P v) = Ok w
    /\ let moved :=
         wrap64 (VoiceState.offset P v + VoiceState.dequeue_size P v1 sample_count) in
       let consumed := VoiceOutStatus.wave_buffer_consumed (VoiceState.out_status P v) in
       let consumed' := VoiceOutStatus.wave_buffer_consumed (VoiceState.out_status P v') in
       let advances := WaveBuffer.is_looping w = 0 /\ WaveBuffer.buffer_sz w <> 0 in
       let pauses := WaveBuffer.end_of_stream w <> 0 \/ WaveBuffer.buffer_sz w = 0 in
       (moved = size (VoiceState.samples P v1) ->
          VoiceState.offset P v' = 0
          /\ (advances ->
                VoiceState.wave_index P v' = (VoiceState.wave_index P v + 1) mod 4
                /\ VoiceState.is_refresh_pending P v' = true)
          /\ (~ advances ->
                VoiceState.wave_index P v' = VoiceState.wave_index P v
                /\ VoiceState.is_refresh_pending P v' = false)
          /\ (WaveBuffer.buffer_sz w <> 0 ->
                consumed' = wrap32 (consumed + 1)
                /\ (0 <= consumed < 2 ^ 32 - 1 -> consumed' = consumed + 1))
          /\ (WaveBuffer.buffer_sz w = 0 -> consumed' = consumed)
          /\ (pauses ->
                VoiceInfo.play_state (VoiceState.info P v') = PlayState.Paused)
          /\ (~ pauses ->
                VoiceInfo.play_state (VoiceState.info P v') = PlayState.Started))
       /\ (moved <> size (VoiceState.samples P v1) ->
             VoiceState.offset P v' = moved
             /\ VoiceState.wave_index P v' = VoiceState.wave_index P v
             /\ VoiceState.is_refresh_pending P v' = false
             /\ consumed' = consumed
             /\ VoiceInfo.play_state (VoiceState.info P v') = PlayState.Started).
Proof.
  destruct (DequeueSamples_playing P v v' sample_count out Hplaying Hok)
    as (v1 & w & Hr & Hw & _ & _ & Hv').
  destruct (refreshed_keeps P v v1 Hr) as (Hwi & Hoff & Hout & Hinfo & _ & Hpend).
  exists v1, w. rewrite Hinfo, Hwi in Hw. split; [exact Hr|]. split; [exact Hw|].
  assert (Hstarted : VoiceInfo.play_state (VoiceState.info P v1) = PlayState.Started).
  { rewrite Hinfo. unfold VoiceState.IsPlaying in Hplaying.
    apply andb_true_iff in Hplaying. now apply Z.eqb_eq. }
  cbv zeta in *. rewrite Hoff in Hv'. rewrite <- Hwi, <- Hout.
  split; intros Hmoved.
  - apply Z.eqb_eq in Hmoved. rewrite Hmoved in Hv'. subst v'.
    unfold VoiceState.buffer_finished; cbn.
    destruct (Z.eqb_spec (WaveBuffer.is_looping w) 0) as [Hl|Hl];
      destruct (Z.eqb_spec (WaveBuffer.buffer_sz w) 0) as [Hs|Hs];
      destruct (Z.eqb_spec (WaveBuffer.end_of_stream w) 0) as [He|He];
      cbn; rewrite ?Hpend; repeat split; intros;
      repeat match goal with
             | H : _ /\ _ |- _ => destruct H
             | H : _ \/ _ |- _ => destruct H
             end;
      try contradiction; try reflexivity; try exact Hstarted;
      try (exfalso; match goal with Hn : ~ _ |- _ => apply Hn; tauto end);
      try (unfold wrap32; apply Z.mod_small; lia);
      rewrite (proj2 (land_3 _)); apply wrap64_mod_4.
  - apply Z.eqb_neq in Hmoved. rewrite Hmoved in Hv'. subst v'. cbn.
    repeat split; trivial.
Qed.

Lemma DequeueSamples_end_of_buffer_witness :
  let v := Example.last_buffer_voice in
  exists out v',
    VoiceState.IsPlaying Example.loud v = true
    /\ VoiceState.DequeueSamples Example.loud v 512 = Ok (out, v')
    /\ out = repeat 20000 8
    /\ VoiceState.offset Example.loud v' = 0
    /\ VoiceState.wave_index Example.loud v' = 1
    /\ VoiceOutStatus.wave_buffer_consumed (VoiceState.out_status Example.loud v') = 1
    /\ VoiceInfo.play_state (VoiceState.info Example.loud v') = PlayState.Paused.
Proof.
  cbv zeta.
  destruct (VoiceState.DequeueSamples Example.loud Example.last_buffer_voice 512)
    as [[out v']|f] eqn:E; [|vm_compute in E; discriminate E].
  exists out, v'. split; [reflexivity|]. split; [reflexivity|].
  destruct (DequeueSamples_end_of_buffer Example.loud Example.last_buffer_voice
              v' 512 out eq_refl E) as (v1 & w & Hr & Hw & Hend & _).
  vm_compute in Hr. injection Hr as <-.
  vm_compute in Hw. injection Hw as <-.
  destruct (Hend ltac:(vm_compute; reflexivity))
    as (H0 & Hadv & _ & Hcons & _ & Hp & _).
  split; [vm_compute in E; now injection E as <- _|].
  split; [exact H0|].
  split; [apply Hadv; split; [reflexivity | vm_compute; discriminate]|].
  split; [apply Hcons; [vm_compute; discriminate | vm_compute; split; [discriminate | reflexivity]]|].
  apply Hp. left. vm_compute. discriminate.
Defined.

(** C7, as the code has it.  In an update whose parsed info has [is_in_use]
    set: when [is_new] is set too, the wave index becomes
    [wave_buffer_head & 3], the declared head index modulo 4, and a refresh is
    marked pending; when [is_new] is clear, the wave index and the pending
    flag are what they were, whether or not the voice was in use before. *)
Theorem update_voice_resets_when_new (P : Platform) (v : VoiceState.t P)
    (Huse : VoiceInfo.is_in_use (VoiceState.info P v) <> 0) :
  let head := VoiceInfo.wave_buffer_head (VoiceState.info P v) in
  let v' := AudioRenderer.update_voice P v in
  VoiceState.is_in_use P v' = true
  /\ (VoiceInfo.is_new (VoiceState.info P v) <> 0 ->
        VoiceState.wave_index P v' = Z.land head 3
        /\ VoiceState.wave_index P v' = head mod 4
        /\ VoiceState.is_refresh_pending P v' = true)
  /\ (VoiceInfo.is_new (VoiceState.info P v) = 0 ->
        VoiceState.wave_index P v' = VoiceState.wave_index P v
        /\ VoiceState.is_refresh_pending P v'
           = VoiceState.is_refresh_pending P v).
Proof.
  cbv zeta. unfold AudioRenderer.update_voice, VoiceState.GetInfo.
  destruct (UpdateState_still_in_use P v Huse) as (Hflag & Hinfo & Hwi & Hpend).
  rewrite Hinfo. apply Z.eqb_neq in Huse. rewrite Huse.
  destruct (Z.eqb_spec (VoiceInfo.is_new (VoiceState.info P v)) 0) as [Hnew|Hnew];
    cbn [negb].
  - split; [exact Hflag|]. split; [intros H; contradiction|]. intros _. now split.
  - split; [exact Hflag|]. split; [|intros H; contradiction].
    intros _. cbn. split; [reflexivity|]. split; [apply land_3 | reflexivity].
Qed.

Lemma update_voice_resets_when_new_witness :
  let v := Example.new_voice in
  let v' := AudioRenderer.update_voice Example.silent v in
  VoiceInfo.is_in_use (VoiceState.info Example.silent v) <> 0
  /\ VoiceInfo.wave_buffer_head (VoiceState.info Example.silent v) = 6
  /\ VoiceState.wave_index Example.silent v' = 2
  /\ VoiceState.is_refresh_pending Example.silent v' = true.
Proof.
  cbv zeta. split; [vm_compute; discriminate|]. split; [reflexivity|].
  destruct (update_voice_resets_when_new Example.silent Example.new_voice
              ltac:(vm_compute; discriminate)) as (_ & Hnew & _).
  destruct (Hnew ltac:(vm_compute; discriminate)) as (_ & Hwi & Hpend).
  split; [rewrite Hwi; reflexivity | exact Hpend].
Defined.

(** C7 as stated fails.  The slot was not in use; the update marks it in use
    with [is_new] clear and head index 2: the in-use flag goes from false to
    true and the wave index stays 0, with no refresh pending.  The same
    through a whole update call on a new renderer with one voice. *)
Lemma wave_index_kept_without_is_new :
  let v := Example.reused_voice in
  let v' := AudioRenderer.update_voice Example.silent v in
  let call :=
    r0 <- AudioRenderer.create Example.silent (Example.params 1 0) ;;
    AudioRenderer.UpdateAudioRenderer Example.silent r0
      (Example.update_blob (Example.REV 52) [0; 0; 0; 0] 0 1 2) in
  (VoiceState.is_in_use Example.silent v = false
   /\ VoiceState.is_in_use Example.silent v' = true
   /\ VoiceInfo.wave_buffer_head (VoiceState.info Example.silent v') = 2
   /\ VoiceState.wave_index Example.silent v' = 0
   /\ VoiceState.is_refresh_pending Example.silent v' = false)
  /\ is_ok call = true
  /\ map (fun u => (VoiceState.is_in_use Example.silent u,
                    VoiceInfo.wave_buffer_head (VoiceState.info Example.silent u),
                    VoiceState.wave_index Example.silent u))
       (Example.voices_after call)
     = [(true, 2, 0)].
Proof. vm_compute. repeat split. Qed.

(** ** Mixing *)

Lemma ClampToS16_range (value : Z) : -32768 <= ClampToS16 value <= 32767.
Proof. unfold ClampToS16. lia. Qed.

Lemma ClampToS16_inside (value : Z) :
  -32768 <= value <= 32767 -> ClampToS16 value = value.
Proof. unfold ClampToS16. lia. Qed.

Lemma nth_error_update {A} (l : list A) :
  forall (n m : nat) (x : A),
    (n < length l)%nat ->
    nth_error (firstn n l ++ x :: skipn (S n) l) m
    = if (m =? n)%nat then Some x else nth_error l m.
Proof.
  induction l as [|a l IH]; intros n m x Hn; cbn in Hn; [lia|].
  destruct n as [|n], m as [|m]; cbn; trivial.
  apply IH. lia.
Qed.

Lemma set_index_spec {A} (l l' : list A) (i : Z) (x : A) :
  AudioRenderer.set_index l i x = Ok l' ->
  length l' = length l
  /\ 0 <= i < size l
  /\ AudioRenderer.at_index l' i = Ok x
  /\ (forall j, j <> i -> AudioRenderer.at_index l' j = AudioRenderer.at_index l j).
Proof.
  unfold AudioRenderer.set_index, AudioRenderer.at_index, size.
  destruct (Z.leb_spec 0 i) as [Hi|Hi]; [|discriminate].
  destruct (Z.ltb_spec i (Z.of_nat (length l))) as [Hlt|Hge]; [|discriminate].
  cbn [andb]. intros H.
  assert (Hl' : l' = firstn (Z.to_nat i) l ++ x :: skipn (S (Z.to_nat i)) l)
    by congruence.
  subst l'. clear H.
  assert (Hn : (Z.to_nat i < length l)%nat) by lia.
  split.
  { rewrite length_app; cbn [length]. rewrite length_firstn, length_skipn. lia. }
  split; [lia|]. split.
  - rewrite nth_error_update, Nat.eqb_refl by exact Hn. reflexivity.
  - intros j Hj. destruct (0 <=? j) eqn:E; [|reflexivity].
    apply Z.leb_le in E. rewrite nth_error_update by exact Hn.
    destruct (Nat.eqb_spec (Z.to_nat j) (Z.to_nat i)); [lia | reflexivity].
Qed.

Lemma mix_sample_spec (buffer_sample sample mixed : Z) (volume submix : spec_float) :
  AudioRenderer.mix_sample buffer_sample sample volume submix = Ok mixed ->
  exists scaled,
    AudioRenderer.scale_sample sample volume submix = Ok scaled
    /\ mixed = ClampToS16 (buffer_sample + scaled).
Proof.
  unfold AudioRenderer.mix_sample. intros H. bind_ok H.
  destruct (_ && _) in H; [|discriminate].
  injection H as <-. now exists a.
Qed.

Lemma mix_samples_spec (samples : list Z) :
  forall buffer offset volume mix buffer' offset',
    AudioRenderer.mix_samples buffer offset samples volume mix = Ok (buffer', offset') ->
    offset' = offset + size samples
    /\ length buffer' = length buffer
    /\ (samples <> [] -> 0 <= offset /\ offset' <= size buffer)
    /\ (forall i sample,
           nth_error samples i = Some sample ->
           exists old submix scaled,
             AudioRenderer.at_index buffer (offset + Z.of_nat i) = Ok old
             /\ AudioRenderer.at_index mix ((offset + Z.of_nat i) mod 2) = Ok submix
             /\ AudioRenderer.scale_sample sample volume submix = Ok scaled
             /\ AudioRenderer.at_index buffer' (offset + Z.of_nat i)
                = Ok (ClampToS16 (old + scaled)))
    /\ (forall j, j < offset \/ offset' <= j ->
                  AudioRenderer.at_index buffer' j = AudioRenderer.at_index buffer j).
Proof.
  induction samples as [|sample more IH];
    intros buffer offset volume mix buffer' offset' H.
  - cbn in H. injection H as <- <-. unfold size; cbn.
    repeat split; try lia; try congruence.
    intros [|i] s Hs; discriminate Hs.
  - cbn [AudioRenderer.mix_samples] in H.
    bind_ok H. bind_ok H. bind_ok H. bind_ok H.
    rename a into old, a0 into submix, a1 into mixed, a2 into buffer1.
    destruct (mix_sample_spec _ _ _ _ _ E1) as (scaled & Hscaled & ->).
    destruct (set_index_spec _ _ _ _ E2) as (Hlen1 & Hrange & Hat & Hother).
    destruct (IH _ _ _ _ _ _ H) as (Hoff & Hlen & Hin & Hmixed & Hrest).
    assert (Hsize : size (sample :: more) = 1 + size more)
      by (unfold size; cbn [length]; lia).
    assert (Hsize1 : size buffer1 = size buffer) by (unfold size; lia).
    assert (Hmore : 0 <= size more) by (unfold size; lia).
    split; [lia|]. split; [lia|]. split.
    { intros _. split; [lia|]. destruct more as [|s2 more'].
      - unfold size in *; cbn [length] in *. lia.
      - destruct Hin as [_ Hin]; [discriminate|]. lia. }
    split.
    + intros [|i] s Hs.
      * cbn in Hs. injection Hs as <-. exists old, submix, scaled.
        rewrite Z.add_0_r. repeat split; trivial.
        rewrite Hrest by lia. exact Hat.
      * cbn in Hs. destruct (Hmixed i s Hs) as (old' & submix' & scaled' & H1 & H2 & H3 & H4).
        replace (offset + Z.of_nat (S i)) with (offset + 1 + Z.of_nat i) by lia.
        exists old', submix', scaled'. repeat split; trivial.
        rewrite <- Hother by lia. exact H1.
    + intros j Hj. rewrite Hrest by lia. apply Hother. lia.
Qed.

(** ** The loop bound of the mixer is never reached *)

Lemma fuel_free_bind {A B} (c : Result A) (k : A -> Result B) :
  fuel_free c -> (forall a, c = Ok a -> fuel_free (k a)) -> fuel_free (bind c k).
Proof.
  unfold fuel_free. destruct c as [a|f]; cbn; intros Hc Hk.
  - now apply Hk.
  - intros H. apply Hc. congruence.
Qed.

Ltac fuel_free_step :=
  match goal with
  | |- fuel_free (bind _ _) => apply fuel_free_bind; [|intros ? ?]
  | |- fuel_free (Ok _) => unfold fuel_free; discriminate
  | |- fuel_free (Err _) => unfold fuel_free; discriminate
  | |- fuel_free (if ?b then _ else _) => destruct b
  | |- fuel_free (match ?x with _ => _ end) => destruct x
  end.

Lemma at_index_fuel_free {A} (l : list A) (i : Z) :
  fuel_free (AudioRenderer.at_index l i).
Proof. unfold AudioRenderer.at_index. repeat fuel_free_step. Qed.

Lemma set_index_fuel_free {A} (l : list A) (i : Z) (x : A) :
  fuel_free (AudioRenderer.set_index l i x).
Proof. unfold AudioRenderer.set_index. repeat fuel_free_step. Qed.

Lemma mix_sample_fuel_free (b s : Z) (volume submix : spec_float) :
  fuel_free (AudioRenderer.mix_sample b s volume submix).
Proof.
  unfold AudioRenderer.mix_sample, AudioRenderer.scale_sample, F32.to_s32.
  repeat fuel_free_step.
Qed.

Lemma mix_samples_fuel_free (samples : list Z) :
  forall buffer offset volume mix,
    fuel_free (AudioRenderer.mix_samples buffer offset samples volume mix).
Proof.
  induction samples as [|s more IH]; intros; cbn [AudioRenderer.mix_samples].
  - fuel_free_step.
  - fuel_free_step; [apply at_index_fuel_free|].
    fuel_free_step; [apply at_index_fuel_free|].
    fuel_free_step; [apply mix_sample_fuel_free|].
    fuel_free_step; [apply set_index_fuel_free | apply IH].
Qed.

Section MixerFacts.
Variable P : Platform.

Lemma RefreshBuffer_fuel_free (v : VoiceState.t P) :
  fuel_free (VoiceState.RefreshBuffer P v).
Proof.
  unfold VoiceState.RefreshBuffer, VoiceState.wave_buffer_at, VoiceState.allocate.
  fuel_free_step; [repeat fuel_free_step|].
  fuel_free_step; [repeat fuel_free_step|].
  fuel_free_step; [repeat fuel_free_step|].
  fuel_free_step; [repeat fuel_free_step|].
  match goal with p : (list Z * ADPCMState P)%type |- _ => destruct p end.
  fuel_free_step; [repeat fuel_free_step|].
  destruct (if negb _ then _ else _). fuel_free_step.
Qed.

Lemma DequeueSamples_fuel_free (v : VoiceState.t P) (n : Z) :
  fuel_free (VoiceState.DequeueSamples P v n).
Proof.
  unfold VoiceState.DequeueSamples, VoiceState.refreshed, VoiceState.wave_buffer_at.
  fuel_free_step; [fuel_free_step|].
  fuel_free_step.
  { destruct (VoiceState.is_refresh_pending P v);
      [apply RefreshBuffer_fuel_free | fuel_free_step]. }
  fuel_free_step; repeat fuel_free_step.
Qed.

(** A round of [mix_voice] that goes on to the next one has moved the write
    position forward and kept it inside the frame. *)
Lemma mix_voice_fuel_free (fuel : nat) :
  forall num_channels chans v buffer offset samples_remaining,
    0 <= offset ->
    (Z.to_nat (size buffer - offset) < fuel)%nat ->
    fuel_free (AudioRenderer.mix_voice P fuel num_channels chans v buffer offset
                 samples_remaining).
Proof.
  induction fuel as [|fuel IH]; intros num_channels chans v buffer offset rem Hoff Hfuel;
    [lia|].
  cbn [AudioRenderer.mix_voice].
  destruct (rem >? 0); [|fuel_free_step].
  fuel_free_step; [apply DequeueSamples_fuel_free|].
  destruct a as [samples v']. destruct samples as [|s more]; [fuel_free_step|].
  fuel_free_step; [apply at_index_fuel_free|].
  fuel_free_step; [apply mix_samples_fuel_free|].
  destruct a0 as [buffer' offset'].
  destruct (mix_samples_spec _ _ _ _ _ _ _ H1) as (Hoff' & Hlen & Hin & _).
  destruct Hin as [_ Hin]; [discriminate|].
  assert (0 <= size more) by (unfold size; lia).
  assert (size (s :: more) = 1 + size more) by (unfold size; cbn [length]; lia).
  apply IH; [lia|]. unfold size in *. lia.
Qed.

Lemma mix_voice_keeps (fuel : nat) :
  forall num_channels chans v buffer offset samples_remaining v' buffer',
    AudioRenderer.mix_voice P fuel num_channels chans v buffer offset samples_remaining
    = Ok (v', buffer') ->
    length buffer' = length buffer
    /\ (VoiceView.in_ring P v -> VoiceView.in_ring P v')
    /\ (VoiceView.full_ring P v -> VoiceView.full_ring P v').
Proof.
  induction fuel as [|fuel IH]; intros num_channels chans v buffer offset rem v' buffer' H;
    [discriminate H|].
  cbn [AudioRenderer.mix_voice] in H.
  destruct (rem >? 0); [|injection H as <- <-; split; [reflexivity | split; auto]].
  bind_ok H. destruct a as [samples v1].
  assert (Hring : VoiceView.in_ring P v -> VoiceView.in_ring P v1)
    by (intros Hv; eapply DequeueSamples_in_ring; eauto).
  assert (Hfull : VoiceView.full_ring P v -> VoiceView.full_ring P v1).
  { unfold VoiceView.full_ring. intros Hv.
    destruct (VoiceState.IsPlaying P v) eqn:Hplay.
    - destruct (DequeueSamples_playing P v v1 rem samples Hplay E)
        as (v2 & w & Hr & _ & _ & _ & ->).
      destruct (refreshed_keeps P v v2 Hr) as (_ & _ & _ & Hinfo & _).
      cbv zeta. destruct (_ =? _); cbn; [|congruence].
      destruct (_ || _); cbn; congruence.
    - rewrite (DequeueSamples_idle P v rem Hplay) in E. now injection E as _ <-. }
  destruct samples as [|s more]; [injection H as <- <-; split; [reflexivity | split; auto]|].
  bind_ok H. bind_ok H. destruct a0 as [buffer1 offset1].
  destruct (mix_samples_spec _ _ _ _ _ _ _ E1) as (_ & Hlen & _).
  destruct (IH _ _ _ _ _ _ _ _ H) as (Hlen' & Hring' & Hfull').
  split; [congruence|]. split; auto.
Qed.

Lemma mix_voices_fuel_free (vs : list (VoiceState.t P)) :
  forall num_channels chans buffer,
    fuel_free (AudioRenderer.mix_voices P num_channels chans vs buffer).
Proof.
  induction vs as [|v more IH]; intros; cbn [AudioRenderer.mix_voices].
  - fuel_free_step.
  - fuel_free_step.
    { destruct (negb _); [fuel_free_step|].
      apply mix_voice_fuel_free; [lia|]. unfold size. lia. }
    destruct a. fuel_free_step; [apply IH|]. destruct a. fuel_free_step.
Qed.

Lemma mix_voices_keeps (vs : list (VoiceState.t P)) :
  forall num_channels chans buffer vs' buffer',
    AudioRenderer.mix_voices P num_channels chans vs buffer = Ok (vs', buffer') ->
    length buffer' = length buffer
    /\ length vs' = length vs
    /\ (Forall (VoiceView.in_ring P) vs -> Forall (VoiceView.in_ring P) vs')
    /\ (Forall (VoiceView.full_ring P) vs -> Forall (VoiceView.full_ring P) vs').
Proof.
  induction vs as [|v more IH]; intros num_channels chans buffer vs' buffer' H;
    cbn [AudioRenderer.mix_voices] in H.
  - injection H as <- <-. split; [reflexivity | split; [reflexivity | split; auto]].
  - bind_ok H. destruct a as [v1 buffer1]. bind_ok H. destruct a as [more1 buffer2].
    injection H as <- <-.
    destruct (IH _ _ _ _ _ E0) as (Hlen & Hcount & Hring & Hfull).
    assert (Hv : length buffer1 = length buffer
                 /\ (VoiceView.in_ring P v -> VoiceView.in_ring P v1)
                 /\ (VoiceView.full_ring P v -> VoiceView.full_ring P v1)).
    { destruct (negb _) in E.
      - injection E as <- <-. split; [reflexivity | split; auto].
      - eapply mix_voice_keeps; eauto. }
    destruct Hv as (Hlen1 & Hring1 & Hfull1).
    split; [congruence|]. split; [cbn; congruence|].
    split; intros Hall; inversion Hall; subst; constructor; auto.
Qed.

End MixerFacts.

(** ** Queueing mixed frames *)

Section RendererFacts.
Variable P : Platform.

Lemma QueueMixedBuffer_fuel_free (r : AudioRenderer.t P) (tag : Z) :
  fuel_free (AudioRenderer.QueueMixedBuffer P r tag).
Proof.
  unfold AudioRenderer.QueueMixedBuffer, AudioRenderer.MixFrame.
  fuel_free_step; [apply mix_voices_fuel_free|].
  destruct a. destruct (AudioOut.QueueBuffer _ _ _ _). fuel_free_step.
Qed.

Lemma QueueMixedBuffer_spec (r r' : AudioRenderer.t P) (tag : Z) :
  AudioRenderer.QueueMixedBuffer P r tag = Ok r' ->
  Stream.released_buffers (AudioRenderer.stream P r')
  = Stream.released_buffers (AudioRenderer.stream P r)
  /\ (exists taken,
         StreamView.pending_tags (AudioRenderer.stream P r')
         = StreamView.pending_tags (AudioRenderer.stream P r) ++ taken
         /\ (taken = [] \/ taken = [tag]))
  /\ (Forall (VoiceView.in_ring P) (AudioRenderer.voices P r) ->
      Forall (VoiceView.in_ring P) (AudioRenderer.voices P r'))
  /\ (Forall (VoiceView.full_ring P) (AudioRenderer.voices P r) ->
      Forall (VoiceView.full_ring P) (AudioRenderer.voices P r'))
  /\ AudioRenderer.worker_params P r' = AudioRenderer.worker_params P r
  /\ AudioRenderer.effects P r' = AudioRenderer.effects P r
  /\ AudioRenderer.channels P r' = AudioRenderer.channels P r.
Proof.
  unfold AudioRenderer.QueueMixedBuffer, AudioRenderer.MixFrame, AudioOut.QueueBuffer.
  intros H. bind_ok H. destruct a as [vs buffer].
  destruct (mix_voices_keeps P _ _ _ _ _ _ E) as (_ & _ & Hring & Hfull).
  injection H as <-. cbn.
  set (b := {| Stream.GetTag := tag; Stream.GetSamples := buffer |}).
  destruct (QueueBuffer_outcome P (AudioRenderer.stream P r) b) as [Hno Hyes].
  cbv zeta in Hno, Hyes.
  destruct (Stream.accepted (Stream.QueueBuffer P (AudioRenderer.stream P r) b)).
  - destruct (Hyes eq_refl) as (Hp & Hr & _).
    split; [exact Hr|]. split; [exists [tag]; split; [exact Hp | now right]|].
    repeat split; trivial.
  - destruct (Hno eq_refl) as (Hs & _). rewrite Hs.
    split; [reflexivity|]. split; [exists []; split; [now rewrite app_nil_r | now left]|].
    repeat split; trivial.
Qed.

Lemma QueueMixedBuffers_fuel_free (tags : list Z) :
  forall r, fuel_free (AudioRenderer.QueueMixedBuffers P r tags).
Proof.
  induction tags as [|tag more IH]; intros r; cbn [AudioRenderer.QueueMixedBuffers].
  - fuel_free_step.
  - fuel_free_step; [apply QueueMixedBuffer_fuel_free | apply IH].
Qed.

Lemma QueueMixedBuffers_spec (tags : list Z) :
  forall r r',
    AudioRenderer.QueueMixedBuffers P r tags = Ok r' ->
    Stream.released_buffers (AudioRenderer.stream P r')
    = Stream.released_buffers (AudioRenderer.stream P r)
    /\ (exists taken,
           StreamView.pending_tags (AudioRenderer.stream P r')
           = StreamView.pending_tags (AudioRenderer.stream P r) ++ taken
           /\ (length taken <= length tags)%nat
           /\ incl taken tags)
    /\ (Forall (VoiceView.in_ring P) (AudioRenderer.voices P r) ->
      Forall (VoiceView.in_ring P) (AudioRenderer.voices P r'))
    /\ (Forall (VoiceView.full_ring P) (AudioRenderer.voices P r) ->
        Forall (VoiceView.full_ring P) (AudioRenderer.voices P r'))
    /\ AudioRenderer.worker_params P r' = AudioRenderer.worker_params P r
    /\ AudioRenderer.effects P r' = AudioRenderer.effects P r
    /\ AudioRenderer.channels P r' = AudioRenderer.channels P r.
Proof.
  induction tags as [|tag more IH]; intros r r' H;
    cbn [AudioRenderer.QueueMixedBuffers] in H.
  - injection H as <-. split; [reflexivity|].
    split; [exists []; rewrite app_nil_r; repeat split; auto using incl_nil_l|].
    repeat split; auto.
  - bind_ok H.
    destruct (QueueMixedBuffer_spec _ _ _ E)
      as (Hr1 & (t1 & Hp1 & Ht1) & Hring1 & Hfull1 & Hw1 & He1 & Hc1).
    destruct (IH _ _ H) as (Hr2 & (t2 & Hp2 & Hl2 & Hi2) & Hring2 & Hfull2 & Hw2 & He2 & Hc2).
    split; [congruence|]. split.
    { exists (t1 ++ t2). rewrite Hp2, Hp1, app_assoc. split; [reflexivity|].
      destruct Ht1 as [-> | ->]; cbn; split; try lia.
      - now apply incl_tl.
      - apply incl_cons; [now left | now apply incl_tl]. }
    repeat split; auto; congruence.
Qed.

Lemma ReleaseAndQueueBuffers_unfold (r : AudioRenderer.t P) :
  AudioRenderer.ReleaseAndQueueBuffers P r
  = AudioRenderer.QueueMixedBuffers P
      (AudioRenderer.with_stream P r
         (Stream.with_queues (AudioRenderer.stream P r)
            (Stream.queued_buffers (AudioRenderer.stream P r))
            (Stream.active_buffer (AudioRenderer.stream P r))
            (skipn 2 (Stream.released_buffers (AudioRenderer.stream P r)))))
      (map Stream.GetTag (firstn 2 (Stream.released_buffers (AudioRenderer.stream P r)))).
Proof.
  unfold AudioRenderer.ReleaseAndQueueBuffers, AudioOut.GetTagsAndReleaseBuffers.
  now rewrite GetTagsAndReleaseBuffers_spec.
Qed.

Lemma ReleaseAndQueueBuffers_fuel_free (r : AudioRenderer.t P) :
  fuel_free (AudioRenderer.ReleaseAndQueueBuffers P r).
Proof. rewrite ReleaseAndQueueBuffers_unfold. apply QueueMixedBuffers_fuel_free. Qed.

Lemma ReleaseAndQueueBuffers_keeps (r r' : AudioRenderer.t P) :
  AudioRenderer.ReleaseAndQueueBuffers P r = Ok r' ->
  (Forall (VoiceView.in_ring P) (AudioRenderer.voices P r) ->
      Forall (VoiceView.in_ring P) (AudioRenderer.voices P r'))
  /\ (Forall (VoiceView.full_ring P) (AudioRenderer.voices P r) ->
      Forall (VoiceView.full_ring P) (AudioRenderer.voices P r'))
  /\ AudioRenderer.worker_params P r' = AudioRenderer.worker_params P r
  /\ AudioRenderer.effects P r' = AudioRenderer.effects P r.
Proof.
  rewrite ReleaseAndQueueBuffers_unfold. intros H.
  destruct (QueueMixedBuffers_spec _ _ _ H) as (_ & _ & Hring & Hfull & Hw & He & _).
  repeat split; auto.
Qed.

End RendererFacts.

(** C10.  [ReleaseAndQueueBuffers] asks the stream for at most 2 tags: it is
    [QueueMixedBuffer] run once for each of the first two released tags, in
    order, however many buffers are released.  When it returns, those (at
    most two) buffers are gone from the released queue and nothing else is,
    and the buffers pending in the stream are the former ones followed by at
    most two new ones, tagged with drained tags.  The model's loop bound is
    never what stops it. *)
Theorem ReleaseAndQueueBuffers_at_most_two (P : Platform) (r : AudioRenderer.t P) :
  let released := Stream.released_buffers (AudioRenderer.stream P r) in
  let tags := map Stream.GetTag (firstn 2 released) in
  (length tags <= 2)%nat
  /\ fst (AudioOut.GetTagsAndReleaseBuffers (AudioRenderer.stream P r) 2) = tags
  /\ AudioRenderer.ReleaseAndQueueBuffers P r
     = AudioRenderer.QueueMixedBuffers P
         (AudioRenderer.with_stream P r
            (snd (AudioOut.GetTagsAndReleaseBuffers (AudioRenderer.stream P r) 2)))
         tags
  /\ fuel_free (AudioRenderer.ReleaseAndQueueBuffers P r)
  /\ (forall r',
         AudioRenderer.ReleaseAndQueueBuffers P r = Ok r' ->
         Stream.released_buffers (AudioRenderer.stream P r') = skipn 2 released
         /\ (length released - length (Stream.released_buffers (AudioRenderer.stream P r'))
             <= 2)%nat
         /\ exists queued,
             StreamView.pending_tags (AudioRenderer.stream P r')
             = StreamView.pending_tags (AudioRenderer.stream P r) ++ queued
             /\ (length queued <= 2)%nat
             /\ incl queued tags).
Proof.
  cbv zeta.
  assert (Hlen : (length (map Stream.GetTag
                    (firstn 2 (Stream.released_buffers (AudioRenderer.stream P r)))) <= 2)%nat).
  { rewrite length_map. apply firstn_le_length. }
  split; [exact Hlen|].
  unfold AudioOut.GetTagsAndReleaseBuffers.
  rewrite GetTagsAndReleaseBuffers_spec. cbn [fst snd].
  split; [reflexivity|]. split; [apply ReleaseAndQueueBuffers_unfold|].
  split; [apply ReleaseAndQueueBuffers_fuel_free|].
  intros r' H. rewrite ReleaseAndQueueBuffers_unfold in H.
  destruct (QueueMixedBuffers_spec P _ _ _ H) as (Hr & (taken & Hp & Hl & Hi) & _).
  cbn [AudioRenderer.stream AudioRenderer.with_stream Stream.released_buffers
         Stream.with_queues] in Hr.
  assert (Hp' : StreamView.pending_tags (AudioRenderer.stream P r')
                = StreamView.pending_tags (AudioRenderer.stream P r) ++ taken)
    by exact Hp.
  clear Hp. split; [exact Hr|]. split.
  - rewrite Hr, length_skipn. lia.
  - exists taken. split; [exact Hp'|]. split; [lia | exact Hi].
Qed.

Lemma ReleaseAndQueueBuffers_at_most_two_witness :
  let r := Example.two_loud_voices in
  exists r',
    length (Stream.released_buffers (AudioRenderer.stream Example.loud r)) = 5%nat
    /\ AudioRenderer.ReleaseAndQueueBuffers Example.loud r = Ok r'
    /\ map Stream.GetTag (Stream.released_buffers (AudioRenderer.stream Example.loud r'))
       = [9; 10; 11]
    /\ StreamView.pending_tags (AudioRenderer.stream Example.loud r') = [7; 8].
Proof.
  cbv zeta.
  destruct (AudioRenderer.ReleaseAndQueueBuffers Example.loud Example.two_loud_voices)
    as [r'|f] eqn:E; [|vm_compute in E; discriminate E].
  exists r'. split; [reflexivity|]. split; [reflexivity|].
  destruct (ReleaseAndQueueBuffers_at_most_two Example.loud Example.two_loud_voices)
    as (_ & _ & _ & _ & H).
  destruct (H r' E) as (Hr & _ & _).
  split; [rewrite Hr; reflexivity|].
  vm_compute in E. injection E as <-. reflexivity.
Defined.

Lemma Forall_firstn_skipn {A} (Q : A -> Prop) (n : nat) (l : list A) :
  Forall Q l -> Forall Q (firstn n l) /\ Forall Q (skipn n l).
Proof. intros H. apply Forall_app. rewrite firstn_skipn. exact H. Qed.

Lemma at_index_inside {A} (l : list A) (i : Z) :
  0 <= i < size l ->
  exists a, AudioRenderer.at_index l i = Ok a /\ In a l.
Proof.
  intros Hi. unfold AudioRenderer.at_index, size in *.
  destruct (Z.leb_spec 0 i); [|lia].
  destruct (nth_error l (Z.to_nat i)) as [a|] eqn:E.
  - exists a. split; [reflexivity|]. eapply nth_error_In; eauto.
  - apply nth_error_None in E. lia.
Qed.

(** The innermost loop returns when it stays inside the frame and every
    product fits: a frame slot is an [s16], so a product within
    [-2147450880, 2147450880] keeps the sum an [s32]. *)
Lemma mix_samples_returns (samples : list Z) (volume : spec_float)
    (mix : list spec_float) :
  (forall sample parity,
      In sample samples -> parity = 0 \/ parity = 1 ->
      exists gain scaled,
        AudioRenderer.at_index mix parity = Ok gain
        /\ AudioRenderer.scale_sample sample volume gain = Ok scaled
        /\ -2147450880 <= scaled <= 2147450880) ->
  forall buffer offset,
    0 <= offset ->
    offset + size samples <= size buffer ->
    Forall FrameView.is_s16 buffer ->
    exists buffer',
      AudioRenderer.mix_samples buffer offset samples volume mix
      = Ok (buffer', offset + size samples)
      /\ Forall FrameView.is_s16 buffer'.
Proof.
  induction samples as [|sample more IH]; intros Hfits buffer offset H0 Hroom Hb;
    cbn [AudioRenderer.mix_samples].
  - exists buffer. unfold size; cbn [length]. rewrite Z.add_0_r. now split.
  - assert (Hsize : size (sample :: more) = 1 + size more)
      by (unfold size; cbn [length]; lia).
    assert (Hmore : 0 <= size more) by (unfold size; lia).
    destruct (at_index_inside buffer offset ltac:(lia)) as (old & Hold & Hin).
    rewrite Hold. cbn [bind].
    assert (Hold16 : FrameView.is_s16 old)
      by (rewrite Forall_forall in Hb; apply Hb; exact Hin).
    destruct (Hfits sample (offset mod 2) (or_introl eq_refl))
      as (gain & scaled & Hgain & Hscaled & Hrange).
    { pose proof (Z.mod_pos_bound offset 2 ltac:(lia)). lia. }
    rewrite Hgain. cbn [bind].
    unfold AudioRenderer.mix_sample. rewrite Hscaled. cbn [bind].
    unfold FrameView.is_s16 in Hold16.
    destruct (Z.leb_spec (-2147483648) (old + scaled)); [|lia].
    destruct (Z.leb_spec (old + scaled) 2147483647); [|lia].
    cbn [andb bind]. unfold AudioRenderer.set_index.
    destruct (Z.leb_spec 0 offset); [|lia].
    destruct (Z.ltb_spec offset (size buffer)); [|lia].
    cbn [andb bind].
    destruct (Forall_firstn_skipn _ (Z.to_nat offset) _ Hb) as [Hf _].
    destruct (Forall_firstn_skipn _ (S (Z.to_nat offset)) _ Hb) as [_ Hs].
    destruct (IH (fun s p Hs' Hp => Hfits s p (or_intror Hs') Hp)
                (firstn (Z.to_nat offset) buffer
                 ++ ClampToS16 (old + scaled) :: skipn (S (Z.to_nat offset)) buffer)
                (offset + 1)) as (buffer' & Hmix & Hb').
    + lia.
    + unfold size in *. rewrite length_app, length_firstn. cbn [length].
      rewrite length_skipn. lia.
    + apply Forall_app. split; [exact Hf|]. constructor; [|exact Hs].
      apply ClampToS16_range.
    + exists buffer'. rewrite Hmix, Hsize. split; [f_equal; f_equal; lia | exact Hb'].
Qed.

Lemma all_from_spec (p : Z -> bool) (n : nat) :
  forall from,
    GainExample.all_from n from p = true ->
    forall z, from <= z < from + Z.of_nat n -> p z = true.
Proof.
  induction n as [|n IH]; intros from H z Hz; [lia|].
  cbn [GainExample.all_from] in H. apply andb_prop in H. destruct H as [Hp Hrest].
  destruct (Z.eq_dec z from) as [->|Hne]; [exact Hp|].
  apply (IH (from + 1) Hrest). lia.
Qed.

Lemma all_s16_spec (p : Z -> bool) :
  GainExample.all_s16 p = true -> forall z, FrameView.is_s16 z -> p z = true.
Proof.
  unfold GainExample.all_s16, FrameView.is_s16. intros H z Hz.
  apply (all_from_spec p _ _ H). lia.
Qed.

Lemma scales_to_spec (volume gain : spec_float) (expected : Z -> Z) (sample : Z) :
  GainExample.scales_to volume gain expected sample = true ->
  AudioRenderer.scale_sample sample volume gain = Ok (expected sample).
Proof.
  unfold GainExample.scales_to.
  destruct (AudioRenderer.scale_sample sample volume gain) as [scaled|f];
    [|discriminate].
  intros H. apply Z.eqb_eq in H. now subst.
Qed.

(** A gain that turns every 16-bit sample into [expected]. *)
Lemma scales_every_sample (volume gain : spec_float) (expected : Z -> Z) :
  GainExample.all_s16 (GainExample.scales_to volume gain expected) = true ->
  forall sample,
    FrameView.is_s16 sample ->
    AudioRenderer.scale_sample sample volume gain = Ok (expected sample).
Proof.
  intros H sample Hs. apply scales_to_spec. exact (all_s16_spec _ H sample Hs).
Qed.

(** C6.  The innermost loop of [QueueMixedBuffer] takes the samples a voice
    has dequeued one by one, in order, to consecutive slots of the frame:
    the sample is converted to [float], multiplied by the voice's volume and
    then by [mix[offset % 2]], truncated to an [s32], added to what the slot
    holds, and the sum is clamped to [-32768, 32767]; no other slot changes.
    The loop returns whenever it stays inside the frame and every product is
    within 2^31 - 32768 of zero.  The product is the product: at volume and
    gain 1.0 every 16-bit sample is left as it is, 0.5 halves it toward
    zero, -1.0 negates it, a zero volume silences it, and 0.7 * 0.7 takes
    100 to 49; so at unit volume and gain a slot gets the clamped sum of
    what it held and the sample, and two playing voices that both hold
    +20000 give 32767 where one alone gives 20000 (and 10000 at volume
    0.5).  The conversion to [s32] comes before the clamp, though: at
    volume 1.0e6 the product of +20000 is 2.0e10, the conversion is
    undefined, and no frame is mixed. *)
Theorem mixing_accumulates_with_saturation :
  (forall (buffer buffer' : list Z) (offset offset' : Z) (samples : list Z)
          (volume : spec_float) (mix : list spec_float),
      AudioRenderer.mix_samples buffer offset samples volume mix
      = Ok (buffer', offset') ->
      (forall i sample,
          nth_error samples i = Some sample ->
          exists old gain scaled,
            AudioRenderer.at_index buffer (offset + Z.of_nat i) = Ok old
            /\ AudioRenderer.at_index mix ((offset + Z.of_nat i) mod 2) = Ok gain
            /\ F32.to_s32 (F32.mul (F32.mul (F32.of_int sample) volume) gain)
               = Ok scaled
            /\ AudioRenderer.at_index buffer' (offset + Z.of_nat i)
               = Ok (ClampToS16 (old + scaled))
            /\ -32768 <= ClampToS16 (old + scaled) <= 32767
            /\ (32767 <= old + scaled -> ClampToS16 (old + scaled) = 32767)
            /\ (old + scaled <= -32768 -> ClampToS16 (old + scaled) = -32768)
            /\ (-32768 <= old + scaled <= 32767 ->
                ClampToS16 (old + scaled) = old + scaled))
      /\ (forall j, j < offset \/ offset' <= j ->
                    AudioRenderer.at_index buffer' j = AudioRenderer.at_index buffer j)
      /\ offset' = offset + size samples
      /\ length buffer' = length buffer)
  /\ (forall (P : Platform) fuel num_channels chans (v v' : VoiceState.t P)
             frame position remaining dequeued channel,
         remaining > 0 ->
         VoiceState.DequeueSamples P v remaining = Ok (dequeued, v') ->
         dequeued <> [] ->
         AudioRenderer.at_index chans (VoiceInfo.id (VoiceState.info P v')) = Ok channel ->
         AudioRenderer.mix_voice P (S fuel) num_channels chans v frame position remaining
         = (' (frame', position') <-
              AudioRenderer.mix_samples frame position dequeued
                (VoiceInfo.volume (VoiceState.info P v'))
                (ChannelInfoIn.mix (ChannelState.info channel)) ;;
            AudioRenderer.mix_voice P fuel num_channels chans v' frame' position'
              (remaining - size dequeued / num_channels)))
  /\ (forall (buffer : list Z) (offset : Z) (samples : list Z)
             (volume : spec_float) (mix : list spec_float),
         0 <= offset ->
         offset + size samples <= size buffer ->
         Forall FrameView.is_s16 buffer ->
         (forall sample parity,
             In sample samples -> parity = 0 \/ parity = 1 ->
             exists gain scaled,
               AudioRenderer.at_index mix parity = Ok gain
               /\ AudioRenderer.scale_sample sample volume gain = Ok scaled
               /\ -2147450880 <= scaled <= 2147450880) ->
         exists buffer',
           AudioRenderer.mix_samples buffer offset samples volume mix
           = Ok (buffer', offset + size samples))
  /\ (forall sample,
         FrameView.is_s16 sample ->
         AudioRenderer.scale_sample sample F32.one F32.one = Ok sample
         /\ AudioRenderer.scale_sample sample GainExample.half F32.one
            = Ok (Z.quot sample 2)
         /\ AudioRenderer.scale_sample sample F32.one GainExample.half
            = Ok (Z.quot sample 2)
         /\ AudioRenderer.scale_sample sample GainExample.minus_one F32.one
            = Ok (- sample)
         /\ AudioRenderer.scale_sample sample (S754_zero false) F32.one = Ok 0)
  /\ AudioRenderer.scale_sample 100 GainExample.seven_tenths GainExample.seven_tenths
     = Ok 49
  /\ (forall old sample,
         FrameView.is_s16 old -> FrameView.is_s16 sample ->
         AudioRenderer.mix_sample old sample F32.one F32.one
         = Ok (ClampToS16 (old + sample)))
  /\ Example.frame_of Example.one_loud_voice = repeat 20000 8 ++ repeat 0 1016
  /\ Example.frame_of Example.two_loud_voices = repeat 32767 8 ++ repeat 0 1016
  /\ Example.frame_of (GainExample.renderer_at GainExample.half)
     = repeat 10000 8 ++ repeat 0 1016
  /\ AudioRenderer.scale_sample 20000 GainExample.million F32.one
     = Err UndefinedBehaviour
  /\ AudioRenderer.MixFrame Example.loud (GainExample.renderer_at GainExample.million)
     = Err UndefinedBehaviour.
Proof.
  assert (Hunit : forall sample, FrameView.is_s16 sample ->
                    AudioRenderer.scale_sample sample F32.one F32.one = Ok sample).
  { apply (scales_every_sample F32.one F32.one (fun z => z)).
    vm_compute. reflexivity. }
  split.
  { intros buffer buffer' offset offset' samples volume mix Hmixed.
    destruct (mix_samples_spec _ _ _ _ _ _ _ Hmixed) as (Hoff & Hlen & _ & Hin & Hout).
    split; [|split; [exact Hout | split; [exact Hoff | exact Hlen]]].
    intros i sample Hi.
    destruct (Hin i sample Hi) as (old & gain & scaled & H1 & H2 & H3 & H4).
    exists old, gain, scaled. unfold AudioRenderer.scale_sample in H3.
    repeat split; trivial; try apply ClampToS16_range;
      unfold ClampToS16; lia. }
  split.
  { intros P fuel num_channels chans v v' frame position remaining dequeued channel
      Hrem Hdeq Hne Hchan.
    cbn [AudioRenderer.mix_voice].
    destruct (Z.gtb_spec remaining 0) as [_|Hle]; [|lia].
    rewrite Hdeq. cbn [bind].
    destruct dequeued as [|s0 more]; [contradiction|].
    unfold VoiceState.GetInfo, ChannelState.GetInfo. rewrite Hchan. reflexivity. }
  split.
  { intros buffer offset samples volume mix H0 Hroom Hb Hfits.
    destruct (mix_samples_returns samples volume mix Hfits buffer offset H0 Hroom Hb)
      as (buffer' & Hmix & _).
    exists buffer'. exact Hmix. }
  split.
  { intros sample Hs. split; [exact (Hunit sample Hs)|].
    split; [|split; [|split]].
    - apply (scales_every_sample GainExample.half F32.one (fun z => Z.quot z 2));
        [vm_compute; reflexivity | exact Hs].
    - apply (scales_every_sample F32.one GainExample.half (fun z => Z.quot z 2));
        [vm_compute; reflexivity | exact Hs].
    - apply (scales_every_sample GainExample.minus_one F32.one Z.opp);
        [vm_compute; reflexivity | exact Hs].
    - apply (scales_every_sample (S754_zero false) F32.one (fun _ => 0));
        [vm_compute; reflexivity | exact Hs]. }
  split; [vm_compute; reflexivity|].
  split.
  { intros old sample Ho Hs. unfold AudioRenderer.mix_sample.
    rewrite (Hunit sample Hs). cbn [bind].
    unfold FrameView.is_s16 in Ho, Hs.
    destruct (Z.leb_spec (-2147483648) (old + sample)); [|lia].
    destruct (Z.leb_spec (old + sample) 2147483647); [|lia].
    reflexivity. }
  repeat split; vm_compute; reflexivity.
Qed.

Lemma mixing_accumulates_with_saturation_witness :
  exists buffer',
    AudioRenderer.mix_samples [20000; 20000; -3; 0] 0 [20000; 20000; -7]
      GainExample.half (repeat F32.one 24)
    = Ok (buffer', 3)
    /\ AudioRenderer.at_index buffer' 0 = Ok 30000
    /\ AudioRenderer.at_index buffer' 2 = Ok (-6)
    /\ AudioRenderer.at_index buffer' 3 = Ok 0.
Proof.
  destruct mixing_accumulates_with_saturation as (Hloop & _ & Hreturns & Hproduct & _).
  destruct (Hreturns [20000; 20000; -3; 0] 0 [20000; 20000; -7]
              GainExample.half (repeat F32.one 24)) as [buffer' E].
  - lia.
  - vm_compute. discriminate.
  - repeat constructor; unfold FrameView.is_s16; lia.
  - intros sample parity Hin Hp. exists F32.one, (Z.quot sample 2).
    assert (Hs : FrameView.is_s16 sample).
    { unfold FrameView.is_s16.
      destruct Hin as [<-|[<-|[<-|[]]]]; lia. }
    split; [destruct Hp as [->| ->]; reflexivity|].
    split; [apply Hproduct; exact Hs|].
    destruct Hin as [<-|[<-|[<-|[]]]]; vm_compute; split; discriminate.
  - exists buffer'. change (0 + size [20000; 20000; -7]) with 3 in E.
    split; [exact E|].
    destruct (Hloop _ _ _ _ _ _ _ E) as (Hin & Hout & _).
    destruct (Hin 0%nat 20000 eq_refl) as (old0 & g0 & s0 & Ho0 & Hg0 & Hs0 & Hb0 & _).
    destruct (Hin 2%nat (-7) eq_refl) as (old2 & g2 & s2 & Ho2 & Hg2 & Hs2 & Hb2 & _).
    vm_compute in Ho0, Hg0, Ho2, Hg2.
    injection Ho0 as <-. injection Hg0 as <-. injection Ho2 as <-. injection Hg2 as <-.
    vm_compute in Hs0, Hs2. injection Hs0 as <-. injection Hs2 as <-.
    split; [exact Hb0|]. split; [exact Hb2|].
    rewrite Hout by lia. reflexivity.
Defined.

(** ** Bytes *)

Lemma to_Z_of_Z (z : Z) : Bytes.to_Z (Bytes.of_Z z) = z mod 256.
Proof.
  unfold Bytes.to_Z, Bytes.of_Z, wrap8. change (2 ^ 8) with 256.
  assert (Hz : 0 <= z mod 256 < 256) by (apply Z.mod_pos_bound; lia).
  destruct (Byte.of_N (Z.to_N (z mod 256))) as [b|] eqn:E.
  - apply Byte.to_of_N in E. rewrite E. lia.
  - apply Byte.of_N_None_iff in E. lia.
Qed.

Lemma le_shift (width : nat) :
  forall (b : byte) (c : list byte) (off : nat),
    Bytes.le width (b :: c) (S off) = Bytes.le width c off.
Proof.
  induction width as [|w IH]; intros b c off; cbn [Bytes.le]; trivial.
  rewrite IH. reflexivity.
Qed.

Lemma le_app_r (width : nat) (a : list byte) :
  forall (c : list byte) (off : nat),
    Bytes.le width (a ++ c) (length a + off) = Bytes.le width c off.
Proof.
  induction a as [|b a IH]; intros c off; cbn [length app Nat.add]; trivial.
  rewrite le_shift. apply IH.
Qed.

Lemma le_app_l (width : nat) :
  forall (a c : list byte) (off : nat),
    (off + width <= length a)%nat ->
    Bytes.le width (a ++ c) off = Bytes.le width a off.
Proof.
  induction width as [|w IH]; intros a c off H; cbn [Bytes.le]; trivial.
  rewrite IH by lia. unfold Bytes.u8. rewrite app_nth1 by lia. reflexivity.
Qed.

Lemma le_firstn (width : nat) (n : nat) (c : list byte) (off : nat) :
  (off + width <= n)%nat -> (n <= length c)%nat ->
  Bytes.le width (firstn n c) off = Bytes.le width c off.
Proof.
  intros H Hn. rewrite <- (firstn_skipn n c) at 2.
  symmetry. apply le_app_l. rewrite length_firstn. lia.
Qed.

Lemma length_put (width : nat) : forall z, length (Bytes.put width z) = width.
Proof. induction width as [|w IH]; intros z; cbn; [trivial | now rewrite IH]. Qed.

Lemma le_put (width : nat) :
  forall (z : Z) (rest : list byte),
    Bytes.le width (Bytes.put width z ++ rest) 0 = z mod 256 ^ Z.of_nat width.
Proof.
  induction width as [|w IH]; intros z rest.
  - cbn. now rewrite Z.mod_1_r.
  - cbn [Bytes.put Bytes.le app]. rewrite le_shift, IH.
    unfold Bytes.u8; cbn [nth]. rewrite to_Z_of_Z.
    rewrite Nat2Z.inj_succ, Z.pow_succ_r by lia.
    rewrite Z.rem_mul_r by lia. reflexivity.
Qed.

(** A copy that returns has written inside the vector, unless it wrote
    nothing. *)
Lemma memcpy_to_spec (dst src dst' : list byte) (off : Z) :
  Bytes.memcpy_to dst off src = Ok dst' ->
  src <> [] \/ 0 <= off <= size dst ->
  length dst' = length dst
  /\ 0 <= off /\ off + size src <= size dst
  /\ dst' = firstn (Z.to_nat off) dst ++ src
            ++ skipn (Z.to_nat off + length src) dst.
Proof.
  unfold Bytes.memcpy_to, size.
  destruct (Z.eqb_spec (Z.of_nat (length src)) 0) as [Hz|Hz].
  - destruct src as [|b src]; [|cbn [length] in Hz; lia].
    intros Hc [Hne|Hoff]; [contradiction|]. injection Hc as <-.
    cbn [length app]. rewrite Nat.add_0_r, firstn_skipn.
    repeat split; trivial; lia.
  - destruct (Z.leb_spec 0 off); [|discriminate].
    destruct (Z.leb_spec (off + Z.of_nat (length src)) (Z.of_nat (length dst)));
      [|discriminate].
    cbn [andb]. intros Hc _.
    assert (Hd : dst' = firstn (Z.to_nat off) dst ++ src
                        ++ skipn (Z.to_nat off + length src) dst) by congruence.
    clear Hc. subst dst'. split; [|repeat split; trivial].
    rewrite !length_app, length_firstn, length_skipn. lia.
Qed.

Lemma memcpy_to_image (dst src dst' : list byte) (off : Z) :
  Bytes.memcpy_to dst off src = Ok dst' ->
  length dst' = length dst
  /\ dst' = firstn (Z.to_nat off) dst ++ src
            ++ skipn (Z.to_nat off + length src) dst.
Proof.
  intros H. destruct src as [|b src].
  - unfold Bytes.memcpy_to in H. cbn in H. injection H as <-.
    cbn [length app]. rewrite Nat.add_0_r, firstn_skipn. split; reflexivity.
  - assert (Hne : b :: src <> []) by discriminate.
    destruct (memcpy_to_spec _ _ _ _ H (or_introl Hne)) as (Hl & _ & _ & Hd).
    split; assumption.
Qed.

Lemma memcpy_to_prefix (dst src dst' : list byte) (off : Z) (k : nat) :
  Bytes.memcpy_to dst off src = Ok dst' ->
  (k <= Z.to_nat off)%nat ->
  firstn k dst' = firstn k dst.
Proof.
  intros H Hk. destruct src as [|b src].
  - unfold Bytes.memcpy_to in H. cbn in H. injection H as <-. reflexivity.
  - assert (Hne : b :: src <> []) by discriminate.
    destruct (memcpy_to_spec _ _ _ _ H (or_introl Hne)) as (_ & H0 & Hfit & ->).
    unfold size in Hfit.
    rewrite firstn_app, length_firstn.
    replace (k - Nat.min (Z.to_nat off) (length dst))%nat with 0%nat by lia.
    rewrite firstn_O, app_nil_r, firstn_firstn. f_equal. lia.
Qed.

(** A copy that returns has read inside the vector, unless it read nothing. *)
Lemma memcpy_from_spec (data chunk : list byte) (off len : Z) :
  Bytes.memcpy_from data off len = Ok chunk ->
  len <> 0 \/ 0 <= off <= size data ->
  0 <= off /\ 0 <= len /\ off + len <= size data
  /\ chunk = firstn (Z.to_nat len) (skipn (Z.to_nat off) data).
Proof.
  unfold Bytes.memcpy_from.
  destruct (Z.eqb_spec len 0) as [->|Hlen].
  - intros Hc [Hne|Hoff]; [contradiction|].
    injection Hc as <-. repeat split; lia.
  - destruct (Z.leb_spec 0 off); [|discriminate].
    destruct (Z.leb_spec 0 len); [|discriminate].
    destruct (Z.leb_spec (off + len) (size data)); [|discriminate].
    cbn [andb]. intros Hc _. repeat split; trivial. congruence.
Qed.

Lemma memcpy_from_chunk (data chunk : list byte) (off len : Z) :
  Bytes.memcpy_from data off len = Ok chunk ->
  chunk = firstn (Z.to_nat len) (skipn (Z.to_nat off) data).
Proof.
  unfold Bytes.memcpy_from.
  destruct (Z.eqb_spec len 0) as [->|Hlen].
  - intros Hc. injection Hc as <-. reflexivity.
  - destruct (_ && _); [|discriminate]. congruence.
Qed.

Lemma memcpy_from_fits (input : list byte) (offset len : Z) :
  0 <= offset -> 0 <= len -> offset + len <= size input ->
  Bytes.memcpy_from input offset len = Ok (Layout.slice input offset len).
Proof.
  intros H0 H1 H2. unfold Bytes.memcpy_from, Layout.slice.
  destruct (Z.eqb_spec len 0) as [->|Hlen]; [reflexivity|].
  destruct (Z.leb_spec 0 offset); [|lia].
  destruct (Z.leb_spec 0 len); [|lia].
  destruct (Z.leb_spec (offset + len) (size input)); [|lia].
  reflexivity.
Qed.

(** The copies of the update call that always move bytes, or start at the
    front of a vector. *)
Ltac copy_side :=
  solve [ left; unfold UpdateDataHeader.sizeof, VoiceInfo.sizeof,
                  ChannelInfoIn.sizeof, EffectInStatus.sizeof; lia
        | right; unfold size; lia ].

Section CopyFacts.
Variable P : Platform.

Lemma copy_out_spec {A} (image : A -> list byte) (sizeof : Z) (xs : list A) :
  0 <= sizeof ->
  forall output offset output',
    AudioRenderer.copy_out image sizeof output offset xs = Ok output' ->
    length output' = length output
    /\ forall k, (k <= Z.to_nat offset)%nat -> firstn k output' = firstn k output.
Proof.
  intros Hsz. induction xs as [|x more IH]; intros output offset output' H;
    cbn [AudioRenderer.copy_out] in H.
  - injection H as <-. now split.
  - bind_ok H. destruct (memcpy_to_image _ _ _ _ E) as (Hlen & _).
    destruct (IH _ _ _ H) as (Hlen' & Hpre).
    split; [congruence|]. intros k Hk.
    rewrite Hpre by lia. eapply memcpy_to_prefix; eauto.
Qed.

Lemma copy_infos_spec {A} (set : A -> list byte -> A) (sizeof : Z)
    (input : list byte) (xs : list A) :
  forall offset xs' last,
    AudioRenderer.copy_infos set sizeof input offset xs = Ok (xs', last) ->
    Forall2 (fun x x' => exists c, x' = set x c) xs xs'.
Proof.
  induction xs as [|x more IH]; intros offset xs' last H;
    cbn [AudioRenderer.copy_infos] in H.
  - injection H as <- _. constructor.
  - bind_ok H. bind_ok H. destruct a0 as [more' last'].
    injection H as <- _. constructor; [now exists a | eapply IH; eauto].
Qed.

End CopyFacts.

(** ** The update call, step by step *)

Section UpdateFacts.
Variable P : Platform.

(** What a call that returns went through. *)
Lemma UpdateAudioRenderer_steps (r r' : AudioRenderer.t P) (input output : list byte) :
  AudioRenderer.UpdateAudioRenderer P r input = Ok (output, r') ->
  exists header mem_pool_info voices1 channels1 effects1 effects2
         out1 pool_bytes out2 out3,
    let params := AudioRenderer.worker_params P r in
    let response := AudioRenderer.response_header params (UpdateDataHeader.parse header) in
    Bytes.memcpy_from input 0 UpdateDataHeader.sizeof = Ok header
    /\ AudioRenderer.read_mem_pool_info params input = Ok mem_pool_info
    /\ Forall2 (fun v v1 => exists c, v1 = VoiceState.SetInfo P v (VoiceInfo.parse c))
         (AudioRenderer.voices P r) voices1
    /\ AudioRenderer.update_effects P effects1 = Ok effects2
    /\ AudioRenderer.ReleaseAndQueueBuffers P
         {| AudioRenderer.worker_params := params;
            AudioRenderer.channels := channels1;
            AudioRenderer.voices := map (AudioRenderer.update_voice P) voices1;
            AudioRenderer.effects := effects2;
            AudioRenderer.stream := AudioRenderer.stream P r |} = Ok r'
    /\ Bytes.memcpy_to
         (Bytes.zeros (UpdateDataHeader.total_size (UpdateDataHeader.create params)))
         0 (UpdateDataHeader.image response) = Ok out1
    /\ Bytes.memcpy_from
         (concat (map MemoryPoolEntry.image (AudioRenderer.memory_pool_of mem_pool_info)))
         0 (UpdateDataHeader.memory_pools_size response) = Ok pool_bytes
    /\ Bytes.memcpy_to out1 UpdateDataHeader.sizeof pool_bytes = Ok out2
    /\ AudioRenderer.copy_out
         (fun v => VoiceOutStatus.image (VoiceState.GetOutStatus P v))
         VoiceOutStatus.sizeof out2
         (UpdateDataHeader.sizeof + UpdateDataHeader.memory_pools_size response)
         (AudioRenderer.voices P r') = Ok out3
    /\ AudioRenderer.copy_out
         (fun e => EffectOutStatus.image (EffectState.GetOutStatus e))
         EffectOutStatus.sizeof out3
         (UpdateDataHeader.sizeof + UpdateDataHeader.memory_pools_size response
          + UpdateDataHeader.voices_size response
          + UpdateDataHeader.voice_resource_size response)
         (AudioRenderer.effects P r') = Ok output.
Proof.
  unfold AudioRenderer.UpdateAudioRenderer. intros H.
  bind_ok H. rename a into header.
  bind_ok H. rename a into mem_pool_info.
  bind_ok H. destruct a as [voices1 voice_end].
  bind_ok H. destruct a as [channels1 channel_end].
  bind_ok H. destruct a as [effects1 effect_end].
  bind_ok H. rename a into effects2.
  bind_ok H. rename a into r3.
  bind_ok H. rename a into out1.
  bind_ok H. rename a into pool_bytes.
  bind_ok H. rename a into out2.
  bind_ok H. rename a into out3.
  bind_ok H. injection H as <- <-.
  exists header, mem_pool_info, voices1, channels1, effects1, effects2,
    out1, pool_bytes, out2, out3.
  cbv zeta. repeat split; trivial.
  eapply copy_infos_spec; eauto.
Qed.

Lemma SetInfo_parse_rings (v : VoiceState.t P) (c : list byte) :
  (VoiceView.in_ring P v ->
   VoiceView.in_ring P (VoiceState.SetInfo P v (VoiceInfo.parse c)))
  /\ VoiceView.full_ring P (VoiceState.SetInfo P v (VoiceInfo.parse c)).
Proof. split; [trivial | reflexivity]. Qed.

Lemma update_voice_full_ring (v : VoiceState.t P) :
  VoiceView.full_ring P v -> VoiceView.full_ring P (AudioRenderer.update_voice P v).
Proof.
  unfold VoiceView.full_ring, AudioRenderer.update_voice, VoiceState.UpdateState.
  destruct (_ && _); cbn; destruct (_ =? 0); cbn; trivial;
    destruct (negb _); cbn; trivial.
Qed.

Lemma UpdateAudioRenderer_rings (r r' : AudioRenderer.t P) (input output : list byte) :
  AudioRenderer.UpdateAudioRenderer P r input = Ok (output, r') ->
  Forall (VoiceView.in_ring P) (AudioRenderer.voices P r) ->
  Forall (VoiceView.in_ring P) (AudioRenderer.voices P r')
  /\ Forall (VoiceView.full_ring P) (AudioRenderer.voices P r').
Proof.
  intros H Hr.
  destruct (UpdateAudioRenderer_steps _ _ _ _ H)
    as (header & mem_pool_info & voices1 & channels1 & effects1
        & effects2 & out1 & pool_bytes & out2 & out3 & Hsteps).
  cbv zeta in Hsteps. destruct Hsteps as (_ & _ & Hv1 & _ & Hq & _).
  destruct (ReleaseAndQueueBuffers_keeps P _ _ Hq) as (Hring & Hfull & _).
  cbn [AudioRenderer.voices] in Hring, Hfull.
  assert (H1 : Forall (VoiceView.in_ring P) voices1
               /\ Forall (VoiceView.full_ring P) voices1).
  { clear Hq Hring Hfull. induction Hv1 as [|v v1 vs vs1 [c ->] _ IH].
    - split; constructor.
    - inversion Hr; subst. destruct (IH H3) as [IH1 IH2].
      destruct (SetInfo_parse_rings v c) as [Hs1 Hs2].
      split; constructor; auto. }
  destruct H1 as [H1 H2]. split.
  - apply Hring. apply Forall_map. eapply Forall_impl; [|exact H1].
    intros v. apply update_voice_in_ring.
  - apply Hfull. apply Forall_map. eapply Forall_impl; [|exact H2].
    intros v. apply update_voice_full_ring.
Qed.

Lemma create_rings (params : AudioRendererParameter.t) (r : AudioRenderer.t P) :
  AudioRenderer.create P params = Ok r ->
  Forall (VoiceView.in_ring P) (AudioRenderer.voices P r)
  /\ Forall (VoiceView.full_ring P) (AudioRenderer.voices P r).
Proof.
  unfold AudioRenderer.create. intros H. bind_ok H. bind_ok H.
  destruct (QueueMixedBuffer_spec P _ _ _ E) as (_ & _ & Hr1 & Hf1 & _).
  destruct (QueueMixedBuffer_spec P _ _ _ E0) as (_ & _ & Hr2 & Hf2 & _).
  destruct (QueueMixedBuffer_spec P _ _ _ H) as (_ & _ & Hr3 & Hf3 & _).
  cbn [AudioRenderer.voices] in Hr1, Hf1.
  split.
  - apply Hr3, Hr2, Hr1. apply Forall_forall. intros v Hv.
    apply repeat_spec in Hv. subst v. unfold VoiceView.in_ring; cbn. lia.
  - apply Hf3, Hf2, Hf1. apply Forall_forall. intros v Hv.
    apply repeat_spec in Hv. subst v. reflexivity.
Qed.

End UpdateFacts.

Section UpdateBound.
Variable P : Platform.

Lemma memcpy_from_fuel_free (data : list byte) (off len : Z) :
  fuel_free (Bytes.memcpy_from data off len).
Proof. unfold Bytes.memcpy_from. repeat fuel_free_step. Qed.

Lemma memcpy_to_fuel_free (dst src : list byte) (off : Z) :
  fuel_free (Bytes.memcpy_to dst off src).
Proof. unfold Bytes.memcpy_to. repeat fuel_free_step. Qed.

Lemma copy_infos_fuel_free {A} (set : A -> list byte -> A) (sizeof : Z)
    (input : list byte) (xs : list A) :
  forall offset, fuel_free (AudioRenderer.copy_infos set sizeof input offset xs).
Proof.
  induction xs as [|x more IH]; intros offset; cbn [AudioRenderer.copy_infos].
  - fuel_free_step.
  - fuel_free_step; [apply memcpy_from_fuel_free|].
    fuel_free_step; [apply IH|]. destruct a0. fuel_free_step.
Qed.

Lemma copy_out_fuel_free {A} (image : A -> list byte) (sizeof : Z) (xs : list A) :
  forall output offset,
    fuel_free (AudioRenderer.copy_out image sizeof output offset xs).
Proof.
  induction xs as [|x more IH]; intros output offset; cbn [AudioRenderer.copy_out].
  - fuel_free_step.
  - fuel_free_step; [apply memcpy_to_fuel_free | apply IH].
Qed.

Lemma update_effects_fuel_free (es : list EffectState.t) :
  fuel_free (AudioRenderer.update_effects P es).
Proof.
  induction es as [|e more IH]; cbn [AudioRenderer.update_effects].
  - fuel_free_step.
  - fuel_free_step.
    { unfold EffectState.UpdateState, EffectState.assert_zero.
      repeat fuel_free_step. }
    fuel_free_step; [exact IH | fuel_free_step].
Qed.

(** The update call and the constructor stop only for reasons the program
    has: the bound on the mixing loop is never what ends them. *)
Lemma UpdateAudioRenderer_fuel_free (r : AudioRenderer.t P) (input : list byte) :
  fuel_free (AudioRenderer.UpdateAudioRenderer P r input).
Proof.
  unfold AudioRenderer.UpdateAudioRenderer, AudioRenderer.read_mem_pool_info.
  fuel_free_step; [apply memcpy_from_fuel_free|].
  fuel_free_step.
  { fuel_free_step; [apply memcpy_from_fuel_free|].
    fuel_free_step; [apply memcpy_from_fuel_free | fuel_free_step]. }
  fuel_free_step; [apply copy_infos_fuel_free|]. destruct a1.
  fuel_free_step; [apply copy_infos_fuel_free|]. destruct a1.
  fuel_free_step; [apply copy_infos_fuel_free|]. destruct a1.
  fuel_free_step; [apply update_effects_fuel_free|].
  fuel_free_step; [apply ReleaseAndQueueBuffers_fuel_free|].
  fuel_free_step; [apply memcpy_to_fuel_free|].
  fuel_free_step; [apply memcpy_from_fuel_free|].
  fuel_free_step; [apply memcpy_to_fuel_free|].
  fuel_free_step; [apply copy_out_fuel_free|].
  fuel_free_step; [apply copy_out_fuel_free | fuel_free_step].
Qed.

Lemma create_fuel_free (params : AudioRendererParameter.t) :
  fuel_free (AudioRenderer.create P params).
Proof.
  unfold AudioRenderer.create.
  fuel_free_step; [apply QueueMixedBuffer_fuel_free|].
  fuel_free_step; apply QueueMixedBuffer_fuel_free.
Qed.

End UpdateBound.

(** C9.  The wave index of a voice is always one of 0, 1, 2, 3.
    [SetWaveIndex] stores its argument modulo 4, whatever it is; the
    end-of-buffer step of [DequeueSamples] goes through the same mask;
    [UpdateState] either keeps the index or sets it to 0; refreshing and
    receiving a new info do not touch it.  So each of these keeps the index
    in range, and so do mixing a frame, releasing and requeueing, and a
    whole update call; a new renderer starts with every index at 0.  With
    the index in range, reading the current slot of the 4-slot ring is
    defined. *)
Theorem wave_index_stays_in_ring (P : Platform) (r : AudioRenderer.t P)
    (Hr : Forall (VoiceView.in_ring P) (AudioRenderer.voices P r)) :
  (forall v : VoiceState.t P,
      VoiceView.in_ring P v ->
      (forall index,
          VoiceView.in_ring P (VoiceState.SetWaveIndex P v index)
          /\ VoiceState.wave_index P (VoiceState.SetWaveIndex P v index) = index mod 4)
      /\ VoiceView.in_ring P (VoiceState.UpdateState P v)
      /\ (forall i, VoiceView.in_ring P (VoiceState.SetInfo P v i))
      /\ VoiceView.in_ring P (AudioRenderer.update_voice P v)
      /\ (forall v', VoiceState.RefreshBuffer P v = Ok v' -> VoiceView.in_ring P v')
      /\ (forall n out v',
             VoiceState.DequeueSamples P v n = Ok (out, v') -> VoiceView.in_ring P v')
      /\ (VoiceView.full_ring P v ->
          exists w,
            VoiceState.wave_buffer_at (VoiceState.info P v) (VoiceState.wave_index P v)
            = Ok w))
  /\ (forall tag r',
         AudioRenderer.QueueMixedBuffer P r tag = Ok r' ->
         Forall (VoiceView.in_ring P) (AudioRenderer.voices P r'))
  /\ (forall r',
         AudioRenderer.ReleaseAndQueueBuffers P r = Ok r' ->
         Forall (VoiceView.in_ring P) (AudioRenderer.voices P r'))
  /\ (forall input output r',
         AudioRenderer.UpdateAudioRenderer P r input = Ok (output, r') ->
         Forall (VoiceView.in_ring P) (AudioRenderer.voices P r')
         /\ Forall (VoiceView.full_ring P) (AudioRenderer.voices P r'))
  /\ (forall params r0,
         AudioRenderer.create P params = Ok r0 ->
         Forall (VoiceView.in_ring P) (AudioRenderer.voices P r0)
         /\ Forall (VoiceView.full_ring P) (AudioRenderer.voices P r0)).
Proof.
  split.
  { intros v Hv.
    split; [intros index; apply SetWaveIndex_in_ring|].
    split; [now apply UpdateState_in_ring|].
    split; [intros i; exact Hv|].
    split; [now apply update_voice_in_ring|].
    split.
    { intros v' H. destruct (RefreshBuffer_keeps P v v' H) as (Hw & _).
      unfold VoiceView.in_ring in *. lia. }
    split; [intros n out v' H; eapply DequeueSamples_in_ring; eauto|].
    now apply wave_buffer_at_in_ring. }
  split.
  { intros tag r' H. destruct (QueueMixedBuffer_spec P _ _ _ H) as (_ & _ & Hk & _).
    now apply Hk. }
  split.
  { intros r' H. destruct (ReleaseAndQueueBuffers_keeps P _ _ H) as (Hk & _).
    now apply Hk. }
  split.
  - intros input output r' H. eapply UpdateAudioRenderer_rings; eauto.
  - intros params r0 H. eapply create_rings; eauto.
Qed.

Lemma wave_index_stays_in_ring_witness :
  let r := Example.two_loud_voices in
  Forall (VoiceView.in_ring Example.loud) (AudioRenderer.voices Example.loud r)
  /\ exists r',
      AudioRenderer.ReleaseAndQueueBuffers Example.loud r = Ok r'
      /\ Forall (VoiceView.in_ring Example.loud) (AudioRenderer.voices Example.loud r')
      /\ map (VoiceState.wave_index Example.loud) (AudioRenderer.voices Example.loud r')
         = [1; 1].
Proof.
  cbv zeta.
  assert (Hr : Forall (VoiceView.in_ring Example.loud)
                 (AudioRenderer.voices Example.loud Example.two_loud_voices)).
  { repeat constructor; vm_compute; discriminate. }
  split; [exact Hr|].
  destruct (AudioRenderer.ReleaseAndQueueBuffers Example.loud Example.two_loud_voices)
    as [r'|f] eqn:E; [|vm_compute in E; discriminate E].
  exists r'. split; [reflexivity|].
  destruct (wave_index_stays_in_ring Example.loud Example.two_loud_voices Hr)
    as (_ & _ & H & _).
  split; [exact (H r' E)|].
  vm_compute in E. injection E as <-. reflexivity.
Defined.

(** ** The response blob *)

Lemma le_at (width : nat) (a rest : list byte) (z : Z) (off : nat) :
  length a = off ->
  Bytes.le width (a ++ Bytes.put width z ++ rest) off = z mod 256 ^ Z.of_nat width.
Proof.
  intros <-. rewrite <- (Nat.add_0_r (length a)), le_app_r. apply le_put.
Qed.

Lemma le_concat_chunks {A} (f : A -> list byte) (n : nat) (l : list A) :
  (forall x, length (f x) = n) ->
  forall (k : nat) (x : A) (off width : nat),
    nth_error l k = Some x ->
    (off + width <= n)%nat ->
    Bytes.le width (concat (map f l)) (n * k + off) = Bytes.le width (f x) off.
Proof.
  intros Hf. induction l as [|a l IH]; intros k x off width Hk Hfit.
  - destruct k; discriminate Hk.
  - destruct k as [|k]; cbn [map concat].
    + cbn in Hk. injection Hk as ->. rewrite Nat.mul_0_r. cbn [Nat.add].
      apply le_app_l. rewrite Hf. exact Hfit.
    + cbn in Hk. replace (n * S k + off)%nat with (length (f a) + (n * k + off))%nat
        by (rewrite Hf; lia).
      rewrite le_app_r. now apply IH.
Qed.

Lemma length_zeros (n : Z) : length (Bytes.zeros n) = Z.to_nat n.
Proof. apply repeat_length. Qed.

Lemma length_header_image (h : UpdateDataHeader.t) :
  length (UpdateDataHeader.image h) = 64%nat.
Proof.
  unfold UpdateDataHeader.image.
  rewrite !length_app, !length_put, !length_zeros. reflexivity.
Qed.

Lemma header_image_nonempty (h : UpdateDataHeader.t) : UpdateDataHeader.image h <> [].
Proof.
  intros E. pose proof (length_header_image h) as H. rewrite E in H. discriminate H.
Qed.

(** Where the header has gone, offset 64 is inside the blob. *)
Lemma after_header (h : UpdateDataHeader.t) (dst out1 pool_bytes : list byte) :
  Bytes.memcpy_to dst 0 (UpdateDataHeader.image h) = Ok out1 ->
  pool_bytes <> [] \/ 0 <= UpdateDataHeader.sizeof <= size out1.
Proof.
  intros H. right.
  destruct (memcpy_to_spec _ _ _ _ H (or_introl (header_image_nonempty h)))
    as (Hl & _ & Hfit & _).
  unfold size in *. rewrite length_header_image in Hfit.
  unfold UpdateDataHeader.sizeof. lia.
Qed.

Lemma header_image_total_size (h : UpdateDataHeader.t) (rest : list byte) :
  Bytes.u32 (UpdateDataHeader.image h ++ rest) 60 = wrap32 (UpdateDataHeader.total_size h).
Proof.
  unfold UpdateDataHeader.image, Bytes.u32. rewrite !app_assoc.
  rewrite <- (app_assoc _ (Bytes.put 4 (UpdateDataHeader.total_size h)) rest).
  apply le_at.
  rewrite !length_app, !length_put, !length_zeros. reflexivity.
Qed.

Lemma length_pool_image (e : MemoryPoolEntry.t) :
  length (MemoryPoolEntry.image e) = 16%nat.
Proof.
  unfold MemoryPoolEntry.image. rewrite !length_app, !length_put. reflexivity.
Qed.

Lemma pool_image_state (e : MemoryPoolEntry.t) :
  Bytes.u32 (MemoryPoolEntry.image e) 0 = wrap32 (MemoryPoolEntry.state e).
Proof. unfold MemoryPoolEntry.image, Bytes.u32. apply le_put. Qed.

Lemma memory_pool_of_map (infos : list MemoryPoolInfo.t) :
  AudioRenderer.memory_pool_of infos
  = map (fun i => AudioRenderer.update_memory_pool i MemoryPoolEntry.zero) infos.
Proof.
  unfold AudioRenderer.memory_pool_of.
  induction infos as [|i more IH]; cbn; [trivial | now rewrite IH].
Qed.

Lemma update_memory_pool_state (i : MemoryPoolInfo.t) :
  MemoryPoolEntry.state (AudioRenderer.update_memory_pool i MemoryPoolEntry.zero)
  = Response.answer (MemoryPoolInfo.pool_state i).
Proof.
  unfold AudioRenderer.update_memory_pool, Response.answer.
  destruct (_ =? MemoryPoolStates.RequestAttach); [reflexivity|].
  destruct (_ =? MemoryPoolStates.RequestDetach); reflexivity.
Qed.

Lemma answer_values (s : Z) :
  wrap32 (Response.answer s) = Response.answer s
  /\ (s = MemoryPoolStates.RequestAttach -> Response.answer s = MemoryPoolStates.Attached)
  /\ (s = MemoryPoolStates.RequestDetach -> Response.answer s = MemoryPoolStates.Detached)
  /\ (s <> MemoryPoolStates.RequestAttach -> s <> MemoryPoolStates.RequestDetach ->
      Response.answer s = MemoryPoolStates.Invalid).
Proof.
  unfold Response.answer.
  destruct (Z.eqb_spec s MemoryPoolStates.RequestAttach) as [->|H1];
    [repeat split; trivial; intros; try discriminate; contradiction|].
  destruct (Z.eqb_spec s MemoryPoolStates.RequestDetach) as [->|H2];
    repeat split; trivial; intros; try discriminate; contradiction.
Qed.

Lemma response_header_fields (params : AudioRendererParameter.t) (config : UpdateDataHeader.t) :
  let created := UpdateDataHeader.create params in
  let response := AudioRenderer.response_header params config in
  UpdateDataHeader.memory_pools_size response = UpdateDataHeader.memory_pools_size created
  /\ UpdateDataHeader.voices_size response = UpdateDataHeader.voices_size created
  /\ UpdateDataHeader.voice_resource_size response = 0
  /\ 0 <= UpdateDataHeader.memory_pools_size created < 2 ^ 32
  /\ 0 <= UpdateDataHeader.voices_size created < 2 ^ 32
  /\ 0 <= UpdateDataHeader.total_size created < 2 ^ 32
  /\ UpdateDataHeader.total_size response
     = if 5 <=? VersionFromRevision (UpdateDataHeader.revision config)
       then wrap32 (UpdateDataHeader.total_size created + 16)
       else UpdateDataHeader.total_size created.
Proof.
  cbv zeta. unfold AudioRenderer.response_header.
  assert (Hw : forall z, 0 <= wrap32 z < 2 ^ 32)
    by (intros z; apply Z.mod_pos_bound; lia).
  destruct (5 <=? _); cbn; repeat split; try apply Hw.
Qed.

(** The size of the blob, the size its header declares, and its memory-pool
    section, for any call that returns. *)
Lemma UpdateAudioRenderer_output (P : Platform) (r r' : AudioRenderer.t P)
    (input output : list byte) :
  AudioRenderer.UpdateAudioRenderer P r input = Ok (output, r') ->
  exists header mem_pool_info,
    let params := AudioRenderer.worker_params P r in
    let created := UpdateDataHeader.create params in
    let response := AudioRenderer.response_header params (UpdateDataHeader.parse header) in
    Bytes.memcpy_from input 0 UpdateDataHeader.sizeof = Ok header
    /\ AudioRenderer.read_mem_pool_info params input = Ok mem_pool_info
    /\ size output = UpdateDataHeader.total_size created
    /\ UpdateDataHeader.total_size (Response.header output)
       = UpdateDataHeader.total_size response
    /\ (forall index info,
           nth_error mem_pool_info index = Some info ->
           16 * (Z.of_nat index + 1) <= UpdateDataHeader.memory_pools_size created ->
           Response.pool_state output index
           = Response.answer (MemoryPoolInfo.pool_state info)).
Proof.
  intros H.
  destruct (UpdateAudioRenderer_steps P _ _ _ _ H)
    as (header & mem_pool_info & voices1 & channels1 & effects1
        & effects2 & out1 & pool_bytes & out2 & out3 & Hsteps).
  cbv zeta in Hsteps.
  destruct Hsteps as (Hh & Hm & _ & _ & _ & Ho1 & Hpb & Ho2 & Ho3 & Ho4).
  exists header, mem_pool_info. cbv zeta. split; [exact Hh|]. split; [exact Hm|].
  set (params := AudioRenderer.worker_params P r) in *.
  set (config := UpdateDataHeader.parse header) in *.
  destruct (response_header_fields params config)
    as (Hmps & Hvs & Hvrs & Hmps0 & Hvs0 & Ht0 & Htotal).
  cbv zeta in Hmps, Hvs, Hvrs, Hmps0, Hvs0, Ht0, Htotal.
  set (response := AudioRenderer.response_header params config) in *.
  set (created := UpdateDataHeader.create params) in *.
  rewrite Hmps in *. rewrite Hvs, Hvrs in Ho4.
  set (mps := UpdateDataHeader.memory_pools_size created) in *.
  destruct (memcpy_to_spec _ _ _ _ Ho1 (or_introl (header_image_nonempty _)))
    as (Hl1 & _ & Hfit1 & Hout1).
  destruct (memcpy_from_spec _ _ _ _ Hpb ltac:(copy_side)) as (_ & _ & Hfitp & Hpool).
  destruct (memcpy_to_spec _ _ _ _ Ho2 (after_header _ _ _ _ Ho1))
    as (Hl2 & _ & Hfit2 & Hout2).
  destruct (copy_out_spec _ VoiceOutStatus.sizeof _
              ltac:(unfold VoiceOutStatus.sizeof; lia) _ _ _ Ho3)
    as (Hl3 & Hpre3).
  destruct (copy_out_spec _ EffectOutStatus.sizeof _
              ltac:(unfold EffectOutStatus.sizeof; lia) _ _ _ Ho4)
    as (Hl4 & Hpre4).
  rewrite length_zeros in Hl1.
  unfold size in Hfit1, Hfit2, Hfitp. rewrite length_header_image in Hfit1.
  rewrite length_zeros in Hfit1. unfold UpdateDataHeader.sizeof in *.
  assert (Hlp : length pool_bytes = Z.to_nat mps).
  { rewrite Hpool. cbn [Z.to_nat skipn]. rewrite length_firstn. lia. }
  assert (Hlen : length output = Z.to_nat (UpdateDataHeader.total_size created))
    by congruence.
  assert (Hprefix : forall k, (k <= Z.to_nat (64 + mps))%nat ->
                              firstn k output = firstn k out2).
  { intros k Hk. rewrite Hpre4 by lia. apply Hpre3. lia. }
  split; [unfold size; lia|]. split.
  - unfold Response.header, UpdateDataHeader.parse; cbn [UpdateDataHeader.total_size].
    unfold Bytes.u32.
    rewrite <- (le_firstn 4 64 output 60) by lia.
    rewrite (Hprefix 64%nat) by lia.
    rewrite (memcpy_to_prefix _ _ _ _ 64 Ho2) by lia.
    rewrite le_firstn by lia.
    rewrite Hout1. cbn [Z.to_nat firstn app].
    fold (Bytes.u32 (UpdateDataHeader.image response
                       ++ skipn (0 + length (UpdateDataHeader.image response))
                            (Bytes.zeros (UpdateDataHeader.total_size created))) 60).
    rewrite header_image_total_size, Htotal.
    destruct (5 <=? _); unfold wrap32; rewrite ?Z.mod_mod by lia; trivial.
    apply Z.mod_small. exact Ht0.
  - intros index info Hinfo Hidx.
    unfold Response.pool_state, Bytes.u32.
    rewrite <- (le_firstn 4 (Z.to_nat (64 + mps)) output (64 + 16 * index)) by lia.
    rewrite Hprefix by lia. rewrite le_firstn by lia.
    rewrite Hout2.
    assert (H64 : length (firstn (Z.to_nat 64) out1) = 64%nat)
      by (rewrite length_firstn; lia).
    replace (64 + 16 * index)%nat
      with (length (firstn (Z.to_nat 64) out1) + 16 * index)%nat by lia.
    rewrite le_app_r, le_app_l by lia.
    rewrite Hpool. cbn [Z.to_nat skipn].
    rewrite le_firstn
      by (try lia; rewrite length_firstn in Hlp; cbn [Z.to_nat skipn] in Hlp; lia).
    rewrite <- (Nat.add_0_r (16 * index)).
    rewrite (le_concat_chunks MemoryPoolEntry.image 16 _ length_pool_image index
               (AudioRenderer.update_memory_pool info MemoryPoolEntry.zero) 0 4);
      [| rewrite memory_pool_of_map;
         exact (map_nth_error
                  (fun i => AudioRenderer.update_memory_pool i MemoryPoolEntry.zero)
                  index mem_pool_info Hinfo)
       | lia].
    fold (Bytes.u32 (MemoryPoolEntry.image
                       (AudioRenderer.update_memory_pool info MemoryPoolEntry.zero)) 0).
    rewrite pool_image_state, update_memory_pool_state.
    apply answer_values.
Qed.

(** With counts that do not overflow a [u32], there is one request and one
    answered entry per memory-pool slot. *)
Lemma memory_pool_slots (params : AudioRendererParameter.t) (input : list byte)
    (mem_pool_info : list MemoryPoolInfo.t) :
  let slots := AudioRendererParameter.effect_count params
               + 4 * AudioRendererParameter.voice_count params in
  AudioRenderer.read_mem_pool_info params input = Ok mem_pool_info ->
  0 <= AudioRendererParameter.voice_count params ->
  0 <= AudioRendererParameter.effect_count params ->
  slots < 2 ^ 28 ->
  length mem_pool_info = Z.to_nat slots
  /\ UpdateDataHeader.memory_pools_size (UpdateDataHeader.create params) = 16 * slots.
Proof.
  cbv zeta. unfold AudioRenderer.read_mem_pool_info. intros H Hv He Hs.
  bind_ok H. bind_ok H.
  assert (Hl : length mem_pool_info
               = Z.to_nat (wrap32 (AudioRendererParameter.effect_count params
                                   + wrap32 (AudioRendererParameter.voice_count params * 4))))
    by (injection H as <-; now rewrite length_map, length_seq).
  clear H.
  assert (H4 : wrap32 (AudioRendererParameter.voice_count params * 4)
               = 4 * AudioRendererParameter.voice_count params)
    by (unfold wrap32; rewrite Z.mod_small; lia).
  assert (Hc : wrap32 (AudioRendererParameter.effect_count params
                       + wrap32 (AudioRendererParameter.voice_count params * 4))
               = AudioRendererParameter.effect_count params
                 + 4 * AudioRendererParameter.voice_count params)
    by (rewrite H4; unfold wrap32; rewrite Z.mod_small; lia).
  split; [now rewrite Hl, Hc|].
  unfold UpdateDataHeader.create; cbn [UpdateDataHeader.memory_pools_size].
  rewrite Hc. unfold wrap32. rewrite Z.mod_small; lia.
Qed.

(** C3, as the code has it.  In the response of an update, the state of a
    memory-pool entry depends on the state the guest supplied for that slot
    in this very update and on nothing else: Attached for RequestAttach,
    Detached for RequestDetach, Invalid for every other value.  The entries
    are built anew in each call, so nothing is carried over from an earlier
    update and the guest's value is not echoed.  Entries are present in the
    response up to the size the response header gives the section, which is
    one entry per slot unless the configured counts overflow. *)
Theorem memory_pool_states_answered (P : Platform) (r r' : AudioRenderer.t P)
    (input output : list byte)
    (Hok : AudioRenderer.UpdateAudioRenderer P r input = Ok (output, r')) :
  exists mem_pool_info,
    AudioRenderer.read_mem_pool_info (AudioRenderer.worker_params P r) input
    = Ok mem_pool_info
    /\ (let params := AudioRenderer.worker_params P r in
        let slots := AudioRendererParameter.effect_count params
                     + 4 * AudioRendererParameter.voice_count params in
        0 <= AudioRendererParameter.voice_count params ->
        0 <= AudioRendererParameter.effect_count params ->
        slots < 2 ^ 28 ->
        length mem_pool_info = Z.to_nat slots
        /\ UpdateDataHeader.memory_pools_size (UpdateDataHeader.create params)
           = 16 * slots)
    /\ forall index info,
        nth_error mem_pool_info index = Some info ->
        16 * (Z.of_nat index + 1)
        <= UpdateDataHeader.memory_pools_size
             (UpdateDataHeader.create (AudioRenderer.worker_params P r)) ->
        let guest := MemoryPoolInfo.pool_state info in
        let answered := Response.pool_state output index in
        (guest = MemoryPoolStates.RequestAttach ->
           answered = MemoryPoolStates.Attached)
        /\ (guest = MemoryPoolStates.RequestDetach ->
              answered = MemoryPoolStates.Detached)
        /\ (guest <> MemoryPoolStates.RequestAttach ->
            guest <> MemoryPoolStates.RequestDetach ->
            answered = MemoryPoolStates.Invalid).
Proof.
  destruct (UpdateAudioRenderer_output P _ _ _ _ Hok)
    as (header & mem_pool_info & Hout).
  cbv zeta in Hout. destruct Hout as (_ & Hm & _ & _ & Hpools).
  exists mem_pool_info. split; [exact Hm|].
  split; [cbv zeta; intros Hv He Hs; now apply (memory_pool_slots _ input)|].
  intros index info Hinfo Hidx. cbv zeta. rewrite (Hpools index info Hinfo Hidx).
  destruct (answer_values (MemoryPoolInfo.pool_state info)) as (_ & H1 & H2 & H3).
  repeat split; assumption.
Qed.

Lemma memory_pool_states_answered_witness :
  let blob := Example.update_blob (Example.REV 52) [4; 2; 5; 0] 1 1 0 in
  exists output r',
    Example.one_update Example.silent blob = Ok (output, r')
    /\ Response.pool_state output 0 = MemoryPoolStates.Attached
    /\ Response.pool_state output 1 = MemoryPoolStates.Detached
    /\ Response.pool_state output 2 = MemoryPoolStates.Invalid.
Proof.
  cbv zeta. unfold Example.one_update.
  destruct (AudioRenderer.create Example.silent (Example.params 1 0))
    as [r0|f] eqn:E0; [|vm_compute in E0; discriminate E0].
  cbn [bind].
  destruct (AudioRenderer.UpdateAudioRenderer Example.silent r0
              (Example.update_blob (Example.REV 52) [4; 2; 5; 0] 1 1 0))
    as [[output r']|f] eqn:E.
  2: { vm_compute in E0. injection E0 as <-. vm_compute in E. discriminate E. }
  exists output, r'. split; [reflexivity|].
  destruct (memory_pool_states_answered Example.silent r0 r' _ output E)
    as (infos & Hinfos & _ & H).
  assert (Hw : AudioRenderer.worker_params Example.silent r0 = Example.params 1 0).
  { vm_compute in E0. injection E0 as <-. reflexivity. }
  rewrite Hw in Hinfos, H. vm_compute in Hinfos. injection Hinfos as <-.
  split; [|split].
  - apply (H 0%nat _ eq_refl); [vm_compute; discriminate | reflexivity].
  - apply (H 1%nat _ eq_refl); [vm_compute; discriminate | reflexivity].
  - apply (H 2%nat _ eq_refl); [vm_compute; discriminate | |];
      vm_compute; discriminate.
Defined.

(** C3 as stated fails for the states that are neither request.  A first
    update asks to attach slot 0 and to detach slot 1 and is answered
    Attached and Detached.  In the next update the guest supplies Attached,
    Released, Unknown and Detached: every entry comes back Invalid, which is
    neither the state the slot had after the first update nor the state the
    guest supplied. *)
Lemma memory_pool_state_not_kept :
  let first := Example.update_blob (Example.REV 52) [4; 2; 0; 0] 1 1 0 in
  let second := Example.update_blob (Example.REV 52) [5; 6; 1; 3] 0 1 0 in
  let after_first := Example.output_of (Example.one_update Example.silent first) in
  let after_second :=
    Example.output_of (Example.two_updates Example.silent first second) in
  is_ok (Example.two_updates Example.silent first second) = true
  /\ map (Response.pool_state after_first) (seq 0 4) = [5; 3; 0; 0]
  /\ map (Response.pool_state after_second) (seq 0 4) = [0; 0; 0; 0]
  /\ Response.pool_state after_second 0 <> Response.pool_state after_first 0
  /\ Response.pool_state after_second 0 <> MemoryPoolStates.Attached.
Proof. vm_compute. repeat split; discriminate. Qed.

(** C1.  The blob a call returns has the size the constructor of the response
    header computes from the renderer's parameters.  The size the header
    inside the blob declares is that size when the revision of the request is
    below 5, and that size plus 16 when it is 5 or more: the vector is
    allocated before [total_size] is raised, so from revision 5 on the blob
    is 16 bytes shorter than its own header says. *)
Theorem output_blob_size (P : Platform) (r r' : AudioRenderer.t P)
    (input output : list byte)
    (Hok : AudioRenderer.UpdateAudioRenderer P r input = Ok (output, r')) :
  exists header,
    Bytes.memcpy_from input 0 UpdateDataHeader.sizeof = Ok header
    /\ let version :=
         VersionFromRevision (UpdateDataHeader.revision (UpdateDataHeader.parse header)) in
       let declared := UpdateDataHeader.total_size (Response.header output) in
       size output
       = UpdateDataHeader.total_size
           (UpdateDataHeader.create (AudioRenderer.worker_params P r))
       /\ (version < 5 -> declared = size output)
       /\ (5 <= version ->
           declared = wrap32 (size output + 16)
           /\ (size output + 16 < 2 ^ 32 ->
               declared = size output + 16 /\ declared <> size output)).
Proof.
  destruct (UpdateAudioRenderer_output P _ _ _ _ Hok)
    as (header & mem_pool_info & Hout).
  cbv zeta in Hout. destruct Hout as (Hh & _ & Hsize & Hdecl & _).
  exists header. split; [exact Hh|]. cbv zeta.
  split; [exact Hsize|]. rewrite Hdecl, Hsize.
  destruct (response_header_fields (AudioRenderer.worker_params P r)
              (UpdateDataHeader.parse header)) as (_ & _ & _ & _ & _ & Ht0 & Htotal).
  cbv zeta in Ht0, Htotal. rewrite Htotal.
  destruct (Z.leb_spec 5 (VersionFromRevision
                            (UpdateDataHeader.revision (UpdateDataHeader.parse header))))
    as [Hv|Hv].
  - split; [lia|]. intros _. split; [reflexivity|]. intros Hfit.
    unfold wrap32. rewrite Z.mod_small by lia. lia.
  - split; [reflexivity|]. lia.
Qed.

Lemma output_blob_size_witness :
  let blob := Example.update_blob (Example.REV 53) [0; 0; 0; 0] 1 1 0 in
  exists output r',
    Example.one_update Example.silent blob = Ok (output, r')
    /\ VersionFromRevision (Example.REV 53) = 5
    /\ size output = 368
    /\ UpdateDataHeader.total_size (Response.header output) = 384.
Proof.
  cbv zeta. unfold Example.one_update.
  destruct (AudioRenderer.create Example.silent (Example.params 1 0))
    as [r0|f] eqn:E0; [|vm_compute in E0; discriminate E0].
  cbn [bind].
  destruct (AudioRenderer.UpdateAudioRenderer Example.silent r0
              (Example.update_blob (Example.REV 53) [0; 0; 0; 0] 1 1 0))
    as [[output r']|f] eqn:E.
  2: { vm_compute in E0. injection E0 as <-. vm_compute in E. discriminate E. }
  exists output, r'. split; [reflexivity|]. split; [reflexivity|].
  destruct (output_blob_size Example.silent r0 r' _ output E)
    as (header & Hh & Hsize & _ & Hnew).
  assert (Hw : AudioRenderer.worker_params Example.silent r0 = Example.params 1 0).
  { vm_compute in E0. injection E0 as <-. reflexivity. }
  rewrite Hw in Hsize. vm_compute in Hh. injection Hh as <-.
  assert (H368 : size output = 368) by (rewrite Hsize; reflexivity).
  split; [exact H368|].
  destruct Hnew as [_ Hnew]; [vm_compute; discriminate|].
  destruct Hnew as [Hdecl _]; [rewrite H368; reflexivity|].
  rewrite Hdecl, H368. reflexivity.
Defined.

(** * Further properties *)

(** ** The stream over sequences of calls *)

Section StreamRunFacts.
Variable P : Platform.

Lemma PlayNextBuffer_settles (s : Stream.t) :
  (length (Stream.queued_buffers (Stream.PlayNextBuffer P s))
   <= length (Stream.queued_buffers s))%nat
  /\ (StreamView.idle (Stream.PlayNextBuffer P s) = true ->
      Stream.queued_buffers (Stream.PlayNextBuffer P s) = [])
  /\ Stream.state (Stream.PlayNextBuffer P s) = Stream.state s.
Proof.
  unfold StreamView.idle, Stream.PlayNextBuffer, Stream.IsPlaying.
  destruct s as [rate fmt [|] vol [|front q] [a|] r ev]; cbn;
    (split; [lia|]); (split; [|reflexivity]); intros H;
    try discriminate H; reflexivity.
Qed.

Lemma PlayNextBuffer_balance (s : Stream.t) :
  StreamCount.balanced s -> StreamCount.balanced (Stream.PlayNextBuffer P s).
Proof.
  unfold StreamCount.balanced, StreamCount.scheduled, StreamCount.called_back,
    StreamCount.enqueued, StreamCount.active, Stream.PlayNextBuffer, Stream.IsPlaying.
  destruct s as [rate fmt [|] vol [|front q] [a|] r ev]; cbn;
    rewrite ?filter_app, ?length_app; cbn; lia.
Qed.

Lemma step_keeps (x x' : StreamRun.t) (c : StreamRun.Call) :
  StreamRun.step P x c = Ok x' ->
  (StreamCount.settled (StreamRun.stream x) -> StreamCount.settled (StreamRun.stream x'))
  /\ (StreamCount.balanced (StreamRun.stream x) ->
      StreamCount.balanced (StreamRun.stream x'))
  /\ StreamRun.collected x' ++ StreamCount.released_tags (StreamRun.stream x')
       ++ StreamView.pending_tags (StreamRun.stream x')
     = (StreamRun.collected x ++ StreamCount.released_tags (StreamRun.stream x)
          ++ StreamView.pending_tags (StreamRun.stream x))
         ++ skipn (length (StreamRun.taken x)) (StreamRun.taken x')
  /\ StreamRun.taken x
     = firstn (length (StreamRun.taken x)) (StreamRun.taken x').
Proof.
  destruct x as [s collected taken]. destruct c as [|buffer| |max_count|volume];
    cbn [StreamRun.step StreamRun.stream StreamRun.collected StreamRun.taken].
  - (* Play *)
    intros H; injection H as <-; cbn [StreamRun.stream StreamRun.collected StreamRun.taken].
    unfold Stream.Play.
    destruct (PlayNextBuffer_settles (Stream.with_state s Stream.Playing)) as (Hl & Hi & _).
    destruct (PlayNextBuffer_pending P (Stream.with_state s Stream.Playing)) as (Hp & Hr).
    split; [|split; [|split]].
    + intros [Hs _]. split; [|exact Hi].
      cbn [Stream.queued_buffers Stream.with_state] in Hl. lia.
    + intros Hb. apply PlayNextBuffer_balance. exact Hb.
    + unfold StreamCount.released_tags. rewrite Hp, Hr, skipn_all, app_nil_r.
      reflexivity.
    + now rewrite firstn_all.
  - (* QueueBuffer *)
    intros H; injection H as <-; cbn [StreamRun.stream StreamRun.collected StreamRun.taken].
    destruct (QueueBuffer_outcome P s buffer) as [Hno Hyes]. cbv zeta in Hno, Hyes.
    unfold Stream.QueueBuffer in *.
    destruct (Z.ltb_spec (size (Stream.queued_buffers s)) Stream.MaxAudioBufferCount)
      as [Hlt|Hge]; cbn [Stream.accepted Stream.stream_after Stream.buffer_after] in *.
    + set (s1 := Stream.with_queues s _ _ _) in *.
      destruct (PlayNextBuffer_settles s1) as (Hl & Hi & _).
      destruct (Hyes eq_refl) as (Hp & Hr & _).
      split; [|split; [|split]].
      * intros _. split; [|exact Hi].
        assert (Hq1 : Stream.queued_buffers s1 = Stream.queued_buffers s ++ [buffer])
          by reflexivity.
        rewrite Hq1, length_app in Hl; cbn [length] in Hl.
        unfold size, Stream.MaxAudioBufferCount in Hlt. lia.
      * intros Hb. apply PlayNextBuffer_balance. exact Hb.
      * unfold StreamCount.released_tags. rewrite Hp, Hr.
        rewrite skipn_app, skipn_all, Nat.sub_diag. cbn.
        rewrite <- !app_assoc. reflexivity.
      * rewrite firstn_app, firstn_all, Nat.sub_diag. cbn. now rewrite app_nil_r.
    + split; [|split; [|split]]; trivial.
      * now rewrite skipn_all, app_nil_r.
      * now rewrite firstn_all.
  - (* ReleaseActiveBuffer *)
    unfold Stream.ReleaseActiveBuffer.
    destruct (Stream.active_buffer s) as [b|] eqn:Ha; cbn [bind]; [|discriminate].
    intros H; injection H as <-; cbn [StreamRun.stream StreamRun.collected StreamRun.taken].
    set (s1 := Stream.with_events _ _).
    destruct (PlayNextBuffer_settles s1) as (Hl & Hi & _).
    destruct (PlayNextBuffer_pending P s1) as (Hp & Hr).
    split; [|split; [|split]].
    + intros [Hs _]. split; [|exact Hi].
      assert (Hq1 : Stream.queued_buffers s1 = Stream.queued_buffers s) by reflexivity.
      rewrite Hq1 in Hl. lia.
    + intros Hb. apply PlayNextBuffer_balance.
      revert Hb. unfold s1, StreamCount.balanced, StreamCount.scheduled,
        StreamCount.called_back, StreamCount.enqueued, StreamCount.active.
      rewrite Ha. cbn. rewrite !filter_app, !length_app. cbn. lia.
    + unfold StreamCount.released_tags. rewrite Hp, Hr.
      unfold s1, StreamView.pending_tags; cbn. rewrite Ha, map_app. cbn.
      rewrite skipn_all, app_nil_r, <- !app_assoc. reflexivity.
    + now rewrite firstn_all.
  - (* GetTagsAndReleaseBuffers *)
    rewrite GetTagsAndReleaseBuffers_spec.
    intros H; injection H as <-; cbn [StreamRun.stream StreamRun.collected StreamRun.taken].
    split; [|split; [|split]]; trivial.
    + unfold StreamCount.released_tags, StreamView.pending_tags; cbn.
      rewrite skipn_all, app_nil_r, <- !app_assoc. f_equal.
      rewrite app_assoc, <- map_app, firstn_skipn. reflexivity.
    + now rewrite firstn_all.
  - (* SetVolume *)
    intros H; injection H as <-; cbn [StreamRun.stream StreamRun.collected StreamRun.taken].
    split; [|split; [|split]]; trivial.
    + now rewrite skipn_all, app_nil_r.
    + now rewrite firstn_all.
Qed.

Lemma run_keeps (calls : list StreamRun.Call) :
  forall x x',
    StreamRun.run P x calls = Ok x' ->
    (StreamCount.settled (StreamRun.stream x) -> StreamCount.settled (StreamRun.stream x'))
    /\ (StreamCount.balanced (StreamRun.stream x) ->
        StreamCount.balanced (StreamRun.stream x'))
    /\ StreamRun.collected x' ++ StreamCount.released_tags (StreamRun.stream x')
         ++ StreamView.pending_tags (StreamRun.stream x')
       = (StreamRun.collected x ++ StreamCount.released_tags (StreamRun.stream x)
            ++ StreamView.pending_tags (StreamRun.stream x))
           ++ skipn (length (StreamRun.taken x)) (StreamRun.taken x')
    /\ StreamRun.taken x
       = firstn (length (StreamRun.taken x)) (StreamRun.taken x').
Proof.
  induction calls as [|c more IH]; intros x x' H; cbn [StreamRun.run] in H.
  - injection H as <-. split; [auto|]. split; [auto|].
    split; [now rewrite skipn_all, app_nil_r | now rewrite firstn_all].
  - bind_ok H.
    destruct (step_keeps _ _ _ E) as (Hs1 & Hb1 & Hf1 & Ht1).
    destruct (IH _ _ H) as (Hs2 & Hb2 & Hf2 & Ht2).
    split; [auto|]. split; [auto|].
    assert (Hlen : (length (StreamRun.taken x) <= length (StreamRun.taken a))%nat).
    { rewrite Ht1 at 1. rewrite length_firstn. lia. }
    assert (Hlen2 : (length (StreamRun.taken a) <= length (StreamRun.taken x'))%nat).
    { rewrite Ht2 at 1. rewrite length_firstn. lia. }
    split.
    + rewrite Hf2, Hf1, <- !app_assoc. do 3 f_equal.
      rewrite Ht2 at 1. rewrite skipn_firstn_comm.
      rewrite <- (firstn_skipn (length (StreamRun.taken a) - length (StreamRun.taken x))
                    (skipn (length (StreamRun.taken x)) (StreamRun.taken x'))) at 2.
      f_equal. rewrite skipn_skipn. f_equal. lia.
    + rewrite Ht1 at 1. rewrite Ht2 at 1. rewrite firstn_firstn. f_equal. lia.
Qed.

End StreamRunFacts.

(** X1.  Whatever calls a stream receives ([Play], [QueueBuffer], [SetVolume],
    release events, [GetTagsAndReleaseBuffers]) and in whatever order, buffers leave
    it in the order they entered: the tags collected so far, then those of
    the released buffers, then those of the active and queued ones, are
    exactly the tags the stream held at the start followed by the tags of
    the buffers [QueueBuffer] has taken since, oldest first. *)
Theorem stream_is_fifo (P : Platform) (s : Stream.t)
    (calls : list StreamRun.Call) (x : StreamRun.t)
    (Hrun : StreamRun.run P (StreamRun.start s) calls = Ok x) :
  StreamRun.collected x
    ++ StreamCount.released_tags (StreamRun.stream x)
    ++ StreamView.pending_tags (StreamRun.stream x)
  = StreamCount.released_tags s ++ StreamView.pending_tags s ++ StreamRun.taken x.
Proof.
  destruct (run_keeps P calls _ _ Hrun) as (_ & _ & H & _).
  cbn in H. rewrite H, <- app_assoc. reflexivity.
Qed.

Lemma stream_is_fifo_witness :
  exists x,
    StreamRun.run Example.silent (StreamRun.start Example.stopped_stream)
      StreamExample.calls = Ok x
    /\ StreamRun.taken x = [10; 11; 12]
    /\ StreamRun.collected x = [10; 11]
    /\ StreamRun.collected x ++ StreamCount.released_tags (StreamRun.stream x)
         ++ StreamView.pending_tags (StreamRun.stream x)
       = [10; 11; 12].
Proof.
  destruct (StreamRun.run Example.silent (StreamRun.start Example.stopped_stream)
              StreamExample.calls) as [x|f] eqn:E; [|vm_compute in E; discriminate E].
  exists x. split; [reflexivity|].
  pose proof (stream_is_fifo Example.silent _ _ _ E) as H.
  assert (Ht : StreamRun.taken x = [10; 11; 12])
    by (vm_compute in E; injection E as <-; reflexivity).
  split; [exact Ht|].
  split; [vm_compute in E; injection E as <-; reflexivity|].
  rewrite H, Ht. reflexivity.
Defined.

(** X2.  Once the queue of a stream holds at most 32 buffers and none waits
    while the stream is playing with nothing active, every sequence of calls
    keeps it so.  In such a stream [QueueBuffer] refuses a buffer exactly
    when 32 buffers are waiting, and then the stream is stopped or has an
    active buffer. *)
Theorem stream_queue_stays_settled (P : Platform) (s : Stream.t)
    (calls : list StreamRun.Call) (x : StreamRun.t)
    (Hs : StreamCount.settled s)
    (Hrun : StreamRun.run P (StreamRun.start s) calls = Ok x) :
  StreamCount.settled (StreamRun.stream x)
  /\ forall b,
      (Stream.accepted (Stream.QueueBuffer P (StreamRun.stream x) b) = false
       <-> length (Stream.queued_buffers (StreamRun.stream x)) = 32%nat)
      /\ (Stream.accepted (Stream.QueueBuffer P (StreamRun.stream x) b) = false ->
          StreamView.idle (StreamRun.stream x) = false).
Proof.
  destruct (run_keeps P calls _ _ Hrun) as (Hk & _).
  specialize (Hk Hs). split; [exact Hk|]. destruct Hk as [Hlen Hidle].
  intros b. unfold Stream.QueueBuffer, size, Stream.MaxAudioBufferCount.
  destruct (Z.ltb_spec (Z.of_nat (length (Stream.queued_buffers (StreamRun.stream x)))) 32)
    as [Hlt|Hge]; cbn [Stream.accepted].
  - split; [split; [discriminate | lia] | discriminate].
  - split; [split; [lia | reflexivity]|]. intros _.
    destruct (StreamView.idle (StreamRun.stream x)) eqn:E; [|reflexivity].
    rewrite (Hidle eq_refl) in Hge. cbn in Hge. lia.
Qed.

Lemma stream_queue_stays_settled_witness :
  exists x,
    StreamCount.settled Example.playing_stream
    /\ StreamRun.run Example.silent (StreamRun.start Example.playing_stream)
         (map StreamRun.Queue (Example.frames 0 40)) = Ok x
    /\ length (StreamRun.taken x) = 33%nat
    /\ length (Stream.queued_buffers (StreamRun.stream x)) = 32%nat
    /\ StreamCount.settled (StreamRun.stream x).
Proof.
  assert (Hs : StreamCount.settled Example.playing_stream)
    by (split; [cbn; lia | reflexivity]).
  destruct (StreamRun.run Example.silent (StreamRun.start Example.playing_stream)
              (map StreamRun.Queue (Example.frames 0 40))) as [x|f] eqn:E;
    [|vm_compute in E; discriminate E].
  exists x. split; [exact Hs|]. split; [reflexivity|].
  destruct (stream_queue_stays_settled Example.silent _ _ _ Hs E) as [Hk _].
  split; [vm_compute in E; injection E as <-; reflexivity|].
  split; [vm_compute in E; injection E as <-; reflexivity | exact Hk].
Defined.

(** X3.  The release events scheduled on the timer and the release callbacks
    made stay in step with the active buffer: over any sequence of calls,
    the events scheduled are the callbacks made plus one exactly when a
    buffer is active, and every buffer handed to the sink has had its event
    scheduled.  So a release event finds its [ASSERT(active_buffer)]
    satisfied exactly when a scheduled event has not fired yet. *)
Theorem release_events_match_active_buffer (P : Platform) (s : Stream.t)
    (calls : list StreamRun.Call) (x : StreamRun.t)
    (Hb : StreamCount.balanced s)
    (Hrun : StreamRun.run P (StreamRun.start s) calls = Ok x) :
  StreamCount.balanced (StreamRun.stream x)
  /\ (is_ok (StreamRun.step P x StreamRun.Fire) = true
      <-> (StreamCount.called_back (StreamRun.stream x)
           < StreamCount.scheduled (StreamRun.stream x))%nat)
  /\ (is_ok (StreamRun.step P x StreamRun.Fire) = false ->
      StreamRun.step P x StreamRun.Fire = Err AssertionFailed).
Proof.
  destruct (run_keeps P calls _ _ Hrun) as (_ & Hk & _).
  specialize (Hk Hb). split; [exact Hk|].
  destruct Hk as [Hk _]. cbn [StreamRun.step].
  unfold Stream.ReleaseActiveBuffer, StreamCount.active in *.
  destruct (Stream.active_buffer (StreamRun.stream x)); cbn [bind is_ok].
  - split; [split; [lia | reflexivity] | discriminate].
  - split; [split; [discriminate | lia] | reflexivity].
Qed.

Lemma release_events_match_active_buffer_witness :
  exists x,
    StreamCount.balanced Example.stopped_stream
    /\ StreamRun.run Example.silent (StreamRun.start Example.stopped_stream)
         StreamExample.calls = Ok x
    /\ StreamCount.scheduled (StreamRun.stream x) = 3%nat
    /\ StreamCount.called_back (StreamRun.stream x) = 2%nat
    /\ is_ok (StreamRun.step Example.silent x StreamRun.Fire) = true.
Proof.
  assert (Hb : StreamCount.balanced Example.stopped_stream) by (split; reflexivity).
  destruct (StreamRun.run Example.silent (StreamRun.start Example.stopped_stream)
              StreamExample.calls) as [x|f] eqn:E; [|vm_compute in E; discriminate E].
  exists x. split; [exact Hb|]. split; [reflexivity|].
  destruct (release_events_match_active_buffer Example.silent _ _ _ Hb E)
    as (_ & Hfire & _).
  assert (H3 : StreamCount.scheduled (StreamRun.stream x) = 3%nat)
    by (vm_compute in E; injection E as <-; reflexivity).
  assert (H2 : StreamCount.called_back (StreamRun.stream x) = 2%nat)
    by (vm_compute in E; injection E as <-; reflexivity).
  split; [exact H3|]. split; [exact H2|].
  apply Hfire. rewrite H3, H2. lia.
Defined.

(** ** The revision digit and the response header *)

Lemma land_255 (x : Z) : Z.land x 255 = x mod 256.
Proof. change 255 with (Z.ones 8). rewrite Z.land_ones by lia. reflexivity. Qed.

Lemma VersionFromRevision_digit (rev : Z) :
  VersionFromRevision rev
  = if 48 <=? (rev / 2 ^ 24) mod 256 then (rev / 2 ^ 24) mod 256 - 48
    else 2 ^ 32 - 48 + (rev / 2 ^ 24) mod 256.
Proof.
  unfold VersionFromRevision, wrap32.
  rewrite land_255, Z.shiftr_div_pow2 by lia.
  pose proof (Z.mod_pos_bound (rev / 2 ^ 24) 256 ltac:(lia)) as Hd.
  destruct (Z.leb_spec 48 ((rev / 2 ^ 24) mod 256)).
  - apply Z.mod_small. lia.
  - symmetry. apply Z.mod_unique with (q := -1); lia.
Qed.

(** X4.  The version of a request is the top byte of its revision minus the
    character '0', taken in [u32]: a top byte below '0' gives a version of
    [2^32 - 48] or more.  So the response carries [frame_count = 0x10] and
    the 16 extra bytes in [total_size] for every revision whose top byte is
    not one of '0' .. '4', also when that byte is no digit at all; in every
    case the response names revision REV4, whatever the request named. *)
Theorem response_header_by_revision (params : AudioRendererParameter.t)
    (config : UpdateDataHeader.t) :
  let digit := (UpdateDataHeader.revision config / 2 ^ 24) mod 256 in
  let created := UpdateDataHeader.create params in
  let response := AudioRenderer.response_header params config in
  VersionFromRevision (UpdateDataHeader.revision config)
  = (if 48 <=? digit then digit - 48 else 2 ^ 32 - 48 + digit)
  /\ response
     = (if (48 <=? digit) && (digit <=? 52) then created
        else UpdateDataHeader.bump created)
  /\ UpdateDataHeader.revision response = UpdateDataHeader.REV4
  /\ UpdateDataHeader.frame_count response
     = (if (48 <=? digit) && (digit <=? 52) then 0 else 16)
  /\ UpdateDataHeader.total_size response
     = (if (48 <=? digit) && (digit <=? 52)
        then UpdateDataHeader.total_size created
        else wrap32 (UpdateDataHeader.total_size created + 16)).
Proof.
  cbv zeta. unfold AudioRenderer.response_header.
  rewrite VersionFromRevision_digit.
  pose proof (Z.mod_pos_bound (UpdateDataHeader.revision config / 2 ^ 24) 256
                ltac:(lia)) as Hd.
  set (digit := (UpdateDataHeader.revision config / 2 ^ 24) mod 256) in *.
  split; [reflexivity|].
  destruct (Z.leb_spec 48 digit) as [H48|H48]; cbn [andb].
  - destruct (Z.leb_spec digit 52) as [H52|H52].
    + destruct (Z.leb_spec 5 (digit - 48)); [lia|]. repeat split.
    + destruct (Z.leb_spec 5 (digit - 48)); [|lia]. repeat split.
  - destruct (Z.leb_spec 5 (2 ^ 32 - 48 + digit)); [|lia]. repeat split.
Qed.

(** ** Byte ranges *)

Lemma firstn_app_exact {A} (a b : list A) (k : nat) :
  k = length a -> firstn k (a ++ b) = a.
Proof.
  intros ->. rewrite firstn_app, firstn_all, Nat.sub_diag. cbn. apply app_nil_r.
Qed.

Lemma skipn_app_exact {A} (a b : list A) (k j : nat) :
  k = (length a + j)%nat -> skipn k (a ++ b) = skipn j b.
Proof.
  intros ->. rewrite skipn_app, skipn_all2 by lia. cbn. f_equal. lia.
Qed.

Lemma skipn_repeat_zeros {A} (x : A) (n k : nat) :
  skipn k (repeat x n) = repeat x (n - k).
Proof.
  revert k. induction n as [|n IH]; intros [|k]; cbn; trivial.
Qed.

Lemma length_concat_chunks {A} (f : A -> list byte) (n : nat) (l : list A) :
  (forall x, length (f x) = n) -> length (concat (map f l)) = (n * length l)%nat.
Proof.
  intros Hf. induction l as [|x l IH]; cbn; [lia|].
  rewrite length_app, Hf, IH. lia.
Qed.

Lemma le_drop (width : nat) (a c : list byte) (off : nat) :
  (length a <= off)%nat ->
  Bytes.le width (a ++ c) off = Bytes.le width c (off - length a).
Proof.
  intros H. replace off with (length a + (off - length a))%nat at 1 by lia.
  apply le_app_r.
Qed.

(** Steps over the fields in front of the one read at the given offset. *)
Ltac field_at :=
  repeat match goal with
  | |- Bytes.le ?w (?a ++ ?c) ?off = _ =>
      let n := eval cbv in (length a) in
      let off' := eval cbv in (off - n)%nat in
      let ok := eval cbv in (n <=? off)%nat in
      match ok with true => idtac end;
      replace (Bytes.le w (a ++ c) off) with (Bytes.le w c off')
        by (symmetry; exact (le_app_r w a c off'))
  end;
  apply le_put.

Lemma header_parse_image (h : UpdateDataHeader.t) (rest : list byte) :
  UpdateDataHeader.parse (UpdateDataHeader.image h ++ rest) = Layout.as_u32 h.
Proof.
  unfold UpdateDataHeader.parse, Layout.as_u32, UpdateDataHeader.image, Bytes.u32.
  rewrite <- !app_assoc.
  f_equal; unfold wrap32; change (2 ^ 32) with (256 ^ Z.of_nat 4); field_at.
Qed.

Lemma response_header_as_u32 (params : AudioRendererParameter.t)
    (config : UpdateDataHeader.t) :
  Layout.as_u32 (AudioRenderer.response_header params config)
  = AudioRenderer.response_header params config.
Proof.
  unfold AudioRenderer.response_header, Layout.as_u32.
  destruct (5 <=? _); cbn; f_equal;
    unfold wrap32; rewrite ?Z.mod_mod by lia; reflexivity.
Qed.

Lemma parse_prefix (c : list byte) :
  (64 <= length c)%nat ->
  UpdateDataHeader.parse (firstn 64 c) = UpdateDataHeader.parse c.
Proof.
  intros H. unfold UpdateDataHeader.parse, Bytes.u32.
  f_equal; apply le_firstn; lia.
Qed.

(** ** What a call copies, byte by byte *)

Lemma copy_out_layout {A} (image : A -> list byte) (sizeof : Z) (n : nat)
    (xs : list A) :
  sizeof = Z.of_nat n ->
  (forall x, length (image x) = n) ->
  forall output offset output',
    AudioRenderer.copy_out image sizeof output offset xs = Ok output' ->
    n <> 0%nat ->
    output' = firstn (Z.to_nat offset) output ++ concat (map image xs)
                ++ skipn (Z.to_nat offset + n * length xs) output
    /\ (xs <> [] -> 0 <= offset /\ offset + Z.of_nat (n * length xs) <= size output).
Proof.
  intros Hn Himg. induction xs as [|x xs IH]; intros output offset output' H Hn0;
    cbn [AudioRenderer.copy_out] in H.
  - injection H as <-. cbn [map concat length app].
    rewrite Nat.mul_0_r, Nat.add_0_r, firstn_skipn. split; [reflexivity | congruence].
  - bind_ok H. rename a into out1.
    assert (Hne : image x <> []).
    { intros Ex. pose proof (Himg x) as Hx. rewrite Ex in Hx. cbn [length] in Hx. lia. }
    destruct (memcpy_to_spec _ _ _ _ E (or_introl Hne)) as (Hl & H0 & Hfit & Hout).
    destruct (IH _ _ _ H Hn0) as [Hlay Hb].
    unfold size in *. rewrite Himg in Hfit, Hout.
    assert (Hpre : length (firstn (Z.to_nat offset) output ++ image x)
                   = Z.to_nat (offset + sizeof)).
    { rewrite length_app, length_firstn, Himg. lia. }
    split.
    + rewrite Hlay, Hout. cbn [map concat length].
      rewrite (app_assoc (firstn (Z.to_nat offset) output) (image x)).
      rewrite firstn_app_exact by (symmetry; exact Hpre).
      rewrite (skipn_app_exact _ _ _ (n * length xs)) by lia.
      rewrite skipn_skipn, <- !app_assoc. do 3 f_equal.
      rewrite Nat.mul_succ_r. f_equal. lia.
    + intros _. split; [lia|]. destruct xs as [|y ys]; [cbn [length]; lia|].
      destruct Hb as [_ Hb]; [discriminate|]. rewrite Hl in Hb.
      cbn [length] in *. lia.
Qed.

Lemma copy_infos_layout {A} (set : A -> list byte -> A) (sizeof : Z)
    (input : list byte) (xs : list A) :
  forall offset xs' last,
    AudioRenderer.copy_infos set sizeof input offset xs = Ok (xs', last) ->
    last = offset + sizeof * size xs
    /\ length xs' = length xs
    /\ (forall k x, nth_error xs k = Some x ->
          nth_error xs' k
          = Some (set x (Layout.slice input (offset + sizeof * Z.of_nat k) sizeof)))
    /\ (xs <> [] -> sizeof <> 0 ->
        0 <= offset /\ 0 <= sizeof /\ last <= size input).
Proof.
  induction xs as [|x xs IH]; intros offset xs' last H;
    cbn [AudioRenderer.copy_infos] in H.
  - injection H as <- <-. unfold size; cbn [length]. split; [lia|].
    split; [reflexivity|].
    split; [intros [|k] y Hy; discriminate Hy | congruence].
  - bind_ok H. rename a into c. bind_ok H. destruct a as [more' last'].
    injection H as <- <-.
    pose proof (memcpy_from_chunk _ _ _ _ E) as Hc.
    destruct (IH _ _ _ E0) as (Hlast & Hlen & Hnth & Hb).
    unfold size in *. cbn [length].
    split; [lia|]. split; [congruence|]. split.
    + intros [|k] y Hy; cbn [nth_error] in *.
      * injection Hy as <-.
        replace (offset + sizeof * Z.of_nat 0) with offset by lia.
        rewrite Hc. reflexivity.
      * rewrite (Hnth _ _ Hy).
        replace (offset + sizeof + sizeof * Z.of_nat k)
          with (offset + sizeof * Z.of_nat (S k)) by lia.
        reflexivity.
    + intros _ Hpos.
      destruct (memcpy_from_spec _ _ _ _ E (or_introl Hpos)) as (H0 & Hs & Hfit & _).
      unfold size in Hfit.
      split; [lia|]. split; [lia|].
      destruct xs as [|y ys]; [cbn [length] in *; lia|].
      destruct Hb as (_ & _ & Hb); [discriminate | exact Hpos |]. lia.
Qed.

Lemma update_effects_spec (P : Platform) (es : list EffectState.t) :
  forall es',
    AudioRenderer.update_effects P es = Ok es' ->
    Forall2 (fun e e' => EffectState.UpdateState P e = Ok e') es es'.
Proof.
  induction es as [|e es IH]; intros es' H; cbn [AudioRenderer.update_effects] in H.
  - injection H as <-. constructor.
  - bind_ok H. bind_ok H. injection H as <-. constructor; auto.
Qed.

Section ResponseLayout.
Variable P : Platform.

Lemma QueueMixedBuffer_count (r r' : AudioRenderer.t P) (tag : Z) :
  AudioRenderer.QueueMixedBuffer P r tag = Ok r' ->
  length (AudioRenderer.voices P r') = length (AudioRenderer.voices P r).
Proof.
  unfold AudioRenderer.QueueMixedBuffer, AudioRenderer.MixFrame. intros H.
  bind_ok H. destruct a as [vs buffer].
  destruct (mix_voices_keeps P _ _ _ _ _ _ E) as (_ & Hlen & _).
  destruct (AudioOut.QueueBuffer P _ _ _) as [flag s].
  injection H as <-. exact Hlen.
Qed.

Lemma QueueMixedBuffers_count (tags : list Z) :
  forall r r',
    AudioRenderer.QueueMixedBuffers P r tags = Ok r' ->
    length (AudioRenderer.voices P r') = length (AudioRenderer.voices P r).
Proof.
  induction tags as [|tag more IH]; intros r r' H;
    cbn [AudioRenderer.QueueMixedBuffers] in H.
  - injection H as <-. reflexivity.
  - bind_ok H. rewrite (IH _ _ H). eapply QueueMixedBuffer_count; eauto.
Qed.

Lemma ReleaseAndQueueBuffers_count (r r' : AudioRenderer.t P) :
  AudioRenderer.ReleaseAndQueueBuffers P r = Ok r' ->
  length (AudioRenderer.voices P r') = length (AudioRenderer.voices P r)
  /\ AudioRenderer.channels P r' = AudioRenderer.channels P r
  /\ AudioRenderer.effects P r' = AudioRenderer.effects P r
  /\ AudioRenderer.worker_params P r' = AudioRenderer.worker_params P r.
Proof.
  rewrite ReleaseAndQueueBuffers_unfold. intros H.
  pose proof (QueueMixedBuffers_count _ _ _ H) as Hlen.
  destruct (QueueMixedBuffers_spec P _ _ _ H) as (_ & _ & _ & _ & Hw & He & Hc).
  repeat split; assumption.
Qed.

(** What a call that returns has read, and from where. *)
Lemma UpdateAudioRenderer_reads (r r' : AudioRenderer.t P) (input output : list byte) :
  AudioRenderer.UpdateAudioRenderer P r input = Ok (output, r') ->
  exists mem_pool_info voices1 channels1 effects1 effects2
         voice_end channel_end effect_end,
    let config := Layout.config input in
    let params := AudioRenderer.worker_params P r in
    let pools_end :=
      UpdateDataHeader.sizeof + UpdateDataHeader.behavior_size config
      + UpdateDataHeader.memory_pools_size config in
    64 <= size input
    /\ AudioRenderer.read_mem_pool_info params input = Ok mem_pool_info
    /\ AudioRenderer.copy_infos (fun v c => VoiceState.SetInfo P v (VoiceInfo.parse c))
         VoiceInfo.sizeof input
         (pools_end + UpdateDataHeader.voice_resource_size config)
         (AudioRenderer.voices P r) = Ok (voices1, voice_end)
    /\ AudioRenderer.copy_infos
         (fun (_ : ChannelState.t) c => {| ChannelState.info := ChannelInfoIn.parse c |})
         ChannelInfoIn.sizeof input pools_end
         (AudioRenderer.resize (AudioRenderer.channels P r)
            (wrap64 (voice_end - pools_end) / ChannelInfoIn.sizeof)
            ChannelState.create) = Ok (channels1, channel_end)
    /\ AudioRenderer.copy_infos
         (fun e c => EffectState.SetInfo e (EffectInStatus.parse c))
         EffectInStatus.sizeof input
         (pools_end + UpdateDataHeader.voice_resource_size config
          + UpdateDataHeader.voices_size config)
         (AudioRenderer.effects P r) = Ok (effects1, effect_end)
    /\ AudioRenderer.update_effects P effects1 = Ok effects2
    /\ AudioRenderer.ReleaseAndQueueBuffers P
         {| AudioRenderer.worker_params := params;
            AudioRenderer.channels := channels1;
            AudioRenderer.voices := map (AudioRenderer.update_voice P) voices1;
            AudioRenderer.effects := effects2;
            AudioRenderer.stream := AudioRenderer.stream P r |} = Ok r'.
Proof.
  unfold AudioRenderer.UpdateAudioRenderer. intros H.
  bind_ok H. rename a into header, E into Hh.
  bind_ok H. rename a into mem_pool_info, E into Hm.
  bind_ok H. destruct a as [voices1 voice_end]. rename E into Hv.
  bind_ok H. destruct a as [channels1 channel_end]. rename E into Hc.
  bind_ok H. destruct a as [effects1 effect_end]. rename E into He.
  bind_ok H. rename a into effects2, E into Hu.
  bind_ok H. rename a into r3, E into Hq.
  bind_ok H. bind_ok H. bind_ok H. bind_ok H. bind_ok H. injection H as <- <-.
  destruct (memcpy_from_spec _ _ _ _ Hh ltac:(copy_side)) as (_ & _ & Hfit & Hheader).
  assert (Hcfg : UpdateDataHeader.parse header = Layout.config input)
    by (rewrite Hheader; reflexivity).
  rewrite Hcfg in *.
  exists mem_pool_info, voices1, channels1, effects1, effects2,
    voice_end, channel_end, effect_end.
  cbv zeta. unfold UpdateDataHeader.sizeof in *.
  repeat split; trivial; lia.
Qed.

End ResponseLayout.

(** ** The response, section by section *)

Lemma write_at_end (pre src : list byte) (m k j : nat) :
  k = length pre -> j = length src ->
  firstn k (pre ++ repeat x00 m) ++ src ++ skipn (k + j) (pre ++ repeat x00 m)
  = (pre ++ src) ++ repeat x00 (m - j).
Proof.
  intros -> ->. rewrite firstn_app_exact by reflexivity.
  rewrite (skipn_app_exact _ _ _ (length src)) by reflexivity.
  rewrite skipn_repeat_zeros, app_assoc. reflexivity.
Qed.

Lemma length_voice_status_image (o : VoiceOutStatus.t) :
  length (VoiceOutStatus.image o) = 16%nat.
Proof. unfold VoiceOutStatus.image. rewrite !length_app, !length_put. reflexivity. Qed.

Lemma length_effect_status_image (o : EffectOutStatus.t) :
  length (EffectOutStatus.image o) = 16%nat.
Proof.
  unfold EffectOutStatus.image. rewrite length_app, length_put, length_zeros.
  reflexivity.
Qed.

Section ResponseSections.
Variable P : Platform.

(** The blob as it stands before the effect statuses are copied in. *)
Lemma UpdateAudioRenderer_written (r r' : AudioRenderer.t P)
    (input output : list byte) :
  AudioRenderer.UpdateAudioRenderer P r input = Ok (output, r') ->
  exists mem_pool_info pool_bytes,
    let params := AudioRenderer.worker_params P r in
    let created := UpdateDataHeader.create params in
    let response := AudioRenderer.response_header params (Layout.config input) in
    let pools := UpdateDataHeader.memory_pools_size created in
    let statuses :=
      concat (map (fun v => VoiceOutStatus.image (VoiceState.GetOutStatus P v))
                (AudioRenderer.voices P r')) in
    AudioRenderer.read_mem_pool_info params input = Ok mem_pool_info
    /\ pool_bytes
       = Layout.slice
           (concat (map MemoryPoolEntry.image (AudioRenderer.memory_pool_of mem_pool_info)))
           0 pools
    /\ length pool_bytes = Z.to_nat pools
    /\ 0 <= pools
    /\ 64 + pools <= UpdateDataHeader.total_size created
    /\ AudioRenderer.copy_out
         (fun e => EffectOutStatus.image (EffectState.GetOutStatus e))
         EffectOutStatus.sizeof
         ((UpdateDataHeader.image response ++ pool_bytes ++ statuses)
            ++ repeat x00 (Z.to_nat (UpdateDataHeader.total_size created) - 64
                           - Z.to_nat pools - length statuses))
         (64 + pools + UpdateDataHeader.voices_size created)
         (AudioRenderer.effects P r') = Ok output.
Proof.
  intros H.
  destruct (UpdateAudioRenderer_steps P _ _ _ _ H)
    as (header & mem_pool_info & voices1 & channels1 & effects1
        & effects2 & out1 & pool_bytes & out2 & out3 & Hsteps).
  cbv zeta in Hsteps.
  destruct Hsteps as (Hh & Hm & _ & _ & _ & Ho1 & Hpb & Ho2 & Ho3 & Ho4).
  pose proof (memcpy_from_chunk _ _ _ _ Hh) as Hheader.
  assert (Hcfg : UpdateDataHeader.parse header = Layout.config input)
    by (rewrite Hheader; reflexivity).
  rewrite Hcfg in *. clear Hcfg Hheader Hh header.
  exists mem_pool_info, pool_bytes. cbv zeta. split; [exact Hm|].
  set (params := AudioRenderer.worker_params P r) in *.
  set (config := Layout.config input) in *.
  destruct (response_header_fields params config)
    as (Hmps & Hvs & Hvrs & Hmps0 & Hvs0 & Ht0 & _).
  cbv zeta in Hmps, Hvs, Hvrs, Hmps0, Hvs0, Ht0.
  set (response := AudioRenderer.response_header params config) in *.
  set (created := UpdateDataHeader.create params) in *.
  rewrite Hmps in *. rewrite Hvs, Hvrs, Z.add_0_r in Ho4.
  set (pools := UpdateDataHeader.memory_pools_size created) in *.
  destruct (memcpy_to_spec _ _ _ _ Ho1 (or_introl (header_image_nonempty _)))
    as (_ & _ & Hfit1 & Hout1).
  destruct (memcpy_from_spec _ _ _ _ Hpb ltac:(copy_side)) as (_ & _ & Hfitp & Hpool).
  destruct (memcpy_to_spec _ _ _ _ Ho2 (after_header _ _ _ _ Ho1))
    as (_ & _ & Hfit2 & Hout2).
  unfold size in *. rewrite length_header_image in *. rewrite length_zeros in *.
  assert (Hlp : length pool_bytes = Z.to_nat pools).
  { rewrite Hpool. cbn [Z.to_nat skipn]. rewrite length_firstn. lia. }
  assert (E1 : out1 = UpdateDataHeader.image response
                        ++ repeat x00 (Z.to_nat (UpdateDataHeader.total_size created) - 64)).
  { rewrite Hout1. cbn [Z.to_nat firstn app Nat.add]. unfold Bytes.zeros.
    rewrite skipn_repeat_zeros. reflexivity. }
  assert (E2 : out2 = (UpdateDataHeader.image response ++ pool_bytes)
                        ++ repeat x00 (Z.to_nat (UpdateDataHeader.total_size created) - 64
                                       - Z.to_nat pools)).
  { rewrite Hout2, E1, <- Hlp. apply write_at_end; [|reflexivity].
    rewrite length_header_image. reflexivity. }
  destruct (copy_out_layout
              (fun v => VoiceOutStatus.image (VoiceState.GetOutStatus P v))
              VoiceOutStatus.sizeof 16 (AudioRenderer.voices P r') eq_refl
              (fun v => length_voice_status_image _) _ _ _ Ho3
              (Nat.neq_succ_0 15)) as [E3 _].
  rewrite <- (length_concat_chunks
                (fun v => VoiceOutStatus.image (VoiceState.GetOutStatus P v)) 16
                (AudioRenderer.voices P r')
                (fun v => length_voice_status_image _)) in E3.
  rewrite E2 in E3. rewrite write_at_end in E3;
    [| rewrite length_app, length_header_image; unfold UpdateDataHeader.sizeof; lia
     | reflexivity].
  rewrite <- (app_assoc (UpdateDataHeader.image response) pool_bytes) in E3.
  rewrite E3 in Ho4.
  split; [exact Hpool|]. split; [exact Hlp|]. split; [lia|].
  rewrite E1, length_app, length_header_image, repeat_length in Hfit2.
  split; [unfold UpdateDataHeader.sizeof in *; lia|].
  exact Ho4.
Qed.

End ResponseSections.

(** The header of the blob of a call that returns. *)
Lemma response_header_parsed (P : Platform) (r r' : AudioRenderer.t P)
    (input output : list byte)
    (Hok : AudioRenderer.UpdateAudioRenderer P r input = Ok (output, r')) :
  let params := AudioRenderer.worker_params P r in
  let created := UpdateDataHeader.create params in
  let response := AudioRenderer.response_header params (Layout.config input) in
  Layout.slice output 0 64 = UpdateDataHeader.image response
  /\ Response.header output = response
  /\ UpdateDataHeader.revision (Response.header output) = UpdateDataHeader.REV4
  /\ UpdateDataHeader.behavior_size (Response.header output) = 176
  /\ UpdateDataHeader.memory_pools_size (Response.header output)
     = UpdateDataHeader.memory_pools_size created
  /\ UpdateDataHeader.voices_size (Response.header output)
     = UpdateDataHeader.voices_size created
  /\ UpdateDataHeader.effects_size (Response.header output)
     = UpdateDataHeader.effects_size created
  /\ UpdateDataHeader.sinks_size (Response.header output)
     = UpdateDataHeader.sinks_size created
  /\ UpdateDataHeader.performance_manager_size (Response.header output) = 16.
Proof.
  cbv zeta.
  destruct (UpdateAudioRenderer_written P _ _ _ _ Hok)
    as (mem_pool_info & pool_bytes & Hw).
  cbv zeta in Hw. destruct Hw as (_ & _ & _ & Hp0 & Hfit & Ho4).
  set (params := AudioRenderer.worker_params P r) in *.
  set (response := AudioRenderer.response_header params (Layout.config input)) in *.
  destruct (response_header_fields params (Layout.config input))
    as (_ & _ & _ & _ & Hvs0 & Ht0 & _).
  cbv zeta in Hvs0, Ht0.
  destruct (copy_out_spec _ EffectOutStatus.sizeof _
              ltac:(unfold EffectOutStatus.sizeof; lia) _ _ _ Ho4)
    as (Hlen & Hpre).
  assert (H64 : firstn 64 output = UpdateDataHeader.image response).
  { rewrite (Hpre 64%nat) by lia. rewrite <- !app_assoc.
    apply firstn_app_exact. rewrite length_header_image. reflexivity. }
  assert (Hlong : (64 <= length output)%nat).
  { rewrite <- (firstn_skipn 64 output), length_app, H64, length_header_image. lia. }
  assert (Hhead : Response.header output = response).
  { unfold Response.header. rewrite <- parse_prefix by exact Hlong.
    rewrite H64, <- (app_nil_r (UpdateDataHeader.image response)).
    rewrite header_parse_image. apply response_header_as_u32. }
  split; [exact H64|]. split; [exact Hhead|]. rewrite Hhead.
  unfold response, AudioRenderer.response_header.
  destruct (5 <=? _); repeat split.
Qed.

Lemma response_header_read_back_fields (P : Platform) (r r' : AudioRenderer.t P)
    (input output : list byte) :
  AudioRenderer.UpdateAudioRenderer P r input = Ok (output, r') ->
  UpdateDataHeader.behavior_size (Response.header output) = 176
  /\ UpdateDataHeader.sinks_size (Response.header output)
     = UpdateDataHeader.sinks_size
         (UpdateDataHeader.create (AudioRenderer.worker_params P r))
  /\ UpdateDataHeader.performance_manager_size (Response.header output) = 16.
Proof.
  intros Hok.
  destruct (response_header_parsed P r r' input output Hok)
    as (_ & _ & _ & Hb & _ & _ & _ & Hs & Hp).
  repeat split; assumption.
Qed.

(** X5.  The header a guest reads back from the response of a call is the
    header the call built, field for field: the one the constructor derives
    from the renderer's parameters, with [frame_count] and [total_size]
    raised when the revision of the request asks for it.  Its revision is
    REV4 and its section sizes are those of the parameters, whatever the
    request declared. *)
Theorem response_header_read_back (P : Platform) (r r' : AudioRenderer.t P)
    (input output : list byte)
    (Hok : AudioRenderer.UpdateAudioRenderer P r input = Ok (output, r')) :
  let params := AudioRenderer.worker_params P r in
  let created := UpdateDataHeader.create params in
  let response := AudioRenderer.response_header params (Layout.config input) in
  Layout.slice output 0 64 = UpdateDataHeader.image response
  /\ Response.header output = response
  /\ UpdateDataHeader.revision (Response.header output) = UpdateDataHeader.REV4
  /\ UpdateDataHeader.behavior_size (Response.header output) = 176
  /\ UpdateDataHeader.memory_pools_size (Response.header output)
     = UpdateDataHeader.memory_pools_size created
  /\ UpdateDataHeader.voices_size (Response.header output)
     = UpdateDataHeader.voices_size created
  /\ UpdateDataHeader.effects_size (Response.header output)
     = UpdateDataHeader.effects_size created
  /\ UpdateDataHeader.sinks_size (Response.header output)
     = UpdateDataHeader.sinks_size created
  /\ UpdateDataHeader.performance_manager_size (Response.header output) = 16.
Proof. exact (response_header_parsed P r r' input output Hok). Qed.

Lemma response_header_read_back_witness :
  let blob := Example.update_blob (Example.REV 55) [0; 0; 0; 0] 1 1 0 in
  exists output r',
    Example.one_update Example.silent blob = Ok (output, r')
    /\ UpdateDataHeader.revision (Layout.config blob) = Example.REV 55
    /\ UpdateDataHeader.revision (Response.header output) = Example.REV 52
    /\ UpdateDataHeader.frame_count (Response.header output) = 16.
Proof.
  cbv zeta. unfold Example.one_update.
  destruct (AudioRenderer.create Example.silent (Example.params 1 0))
    as [r0|f] eqn:E0; [|vm_compute in E0; discriminate E0].
  cbn [bind].
  destruct (AudioRenderer.UpdateAudioRenderer Example.silent r0
              (Example.update_blob (Example.REV 55) [0; 0; 0; 0] 1 1 0))
    as [[output r']|f] eqn:E.
  2: { vm_compute in E0. injection E0 as <-. vm_compute in E. discriminate E. }
  exists output, r'. split; [reflexivity|]. split; [reflexivity|].
  destruct (response_header_read_back Example.silent r0 r' _ output E)
    as (_ & Hhead & Hrev & _).
  split; [rewrite Hrev; reflexivity|].
  rewrite Hhead. reflexivity.
Defined.

(** The whole blob of a call that returns. *)
Lemma response_layout (P : Platform) (r r' : AudioRenderer.t P)
    (input output : list byte)
    (Hok : AudioRenderer.UpdateAudioRenderer P r input = Ok (output, r'))
    (Hvoices : 16 * size (AudioRenderer.voices P r)
               = UpdateDataHeader.voices_size
                   (UpdateDataHeader.create (AudioRenderer.worker_params P r))) :
  exists mem_pool_info,
    let params := AudioRenderer.worker_params P r in
    let created := UpdateDataHeader.create params in
    let pools := UpdateDataHeader.memory_pools_size created in
    let entries :=
      concat (map MemoryPoolEntry.image (AudioRenderer.memory_pool_of mem_pool_info)) in
    AudioRenderer.read_mem_pool_info params input = Ok mem_pool_info
    /\ output
       = UpdateDataHeader.image
           (AudioRenderer.response_header params (Layout.config input))
         ++ Layout.slice entries 0 pools
         ++ concat (map (fun v => VoiceOutStatus.image (VoiceState.GetOutStatus P v))
                      (AudioRenderer.voices P r'))
         ++ concat (map (fun e => EffectOutStatus.image (EffectState.GetOutStatus e))
                      (AudioRenderer.effects P r'))
         ++ Bytes.zeros (UpdateDataHeader.total_size created - 64 - pools
                         - 16 * size (AudioRenderer.voices P r')
                         - 16 * size (AudioRenderer.effects P r'))
    /\ (16 * size mem_pool_info < 2 ^ 32 -> Layout.slice entries 0 pools = entries)
    /\ length (AudioRenderer.voices P r') = length (AudioRenderer.voices P r)
    /\ length (AudioRenderer.effects P r') = length (AudioRenderer.effects P r).
Proof.
  destruct (UpdateAudioRenderer_written P _ _ _ _ Hok)
    as (mem_pool_info & pool_bytes & Hw).
  cbv zeta in Hw. destruct Hw as (Hm & Hpool & Hlp & Hp0 & Hfit & Ho4).
  destruct (UpdateAudioRenderer_reads P _ _ _ _ Hok)
    as (mem_pool_info' & voices1 & channels1 & effects1 & effects2
        & voice_end & channel_end & effect_end & Hreads).
  cbv zeta in Hreads. destruct Hreads as (_ & _ & Hv & _ & He & Hu & Hq).
  destruct (copy_infos_layout _ _ _ _ _ _ _ Hv) as (_ & Hlv & _).
  destruct (copy_infos_layout _ _ _ _ _ _ _ He) as (_ & Hle & _).
  pose proof (Forall2_length (update_effects_spec P _ _ Hu)) as Hlu.
  destruct (ReleaseAndQueueBuffers_count P _ _ Hq) as (Hlq & _ & Heq & _).
  cbn [AudioRenderer.voices AudioRenderer.effects] in Hlq, Heq.
  rewrite length_map in Hlq.
  assert (Hnv : length (AudioRenderer.voices P r') = length (AudioRenderer.voices P r))
    by congruence.
  assert (Hne : length (AudioRenderer.effects P r') = length (AudioRenderer.effects P r))
    by congruence.
  exists mem_pool_info. cbv zeta.
  set (params := AudioRenderer.worker_params P r) in *.
  set (created := UpdateDataHeader.create params) in *.
  set (pools := UpdateDataHeader.memory_pools_size created) in *.
  set (response := AudioRenderer.response_header params (Layout.config input)) in *.
  set (statuses := concat (map (fun v => VoiceOutStatus.image (VoiceState.GetOutStatus P v))
                             (AudioRenderer.voices P r'))) in *.
  assert (Hls : length statuses = (16 * length (AudioRenderer.voices P r'))%nat)
    by (apply length_concat_chunks; intros v; apply length_voice_status_image).
  split; [exact Hm|]. split; [|split; [|split; [exact Hnv | exact Hne]]].
  - destruct (copy_out_layout
                (fun e => EffectOutStatus.image (EffectState.GetOutStatus e))
                EffectOutStatus.sizeof 16 (AudioRenderer.effects P r') eq_refl
                (fun e => length_effect_status_image _) _ _ _ Ho4
                (Nat.neq_succ_0 15)) as [E4 _].
    rewrite <- (length_concat_chunks
                  (fun e => EffectOutStatus.image (EffectState.GetOutStatus e)) 16
                  (AudioRenderer.effects P r')
                  (fun e => length_effect_status_image _)) in E4.
    rewrite write_at_end in E4; [| | reflexivity].
    + rewrite E4, <- Hpool, <- !app_assoc. do 4 f_equal.
      unfold Bytes.zeros. f_equal.
      rewrite (length_concat_chunks _ 16 _ (fun e => length_effect_status_image _)).
      unfold size. lia.
    + rewrite !length_app, length_header_image, Hlp, Hls.
      unfold size in Hvoices. lia.
  - intros Hsmall. rewrite <- Hpool.
    unfold AudioRenderer.read_mem_pool_info in Hm.
    bind_ok Hm. bind_ok Hm. injection Hm as Hm.
    assert (Hcount : length mem_pool_info
                     = Z.to_nat (wrap32 (AudioRendererParameter.effect_count params
                                         + wrap32 (AudioRendererParameter.voice_count params * 4))))
      by (rewrite <- Hm, length_map, length_seq; reflexivity).
    assert (Hpools : pools = 16 * size mem_pool_info).
    { unfold pools, created, UpdateDataHeader.create, size;
        cbn [UpdateDataHeader.memory_pools_size].
      rewrite Hcount.
      pose proof (Z.mod_pos_bound (AudioRendererParameter.effect_count params
                                   + wrap32 (AudioRendererParameter.voice_count params * 4))
                    (2 ^ 32) ltac:(lia)) as Hc.
      fold (wrap32 (AudioRendererParameter.effect_count params
                    + wrap32 (AudioRendererParameter.voice_count params * 4))) in Hc.
      unfold size in Hsmall. rewrite Hcount in Hsmall.
      rewrite Z2Nat.id in * by lia.
      unfold wrap32 at 1. rewrite Z.mod_small by lia. lia. }
    rewrite Hpool. unfold Layout.slice. cbn [Z.to_nat skipn].
    apply firstn_all2.
    rewrite (length_concat_chunks _ 16 _ length_pool_image), memory_pool_of_map,
      length_map.
    unfold size in Hpools. lia.
Qed.

(** X6.  When the renderer holds as many voices as its parameters declare
    (16 bytes of status each), the response is, in this order and with
    nothing in between: the 64 bytes of the header, the memory-pool entries,
    one status per voice, one status per effect, and zeros up to the size
    computed from the parameters.  The voices and effects are those the call
    leaves behind, in their order; the call changes neither count. *)
Theorem response_sections (P : Platform) (r r' : AudioRenderer.t P)
    (input output : list byte)
    (Hok : AudioRenderer.UpdateAudioRenderer P r input = Ok (output, r'))
    (Hvoices : 16 * size (AudioRenderer.voices P r)
               = UpdateDataHeader.voices_size
                   (UpdateDataHeader.create (AudioRenderer.worker_params P r))) :
  exists mem_pool_info,
    let params := AudioRenderer.worker_params P r in
    let created := UpdateDataHeader.create params in
    let pools := UpdateDataHeader.memory_pools_size created in
    let entries :=
      concat (map MemoryPoolEntry.image (AudioRenderer.memory_pool_of mem_pool_info)) in
    AudioRenderer.read_mem_pool_info params input = Ok mem_pool_info
    /\ output
       = UpdateDataHeader.image
           (AudioRenderer.response_header params (Layout.config input))
         ++ Layout.slice entries 0 pools
         ++ concat (map (fun v => VoiceOutStatus.image (VoiceState.GetOutStatus P v))
                      (AudioRenderer.voices P r'))
         ++ concat (map (fun e => EffectOutStatus.image (EffectState.GetOutStatus e))
                      (AudioRenderer.effects P r'))
         ++ Bytes.zeros (UpdateDataHeader.total_size created - 64 - pools
                         - 16 * size (AudioRenderer.voices P r')
                         - 16 * size (AudioRenderer.effects P r'))
    /\ (16 * size mem_pool_info < 2 ^ 32 -> Layout.slice entries 0 pools = entries)
    /\ length (AudioRenderer.voices P r') = length (AudioRenderer.voices P r)
    /\ length (AudioRenderer.effects P r') = length (AudioRenderer.effects P r).
Proof. exact (response_layout P r r' input output Hok Hvoices). Qed.

Lemma response_sections_witness :
  let blob := Example.update_blob (Example.REV 52) [4; 2; 0; 0] 1 1 0 in
  exists output r',
    Example.one_update Example.silent blob = Ok (output, r')
    /\ length output = 368%nat
    /\ Layout.slice output 64 64
       = Bytes.put 4 5 ++ Bytes.zeros 12 ++ Bytes.put 4 3 ++ Bytes.zeros 44
    /\ Layout.slice output 128 240 = Bytes.zeros 240.
Proof.
  cbv zeta. unfold Example.one_update.
  destruct (AudioRenderer.create Example.silent (Example.params 1 0))
    as [r0|f] eqn:E0; [|vm_compute in E0; discriminate E0].
  cbn [bind].
  destruct (AudioRenderer.UpdateAudioRenderer Example.silent r0
              (Example.update_blob (Example.REV 52) [4; 2; 0; 0] 1 1 0))
    as [[output r']|f] eqn:E.
  2: { vm_compute in E0. injection E0 as <-. vm_compute in E. discriminate E. }
  exists output, r'. split; [reflexivity|].
  assert (Hr0 : 16 * size (AudioRenderer.voices Example.silent r0)
                = UpdateDataHeader.voices_size
                    (UpdateDataHeader.create
                       (AudioRenderer.worker_params Example.silent r0))).
  { vm_compute in E0. injection E0 as <-. reflexivity. }
  destruct (response_sections Example.silent r0 r' _ output E Hr0)
    as (mem_pool_info & _ & Hout & _).
  vm_compute in E0. injection E0 as <-. vm_compute in E. injection E as <- <-.
  repeat split.
Defined.

(** ** What a call reads, and from where *)

Lemma Forall2_nth_error {A B} (R : A -> B -> Prop) (l : list A) (l' : list B) :
  Forall2 R l l' ->
  forall k x, nth_error l k = Some x ->
              exists y, nth_error l' k = Some y /\ R x y.
Proof.
  induction 1 as [|a b l l' Hab _ IH]; intros [|k] x Hx; cbn in *;
    try discriminate Hx.
  - injection Hx as <-. exists b. split; [reflexivity | exact Hab].
  - apply IH. exact Hx.
Qed.

Lemma length_resize {A} (l : list A) (n : Z) (fresh : A) :
  length (AudioRenderer.resize l n fresh) = Z.to_nat n.
Proof.
  unfold AudioRenderer.resize. rewrite length_app, length_firstn, repeat_length. lia.
Qed.

(** X7.  A call checks no length: it returns only for a blob that covers
    every range it copies bytes from - the 64 bytes of the header; when the
    renderer has memory pools, the requests behind the behaviour section;
    and, when it has voices or effects, one [VoiceInfo] per voice and one
    [EffectInStatus] per effect at the offsets the header of the blob
    declares.  A renderer without pools copies no request, and that copy
    asks nothing of the blob. *)
Theorem update_reads_within_input (P : Platform) (r r' : AudioRenderer.t P)
    (input output : list byte)
    (Hok : AudioRenderer.UpdateAudioRenderer P r input = Ok (output, r')) :
  let config := Layout.config input in
  let params := AudioRenderer.worker_params P r in
  let pool_count :=
    wrap32 (AudioRendererParameter.effect_count params
            + wrap32 (AudioRendererParameter.voice_count params * 4)) in
  let pools_end :=
    64 + UpdateDataHeader.behavior_size config
    + UpdateDataHeader.memory_pools_size config in
  64 <= size input
  /\ (pool_count <> 0 ->
      64 + UpdateDataHeader.behavior_size config + 32 * pool_count <= size input)
  /\ (AudioRenderer.voices P r <> [] ->
      pools_end + UpdateDataHeader.voice_resource_size config
      + 368 * size (AudioRenderer.voices P r) <= size input)
  /\ (AudioRenderer.effects P r <> [] ->
      pools_end + UpdateDataHeader.voice_resource_size config
      + UpdateDataHeader.voices_size config
      + 192 * size (AudioRenderer.effects P r) <= size input).
Proof.
  cbv zeta.
  destruct (UpdateAudioRenderer_reads P _ _ _ _ Hok)
    as (mem_pool_info & voices1 & channels1 & effects1 & effects2
        & voice_end & channel_end & effect_end & Hreads).
  cbv zeta in Hreads. destruct Hreads as (H64 & Hm & Hv & _ & He & _).
  destruct (copy_infos_layout _ _ _ _ _ _ _ Hv) as (Hvend & _ & _ & Hvb).
  destruct (copy_infos_layout _ _ _ _ _ _ _ He) as (Heend & _ & _ & Heb).
  unfold UpdateDataHeader.sizeof, VoiceInfo.sizeof, EffectInStatus.sizeof in *.
  split; [exact H64|]. split; [|split].
  - intros Hpools. unfold AudioRenderer.read_mem_pool_info in Hm.
    bind_ok Hm. bind_ok Hm.
    pose proof (memcpy_from_chunk _ _ _ _ E) as Hheader.
    destruct (memcpy_from_spec _ _ _ _ E0
                ltac:(left; unfold MemoryPoolInfo.sizeof; lia))
      as (_ & _ & Hfit & _).
    assert (Hcfg : UpdateDataHeader.parse a = Layout.config input)
      by (rewrite Hheader; reflexivity).
    rewrite Hcfg in Hfit.
    unfold UpdateDataHeader.sizeof, MemoryPoolInfo.sizeof in Hfit. lia.
  - intros Hne. destruct (Hvb Hne ltac:(lia)) as (_ & _ & Hfit). lia.
  - intros Hne. destruct (Heb Hne ltac:(lia)) as (_ & _ & Hfit). lia.
Qed.

Lemma update_reads_within_input_witness :
  let blob := Example.update_blob (Example.REV 52) [0; 0; 0; 0] 1 1 0 in
  exists output r',
    Example.one_update Example.silent blob = Ok (output, r')
    /\ size blob = 736
    /\ 64 + 176 + 128 + 0 + 368 * 1 <= size blob.
Proof.
  cbv zeta. unfold Example.one_update.
  destruct (AudioRenderer.create Example.silent (Example.params 1 0))
    as [r0|f] eqn:E0; [|vm_compute in E0; discriminate E0].
  cbn [bind].
  destruct (AudioRenderer.UpdateAudioRenderer Example.silent r0
              (Example.update_blob (Example.REV 52) [0; 0; 0; 0] 1 1 0))
    as [[output r']|f] eqn:E.
  2: { vm_compute in E0. injection E0 as <-. vm_compute in E. discriminate E. }
  exists output, r'. split; [reflexivity|]. split; [reflexivity|].
  destruct (update_reads_within_input Example.silent r0 r' _ output E)
    as (_ & _ & Hv & _).
  assert (Hvs : length (AudioRenderer.voices Example.silent r0) = 1%nat)
    by (vm_compute in E0; injection E0 as <-; reflexivity).
  destruct (AudioRenderer.voices Example.silent r0) as [|v [|v2 vs]];
    try discriminate Hvs.
  exact (Hv ltac:(discriminate)).
Defined.

(** X8.  A blob too short for the header, or - when the renderer has memory
    pools - for the requests its parameters call for, is not refused: the
    copy runs past the end of the vector. *)
Theorem update_of_short_blob (P : Platform) (r : AudioRenderer.t P)
    (input : list byte)
    (Hshort :
       let pool_count :=
         wrap32 (AudioRendererParameter.effect_count
                   (AudioRenderer.worker_params P r)
                 + wrap32 (AudioRendererParameter.voice_count
                             (AudioRenderer.worker_params P r) * 4)) in
       size input < 64
       \/ (pool_count <> 0
           /\ size input
              < 64 + UpdateDataHeader.behavior_size (Layout.config input)
                + 32 * pool_count)) :
  AudioRenderer.UpdateAudioRenderer P r input = Err UndefinedBehaviour.
Proof.
  cbv zeta in Hshort.
  unfold AudioRenderer.UpdateAudioRenderer, AudioRenderer.read_mem_pool_info.
  destruct (Bytes.memcpy_from input 0 UpdateDataHeader.sizeof) as [header|f] eqn:Hh.
  - cbn [bind].
    pose proof (memcpy_from_chunk _ _ _ _ Hh) as Hheader.
    destruct (memcpy_from_spec _ _ _ _ Hh ltac:(copy_side)) as (_ & _ & H64 & _).
    unfold UpdateDataHeader.sizeof in H64.
    assert (Hcfg : UpdateDataHeader.parse header = Layout.config input)
      by (rewrite Hheader; reflexivity).
    rewrite Hcfg.
    set (count := wrap32 _) in *.
    destruct Hshort as [Hs|[Hpools Hs]]; [lia|].
    assert (Hfail : Bytes.memcpy_from input
                      (UpdateDataHeader.sizeof
                       + UpdateDataHeader.behavior_size (Layout.config input))
                      (count * MemoryPoolInfo.sizeof) = Err UndefinedBehaviour).
    { unfold Bytes.memcpy_from.
      destruct (Z.eqb_spec (count * MemoryPoolInfo.sizeof) 0) as [Hz|_];
        [unfold MemoryPoolInfo.sizeof in Hz; lia|].
      destruct (Z.leb_spec (UpdateDataHeader.sizeof
                            + UpdateDataHeader.behavior_size (Layout.config input)
                            + count * MemoryPoolInfo.sizeof) (size input)) as [Hle|Hgt].
      - unfold UpdateDataHeader.sizeof, MemoryPoolInfo.sizeof in Hle. lia.
      - rewrite andb_false_r. reflexivity. }
    rewrite Hfail. reflexivity.
  - cbn [bind]. unfold Bytes.memcpy_from in Hh.
    destruct (UpdateDataHeader.sizeof =? 0); [discriminate Hh|].
    destruct (_ && _); [discriminate Hh | injection Hh as <-; reflexivity].
Qed.

Lemma update_of_short_blob_witness :
  exists r0,
    AudioRenderer.create Example.silent (Example.params 1 0) = Ok r0
    /\ size (Bytes.zeros 100) = 100
    /\ AudioRenderer.UpdateAudioRenderer Example.silent r0 (Bytes.zeros 100)
       = Err UndefinedBehaviour.
Proof.
  destruct (AudioRenderer.create Example.silent (Example.params 1 0))
    as [r0|f] eqn:E0; [|vm_compute in E0; discriminate E0].
  exists r0. split; [reflexivity|]. split; [reflexivity|].
  apply (update_of_short_blob Example.silent r0 (Bytes.zeros 100)).
  vm_compute in E0. injection E0 as <-. cbv zeta. right.
  split; [vm_compute; discriminate | vm_compute; reflexivity].
Defined.

(** X9.  After a call the renderer has as many mix channels as 112-byte
    records fit between the end of the memory-pool section and the end of
    the last [VoiceInfo], whatever it had before, and each channel holds the
    record read at its place in that range - the range the voice resources
    and the [VoiceInfo] structs themselves occupy. *)
Theorem channels_follow_voice_section (P : Platform) (r r' : AudioRenderer.t P)
    (input output : list byte)
    (Hok : AudioRenderer.UpdateAudioRenderer P r input = Ok (output, r')) :
  let config := Layout.config input in
  let pools_end :=
    64 + UpdateDataHeader.behavior_size config
    + UpdateDataHeader.memory_pools_size config in
  size (AudioRenderer.channels P r')
  = wrap64 (UpdateDataHeader.voice_resource_size config
            + 368 * size (AudioRenderer.voices P r)) / 112
  /\ forall k c,
      nth_error (AudioRenderer.channels P r') k = Some c ->
      ChannelState.GetInfo c
      = ChannelInfoIn.parse (Layout.slice input (pools_end + 112 * Z.of_nat k) 112).
Proof.
  cbv zeta.
  destruct (UpdateAudioRenderer_reads P _ _ _ _ Hok)
    as (mem_pool_info & voices1 & channels1 & effects1 & effects2
        & voice_end & channel_end & effect_end & Hreads).
  cbv zeta in Hreads. destruct Hreads as (_ & _ & Hv & Hc & _ & _ & Hq).
  destruct (copy_infos_layout _ _ _ _ _ _ _ Hv) as (Hvend & _).
  destruct (copy_infos_layout _ _ _ _ _ _ _ Hc) as (_ & Hlen & Hnth & _).
  destruct (ReleaseAndQueueBuffers_count P _ _ Hq) as (_ & Hch & _).
  cbn [AudioRenderer.channels] in Hch. rewrite Hch.
  rewrite length_resize in Hlen.
  unfold UpdateDataHeader.sizeof, VoiceInfo.sizeof, ChannelInfoIn.sizeof in *.
  set (pools_end := 64 + UpdateDataHeader.behavior_size (Layout.config input)
                    + UpdateDataHeader.memory_pools_size (Layout.config input)) in *.
  replace (voice_end - pools_end)
    with (UpdateDataHeader.voice_resource_size (Layout.config input)
          + 368 * size (AudioRenderer.voices P r)) in * by lia.
  set (count := wrap64 _ / 112) in *.
  assert (Hcount : 0 <= count).
  { apply Z.div_pos; [|lia]. apply Z.mod_pos_bound. lia. }
  split; [unfold size; lia|].
  intros k c Hk.
  assert (Hlt : (k < length (AudioRenderer.resize (AudioRenderer.channels P r) count
                               ChannelState.create))%nat).
  { rewrite length_resize, <- Hlen. apply nth_error_Some. congruence. }
  destruct (nth_error (AudioRenderer.resize (AudioRenderer.channels P r) count
                         ChannelState.create) k) as [x|] eqn:Hx;
    [|apply nth_error_None in Hx; lia].
  rewrite (Hnth _ _ Hx) in Hk. injection Hk as <-. reflexivity.
Qed.

Lemma channels_follow_voice_section_witness :
  let blob := Example.update_blob (Example.REV 52) [0; 0; 0; 0] 1 1 0 in
  exists output r',
    Example.one_update Example.silent blob = Ok (output, r')
    /\ size (AudioRenderer.channels Example.silent r') = 3.
Proof.
  cbv zeta. unfold Example.one_update.
  destruct (AudioRenderer.create Example.silent (Example.params 1 0))
    as [r0|f] eqn:E0; [|vm_compute in E0; discriminate E0].
  cbn [bind].
  destruct (AudioRenderer.UpdateAudioRenderer Example.silent r0
              (Example.update_blob (Example.REV 52) [0; 0; 0; 0] 1 1 0))
    as [[output r']|f] eqn:E.
  2: { vm_compute in E0. injection E0 as <-. vm_compute in E. discriminate E. }
  exists output, r'. split; [reflexivity|].
  destruct (channels_follow_voice_section Example.silent r0 r' _ output E)
    as (Hcount & _).
  rewrite Hcount.
  vm_compute in E0. injection E0 as <-. reflexivity.
Defined.

(** ** Effects *)

Lemma EffectState_UpdateState_ok (P : Platform) (e e' : EffectState.t) :
  EffectState.UpdateState P e = Ok e' ->
  EffectState.info e' = EffectState.info e
  /\ EffectOutStatus.state (EffectState.out_status e')
     = (if EffectInStatus.is_new (EffectState.info e) =? 0
        then EffectOutStatus.state (EffectState.out_status e)
        else EffectStatus.New)
  /\ (EffectInStatus.is_new (EffectState.info e) = 0 ->
      EffectInStatus.type (EffectState.info e) = Effect.Aux ->
      let aux := EffectInStatus.aux_info (EffectState.info e) in
      Read32 P (AuxInfo.return_buffer_info aux) = 0
      /\ Read32 P (AuxInfo.send_buffer_info aux) = 0
      /\ Read32 P (AuxInfo.return_buffer_base aux) = 0
      /\ Read32 P (AuxInfo.send_buffer_base aux) = 0).
Proof.
  unfold EffectState.UpdateState, EffectState.assert_zero.
  destruct (Z.eqb_spec (EffectInStatus.is_new (EffectState.info e)) 0) as [Hn|Hn];
    cbn [negb].
  - destruct (Z.eqb_spec (EffectInStatus.type (EffectState.info e)) Effect.Aux)
      as [Ht|Ht].
    + destruct (Z.eqb_spec (Read32 P (AuxInfo.return_buffer_info
                  (EffectInStatus.aux_info (EffectState.info e)))) 0);
        cbn [bind]; [|discriminate].
      destruct (Z.eqb_spec (Read32 P (AuxInfo.send_buffer_info
                  (EffectInStatus.aux_info (EffectState.info e)))) 0);
        cbn [bind]; [|discriminate].
      destruct (Z.eqb_spec (Read32 P (AuxInfo.return_buffer_base
                  (EffectInStatus.aux_info (EffectState.info e)))) 0);
        cbn [bind]; [|discriminate].
      destruct (Z.eqb_spec (Read32 P (AuxInfo.send_buffer_base
                  (EffectInStatus.aux_info (EffectState.info e)))) 0);
        cbn [bind]; [|discriminate].
      intros H; injection H as <-. repeat split; assumption.
    + intros H; injection H as <-. repeat split; try reflexivity; contradiction.
  - intros H; injection H as <-. cbn. repeat split; try reflexivity; contradiction.
Qed.

(** X10.  An effect's status is never set back: after a call each effect
    holds the [EffectInStatus] read at its place in the blob, and its status
    is New when that record is marked new and otherwise what it was before
    the call.  For a record that is not new and of type Aux the call returns
    only if the four aux buffer addresses all read as zero; [UpdateState]
    fails in no other case, and then on its assertion. *)
Theorem effect_status_never_reset (P : Platform) (r r' : AudioRenderer.t P)
    (input output : list byte)
    (Hok : AudioRenderer.UpdateAudioRenderer P r input = Ok (output, r')) :
  let config := Layout.config input in
  let effects_at :=
    64 + UpdateDataHeader.behavior_size config
    + UpdateDataHeader.memory_pools_size config
    + UpdateDataHeader.voice_resource_size config
    + UpdateDataHeader.voices_size config in
  length (AudioRenderer.effects P r') = length (AudioRenderer.effects P r)
  /\ (forall k e,
        nth_error (AudioRenderer.effects P r) k = Some e ->
        exists e',
          nth_error (AudioRenderer.effects P r') k = Some e'
          /\ EffectState.info e'
             = EffectInStatus.parse
                 (Layout.slice input (effects_at + 192 * Z.of_nat k) 192)
          /\ EffectOutStatus.state (EffectState.GetOutStatus e')
             = (if EffectInStatus.is_new (EffectState.info e') =? 0
                then EffectOutStatus.state (EffectState.GetOutStatus e)
                else EffectStatus.New)
          /\ (EffectOutStatus.state (EffectState.GetOutStatus e) = EffectStatus.New ->
              EffectOutStatus.state (EffectState.GetOutStatus e') = EffectStatus.New)
          /\ (EffectInStatus.is_new (EffectState.info e') = 0 ->
              EffectInStatus.type (EffectState.info e') = Effect.Aux ->
              let aux := EffectInStatus.aux_info (EffectState.info e') in
              Read32 P (AuxInfo.return_buffer_info aux) = 0
              /\ Read32 P (AuxInfo.send_buffer_info aux) = 0
              /\ Read32 P (AuxInfo.return_buffer_base aux) = 0
              /\ Read32 P (AuxInfo.send_buffer_base aux) = 0))
  /\ (forall e0 fault,
        EffectState.UpdateState P e0 = Err fault ->
        fault = AssertionFailed
        /\ EffectInStatus.is_new (EffectState.info e0) = 0
        /\ EffectInStatus.type (EffectState.info e0) = Effect.Aux).
Proof.
  cbv zeta.
  destruct (UpdateAudioRenderer_reads P _ _ _ _ Hok)
    as (mem_pool_info & voices1 & channels1 & effects1 & effects2
        & voice_end & channel_end & effect_end & Hreads).
  cbv zeta in Hreads. destruct Hreads as (_ & _ & _ & _ & He & Hu & Hq).
  destruct (copy_infos_layout _ _ _ _ _ _ _ He) as (_ & Hlen & Hnth & _).
  pose proof (update_effects_spec P _ _ Hu) as Hall.
  destruct (ReleaseAndQueueBuffers_count P _ _ Hq) as (_ & _ & Heq & _).
  cbn [AudioRenderer.effects] in Heq. rewrite Heq.
  unfold UpdateDataHeader.sizeof, EffectInStatus.sizeof in *.
  split; [rewrite <- (Forall2_length Hall); exact Hlen|]. split.
  - intros k e Hk.
    destruct (Forall2_nth_error _ _ _ Hall k _ (Hnth _ _ Hk)) as (e' & Hk' & Hup).
    destruct (EffectState_UpdateState_ok P _ _ Hup) as (Hinfo & Hstate & Haux).
    cbn [EffectState.info EffectState.out_status EffectState.SetInfo] in Hinfo, Hstate, Haux.
    exists e'. split; [exact Hk'|]. split; [exact Hinfo|].
    unfold EffectState.GetOutStatus. rewrite Hinfo.
    split; [exact Hstate|]. split; [|exact Haux].
    intros Hnew. rewrite Hstate, Hnew. destruct (_ =? 0); reflexivity.
  - intros e0 fault. unfold EffectState.UpdateState, EffectState.assert_zero.
    destruct (Z.eqb_spec (EffectInStatus.is_new (EffectState.info e0)) 0) as [Hn|Hn];
      cbn [negb]; [|discriminate].
    destruct (Z.eqb_spec (EffectInStatus.type (EffectState.info e0)) Effect.Aux)
      as [Ht|Ht]; [|discriminate].
    repeat (destruct (_ =? 0); cbn [bind]; [|intros H; injection H as <-; auto]).
    discriminate.
Qed.

Lemma effect_status_never_reset_witness :
  exists output r',
    EffectExample.two_updates Example.silent
      (EffectExample.update_blob 2 1) (EffectExample.update_blob 2 0) = Ok (output, r')
    /\ map (fun e => EffectOutStatus.state (EffectState.GetOutStatus e))
         (AudioRenderer.effects Example.silent r') = [EffectStatus.New]
    /\ EffectExample.two_updates EffectExample.busy_memory
         (EffectExample.update_blob 2 1) (EffectExample.update_blob 2 0)
       = Err AssertionFailed.
Proof.
  unfold EffectExample.two_updates.
  destruct (AudioRenderer.create Example.silent (Example.params 0 1))
    as [r0|f] eqn:E0; [|vm_compute in E0; discriminate E0].
  cbn [bind].
  destruct (AudioRenderer.UpdateAudioRenderer Example.silent r0
              (EffectExample.update_blob 2 1)) as [[out1 r1]|f] eqn:E1.
  2: { vm_compute in E0. injection E0 as <-. vm_compute in E1. discriminate E1. }
  cbn [bind].
  destruct (AudioRenderer.UpdateAudioRenderer Example.silent r1
              (EffectExample.update_blob 2 0)) as [[output r']|f] eqn:E2.
  2: { vm_compute in E0. injection E0 as <-. vm_compute in E1.
       injection E1 as <- <-. vm_compute in E2. discriminate E2. }
  exists output, r'. split; [reflexivity|].
  destruct (effect_status_never_reset Example.silent r1 r' _ output E2)
    as (_ & _ & _).
  vm_compute in E0. injection E0 as <-. vm_compute in E1.
  injection E1 as <- <-. vm_compute in E2. injection E2 as <- <-.
  split; [reflexivity | vm_compute; reflexivity].
Defined.

(** ** Refreshing and draining a voice's cache *)

Lemma duplicate_spec (l : list Z) :
  length (VoiceState.duplicate l) = (2 * length l)%nat
  /\ forall i x, nth_error l i = Some x ->
       nth_error (VoiceState.duplicate l) (2 * i) = Some x
       /\ nth_error (VoiceState.duplicate l) (2 * i + 1) = Some x.
Proof.
  induction l as [|a l [IHlen IHnth]]; cbn [VoiceState.duplicate length].
  - split; [reflexivity|]. intros [|i] x H; discriminate H.
  - split; [lia|]. intros [|i] x H; cbn [nth_error] in H.
    + injection H as <-. split; reflexivity.
    + replace (2 * S i)%nat with (S (S (2 * i))) by lia.
      cbn [Nat.add nth_error]. apply IHnth. exact H.
Qed.

Ltac stopped_leaf :=
  intros; cbv iota in *;
  solve [ reflexivity | lia | congruence | tauto
        | intuition (first [lia | congruence | discriminate | contradiction]) ].

(** X11.  [RefreshBuffer] on a voice whose wave index addresses one of its
    four wave buffers stops, in this order: with the vector's exception when
    the platform cannot hold [buffer_sz / 2] samples; in the write past the
    end of that vector when [buffer_sz] is odd; as unimplemented for a
    sample format other than PCM16 and ADPCM, then for a channel count other
    than 1 and 2; and, for one channel, with the exception again when the
    cache cannot grow to twice the decoded samples.  In every other case,
    and in no other, it succeeds.  It then keeps the playback offset and the
    wave index; PCM16 at the stream's rate is cached as read: unchanged for
    two channels, and with every sample doubled for one; the codec state is
    touched only for ADPCM and the interpolator state only for another
    rate. *)
Theorem RefreshBuffer_formats (P : Platform) (v : VoiceState.t P)
    (Hring : VoiceView.in_ring P v) (Hfull : VoiceView.full_ring P v) :
  exists w,
    VoiceState.wave_buffer_at (VoiceState.info P v) (VoiceState.wave_index P v) = Ok w
    /\ let sz := WaveBuffer.buffer_sz w in
       let raw := ReadBlock16 P (WaveBuffer.buffer_addr w) sz in
       let format := VoiceInfo.sample_format (VoiceState.info P v) in
       let channel_count := VoiceInfo.channel_count (VoiceState.info P v) in
       let rate := VoiceInfo.sample_rate (VoiceState.info P v) in
       let decoded :=
         if format =? PcmFormat_Int16 P then raw
         else fst (DecodeADPCM P raw
                     (VoiceInfo.additional_params_addr (VoiceState.info P v))
                     (VoiceState.adpcm_state P v)) in
       let known_format :=
         format = PcmFormat_Int16 P \/ format = PcmFormat_Adpcm P in
       (max_samples P < sz / 2 ->
        VoiceState.RefreshBuffer P v = Err OutOfMemory)
       /\ (sz / 2 <= max_samples P -> Z.even sz = false ->
           VoiceState.RefreshBuffer P v = Err UndefinedBehaviour)
       /\ (sz / 2 <= max_samples P -> Z.even sz = true -> ~ known_format ->
           VoiceState.RefreshBuffer P v = Err Unimplemented)
       /\ (sz / 2 <= max_samples P -> Z.even sz = true -> known_format ->
           channel_count <> 1 -> channel_count <> 2 ->
           VoiceState.RefreshBuffer P v = Err Unimplemented)
       /\ (sz / 2 <= max_samples P -> Z.even sz = true -> known_format ->
           channel_count = 1 -> max_samples P < 2 * size decoded ->
           VoiceState.RefreshBuffer P v = Err OutOfMemory)
       /\ (is_ok (VoiceState.RefreshBuffer P v) = true
           <-> sz / 2 <= max_samples P
               /\ Z.even sz = true
               /\ known_format
               /\ (channel_count = 2
                   \/ (channel_count = 1 /\ 2 * size decoded <= max_samples P)))
       /\ (forall v',
             VoiceState.RefreshBuffer P v = Ok v' ->
             VoiceState.is_refresh_pending P v' = false
             /\ VoiceState.offset P v' = VoiceState.offset P v
             /\ VoiceState.wave_index P v' = VoiceState.wave_index P v
             /\ (format = PcmFormat_Int16 P ->
                 VoiceState.adpcm_state P v' = VoiceState.adpcm_state P v)
             /\ (rate = STREAM_SAMPLE_RATE ->
                 VoiceState.interp_state P v' = VoiceState.interp_state P v)
             /\ (format = PcmFormat_Int16 P -> rate = STREAM_SAMPLE_RATE ->
                 channel_count = 2 -> VoiceState.samples P v' = raw)
             /\ (format = PcmFormat_Int16 P -> rate = STREAM_SAMPLE_RATE ->
                 channel_count = 1 ->
                 length (VoiceState.samples P v') = (2 * length raw)%nat
                 /\ forall i x,
                     nth_error raw i = Some x ->
                     nth_error (VoiceState.samples P v') (2 * i) = Some x
                     /\ nth_error (VoiceState.samples P v') (2 * i + 1) = Some x)).
Proof.
  destruct (wave_buffer_at_in_ring P v Hring Hfull) as [w Hw].
  exists w. split; [exact Hw|]. cbv zeta.
  unfold VoiceState.RefreshBuffer, VoiceState.allocate. rewrite Hw. cbn [bind].
  set (sz := WaveBuffer.buffer_sz w).
  set (raw := ReadBlock16 P (WaveBuffer.buffer_addr w) sz).
  set (format := VoiceInfo.sample_format (VoiceState.info P v)).
  set (channel_count := VoiceInfo.channel_count (VoiceState.info P v)).
  set (rate := VoiceInfo.sample_rate (VoiceState.info P v)).
  (* a leaf in which the call has stopped *)
  assert (Hstopped : forall (f : Fault) (A B C D E F : Prop),
             A -> B -> C -> D -> E -> ~ F ->
             A /\ B /\ C /\ D /\ E
             /\ (is_ok (@Err (VoiceState.t P) f) = true <-> F)
             /\ (forall v', @Err (VoiceState.t P) f = Ok v' ->
                   VoiceState.is_refresh_pending P v' = false
                   /\ VoiceState.offset P v' = VoiceState.offset P v
                   /\ VoiceState.wave_index P v' = VoiceState.wave_index P v
                   /\ (format = PcmFormat_Int16 P ->
                       VoiceState.adpcm_state P v' = VoiceState.adpcm_state P v)
                   /\ (rate = STREAM_SAMPLE_RATE ->
                       VoiceState.interp_state P v' = VoiceState.interp_state P v)
                   /\ (format = PcmFormat_Int16 P -> rate = STREAM_SAMPLE_RATE ->
                       channel_count = 2 -> VoiceState.samples P v' = raw)
                   /\ (format = PcmFormat_Int16 P -> rate = STREAM_SAMPLE_RATE ->
                       channel_count = 1 ->
                       length (VoiceState.samples P v') = (2 * length raw)%nat
                       /\ forall i x,
                           nth_error raw i = Some x ->
                           nth_error (VoiceState.samples P v') (2 * i) = Some x
                           /\ nth_error (VoiceState.samples P v') (2 * i + 1)
                              = Some x))).
  { intros f A B C D E F HA HB HC HD HE HF. cbn [is_ok].
    repeat (split; [assumption|]).
    split; [split; [discriminate | intros HF'; contradiction]|].
    intros v' H; discriminate H. }
  destruct (Z.leb_spec (sz / 2) (max_samples P)) as [Halloc|Halloc]; cbn [bind].
  2: { apply Hstopped; stopped_leaf. }
  destruct (Z.even sz) eqn:Heven; cbn [bind].
  2: { apply Hstopped; stopped_leaf. }
  destruct (Z.eqb_spec format (PcmFormat_Int16 P)) as [Hf|Hf];
    [|destruct (Z.eqb_spec format (PcmFormat_Adpcm P)) as [Ha|Ha]]; cbn [bind].
  3: { apply Hstopped; stopped_leaf. }
  - (* PCM16 *)
    destruct (Z.eqb_spec channel_count 1) as [Hc|Hc];
      [|destruct (Z.eqb_spec channel_count 2) as [Hc2|Hc2]]; cbn [bind].
    3: { apply Hstopped; stopped_leaf. }
    + destruct (Z.leb_spec (size raw * 2) (max_samples P)) as [Hgrow|Hgrow];
        cbn [bind].
      2: { apply Hstopped; stopped_leaf. }
      do 5 (split; [stopped_leaf|]).
      destruct (Z.eqb_spec rate STREAM_SAMPLE_RATE) as [Hr|Hr]; cbn [negb].
      * cbn [is_ok]. split; [split; [intros _|reflexivity]|].
        { split; [exact Halloc|]. split; [reflexivity|]. split; [left; exact Hf|].
          right. split; [exact Hc | cbv iota; lia]. }
        intros v' H; injection H as <-.
        cbn [VoiceState.is_refresh_pending VoiceState.offset VoiceState.wave_index
             VoiceState.adpcm_state VoiceState.interp_state VoiceState.samples].
        split; [reflexivity|]. split; [reflexivity|]. split; [reflexivity|].
        split; [reflexivity|]. split; [reflexivity|].
        split; [intros _ _ H2; lia|]. intros _ _ _. apply duplicate_spec.
      * destruct (Interpolate P _ _ _ _) as [resampled interp].
        cbn [is_ok]. split; [split; [intros _|reflexivity]|].
        { split; [exact Halloc|]. split; [reflexivity|]. split; [left; exact Hf|].
          right. split; [exact Hc | cbv iota; lia]. }
        intros v' H; injection H as <-.
        cbn [VoiceState.is_refresh_pending VoiceState.offset VoiceState.wave_index
             VoiceState.adpcm_state VoiceState.interp_state VoiceState.samples].
        split; [reflexivity|]. split; [reflexivity|]. split; [reflexivity|].
        split; [reflexivity|]. split; [intros H1; contradiction|].
        split; intros _ H1; contradiction.
    + do 5 (split; [stopped_leaf|]).
      destruct (Z.eqb_spec rate STREAM_SAMPLE_RATE) as [Hr|Hr]; cbn [negb].
      * cbn [is_ok]. split; [split; [intros _|reflexivity]|].
        { split; [exact Halloc|]. split; [reflexivity|]. split; [left; exact Hf|].
          left. exact Hc2. }
        intros v' H; injection H as <-.
        cbn [VoiceState.is_refresh_pending VoiceState.offset VoiceState.wave_index
             VoiceState.adpcm_state VoiceState.interp_state VoiceState.samples].
        split; [reflexivity|]. split; [reflexivity|]. split; [reflexivity|].
        split; [reflexivity|]. split; [reflexivity|].
        split; [reflexivity|]. intros _ _ H1. contradiction.
      * destruct (Interpolate P _ _ _ _) as [resampled interp].
        cbn [is_ok]. split; [split; [intros _|reflexivity]|].
        { split; [exact Halloc|]. split; [reflexivity|]. split; [left; exact Hf|].
          left. exact Hc2. }
        intros v' H; injection H as <-.
        cbn [VoiceState.is_refresh_pending VoiceState.offset VoiceState.wave_index
             VoiceState.adpcm_state VoiceState.interp_state VoiceState.samples].
        split; [reflexivity|]. split; [reflexivity|]. split; [reflexivity|].
        split; [reflexivity|]. split; [intros H1; contradiction|].
        split; intros _ H1; contradiction.
  - (* ADPCM *)
    destruct (DecodeADPCM P raw _ _) as [decoded adpcm]. cbn [bind fst].
    destruct (Z.eqb_spec channel_count 1) as [Hc|Hc];
      [|destruct (Z.eqb_spec channel_count 2) as [Hc2|Hc2]]; cbn [bind].
    3: { apply Hstopped; stopped_leaf. }
    + destruct (Z.leb_spec (size decoded * 2) (max_samples P)) as [Hgrow|Hgrow];
        cbn [bind].
      2: { apply Hstopped; stopped_leaf. }
      do 5 (split; [stopped_leaf|]).
      destruct (if negb _ then _ else _) as [resampled interp] eqn:Ei.
      cbn [is_ok]. split; [split; [intros _|reflexivity]|].
      { split; [exact Halloc|]. split; [reflexivity|]. split; [right; exact Ha|].
        right. split; [exact Hc | lia]. }
      intros v' H; injection H as <-.
      cbn [VoiceState.is_refresh_pending VoiceState.offset VoiceState.wave_index
           VoiceState.adpcm_state VoiceState.interp_state VoiceState.samples].
      split; [reflexivity|]. split; [reflexivity|]. split; [reflexivity|].
      split; [intros H1; contradiction|].
      split; [|split; intros H1; contradiction].
      intros Hr. fold rate in Ei. apply Z.eqb_eq in Hr. rewrite Hr in Ei.
      cbn [negb] in Ei. now injection Ei as _ <-.
    + do 5 (split; [stopped_leaf|]).
      destruct (if negb _ then _ else _) as [resampled interp] eqn:Ei.
      cbn [is_ok]. split; [split; [intros _|reflexivity]|].
      { split; [exact Halloc|]. split; [reflexivity|]. split; [right; exact Ha|].
        left. exact Hc2. }
      intros v' H; injection H as <-.
      cbn [VoiceState.is_refresh_pending VoiceState.offset VoiceState.wave_index
           VoiceState.adpcm_state VoiceState.interp_state VoiceState.samples].
      split; [reflexivity|]. split; [reflexivity|]. split; [reflexivity|].
      split; [intros H1; contradiction|].
      split; [|split; intros H1; contradiction].
      intros Hr. fold rate in Ei. apply Z.eqb_eq in Hr. rewrite Hr in Ei.
      cbn [negb] in Ei. now injection Ei as _ <-.
Qed.

Lemma RefreshBuffer_formats_witness :
  let v := VoiceState.SetWaveIndex EdgeExample.ramp
             (Example.fresh_voice EdgeExample.ramp
                (EdgeExample.mono_info (Example.wave 6 0 0))) 0 in
  let odd := VoiceState.SetWaveIndex EdgeExample.ramp
               (Example.fresh_voice EdgeExample.ramp
                  (EdgeExample.mono_info (Example.wave 7 0 0))) 0 in
  exists v',
    VoiceView.in_ring EdgeExample.ramp v
    /\ VoiceView.full_ring EdgeExample.ramp v
    /\ VoiceState.RefreshBuffer EdgeExample.ramp v = Ok v'
    /\ VoiceState.samples EdgeExample.ramp v' = [4096; 4096; 4097; 4097; 4098; 4098]
    /\ VoiceState.RefreshBuffer EdgeExample.ramp odd = Err UndefinedBehaviour.
Proof.
  cbv zeta.
  set (v := VoiceState.SetWaveIndex EdgeExample.ramp
              (Example.fresh_voice EdgeExample.ramp
                 (EdgeExample.mono_info (Example.wave 6 0 0))) 0).
  set (odd := VoiceState.SetWaveIndex EdgeExample.ramp _ 0).
  assert (Hring : VoiceView.in_ring EdgeExample.ramp v)
    by (unfold VoiceView.in_ring; cbn; lia).
  assert (Hfull : VoiceView.full_ring EdgeExample.ramp v) by reflexivity.
  assert (Hring' : VoiceView.in_ring EdgeExample.ramp odd)
    by (unfold VoiceView.in_ring; cbn; lia).
  assert (Hfull' : VoiceView.full_ring EdgeExample.ramp odd) by reflexivity.
  destruct (RefreshBuffer_formats EdgeExample.ramp v Hring Hfull)
    as (w & Hw & _).
  destruct (RefreshBuffer_formats EdgeExample.ramp odd Hring' Hfull')
    as (w' & Hw' & _ & Hodd & _).
  destruct (VoiceState.RefreshBuffer EdgeExample.ramp v) as [v'|f] eqn:E;
    [|vm_compute in E; discriminate E].
  exists v'. split; [exact Hring|]. split; [exact Hfull|]. split; [reflexivity|].
  split; [vm_compute in E; injection E as <-; reflexivity|].
  vm_compute in Hw'. injection Hw' as <-.
  apply Hodd; [vm_compute; discriminate | reflexivity].
Defined.

Section DrainFacts.
Variable P : Platform.

Lemma dequeue_size_nonneg (v : VoiceState.t P) (n : Z) :
  0 <= VoiceState.dequeue_size P v n.
Proof.
  unfold VoiceState.dequeue_size, wrap64.
  pose proof (Z.mod_pos_bound (size (VoiceState.samples P v) - VoiceState.offset P v)
                (2 ^ 64) ltac:(lia)).
  pose proof (Z.mod_pos_bound (n * STREAM_NUM_CHANNELS) (2 ^ 64) ltac:(lia)).
  destruct (_ >? _); lia.
Qed.

Lemma dequeue_size_bound (v : VoiceState.t P) (n : Z) :
  0 <= n -> VoiceState.dequeue_size P v n <= 2 * n.
Proof.
  intros Hn. unfold VoiceState.dequeue_size, wrap64, STREAM_NUM_CHANNELS.
  assert (Hm : (n * 2) mod 2 ^ 64 <= n * 2) by (apply Z.mod_le; lia).
  destruct (Z.gtb_spec ((n * 2) mod 2 ^ 64)
              ((size (VoiceState.samples P v) - VoiceState.offset P v) mod 2 ^ 64)); lia.
Qed.

End DrainFacts.

(** X12.  On a playing voice whose offset is not negative and whose cache,
    once refreshed, has fewer than 2^64 samples, [DequeueSamples] hands out
    the slice of the cache that starts at the offset and has [2 * n] samples,
    or what is left of the cache when that is less.  The offset moves to the
    end of the slice, or to 0 when the slice ends the cache; the played
    count grows by half the length of the slice; the cache itself stays. *)
Theorem DequeueSamples_slice (P : Platform) (v v1 v' : VoiceState.t P)
    (n : Z) (out : list Z)
    (Hplaying : VoiceState.IsPlaying P v = true)
    (Href : VoiceState.refreshed P v = Ok v1)
    (Hok : VoiceState.DequeueSamples P v n = Ok (out, v'))
    (Hn : 0 <= n < 2 ^ 63)
    (Hoffset : 0 <= VoiceState.offset P v)
    (Hcache : size (VoiceState.samples P v1) < 2 ^ 64) :
  let cache := VoiceState.samples P v1 in
  VoiceState.offset P v <= size cache
  /\ size out = Z.min (2 * n) (size cache - VoiceState.offset P v)
  /\ out = Layout.slice cache (VoiceState.offset P v) (size out)
  /\ VoiceState.samples P v' = cache
  /\ VoiceState.offset P v'
     = (if VoiceState.offset P v + size out =? size cache then 0
        else VoiceState.offset P v + size out)
  /\ VoiceOutStatus.played_sample_count (VoiceState.out_status P v')
     = wrap64 (VoiceOutStatus.played_sample_count (VoiceState.out_status P v)
               + size out / 2).
Proof.
  cbv zeta.
  destruct (DequeueSamples_playing P v v' n out Hplaying Hok)
    as (v1' & w & Hr & _ & Hle & Hout & Hv').
  rewrite Href in Hr. injection Hr as <-.
  destruct (refreshed_keeps P v v1 Href) as (_ & Hoff & Hst & _).
  rewrite Hoff in *. rewrite Hst in *.
  pose proof (dequeue_size_nonneg P v1 n) as Hd0.
  set (d := VoiceState.dequeue_size P v1 n) in *.
  assert (Hd : d = Z.min (2 * n) (size (VoiceState.samples P v1) - VoiceState.offset P v)).
  { unfold d, VoiceState.dequeue_size, STREAM_NUM_CHANNELS. rewrite Hoff.
    unfold wrap64. rewrite !Z.mod_small by lia.
    destruct (Z.gtb_spec (n * 2)
                (size (VoiceState.samples P v1) - VoiceState.offset P v)); lia. }
  assert (Hsz : size out = d).
  { rewrite Hout. unfold size in *. rewrite length_firstn, length_skipn. lia. }
  split; [lia|]. split; [congruence|].
  split; [unfold Layout.slice; rewrite Hsz; exact Hout|].
  rewrite Hsz. cbv zeta in Hv'.
  assert (Hw : wrap64 (VoiceState.offset P v + d) = VoiceState.offset P v + d)
    by (unfold wrap64; apply Z.mod_small; lia).
  rewrite !Hw in Hv'. unfold STREAM_NUM_CHANNELS in Hv'.
  destruct (Z.eqb_spec (VoiceState.offset P v + d) (size (VoiceState.samples P v1)));
    rewrite Hv'; cbn; repeat split.
Qed.

Lemma DequeueSamples_slice_witness :
  let v := Example.last_buffer_voice in
  exists v1 out v',
    VoiceState.refreshed Example.loud v = Ok v1
    /\ VoiceState.DequeueSamples Example.loud v 3 = Ok (out, v')
    /\ out = repeat 20000 6
    /\ VoiceState.offset Example.loud v' = 6
    /\ VoiceOutStatus.played_sample_count (VoiceState.out_status Example.loud v') = 3.
Proof.
  cbv zeta.
  destruct (VoiceState.refreshed Example.loud Example.last_buffer_voice)
    as [v1|f] eqn:E1; [|vm_compute in E1; discriminate E1].
  destruct (VoiceState.DequeueSamples Example.loud Example.last_buffer_voice 3)
    as [[out v']|f] eqn:E; [|vm_compute in E; discriminate E].
  exists v1, out, v'. split; [reflexivity|]. split; [reflexivity|].
  assert (Hcache : size (VoiceState.samples Example.loud v1) < 2 ^ 64)
    by (vm_compute in E1; injection E1 as <-; reflexivity).
  assert (Hplaying : VoiceState.IsPlaying Example.loud Example.last_buffer_voice = true)
    by reflexivity.
  assert (Hoffset : 0 <= VoiceState.offset Example.loud Example.last_buffer_voice)
    by (vm_compute; discriminate).
  destruct (DequeueSamples_slice Example.loud Example.last_buffer_voice v1 v' 3 out
              Hplaying E1 E ltac:(lia) Hoffset Hcache)
    as (_ & _ & _ & _ & _ & _).
  vm_compute in E. injection E as <- <-. repeat split.
Defined.

(** X13.  The playback offset outlives a refresh.  When the cache a playing
    voice holds after its pending refresh is shorter than the offset - the
    guest announced the voice as new again in mid-buffer, with a shorter wave
    buffer - [DequeueSamples] does not clip: [samples.size() - offset] wraps
    around, and the range it returns lies outside the cache. *)
Theorem DequeueSamples_stale_offset (P : Platform) (v v1 : VoiceState.t P) (n : Z)
    (Hplaying : VoiceState.IsPlaying P v = true)
    (Href : VoiceState.refreshed P v = Ok v1)
    (Hstale : size (VoiceState.samples P v1) < VoiceState.offset P v) :
  VoiceState.DequeueSamples P v n = Err UndefinedBehaviour.
Proof.
  unfold VoiceState.DequeueSamples. rewrite Hplaying, Href. cbn [negb bind].
  destruct (refreshed_keeps P v v1 Href) as (_ & Hoff & _).
  pose proof (dequeue_size_nonneg P v1 n) as Hd0.
  destruct (VoiceState.wave_buffer_at _ _) as [w|f] eqn:Hw; cbn [bind].
  - destruct (Z.leb_spec (VoiceState.offset P v1 + VoiceState.dequeue_size P v1 n)
                (size (VoiceState.samples P v1))); [lia | reflexivity].
  - unfold VoiceState.wave_buffer_at in Hw.
    destruct (_ && _); [destruct (nth_error _ _)|]; congruence.
Qed.

Lemma DequeueSamples_stale_offset_witness :
  let v := EdgeExample.restarted_voice Example.silent in
  exists v1,
    VoiceState.IsPlaying Example.silent v = true
    /\ VoiceState.offset Example.silent v = 4
    /\ VoiceState.refreshed Example.silent v = Ok v1
    /\ VoiceState.samples Example.silent v1 = [0; 0]
    /\ VoiceState.DequeueSamples Example.silent v 512 = Err UndefinedBehaviour.
Proof.
  cbv zeta.
  destruct (VoiceState.refreshed Example.silent
              (EdgeExample.restarted_voice Example.silent)) as [v1|f] eqn:E1;
    [|vm_compute in E1; discriminate E1].
  exists v1. split; [reflexivity|]. split; [reflexivity|]. split; [reflexivity|].
  assert (Hs : VoiceState.samples Example.silent v1 = [0; 0])
    by (vm_compute in E1; injection E1 as <-; reflexivity).
  split; [exact Hs|].
  assert (Hplaying : VoiceState.IsPlaying Example.silent
                       (EdgeExample.restarted_voice Example.silent) = true)
    by reflexivity.
  apply (DequeueSamples_stale_offset Example.silent
           (EdgeExample.restarted_voice Example.silent) v1 512 Hplaying E1).
  rewrite Hs. vm_compute. reflexivity.
Defined.

(** ** The mixed frame *)

Lemma mix_samples_s16 (samples : list Z) :
  forall buffer offset volume mix buffer' offset',
    Forall FrameView.is_s16 buffer ->
    AudioRenderer.mix_samples buffer offset samples volume mix = Ok (buffer', offset') ->
    Forall FrameView.is_s16 buffer'.
Proof.
  induction samples as [|sample more IH];
    intros buffer offset volume mix buffer' offset' Hb H;
    cbn [AudioRenderer.mix_samples] in H.
  - injection H as <- <-. exact Hb.
  - bind_ok H. bind_ok H. bind_ok H. bind_ok H.
    refine (IH _ _ _ _ _ _ _ H).
    destruct (mix_sample_spec _ _ _ _ _ E1) as (scaled & _ & ->).
    unfold AudioRenderer.set_index in E2. destruct (_ && _); [|discriminate E2].
    injection E2 as <-.
    destruct (Forall_firstn_skipn _ (Z.to_nat offset) _ Hb) as [Hf _].
    destruct (Forall_firstn_skipn _ (S (Z.to_nat offset)) _ Hb) as [_ Hs].
    apply Forall_app. split; [exact Hf|]. constructor; [|exact Hs].
    apply ClampToS16_range.
Qed.

Section FrameFacts.
Variable P : Platform.

Lemma mix_voice_s16 (fuel : nat) :
  forall num_channels chans v buffer offset samples_remaining v' buffer',
    Forall FrameView.is_s16 buffer ->
    AudioRenderer.mix_voice P fuel num_channels chans v buffer offset samples_remaining
    = Ok (v', buffer') ->
    Forall FrameView.is_s16 buffer'.
Proof.
  induction fuel as [|fuel IH];
    intros num_channels chans v buffer offset rem v' buffer' Hb H; [discriminate H|].
  cbn [AudioRenderer.mix_voice] in H.
  destruct (rem >? 0); [|injection H as <- <-; exact Hb].
  bind_ok H. destruct a as [samples v1].
  destruct samples as [|s more]; [injection H as <- <-; exact Hb|].
  bind_ok H. bind_ok H. destruct a0 as [buffer1 offset1].
  refine (IH _ _ _ _ _ _ _ _ _ H).
  eapply mix_samples_s16; eauto.
Qed.

Lemma mix_voices_s16 (vs : list (VoiceState.t P)) :
  forall num_channels chans buffer vs' buffer',
    Forall FrameView.is_s16 buffer ->
    AudioRenderer.mix_voices P num_channels chans vs buffer = Ok (vs', buffer') ->
    Forall FrameView.is_s16 buffer'.
Proof.
  induction vs as [|v more IH]; intros num_channels chans buffer vs' buffer' Hb H;
    cbn [AudioRenderer.mix_voices] in H.
  - injection H as <- <-. exact Hb.
  - bind_ok H. destruct a as [v1 buffer1]. bind_ok H. destruct a as [more1 buffer2].
    injection H as <- <-.
    refine (IH _ _ _ _ _ _ E0).
    destruct (negb _) in E.
    + injection E as <- <-. exact Hb.
    + eapply mix_voice_s16; eauto.
Qed.

Lemma mix_voices_idle (vs : list (VoiceState.t P)) :
  forall num_channels chans buffer,
    Forall (fun v => VoiceState.IsPlaying P v = false) vs ->
    AudioRenderer.mix_voices P num_channels chans vs buffer = Ok (vs, buffer).
Proof.
  induction vs as [|v more IH]; intros num_channels chans buffer Hidle;
    cbn [AudioRenderer.mix_voices]; [reflexivity|].
  inversion Hidle as [|? ? Hv Hmore]; subst.
  rewrite Hv. cbn [negb bind]. rewrite (IH _ _ _ Hmore). reflexivity.
Qed.

Lemma GetNumChannels_pos (s : Stream.t) : 0 < Stream.GetNumChannels s.
Proof. unfold Stream.GetNumChannels. destruct (Stream.format s); lia. Qed.

End FrameFacts.

(** X14.  Every frame [QueueMixedBuffer] mixes has 512 samples per channel
    of the stream, each within the range of an [s16], whatever the voices,
    their volumes and the mix gains are; mixing changes the voices but not
    their number. *)
Theorem MixFrame_is_s16 (P : Platform) (r : AudioRenderer.t P)
    (vs : list (VoiceState.t P)) (frame : list Z)
    (Hok : AudioRenderer.MixFrame P r = Ok (vs, frame)) :
  size frame = 512 * Stream.GetNumChannels (AudioRenderer.stream P r)
  /\ Forall FrameView.is_s16 frame
  /\ length vs = length (AudioRenderer.voices P r).
Proof.
  unfold AudioRenderer.MixFrame in Hok.
  destruct (mix_voices_keeps P _ _ _ _ _ _ Hok) as (Hlen & Hcount & _).
  pose proof (GetNumChannels_pos (AudioRenderer.stream P r)) as Hch.
  split; [|split; [|exact Hcount]].
  - unfold size. rewrite Hlen, repeat_length. unfold AudioRenderer.BUFFER_SIZE. lia.
  - eapply mix_voices_s16; [|exact Hok].
    apply Forall_forall. intros x Hx. apply repeat_spec in Hx. subst x.
    unfold FrameView.is_s16. lia.
Qed.

Lemma MixFrame_is_s16_witness :
  exists vs frame,
    AudioRenderer.MixFrame Example.loud Example.two_loud_voices = Ok (vs, frame)
    /\ size frame = 1024
    /\ Forall FrameView.is_s16 frame
    /\ firstn 2 frame = [32767; 32767].
Proof.
  destruct (AudioRenderer.MixFrame Example.loud Example.two_loud_voices)
    as [[vs frame]|f] eqn:E; [|vm_compute in E; discriminate E].
  exists vs, frame. split; [reflexivity|].
  destruct (MixFrame_is_s16 Example.loud _ vs frame E) as (Hsize & Hrange & _).
  split; [exact Hsize|]. split; [exact Hrange|].
  vm_compute in E. injection E as <- <-. reflexivity.
Defined.

(** X15.  When no voice is playing - none in use, or all paused or stopped -
    the frame is silence and mixing leaves every voice as it is: no cache is
    refreshed, no counter moves. *)
Theorem idle_voices_mix_to_silence (P : Platform) (r : AudioRenderer.t P)
    (Hidle : Forall (fun v => VoiceState.IsPlaying P v = false)
               (AudioRenderer.voices P r)) :
  AudioRenderer.MixFrame P r
  = Ok (AudioRenderer.voices P r,
        repeat 0 (Z.to_nat (512 * Stream.GetNumChannels (AudioRenderer.stream P r))))
  /\ forall tag,
      exists r',
        AudioRenderer.QueueMixedBuffer P r tag = Ok r'
        /\ AudioRenderer.voices P r' = AudioRenderer.voices P r
        /\ AudioRenderer.effects P r' = AudioRenderer.effects P r
        /\ AudioRenderer.channels P r' = AudioRenderer.channels P r.
Proof.
  assert (Hmix : AudioRenderer.MixFrame P r
                 = Ok (AudioRenderer.voices P r,
                       repeat 0 (Z.to_nat (512 * Stream.GetNumChannels
                                                    (AudioRenderer.stream P r))))).
  { unfold AudioRenderer.MixFrame. apply mix_voices_idle. exact Hidle. }
  split; [exact Hmix|]. intros tag.
  unfold AudioRenderer.QueueMixedBuffer. rewrite Hmix. cbn [bind].
  destruct (AudioOut.QueueBuffer P _ _ _) as [flag s].
  eexists. split; [reflexivity|]. repeat split.
Qed.

Lemma idle_voices_mix_to_silence_witness :
  let r :=
    AudioRenderer.with_voices Example.loud Example.two_loud_voices
      [EdgeExample.paused_voice Example.loud;
       VoiceState.create Example.loud] in
  Forall (fun v => VoiceState.IsPlaying Example.loud v = false)
    (AudioRenderer.voices Example.loud r)
  /\ AudioRenderer.MixFrame Example.loud r
     = Ok (AudioRenderer.voices Example.loud r, repeat 0 1024).
Proof.
  cbv zeta.
  assert (Hidle : Forall (fun v => VoiceState.IsPlaying Example.loud v = false)
                    (AudioRenderer.voices Example.loud
                       (AudioRenderer.with_voices Example.loud Example.two_loud_voices
                          [EdgeExample.paused_voice Example.loud;
                           VoiceState.create Example.loud]))).
  { constructor; [reflexivity|]. constructor; [reflexivity|]. constructor. }
  split; [exact Hidle|].
  destruct (idle_voices_mix_to_silence Example.loud _ Hidle) as [Hmix _].
  rewrite Hmix. reflexivity.
Defined.

(** ** Frames in flight *)

Section FlightFacts.
Variable P : Platform.

Lemma QueueBuffer_room (s : Stream.t) (b : Stream.Buffer) :
  (length (Stream.queued_buffers s) < 32)%nat ->
  let q := Stream.QueueBuffer P s b in
  Stream.accepted q = true
  /\ StreamView.pending_tags (Stream.stream_after q)
     = StreamView.pending_tags s ++ [Stream.GetTag b]
  /\ Stream.released_buffers (Stream.stream_after q) = Stream.released_buffers s
  /\ (length (Stream.queued_buffers (Stream.stream_after q))
      <= S (length (Stream.queued_buffers s)))%nat
  /\ Stream.state (Stream.stream_after q) = Stream.state s.
Proof.
  intros Hroom. cbv zeta.
  destruct (QueueBuffer_outcome P s b) as [_ Hyes]. cbv zeta in Hyes.
  unfold Stream.QueueBuffer in *.
  destruct (Z.ltb_spec (size (Stream.queued_buffers s)) Stream.MaxAudioBufferCount)
    as [Hlt|Hge];
    [|unfold size, Stream.MaxAudioBufferCount in Hge; lia].
  cbn [Stream.accepted Stream.stream_after] in *.
  destruct (Hyes eq_refl) as (Hp & Hr & _).
  set (s1 := Stream.with_queues s _ _ _) in *.
  destruct (PlayNextBuffer_settles P s1) as (Hl & _ & Hst).
  assert (Hq1 : Stream.queued_buffers s1 = Stream.queued_buffers s ++ [b]) by reflexivity.
  rewrite Hq1, length_app in Hl. cbn [length] in Hl.
  split; [reflexivity|]. split; [exact Hp|]. split; [exact Hr|].
  split; [lia | exact Hst].
Qed.

Lemma QueueMixedBuffer_room (r r' : AudioRenderer.t P) (tag : Z) :
  AudioRenderer.QueueMixedBuffer P r tag = Ok r' ->
  (length (Stream.queued_buffers (AudioRenderer.stream P r)) < 32)%nat ->
  StreamView.pending_tags (AudioRenderer.stream P r')
  = StreamView.pending_tags (AudioRenderer.stream P r) ++ [tag]
  /\ Stream.released_buffers (AudioRenderer.stream P r')
     = Stream.released_buffers (AudioRenderer.stream P r)
  /\ (length (Stream.queued_buffers (AudioRenderer.stream P r'))
      <= S (length (Stream.queued_buffers (AudioRenderer.stream P r))))%nat
  /\ Stream.state (AudioRenderer.stream P r') = Stream.state (AudioRenderer.stream P r).
Proof.
  unfold AudioRenderer.QueueMixedBuffer, AudioOut.QueueBuffer. intros H Hroom.
  bind_ok H. destruct a as [vs buffer]. injection H as <-.
  cbn [AudioRenderer.stream AudioRenderer.with_stream].
  destruct (QueueBuffer_room (AudioRenderer.stream P r)
              {| Stream.GetTag := tag; Stream.GetSamples := buffer |} Hroom)
    as (_ & Hp & Hr & Hl & Hst).
  repeat split; assumption.
Qed.

Lemma QueueMixedBuffers_room (tags : list Z) :
  forall r r',
    AudioRenderer.QueueMixedBuffers P r tags = Ok r' ->
    (length (Stream.queued_buffers (AudioRenderer.stream P r)) + length tags <= 32)%nat ->
    StreamView.pending_tags (AudioRenderer.stream P r')
    = StreamView.pending_tags (AudioRenderer.stream P r) ++ tags
    /\ Stream.released_buffers (AudioRenderer.stream P r')
       = Stream.released_buffers (AudioRenderer.stream P r)
    /\ Stream.state (AudioRenderer.stream P r')
       = Stream.state (AudioRenderer.stream P r).
Proof.
  induction tags as [|tag more IH]; intros r r' H Hroom;
    cbn [AudioRenderer.QueueMixedBuffers] in H.
  - injection H as <-. rewrite app_nil_r. repeat split.
  - bind_ok H. cbn [length] in Hroom.
    destruct (QueueMixedBuffer_room _ _ _ E ltac:(lia)) as (Hp & Hr & Hl & Hst).
    destruct (IH _ _ H ltac:(lia)) as (Hp' & Hr' & Hst').
    rewrite Hp', Hp, Hr', Hr, Hst', Hst, <- app_assoc. repeat split.
Qed.

Lemma ReleaseAndQueueBuffers_room (r r' : AudioRenderer.t P) :
  AudioRenderer.ReleaseAndQueueBuffers P r = Ok r' ->
  (length (Stream.queued_buffers (AudioRenderer.stream P r)) + 2 <= 32)%nat ->
  StreamView.pending_tags (AudioRenderer.stream P r')
  = StreamView.pending_tags (AudioRenderer.stream P r)
      ++ firstn 2 (StreamCount.released_tags (AudioRenderer.stream P r))
  /\ StreamCount.released_tags (AudioRenderer.stream P r')
     = skipn 2 (StreamCount.released_tags (AudioRenderer.stream P r))
  /\ Stream.state (AudioRenderer.stream P r')
     = Stream.state (AudioRenderer.stream P r).
Proof.
  rewrite ReleaseAndQueueBuffers_unfold. intros H Hroom.
  apply QueueMixedBuffers_room in H.
  - cbn [AudioRenderer.stream AudioRenderer.with_stream] in H.
    destruct H as (Hp & Hr & Hst).
    unfold StreamCount.released_tags. rewrite Hp, Hr, Hst.
    cbn [Stream.released_buffers Stream.with_queues Stream.state].
    rewrite firstn_map, skipn_map. repeat split.
  - cbn [AudioRenderer.stream AudioRenderer.with_stream Stream.queued_buffers
         Stream.with_queues].
    rewrite length_map, length_firstn. lia.
Qed.

Lemma rotate_permutation (released pending : list Z) :
  Permutation (skipn 2 released ++ pending ++ firstn 2 released)
    (released ++ pending).
Proof.
  eapply Permutation_trans; [apply Permutation_app_comm|].
  rewrite <- app_assoc, firstn_skipn. apply Permutation_app_comm.
Qed.

Lemma idle_repeat_create (n : nat) :
  Forall (fun v => VoiceState.IsPlaying P v = false) (repeat (VoiceState.create P) n).
Proof.
  apply Forall_forall. intros v Hv. apply repeat_spec in Hv. subst v. reflexivity.
Qed.

Lemma QueueMixedBuffer_idle (r : AudioRenderer.t P) (tag : Z) :
  Forall (fun v => VoiceState.IsPlaying P v = false) (AudioRenderer.voices P r) ->
  AudioRenderer.QueueMixedBuffer P r tag
  = Ok (AudioRenderer.with_stream P
          (AudioRenderer.with_voices P r (AudioRenderer.voices P r))
          (Stream.stream_after
             (Stream.QueueBuffer P (AudioRenderer.stream P r)
                {| Stream.GetTag := tag;
                   Stream.GetSamples :=
                     repeat 0 (Z.to_nat (512 * Stream.GetNumChannels
                                                  (AudioRenderer.stream P r))) |}))).
Proof.
  intros Hidle. unfold AudioRenderer.QueueMixedBuffer, AudioRenderer.MixFrame.
  rewrite (mix_voices_idle P _ _ _ _ Hidle). reflexivity.
Qed.

Lemma create_spec (params : AudioRendererParameter.t) :
  exists r,
    AudioRenderer.create P params = Ok r
    /\ AudioRenderer.worker_params P r = params
    /\ AudioRenderer.voices P r
       = repeat (VoiceState.create P)
           (Z.to_nat (AudioRendererParameter.voice_count params))
    /\ AudioRenderer.effects P r
       = repeat EffectState.create
           (Z.to_nat (AudioRendererParameter.effect_count params))
    /\ AudioRenderer.channels P r = []
    /\ Stream.state (AudioRenderer.stream P r) = Stream.Playing
    /\ StreamView.pending_tags (AudioRenderer.stream P r) = [0; 1; 2]
    /\ Stream.released_buffers (AudioRenderer.stream P r) = []
    /\ map Stream.GetSamples (Stream.queued_buffers (AudioRenderer.stream P r))
       = [repeat 0 1024; repeat 0 1024].
Proof.
  unfold AudioRenderer.create.
  rewrite QueueMixedBuffer_idle by apply idle_repeat_create. cbn [bind].
  rewrite QueueMixedBuffer_idle by apply idle_repeat_create. cbn [bind].
  rewrite QueueMixedBuffer_idle by apply idle_repeat_create.
  eexists. split; [reflexivity|]. repeat split.
Qed.

Lemma UpdateAudioRenderer_counts_of_stage (r r' : AudioRenderer.t P)
    (voices1 : list (VoiceState.t P)) (effects1 effects2 : list EffectState.t)
    (channels1 : list ChannelState.t) (voice_end effect_end : Z) (input : list byte)
    {voice_offset effect_offset : Z} :
  AudioRenderer.copy_infos (fun v c => VoiceState.SetInfo P v (VoiceInfo.parse c))
    VoiceInfo.sizeof input voice_offset (AudioRenderer.voices P r)
  = Ok (voices1, voice_end) ->
  AudioRenderer.copy_infos (fun e c => EffectState.SetInfo e (EffectInStatus.parse c))
    EffectInStatus.sizeof input effect_offset (AudioRenderer.effects P r)
  = Ok (effects1, effect_end) ->
  AudioRenderer.update_effects P effects1 = Ok effects2 ->
  AudioRenderer.ReleaseAndQueueBuffers P
    {| AudioRenderer.worker_params := AudioRenderer.worker_params P r;
       AudioRenderer.channels := channels1;
       AudioRenderer.voices := map (AudioRenderer.update_voice P) voices1;
       AudioRenderer.effects := effects2;
       AudioRenderer.stream := AudioRenderer.stream P r |} = Ok r' ->
  length (AudioRenderer.voices P r') = length (AudioRenderer.voices P r)
  /\ length (AudioRenderer.effects P r') = length (AudioRenderer.effects P r).
Proof.
  intros Hv He Hu Hq.
  destruct (copy_infos_layout _ _ _ _ _ _ _ Hv) as (_ & Hlv & _).
  destruct (copy_infos_layout _ _ _ _ _ _ _ He) as (_ & Hle & _).
  pose proof (Forall2_length (update_effects_spec P _ _ Hu)) as Hlu.
  destruct (ReleaseAndQueueBuffers_count P _ _ Hq) as (Hlq & _ & Heq & _).
  cbn [AudioRenderer.voices AudioRenderer.effects] in Hlq, Heq.
  rewrite length_map in Hlq. split; congruence.
Qed.

Lemma UpdateAudioRenderer_counts (r r' : AudioRenderer.t P) (input output : list byte) :
  AudioRenderer.UpdateAudioRenderer P r input = Ok (output, r') ->
  length (AudioRenderer.voices P r') = length (AudioRenderer.voices P r)
  /\ length (AudioRenderer.effects P r') = length (AudioRenderer.effects P r)
  /\ AudioRenderer.worker_params P r' = AudioRenderer.worker_params P r
  /\ exists r1,
      AudioRenderer.stream P r1 = AudioRenderer.stream P r
      /\ AudioRenderer.ReleaseAndQueueBuffers P r1 = Ok r'.
Proof.
  intros Hok.
  destruct (UpdateAudioRenderer_reads P _ _ _ _ Hok)
    as (mem_pool_info & voices1 & channels1 & effects1 & effects2
        & voice_end & channel_end & effect_end & Hreads).
  cbv zeta in Hreads. destruct Hreads as (_ & _ & Hv & _ & He & Hu & Hq).
  destruct (copy_infos_layout _ _ _ _ _ _ _ Hv) as (_ & Hlv & _).
  destruct (copy_infos_layout _ _ _ _ _ _ _ He) as (_ & Hle & _).
  pose proof (Forall2_length (update_effects_spec P _ _ Hu)) as Hlu.
  destruct (ReleaseAndQueueBuffers_count P _ _ Hq) as (Hlq & _ & Heq & Hw).
  cbn [AudioRenderer.voices AudioRenderer.effects AudioRenderer.worker_params]
    in Hlq, Heq, Hw.
  rewrite length_map in Hlq.
  split; [congruence|]. split; [congruence|]. split; [exact Hw|].
  eexists. split; [|exact Hq]. reflexivity.
Qed.

End FlightFacts.


(** X17.  When the queue of the stream has room for two more buffers,
    [ReleaseAndQueueBuffers] puts back exactly what it collects: the tags of
    the first two released buffers (or of the one, or none, there is) go to
    the end of the pending ones in the same order, and the released queue
    loses just these.  No tag is lost, doubled or reordered. *)
Theorem ReleaseAndQueueBuffers_requeues (P : Platform) (r r' : AudioRenderer.t P)
    (Hok : AudioRenderer.ReleaseAndQueueBuffers P r = Ok r')
    (Hroom : (length (Stream.queued_buffers (AudioRenderer.stream P r)) + 2 <= 32)%nat) :
  let released := StreamCount.released_tags (AudioRenderer.stream P r) in
  let pending := StreamView.pending_tags (AudioRenderer.stream P r) in
  StreamView.pending_tags (AudioRenderer.stream P r') = pending ++ firstn 2 released
  /\ StreamCount.released_tags (AudioRenderer.stream P r') = skipn 2 released
  /\ Permutation
       (StreamCount.released_tags (AudioRenderer.stream P r')
          ++ StreamView.pending_tags (AudioRenderer.stream P r'))
       (released ++ pending).
Proof.
  cbv zeta.
  destruct (ReleaseAndQueueBuffers_room P r r' Hok Hroom) as (Hp & Hr & _).
  split; [exact Hp|]. split; [exact Hr|].
  rewrite Hp, Hr. apply rotate_permutation.
Qed.

Lemma ReleaseAndQueueBuffers_requeues_witness :
  let r := Example.two_loud_voices in
  exists r',
    AudioRenderer.ReleaseAndQueueBuffers Example.loud r = Ok r'
    /\ StreamCount.released_tags (AudioRenderer.stream Example.loud r) = [7; 8; 9; 10; 11]
    /\ StreamView.pending_tags (AudioRenderer.stream Example.loud r') = [7; 8]
    /\ StreamCount.released_tags (AudioRenderer.stream Example.loud r') = [9; 10; 11].
Proof.
  cbv zeta.
  destruct (AudioRenderer.ReleaseAndQueueBuffers Example.loud Example.two_loud_voices)
    as [r'|f] eqn:E; [|vm_compute in E; discriminate E].
  exists r'. split; [reflexivity|]. split; [reflexivity|].
  assert (Hroom : (length (Stream.queued_buffers
                             (AudioRenderer.stream Example.loud Example.two_loud_voices))
                   + 2 <= 32)%nat) by (cbn; lia).
  destruct (ReleaseAndQueueBuffers_requeues Example.loud _ r' E Hroom)
    as (Hp & Hr & _).
  rewrite Hp, Hr. split; reflexivity.
Defined.

Section CirculationFacts.
Variable P : Platform.

Lemma pending_covers_queue (s : Stream.t) :
  (length (Stream.queued_buffers s) <= length (StreamView.pending_tags s))%nat.
Proof.
  unfold StreamView.pending_tags. rewrite length_map, length_app. lia.
Qed.

Lemma renderer_step_keeps (r r' : AudioRenderer.t P) (c : RendererRun.Call) :
  RendererRun.step P r c = Ok r' ->
  Permutation (StreamCount.released_tags (AudioRenderer.stream P r)
                 ++ StreamView.pending_tags (AudioRenderer.stream P r)) [0; 1; 2] ->
  Permutation (StreamCount.released_tags (AudioRenderer.stream P r')
                 ++ StreamView.pending_tags (AudioRenderer.stream P r')) [0; 1; 2]
  /\ Stream.state (AudioRenderer.stream P r') = Stream.state (AudioRenderer.stream P r)
  /\ AudioRenderer.worker_params P r' = AudioRenderer.worker_params P r
  /\ length (AudioRenderer.voices P r') = length (AudioRenderer.voices P r)
  /\ length (AudioRenderer.effects P r') = length (AudioRenderer.effects P r).
Proof.
  intros H Hperm. destruct c as [input|]; cbn [RendererRun.step] in H.
  - bind_ok H. destruct a as [output r1]. injection H as <-.
    destruct (UpdateAudioRenderer_counts P _ _ _ _ E)
      as (Hv & He & Hw & r0 & Hs & Hq).
    assert (Hroom : (length (Stream.queued_buffers (AudioRenderer.stream P r0)) + 2
                     <= 32)%nat).
    { rewrite Hs.
      pose proof (pending_covers_queue (AudioRenderer.stream P r)) as Hc.
      pose proof (Permutation_length Hperm) as Hl.
      rewrite length_app in Hl. cbn [length] in Hl. lia. }
    destruct (ReleaseAndQueueBuffers_room P r0 r1 Hq Hroom) as (Hp & Hr & Hst).
    rewrite Hs in Hp, Hr, Hst.
    split; [|repeat split; assumption].
    rewrite Hp, Hr.
    eapply Permutation_trans; [apply rotate_permutation | exact Hperm].
  - bind_ok H. injection H as <-.
    cbn [AudioRenderer.stream AudioRenderer.with_stream AudioRenderer.worker_params
         AudioRenderer.voices AudioRenderer.effects].
    assert (Hstep : StreamRun.step P (StreamRun.start (AudioRenderer.stream P r))
                      StreamRun.Fire
                    = Ok {| StreamRun.stream := a; StreamRun.collected := [];
                            StreamRun.taken := [] |}).
    { cbn [StreamRun.step StreamRun.start StreamRun.stream StreamRun.collected
           StreamRun.taken]. rewrite E. reflexivity. }
    destruct (step_keeps P _ _ _ Hstep) as (_ & _ & Hf & _).
    cbn [StreamRun.start StreamRun.stream StreamRun.collected StreamRun.taken
         app length skipn] in Hf.
    rewrite app_nil_r in Hf. rewrite Hf.
    split; [exact Hperm|]. split; [|repeat split].
    unfold Stream.ReleaseActiveBuffer in E.
    destruct (Stream.active_buffer (AudioRenderer.stream P r)); [|discriminate E].
    injection E as <-.
    destruct (PlayNextBuffer_settles P
                (Stream.with_events
                   (Stream.with_queues (AudioRenderer.stream P r)
                      (Stream.queued_buffers (AudioRenderer.stream P r)) None
                      (Stream.released_buffers (AudioRenderer.stream P r) ++ [b]))
                   [Stream.ReleaseCallback])) as (_ & _ & Hst).
    exact Hst.
Qed.

Lemma renderer_run_keeps (calls : list RendererRun.Call) :
  forall r r',
    RendererRun.run P r calls = Ok r' ->
    Permutation (StreamCount.released_tags (AudioRenderer.stream P r)
                   ++ StreamView.pending_tags (AudioRenderer.stream P r)) [0; 1; 2] ->
    Permutation (StreamCount.released_tags (AudioRenderer.stream P r')
                   ++ StreamView.pending_tags (AudioRenderer.stream P r')) [0; 1; 2]
    /\ Stream.state (AudioRenderer.stream P r') = Stream.state (AudioRenderer.stream P r)
    /\ AudioRenderer.worker_params P r' = AudioRenderer.worker_params P r
    /\ length (AudioRenderer.voices P r') = length (AudioRenderer.voices P r)
    /\ length (AudioRenderer.effects P r') = length (AudioRenderer.effects P r).
Proof.
  induction calls as [|c more IH]; intros r r' H Hperm; cbn [RendererRun.run] in H.
  - injection H as <-. repeat split. exact Hperm.
  - bind_ok H.
    destruct (renderer_step_keeps _ _ _ E Hperm) as (Hp1 & Hs1 & Hw1 & Hv1 & He1).
    destruct (IH _ _ H Hp1) as (Hp2 & Hs2 & Hw2 & Hv2 & He2).
    split; [exact Hp2|]. repeat split; congruence.
Qed.

End CirculationFacts.

(** X18.  From construction on, through any sequence of updates and release
    events that return, the stream of a renderer holds the three frames
    tagged 0, 1 and 2 and no other: each tag is, at any time, once among the
    released, the active and the queued buffers.  The stream stays playing
    and the renderer keeps its parameters and its numbers of voices and
    effects. *)
Theorem three_tags_circulate (P : Platform) (params : AudioRendererParameter.t)
    (calls : list RendererRun.Call) (r : AudioRenderer.t P)
    (Hrun : RendererRun.from_start P params calls = Ok r) :
  Permutation
    (StreamCount.released_tags (AudioRenderer.stream P r)
       ++ StreamView.pending_tags (AudioRenderer.stream P r)) [0; 1; 2]
  /\ Stream.GetState (AudioRenderer.stream P r) = Stream.Playing
  /\ AudioRenderer.worker_params P r = params
  /\ length (AudioRenderer.voices P r)
     = Z.to_nat (AudioRendererParameter.voice_count params)
  /\ length (AudioRenderer.effects P r)
     = Z.to_nat (AudioRendererParameter.effect_count params).
Proof.
  unfold RendererRun.from_start in Hrun.
  destruct (create_spec P params)
    as (r0 & Hc & Hw & Hv & He & _ & Hst & Hp & Hr & _).
  rewrite Hc in Hrun. cbn [bind] in Hrun.
  assert (Hperm : Permutation
                    (StreamCount.released_tags (AudioRenderer.stream P r0)
                       ++ StreamView.pending_tags (AudioRenderer.stream P r0)) [0; 1; 2]).
  { unfold StreamCount.released_tags. rewrite Hr, Hp. apply Permutation_refl. }
  destruct (renderer_run_keeps P calls _ _ Hrun Hperm) as (Hp' & Hs' & Hw' & Hv' & He').
  split; [exact Hp'|]. unfold Stream.GetState.
  split; [congruence|]. split; [congruence|].
  rewrite Hv', He', Hv, He, !repeat_length. split; reflexivity.
Qed.

Lemma three_tags_circulate_witness :
  let quiet := Example.update_blob (Example.REV 52) [0; 0; 0; 0] 0 0 0 in
  let calls :=
    [RendererRun.Fire; RendererRun.Update quiet; RendererRun.Fire;
     RendererRun.Fire; RendererRun.Update quiet; RendererRun.Fire] in
  exists r,
    RendererRun.from_start Example.silent (Example.params 1 0) calls = Ok r
    /\ StreamCount.released_tags (AudioRenderer.stream Example.silent r) = [0]
    /\ StreamView.pending_tags (AudioRenderer.stream Example.silent r) = [1; 2].
Proof.
  cbv zeta.
  destruct (RendererRun.from_start Example.silent (Example.params 1 0)
              [RendererRun.Fire;
               RendererRun.Update (Example.update_blob (Example.REV 52) [0; 0; 0; 0] 0 0 0);
               RendererRun.Fire; RendererRun.Fire;
               RendererRun.Update (Example.update_blob (Example.REV 52) [0; 0; 0; 0] 0 0 0);
               RendererRun.Fire])
    as [r|f] eqn:E; [|vm_compute in E; discriminate E].
  exists r. split; [reflexivity|].
  destruct (three_tags_circulate Example.silent _ _ r E) as (Hperm & _).
  vm_compute in E. injection E as <-. split; reflexivity.
Defined.

(** ** What mixing leaves of a voice's info *)

Lemma kept_but_paused_trans (a b c : VoiceInfo.t) :
  InfoView.kept_but_paused a b -> InfoView.kept_but_paused b c ->
  InfoView.kept_but_paused a c.
Proof.
  unfold InfoView.kept_but_paused. intros [->| ->] [->| ->]; auto.
Qed.

Lemma Forall2_trans {A} (R : A -> A -> Prop) :
  (forall a b c, R a b -> R b c -> R a c) ->
  forall l1 l2, Forall2 R l1 l2 -> forall l3, Forall2 R l2 l3 -> Forall2 R l1 l3.
Proof.
  intros Htrans l1 l2 H12. induction H12 as [|a b l1 l2 Hab _ IH]; intros l3 H23;
    inversion H23; subst; constructor; eauto.
Qed.

Lemma Forall2_same {A} (R : A -> A -> Prop) (l : list A) :
  (forall a, R a a) -> Forall2 R l l.
Proof. intros Hrefl. induction l; constructor; auto. Qed.

Section InfoFacts.
Variable P : Platform.


Lemma same_voice_refl (v : VoiceState.t P) : InfoView.same_voice P v v.
Proof. split; [now left | reflexivity]. Qed.

Lemma same_voice_trans (a b c : VoiceState.t P) :
  InfoView.same_voice P a b -> InfoView.same_voice P b c ->
  InfoView.same_voice P a c.
Proof.
  intros [Hab Hab'] [Hbc Hbc']. split; [|congruence].
  eapply kept_but_paused_trans; eauto.
Qed.

Lemma DequeueSamples_same_voice (v v' : VoiceState.t P) (n : Z) (out : list Z) :
  VoiceState.DequeueSamples P v n = Ok (out, v') -> InfoView.same_voice P v v'.
Proof.
  intros H. destruct (VoiceState.IsPlaying P v) eqn:Hplay.
  - destruct (DequeueSamples_playing P v v' n out Hplay H)
      as (v1 & w & Hr & _ & _ & _ & ->).
    destruct (refreshed_keeps P v v1 Hr) as (_ & _ & _ & Hinfo & Huse & _).
    cbv zeta. unfold InfoView.same_voice, InfoView.kept_but_paused.
    destruct (_ =? _); cbn [VoiceState.buffer_finished VoiceState.buffer_continues
                            VoiceState.info VoiceState.is_in_use];
      rewrite ?Hinfo, ?Huse; [|auto].
    destruct (_ || _); auto.
  - rewrite (DequeueSamples_idle P v n Hplay) in H. injection H as _ <-.
    apply same_voice_refl.
Qed.

Lemma mix_voice_same_voice (fuel : nat) :
  forall num_channels chans v buffer offset samples_remaining v' buffer',
    AudioRenderer.mix_voice P fuel num_channels chans v buffer offset samples_remaining
    = Ok (v', buffer') ->
    InfoView.same_voice P v v'.
Proof.
  induction fuel as [|fuel IH];
    intros num_channels chans v buffer offset rem v' buffer' H; [discriminate H|].
  cbn [AudioRenderer.mix_voice] in H.
  destruct (rem >? 0); [|injection H as <- <-; apply same_voice_refl].
  bind_ok H. destruct a as [samples v1].
  pose proof (DequeueSamples_same_voice _ _ _ _ E) as H1.
  destruct samples as [|s more]; [injection H as <- <-; exact H1|].
  bind_ok H. bind_ok H. destruct a0 as [buffer1 offset1].
  eapply same_voice_trans; [exact H1|]. eapply IH; eauto.
Qed.

Lemma mix_voices_same_voice (vs : list (VoiceState.t P)) :
  forall num_channels chans buffer vs' buffer',
    AudioRenderer.mix_voices P num_channels chans vs buffer = Ok (vs', buffer') ->
    Forall2 (InfoView.same_voice P) vs vs'.
Proof.
  induction vs as [|v more IH]; intros num_channels chans buffer vs' buffer' H;
    cbn [AudioRenderer.mix_voices] in H.
  - injection H as <- <-. constructor.
  - bind_ok H. destruct a as [v1 buffer1]. bind_ok H. destruct a as [more1 buffer2].
    injection H as <- <-. constructor; [|eapply IH; eauto].
    destruct (negb _) in E.
    + injection E as <- <-. apply same_voice_refl.
    + eapply mix_voice_same_voice; eauto.
Qed.

Lemma QueueMixedBuffer_same_voice (r r' : AudioRenderer.t P) (tag : Z) :
  AudioRenderer.QueueMixedBuffer P r tag = Ok r' ->
  Forall2 (InfoView.same_voice P) (AudioRenderer.voices P r)
    (AudioRenderer.voices P r').
Proof.
  unfold AudioRenderer.QueueMixedBuffer, AudioRenderer.MixFrame. intros H.
  bind_ok H. destruct a as [vs buffer].
  destruct (AudioOut.QueueBuffer P _ _ _) as [flag s].
  injection H as <-. cbn [AudioRenderer.voices AudioRenderer.with_stream
                          AudioRenderer.with_voices].
  eapply mix_voices_same_voice; eauto.
Qed.

Lemma QueueMixedBuffers_same_voice (tags : list Z) :
  forall r r',
    AudioRenderer.QueueMixedBuffers P r tags = Ok r' ->
    Forall2 (InfoView.same_voice P) (AudioRenderer.voices P r)
    (AudioRenderer.voices P r').
Proof.
  induction tags as [|tag more IH]; intros r r' H;
    cbn [AudioRenderer.QueueMixedBuffers] in H.
  - injection H as <-. apply Forall2_same. apply same_voice_refl.
  - bind_ok H.
    eapply (Forall2_trans (InfoView.same_voice P) same_voice_trans);
      [eapply QueueMixedBuffer_same_voice; eauto | eapply IH; eauto].
Qed.

Lemma update_voice_info (v : VoiceState.t P) :
  VoiceState.info P (AudioRenderer.update_voice P v) = VoiceState.info P v
  /\ VoiceState.is_in_use P (AudioRenderer.update_voice P v)
     = negb (VoiceInfo.is_in_use (VoiceState.info P v) =? 0).
Proof.
  unfold AudioRenderer.update_voice, VoiceState.UpdateState, VoiceState.GetInfo.
  destruct (VoiceState.is_in_use P v && _);
    cbn [VoiceState.info VoiceState.is_in_use];
    destruct (VoiceInfo.is_in_use (VoiceState.info P v) =? 0);
    cbn [VoiceState.info VoiceState.is_in_use negb]; try (split; reflexivity);
    destruct (negb _); split; reflexivity.
Qed.

End InfoFacts.

(** X19.  A call keeps what the guest sent for a voice.  After it, voice
    [k] holds the [VoiceInfo] read at its place in the blob, unchanged but
    for the play state, which mixing may have set to Paused; and the voice
    is in use exactly if that record says so. *)
Theorem voices_keep_guest_info (P : Platform) (r r' : AudioRenderer.t P)
    (input output : list byte)
    (Hok : AudioRenderer.UpdateAudioRenderer P r input = Ok (output, r')) :
  let config := Layout.config input in
  let voices_at :=
    64 + UpdateDataHeader.behavior_size config
    + UpdateDataHeader.memory_pools_size config
    + UpdateDataHeader.voice_resource_size config in
  forall k v,
    nth_error (AudioRenderer.voices P r) k = Some v ->
    exists v',
      nth_error (AudioRenderer.voices P r') k = Some v'
      /\ let sent :=
           VoiceInfo.parse (Layout.slice input (voices_at + 368 * Z.of_nat k) 368) in
         InfoView.kept_but_paused sent (VoiceState.GetInfo P v')
         /\ VoiceState.is_in_use P v' = negb (VoiceInfo.is_in_use sent =? 0).
Proof.
  cbv zeta. intros k v Hk.
  destruct (UpdateAudioRenderer_reads P _ _ _ _ Hok)
    as (mem_pool_info & voices1 & channels1 & effects1 & effects2
        & voice_end & channel_end & effect_end & Hreads).
  cbv zeta in Hreads. destruct Hreads as (_ & _ & Hv & _ & _ & _ & Hq).
  destruct (copy_infos_layout _ _ _ _ _ _ _ Hv) as (_ & _ & Hnth & _).
  pose proof (Hnth _ _ Hk) as Hk1.
  unfold UpdateDataHeader.sizeof, VoiceInfo.sizeof in Hk1.
  rewrite ReleaseAndQueueBuffers_unfold in Hq.
  pose proof (QueueMixedBuffers_same_voice P _ _ _ Hq) as Hall.
  cbn [AudioRenderer.voices AudioRenderer.with_stream] in Hall.
  assert (Hk2 : nth_error (map (AudioRenderer.update_voice P) voices1) k
                = Some (AudioRenderer.update_voice P
                          (VoiceState.SetInfo P v
                             (VoiceInfo.parse
                                (Layout.slice input
                                   (64 + UpdateDataHeader.behavior_size (Layout.config input)
                                    + UpdateDataHeader.memory_pools_size (Layout.config input)
                                    + UpdateDataHeader.voice_resource_size (Layout.config input)
                                    + 368 * Z.of_nat k) 368))))).
  { exact (map_nth_error (AudioRenderer.update_voice P) k voices1 Hk1). }
  destruct (Forall2_nth_error _ _ _ Hall k _ Hk2) as (v' & Hk' & Hkept & Huse).
  destruct (update_voice_info P
              (VoiceState.SetInfo P v
                 (VoiceInfo.parse
                    (Layout.slice input
                       (64 + UpdateDataHeader.behavior_size (Layout.config input)
                        + UpdateDataHeader.memory_pools_size (Layout.config input)
                        + UpdateDataHeader.voice_resource_size (Layout.config input)
                        + 368 * Z.of_nat k) 368)))) as [Hi Hu].
  cbn [VoiceState.info VoiceState.SetInfo] in Hi, Hu.
  rewrite Hi in Hkept. rewrite Hu in Huse.
  exists v'. split; [exact Hk'|]. split; [exact Hkept | exact Huse].
Qed.

Lemma voices_keep_guest_info_witness :
  let blob := Example.update_blob (Example.REV 52) [0; 0; 0; 0] 1 1 2 in
  exists output r' v',
    Example.one_update Example.silent blob = Ok (output, r')
    /\ AudioRenderer.voices Example.silent r' = [v']
    /\ VoiceInfo.wave_buffer_head (VoiceState.GetInfo Example.silent v') = 2
    /\ VoiceState.is_in_use Example.silent v' = true.
Proof.
  cbv zeta. unfold Example.one_update.
  destruct (AudioRenderer.create Example.silent (Example.params 1 0))
    as [r0|f] eqn:E0; [|vm_compute in E0; discriminate E0].
  cbn [bind].
  destruct (AudioRenderer.UpdateAudioRenderer Example.silent r0
              (Example.update_blob (Example.REV 52) [0; 0; 0; 0] 1 1 2))
    as [[output r']|f] eqn:E.
  2: { vm_compute in E0. injection E0 as <-. vm_compute in E. discriminate E. }
  assert (Hv0 : exists v0, nth_error (AudioRenderer.voices Example.silent r0) 0 = Some v0).
  { vm_compute in E0. injection E0 as <-. eexists. reflexivity. }
  destruct Hv0 as [v0 Hv0].
  destruct (voices_keep_guest_info Example.silent r0 r' _ output E 0%nat v0 Hv0)
    as (v' & Hk' & _ & Huse).
  exists output, r', v'. split; [reflexivity|].
  vm_compute in E0. injection E0 as <-. vm_compute in E. injection E as <- <-.
  cbn in Hk'. injection Hk' as <-. repeat split.
Defined.

(** ** Chunks of odd length *)

Lemma only_undefined_bind {A B} (c : Result A) (k : A -> Result B) :
  only_undefined c -> (forall a, c = Ok a -> only_undefined (k a)) ->
  only_undefined (bind c k).
Proof.
  unfold only_undefined. intros Hc Hk f. destruct c as [a|g]; cbn [bind].
  - apply Hk. reflexivity.
  - intros H; injection H as <-. apply Hc. reflexivity.
Qed.

Ltac only_undefined_step :=
  match goal with
  | |- only_undefined (bind _ _) => apply only_undefined_bind; [|intros ? ?]
  | |- only_undefined (Ok _) => unfold only_undefined; discriminate
  | |- only_undefined (Err UndefinedBehaviour) =>
      unfold only_undefined; intros; congruence
  | |- only_undefined (if ?b then _ else _) => destruct b
  | |- only_undefined (match ?x with _ => _ end) => destruct x
  end.

Lemma at_index_only_undefined {A} (l : list A) (i : Z) :
  only_undefined (AudioRenderer.at_index l i).
Proof. unfold AudioRenderer.at_index. repeat only_undefined_step. Qed.

Lemma mix_samples_only_undefined (samples : list Z) :
  forall buffer offset volume mix,
    only_undefined (AudioRenderer.mix_samples buffer offset samples volume mix).
Proof.
  induction samples as [|sample more IH]; intros; cbn [AudioRenderer.mix_samples].
  - only_undefined_step.
  - only_undefined_step; [apply at_index_only_undefined|].
    only_undefined_step; [apply at_index_only_undefined|].
    only_undefined_step.
    { unfold AudioRenderer.mix_sample, AudioRenderer.scale_sample, F32.to_s32.
      repeat only_undefined_step. }
    only_undefined_step; [|apply IH].
    unfold AudioRenderer.set_index. repeat only_undefined_step.
Qed.

Section OddChunkFacts.
Variable P : Platform.

(** One round of the loop over a looping voice: the chunk is the whole cache,
    or twice the samples still wanted when that is less. *)
Lemma looping_round (fuel : nat) (chans : list ChannelState.t) (v : VoiceState.t P)
    (cache buffer : list Z) (offset remaining : Z) :
  LoopView.loops_over P v cache ->
  1 <= size cache < 2 ^ 64 ->
  0 < remaining <= 512 ->
  AudioRenderer.mix_voice P (S fuel) 2 chans v buffer offset remaining
  = Err UndefinedBehaviour
  \/ exists v1 buffer1,
      let chunk := Z.min (2 * remaining) (size cache) in
      AudioRenderer.mix_voice P (S fuel) 2 chans v buffer offset remaining
      = AudioRenderer.mix_voice P fuel 2 chans v1 buffer1 (offset + chunk)
          (remaining - chunk / 2)
      /\ length buffer1 = length buffer
      /\ 0 <= offset
      /\ offset + chunk <= size buffer
      /\ (size cache <= 2 * remaining -> LoopView.loops_over P v1 cache).
Proof.
  intros (Hplay & Hpend & Hoff & Hcache & w & Hw & Hloop & Hsz & Heos) HL Hrem.
  cbn [AudioRenderer.mix_voice].
  destruct (Z.gtb_spec remaining 0) as [_|]; [|lia].
  unfold VoiceState.DequeueSamples. rewrite Hplay. cbn [negb].
  unfold VoiceState.refreshed. rewrite Hpend. cbn [bind]. rewrite Hw. cbn [bind].
  assert (Hd : VoiceState.dequeue_size P v remaining
               = Z.min (2 * remaining) (size cache)).
  { unfold VoiceState.dequeue_size, STREAM_NUM_CHANNELS, wrap64.
    rewrite Hoff, Hcache, Z.sub_0_r, !Z.mod_small by lia.
    destruct (Z.gtb_spec (remaining * 2) (size cache)); lia. }
  rewrite Hd, Hoff, Hcache. set (chunk := Z.min (2 * remaining) (size cache)).
  assert (Hchunk : 1 <= chunk <= size cache) by (unfold chunk; lia).
  unfold wrap64. rewrite (Z.mod_small (0 + chunk)) by lia.
  destruct (Z.leb_spec (0 + chunk) (size cache)) as [_|]; [|lia].
  cbn [Z.to_nat skipn].
  assert (Hlen : size (firstn (Z.to_nat chunk) cache) = chunk)
    by (unfold size in *; rewrite length_firstn; lia).
  destruct (firstn (Z.to_nat chunk) cache) as [|s more] eqn:Hout;
    [unfold size in Hlen; cbn [length] in Hlen; lia|].
  cbn [bind]. rewrite Hlen.
  match goal with
  | |- context [AudioRenderer.at_index chans ?i] =>
      destruct (AudioRenderer.at_index chans i) as [channel|f] eqn:Hch
  end; cbn [bind].
  2: { left. f_equal. eapply at_index_only_undefined; eauto. }
  match goal with
  | |- context [AudioRenderer.mix_samples buffer offset (s :: more) ?vol ?mix] =>
      destruct (AudioRenderer.mix_samples buffer offset (s :: more) vol mix)
        as [[buffer1 offset1]|f] eqn:Hmix
  end; cbn [bind].
  2: { left. f_equal. eapply mix_samples_only_undefined; eauto. }
  destruct (mix_samples_spec _ _ _ _ _ _ _ Hmix) as (Hoff1 & Hlen1 & Hfit & _).
  destruct Hfit as [H0 Hfit]; [discriminate|]. rewrite Hlen in Hoff1. subst offset1.
  right. eexists. exists buffer1. cbv zeta.
  split; [reflexivity|]. split; [exact Hlen1|]. split; [exact H0|].
  split; [exact Hfit|].
  intros Hfull.
  assert (Hc : chunk = size cache) by (unfold chunk; lia).
  rewrite Hc, Z.add_0_l, Z.eqb_refl.
  apply Z.eqb_neq in Hloop. apply Z.eqb_neq in Hsz. apply Z.eqb_eq in Heos.
  unfold LoopView.loops_over, VoiceState.IsPlaying, VoiceState.buffer_finished in *.
  rewrite Hloop, Hsz, Heos.
  cbn [negb andb orb VoiceState.is_in_use VoiceState.info
       VoiceState.is_refresh_pending VoiceState.offset VoiceState.samples
       VoiceState.wave_index].
  split; [exact Hplay|]. split; [exact Hpend|]. split; [reflexivity|].
  split; [exact Hcache|]. exists w.
  apply Z.eqb_neq in Hloop. apply Z.eqb_neq in Hsz. apply Z.eqb_eq in Heos.
  repeat split; assumption.
Qed.

(** Once the frame is too short for what the voice may still deliver, the
    loop does not come back. *)
Lemma looping_overrun (cache : list Z) (chans : list ChannelState.t) (fuel : nat) :
  1 <= size cache < 2 ^ 64 ->
  forall (v : VoiceState.t P) (buffer : list Z) (offset remaining : Z),
    LoopView.loops_over P v cache ->
    0 < remaining <= 512 ->
    size buffer < offset + 2 * remaining ->
    AudioRenderer.mix_voice P fuel 2 chans v buffer offset remaining
    = Err UndefinedBehaviour
    \/ AudioRenderer.mix_voice P fuel 2 chans v buffer offset remaining
       = Err OutOfFuel.
Proof.
  intros HL. induction fuel as [|fuel IH]; intros v buffer offset remaining Hv Hrem Hshort;
    [right; reflexivity|].
  destruct (looping_round fuel chans v cache buffer offset remaining Hv HL Hrem)
    as [Hub|(v1 & buffer1 & Hround)]; [left; exact Hub|].
  cbv zeta in Hround. destruct Hround as (Heq & Hlen & H0 & Hfit & Hnext).
  rewrite Heq.
  assert (Hfull : size cache <= 2 * remaining) by lia.
  rewrite Z.min_r in * by lia.
  apply IH.
  - apply Hnext. exact Hfull.
  - assert (size cache / 2 < remaining) by (apply Z.div_lt_upper_bound; lia).
    pose proof (Z.div_pos (size cache) 2 ltac:(lia) ltac:(lia)). lia.
  - unfold size in *. rewrite Hlen.
    pose proof (Z.mul_div_le (Z.of_nat (length cache)) 2 ltac:(lia)). lia.
Qed.

End OddChunkFacts.

(** X20.  The mixing loop counts the samples still wanted in pairs, rounding
    down, but moves through the frame by single samples.  So a looping
    voice whose cache holds an odd number of samples (at most 1023) takes
    the loop past the end of the 1024-sample frame: mixing it never
    returns, it ends in an access outside the frame. *)
Theorem odd_looping_cache_overruns_frame (P : Platform)
    (chans : list ChannelState.t) (v : VoiceState.t P) (cache buffer : list Z)
    (Hloops : LoopView.loops_over P v cache)
    (Hodd : Z.odd (size cache) = true)
    (Hshort : size cache <= 1024)
    (Hframe : length buffer = 1024%nat) :
  AudioRenderer.mix_voice P (S (length buffer)) 2 chans v buffer 0
    AudioRenderer.BUFFER_SIZE
  = Err UndefinedBehaviour.
Proof.
  unfold AudioRenderer.BUFFER_SIZE.
  assert (HL : 1 <= size cache < 2 ^ 64).
  { split; [|lia]. unfold size in *.
    destruct cache; [discriminate Hodd|]. cbn [length]. lia. }
  assert (Hfree : fuel_free (AudioRenderer.mix_voice P (S (length buffer)) 2 chans v
                               buffer 0 512)).
  { apply mix_voice_fuel_free; [lia|]. unfold size. lia. }
  destruct (looping_round P (length buffer) chans v cache buffer 0 512 Hloops HL
              ltac:(lia)) as [Hub|(v1 & buffer1 & Hround)]; [exact Hub|].
  cbv zeta in Hround. destruct Hround as (Heq & Hlen & _ & _ & Hnext).
  rewrite Z.min_r in * by lia.
  assert (Hhalf : 2 * (size cache / 2) = size cache - 1).
  { rewrite (Z.div_mod (size cache) 2) at 2 by lia.
    rewrite Zmod_odd, Hodd. lia. }
  destruct (looping_overrun P cache chans (length buffer) HL v1 buffer1
              (0 + size cache) (512 - size cache / 2)) as [Hub|Hfuel].
  - apply Hnext. lia.
  - lia.
  - unfold size in *. rewrite Hlen. lia.
  - rewrite Heq. exact Hub.
  - rewrite Heq in Hfree. contradiction.
Qed.

Lemma odd_looping_cache_overruns_frame_witness :
  LoopView.loops_over Example.loud LoopView.three_sample_voice [20000; 20000; 20000]
  /\ AudioRenderer.mix_voice Example.loud 1025 2 [Example.unit_channel]
       LoopView.three_sample_voice (repeat 0 1024) 0 512
     = Err UndefinedBehaviour.
Proof.
  assert (Hloops : LoopView.loops_over Example.loud LoopView.three_sample_voice
                     [20000; 20000; 20000]).
  { unfold LoopView.loops_over.
    split; [reflexivity|]. split; [reflexivity|]. split; [reflexivity|].
    split; [reflexivity|]. eexists. split; [reflexivity|].
    split; [vm_compute; discriminate|]. split; [vm_compute; discriminate|].
    reflexivity. }
  split; [exact Hloops|].
  exact (odd_looping_cache_overruns_frame Example.loud [Example.unit_channel]
           LoopView.three_sample_voice [20000; 20000; 20000] (repeat 0 1024)
           Hloops eq_refl ltac:(vm_compute; discriminate) eq_refl).
Defined.

(** ** GPU registers *)

Lemma gpu_address_sum (high low : Z) :
  Maxwell3D.is_u32 high -> Maxwell3D.is_u32 low ->
  Maxwell3D.gpu_address high low = high * 2 ^ 32 + low.
Proof.
  unfold Maxwell3D.is_u32, Maxwell3D.gpu_address, wrap64. intros Hh Hl.
  rewrite Z.shiftl_mul_pow2 by lia.
  rewrite (Z.mod_small (high * 2 ^ 32)) by nia.
  assert (Hland : Z.land (high * 2 ^ 32) low = 0).
  { apply Z.bits_inj'. intros n Hn. rewrite Z.land_spec, Z.bits_0.
    destruct (Z.lt_ge_cases n 32) as [Hlt|Hge].
    - rewrite <- Z.shiftl_mul_pow2 by lia.
      rewrite Z.shiftl_spec_low by lia. reflexivity.
    - assert (Hlow : Z.testbit low n = false).
      { destruct (Z.eq_dec low 0) as [->|Hne]; [apply Z.bits_0|].
        apply Z.bits_above_log2; [lia|].
        assert (Z.log2 low < 32) by (apply Z.log2_lt_pow2; lia). lia. }
      rewrite Hlow. apply andb_false_r. }
  pose proof (Z.add_lor_land (high * 2 ^ 32) low) as Hsum.
  rewrite Hland, Z.add_0_r in Hsum. rewrite Hsum.
  apply Z.mod_small. nia.
Qed.

(** X21.  The three tables of a vertex attribute's size agree: they are
    defined for the same size codes, the name lists as many component widths
    as [ComponentCount] returns (between one and four), and the widths add
    up to eight times [SizeInBytes].  [IsValid] accepts every code the
    tables know, but does not guard them: a code such as 0x06 is valid and
    yet unreachable in all three. *)
Theorem vertex_attribute_tables_agree (a : Maxwell3D.VertexAttribute.t) :
  is_ok (Maxwell3D.VertexAttribute.SizeInBytes a)
  = is_ok (Maxwell3D.VertexAttribute.ComponentCount a)
  /\ is_ok (Maxwell3D.VertexAttribute.SizeString a)
     = is_ok (Maxwell3D.VertexAttribute.ComponentCount a)
  /\ (forall count bytes name,
        Maxwell3D.VertexAttribute.ComponentCount a = Ok count ->
        Maxwell3D.VertexAttribute.SizeInBytes a = Ok bytes ->
        Maxwell3D.VertexAttribute.SizeString a = Ok name ->
        size (Maxwell3D.numbers name) = count
        /\ list_sum (map Z.to_nat (Maxwell3D.numbers name)) = Z.to_nat (8 * bytes)
        /\ 1 <= count <= 4
        /\ Maxwell3D.VertexAttribute.IsValid a = true)
  /\ (Maxwell3D.VertexAttribute.size a = 6 ->
      Maxwell3D.VertexAttribute.IsValid a = true
      /\ Maxwell3D.VertexAttribute.ComponentCount a = Err AssertionFailed
      /\ Maxwell3D.VertexAttribute.SizeInBytes a = Err AssertionFailed
      /\ Maxwell3D.VertexAttribute.SizeString a = Err AssertionFailed).
Proof.
  destruct a as [sz ty].
  unfold Maxwell3D.VertexAttribute.ComponentCount, Maxwell3D.VertexAttribute.SizeInBytes,
    Maxwell3D.VertexAttribute.SizeString, Maxwell3D.VertexAttribute.IsValid.
  cbn [Maxwell3D.VertexAttribute.size].
  split; [|split; [|split]].
  4: { intros ->. vm_compute. repeat split. }
  all: repeat match goal with
       | |- context [?x =? ?c] =>
           is_var x; destruct (Z.eqb_spec x c) as [->|?];
             [vm_compute; try reflexivity;
              intros count bytes name H1 H2 H3;
              injection H1 as <-; injection H2 as <-; injection H3 as <-;
              vm_compute; repeat split; discriminate|]
       end.
  all: try reflexivity.
  intros count bytes name H1. discriminate H1.
Qed.

(** X22.  The address of the index array is its two words put together
    without loss: the high word times 2^32 plus the low word.  The size of an
    index is two to the power of its format, and [IndexStart] lies [first]
    indices behind the start, modulo 2^64.  A vertex array is enabled
    exactly when its enable field is set and its two address words are not
    both zero. *)
Theorem array_addresses (a : Maxwell3D.IndexArray.t) (v : Maxwell3D.VertexArray.t)
    (Hhigh : Maxwell3D.is_u32 (Maxwell3D.IndexArray.start_addr_high a))
    (Hlow : Maxwell3D.is_u32 (Maxwell3D.IndexArray.start_addr_low a))
    (Hfirst : Maxwell3D.is_u32 (Maxwell3D.IndexArray.first a))
    (Hvhigh : Maxwell3D.is_u32 (Maxwell3D.VertexArray.start_high v))
    (Hvlow : Maxwell3D.is_u32 (Maxwell3D.VertexArray.start_low v)) :
  let start := Maxwell3D.IndexArray.StartAddress a in
  start = Maxwell3D.IndexArray.start_addr_high a * 2 ^ 32
          + Maxwell3D.IndexArray.start_addr_low a
  /\ start / 2 ^ 32 = Maxwell3D.IndexArray.start_addr_high a
  /\ start mod 2 ^ 32 = Maxwell3D.IndexArray.start_addr_low a
  /\ (is_ok (Maxwell3D.IndexArray.IndexStart a) = true
      <-> 0 <= Maxwell3D.IndexArray.format a <= 2)
  /\ (forall index_start,
        Maxwell3D.IndexArray.IndexStart a = Ok index_start ->
        index_start
        = (start + Maxwell3D.IndexArray.first a * 2 ^ Maxwell3D.IndexArray.format a)
            mod 2 ^ 64
        /\ (start + 4 * Maxwell3D.IndexArray.first a < 2 ^ 64 ->
            index_start
            = start + Maxwell3D.IndexArray.first a * 2 ^ Maxwell3D.IndexArray.format a
            /\ start <= index_start))
  /\ (Maxwell3D.VertexArray.IsEnabled v = true
      <-> Maxwell3D.VertexArray.enable v <> 0
          /\ ~ (Maxwell3D.VertexArray.start_high v = 0
                /\ Maxwell3D.VertexArray.start_low v = 0)).
Proof.
  cbv zeta.
  unfold Maxwell3D.IndexArray.IndexStart, Maxwell3D.IndexArray.FormatSizeInBytes,
    Maxwell3D.IndexArray.StartAddress, Maxwell3D.IndexFormat.UnsignedByte,
    Maxwell3D.IndexFormat.UnsignedShort, Maxwell3D.IndexFormat.UnsignedInt,
    Maxwell3D.unreachable.
  rewrite (gpu_address_sum _ _ Hhigh Hlow).
  unfold Maxwell3D.is_u32 in *.
  set (high := Maxwell3D.IndexArray.start_addr_high a) in *.
  set (low := Maxwell3D.IndexArray.start_addr_low a) in *.
  set (first := Maxwell3D.IndexArray.first a) in *.
  split; [reflexivity|].
  split; [rewrite Z.div_add_l by lia; rewrite Z.div_small by lia; lia|].
  split; [rewrite Z.add_comm, Z.mod_add by lia; apply Z.mod_small; lia|].
  split; [|split].
  - destruct (Z.eqb_spec (Maxwell3D.IndexArray.format a) 0) as [E|E0];
      [cbn; split; [lia | reflexivity]|].
    destruct (Z.eqb_spec (Maxwell3D.IndexArray.format a) 1) as [E|E1];
      [cbn; split; [lia | reflexivity]|].
    destruct (Z.eqb_spec (Maxwell3D.IndexArray.format a) 2) as [E|E2];
      [cbn; split; [lia | reflexivity]|].
    cbn. split; [discriminate | lia].
  - intros index_start.
    assert (Hcase : forall k,
              0 <= k <= 2 ->
              Maxwell3D.IndexArray.format a = k ->
              Ok (wrap64 (high * 2 ^ 32 + low + wrap64 (first * 2 ^ k))) = Ok index_start ->
              index_start
              = (high * 2 ^ 32 + low + first * 2 ^ Maxwell3D.IndexArray.format a)
                  mod 2 ^ 64
              /\ (high * 2 ^ 32 + low + 4 * first < 2 ^ 64 ->
                  index_start
                  = high * 2 ^ 32 + low + first * 2 ^ Maxwell3D.IndexArray.format a
                  /\ high * 2 ^ 32 + low <= index_start)).
    { intros k Hk Hfmt H. injection H as <-. rewrite Hfmt. unfold wrap64.
      assert (Hpow : 1 <= 2 ^ k <= 4).
      { assert (Hc : k = 0 \/ k = 1 \/ k = 2) by lia.
        destruct Hc as [->|[->| ->]]; cbn; lia. }
      rewrite (Z.mod_small (first * _)) by nia.
      split; [reflexivity|]. intros Hfit.
      rewrite Z.mod_small by nia. split; [reflexivity | nia]. }
    destruct (Z.eqb_spec (Maxwell3D.IndexArray.format a) 0) as [E|E0];
      [cbn [bind]; apply (Hcase 0); [lia | exact E]|].
    destruct (Z.eqb_spec (Maxwell3D.IndexArray.format a) 1) as [E|E1];
      [cbn [bind]; apply (Hcase 1); [lia | exact E]|].
    destruct (Z.eqb_spec (Maxwell3D.IndexArray.format a) 2) as [E|E2];
      [cbn [bind]; apply (Hcase 2); [lia | exact E]|].
    cbn [bind]. discriminate.
  - unfold Maxwell3D.VertexArray.IsEnabled, Maxwell3D.VertexArray.StartAddress.
    rewrite (gpu_address_sum _ _ Hvhigh Hvlow).
    destruct (Z.eqb_spec (Maxwell3D.VertexArray.enable v) 0) as [He|He]; cbn [negb andb].
    + split; [discriminate | intros [H _]; contradiction].
    + destruct (Z.eqb_spec (Maxwell3D.VertexArray.start_high v * 2 ^ 32
                            + Maxwell3D.VertexArray.start_low v) 0) as [Hz|Hz];
        cbn [negb].
      * split; [discriminate|]. intros [_ Hn]. exfalso. apply Hn. lia.
      * split; [|reflexivity]. intros _. split; [exact He|]. intros [H1 H2].
        apply Hz. rewrite H1, H2. reflexivity.
Qed.

Lemma array_addresses_witness :
  let a :=
    {| Maxwell3D.IndexArray.start_addr_high := 1;
       Maxwell3D.IndexArray.start_addr_low := 4096;
       Maxwell3D.IndexArray.end_addr_high := 1;
       Maxwell3D.IndexArray.end_addr_low := 8192;
       Maxwell3D.IndexArray.format := Maxwell3D.IndexFormat.UnsignedShort;
       Maxwell3D.IndexArray.first := 10;
       Maxwell3D.IndexArray.count := 3 |} in
  let v :=
    {| Maxwell3D.VertexArray.stride := 16; Maxwell3D.VertexArray.enable := 1;
       Maxwell3D.VertexArray.start_high := 0; Maxwell3D.VertexArray.start_low := 0;
       Maxwell3D.VertexArray.divisor := 0 |} in
  Maxwell3D.IndexArray.StartAddress a = 4294971392
  /\ Maxwell3D.IndexArray.IndexStart a = Ok 4294971412
  /\ Maxwell3D.VertexArray.IsEnabled v = false.
Proof.
  cbv zeta.
  destruct (array_addresses
              {| Maxwell3D.IndexArray.start_addr_high := 1;
                 Maxwell3D.IndexArray.start_addr_low := 4096;
                 Maxwell3D.IndexArray.end_addr_high := 1;
                 Maxwell3D.IndexArray.end_addr_low := 8192;
                 Maxwell3D.IndexArray.format := Maxwell3D.IndexFormat.UnsignedShort;
                 Maxwell3D.IndexArray.first := 10;
                 Maxwell3D.IndexArray.count := 3 |}
              {| Maxwell3D.VertexArray.stride := 16; Maxwell3D.VertexArray.enable := 1;
                 Maxwell3D.VertexArray.start_high := 0;
                 Maxwell3D.VertexArray.start_low := 0;
                 Maxwell3D.VertexArray.divisor := 0 |})
    as (Hstart & _).
  - unfold Maxwell3D.is_u32. cbn. lia.
  - unfold Maxwell3D.is_u32. cbn. lia.
  - unfold Maxwell3D.is_u32. cbn. lia.
  - unfold Maxwell3D.is_u32. cbn. lia.
  - unfold Maxwell3D.is_u32. cbn. lia.
  - split; [rewrite Hstart; reflexivity|]. split; reflexivity.
Defined.

(** ** The size of a response *)

Lemma create_sizes (params : AudioRendererParameter.t) :
  let voices := AudioRendererParameter.voice_count params in
  let effects := AudioRendererParameter.effect_count params in
  let sinks := AudioRendererParameter.sink_count params in
  0 <= voices -> 0 <= effects -> 0 <= sinks ->
  256 + 80 * voices + 32 * effects + 32 * sinks < 2 ^ 32 ->
  UpdateDataHeader.memory_pools_size (UpdateDataHeader.create params)
  = 16 * (effects + 4 * voices)
  /\ UpdateDataHeader.voices_size (UpdateDataHeader.create params) = 16 * voices
  /\ UpdateDataHeader.total_size (UpdateDataHeader.create params)
     = 256 + 80 * voices + 32 * effects + 32 * sinks.
Proof.
  cbv zeta. intros Hv He Hs Hfit.
  unfold UpdateDataHeader.create, UpdateDataHeader.sizeof.
  cbn [UpdateDataHeader.memory_pools_size UpdateDataHeader.voices_size
       UpdateDataHeader.total_size].
  unfold wrap32, wrap64.
  rewrite (Z.mod_small (AudioRendererParameter.voice_count params * 4)) by lia.
  rewrite (Z.mod_small (AudioRendererParameter.effect_count params + _)) by lia.
  rewrite (Z.mod_small (_ * 16)) by lia.
  rewrite (Z.mod_small (AudioRendererParameter.voice_count params * 16)) by lia.
  rewrite (Z.mod_small (AudioRendererParameter.effect_count params * 16)) by lia.
  rewrite (Z.mod_small (AudioRendererParameter.sink_count params * 32)) by lia.
  rewrite (Z.mod_small _ (2 ^ 64)) by lia.
  rewrite Z.mod_small by lia.
  repeat split; lia.
Qed.

(** X23.  For a renderer that holds the voices and effects its parameters
    declare, a response has [256 + 80 * voices + 32 * effects + 32 * sinks]
    bytes.  Its last [192 + 32 * sinks] bytes are zero: nothing is written
    for the behaviour, sink and performance sections the header of the
    response announces. *)
Theorem response_size_closed_form (P : Platform) (r r' : AudioRenderer.t P)
    (input output : list byte)
    (Hok : AudioRenderer.UpdateAudioRenderer P r input = Ok (output, r'))
    (Hvoices : size (AudioRenderer.voices P r)
               = AudioRendererParameter.voice_count (AudioRenderer.worker_params P r))
    (Heffects : size (AudioRenderer.effects P r)
                = AudioRendererParameter.effect_count (AudioRenderer.worker_params P r))
    (Hsinks : 0 <= AudioRendererParameter.sink_count (AudioRenderer.worker_params P r))
    (Hfit : 256
            + 80 * AudioRendererParameter.voice_count (AudioRenderer.worker_params P r)
            + 32 * AudioRendererParameter.effect_count (AudioRenderer.worker_params P r)
            + 32 * AudioRendererParameter.sink_count (AudioRenderer.worker_params P r)
            < 2 ^ 32) :
  let voices := AudioRendererParameter.voice_count (AudioRenderer.worker_params P r) in
  let effects := AudioRendererParameter.effect_count (AudioRenderer.worker_params P r) in
  let sinks := AudioRendererParameter.sink_count (AudioRenderer.worker_params P r) in
  size output = 256 + 80 * voices + 32 * effects + 32 * sinks
  /\ Layout.slice output (64 + 80 * voices + 32 * effects) (192 + 32 * sinks)
     = Bytes.zeros (192 + 32 * sinks)
  /\ UpdateDataHeader.behavior_size (Response.header output) = 176
  /\ UpdateDataHeader.sinks_size (Response.header output) = 32 * sinks
  /\ UpdateDataHeader.performance_manager_size (Response.header output) = 16.
Proof.
  cbv zeta.
  set (params := AudioRenderer.worker_params P r) in *.
  assert (Hv0 : 0 <= AudioRendererParameter.voice_count params)
    by (rewrite <- Hvoices; unfold size; lia).
  assert (He0 : 0 <= AudioRendererParameter.effect_count params)
    by (rewrite <- Heffects; unfold size; lia).
  destruct (create_sizes params Hv0 He0 Hsinks Hfit) as (Hpools & Hvs & Htotal).
  destruct (response_layout P r r' input output Hok)
    as (mem_pool_info & Hlay); [fold params; rewrite Hvs, Hvoices; reflexivity|].
  cbv zeta in Hlay. destruct Hlay as (_ & Hout & _ & Hnv & Hne).
  fold params in Hout. rewrite Hpools, Htotal in Hout.
  destruct (UpdateAudioRenderer_output P _ _ _ _ Hok)
    as (header & mem_pool_info' & Houtput).
  cbv zeta in Houtput. destruct Houtput as (_ & _ & Hsize & _).
  fold params in Hsize. rewrite Htotal in Hsize.
  assert (Hnv' : size (AudioRenderer.voices P r')
                 = AudioRendererParameter.voice_count params)
    by (unfold size in *; lia).
  assert (Hne' : size (AudioRenderer.effects P r')
                 = AudioRendererParameter.effect_count params)
    by (unfold size in *; lia).
  rewrite Hnv', Hne' in Hout.
  split; [exact Hsize|]. split.
  - replace (256 + 80 * AudioRendererParameter.voice_count params
             + 32 * AudioRendererParameter.effect_count params
             + 32 * AudioRendererParameter.sink_count params - 64
             - 16 * (AudioRendererParameter.effect_count params
                     + 4 * AudioRendererParameter.voice_count params)
             - 16 * AudioRendererParameter.voice_count params
             - 16 * AudioRendererParameter.effect_count params)
      with (192 + 32 * AudioRendererParameter.sink_count params) in Hout by lia.
    rewrite !app_assoc in Hout.
    match type of Hout with
    | output = ?pre ++ Bytes.zeros ?n =>
        assert (Hpre : length pre
                       = Z.to_nat (64 + 80 * AudioRendererParameter.voice_count params
                                   + 32 * AudioRendererParameter.effect_count params))
    end.
    { apply (f_equal (@length byte)) in Hout.
      rewrite length_app, length_zeros in Hout. unfold size in Hsize. lia. }
    unfold Layout.slice. rewrite Hout.
    rewrite (skipn_app_exact _ _ _ 0%nat) by lia. cbn [skipn].
    apply firstn_all2. rewrite length_zeros. lia.
  - destruct (response_header_read_back_fields P r r' input output Hok)
      as (Hb & Hs & Hp).
    fold params in Hs. split; [exact Hb|]. split; [|exact Hp].
    rewrite Hs. unfold UpdateDataHeader.create, wrap32;
      cbn [UpdateDataHeader.sinks_size].
    rewrite Z.mod_small by lia. lia.
Qed.

Lemma response_size_closed_form_witness :
  let blob := Example.update_blob (Example.REV 52) [0; 0; 0; 0] 1 1 0 in
  exists output r',
    Example.one_update Example.silent blob = Ok (output, r')
    /\ size output = 256 + 80 * 1 + 32 * 0 + 32 * 1
    /\ Layout.slice output 144 224 = Bytes.zeros 224.
Proof.
  cbv zeta. unfold Example.one_update.
  destruct (AudioRenderer.create Example.silent (Example.params 1 0))
    as [r0|f] eqn:E0; [|vm_compute in E0; discriminate E0].
  cbn [bind].
  destruct (AudioRenderer.UpdateAudioRenderer Example.silent r0
              (Example.update_blob (Example.REV 52) [0; 0; 0; 0] 1 1 0))
    as [[output r']|f] eqn:E.
  2: { vm_compute in E0. injection E0 as <-. vm_compute in E. discriminate E. }
  exists output, r'. split; [reflexivity|].
  assert (Hr0 : AudioRenderer.worker_params Example.silent r0 = Example.params 1 0
                /\ size (AudioRenderer.voices Example.silent r0) = 1
                /\ size (AudioRenderer.effects Example.silent r0) = 0).
  { vm_compute in E0. injection E0 as <-. repeat split. }
  destruct Hr0 as (Hw & Hv & He).
  destruct (response_size_closed_form Example.silent r0 r' _ output E)
    as (Hsize & Hzero & _).
  - rewrite Hw, Hv. reflexivity.
  - rewrite Hw, He. reflexivity.
  - rewrite Hw. cbn. lia.
  - rewrite Hw. cbn. lia.
  - rewrite Hw in Hsize, Hzero. split; [exact Hsize | exact Hzero].
Defined.

(** ** Writing the response cannot fail *)

Lemma memcpy_to_fits (dst src : list byte) (off : Z) :
  0 <= off -> off + size src <= size dst ->
  exists dst', Bytes.memcpy_to dst off src = Ok dst' /\ length dst' = length dst.
Proof.
  intros H0 Hfit. unfold Bytes.memcpy_to.
  destruct (Z.eqb_spec (size src) 0); [eexists; split; reflexivity|].
  destruct (Z.leb_spec 0 off); [|lia].
  destruct (Z.leb_spec (off + size src) (size dst)); [|lia].
  cbn [andb]. eexists. split; [reflexivity|].
  unfold size in *. rewrite !length_app, length_firstn, length_skipn. lia.
Qed.

Lemma copy_out_fits {A} (image : A -> list byte) (sizeof : Z) (n : nat)
    (xs : list A) :
  sizeof = Z.of_nat n ->
  (forall x, length (image x) = n) ->
  forall output offset,
    0 <= offset ->
    offset + Z.of_nat (n * length xs) <= size output ->
    exists output',
      AudioRenderer.copy_out image sizeof output offset xs = Ok output'
      /\ length output' = length output.
Proof.
  intros Hn Himg. induction xs as [|x xs IH]; intros output offset H0 Hfit;
    cbn [AudioRenderer.copy_out].
  - eexists. split; reflexivity.
  - cbn [length] in Hfit. rewrite Nat.mul_succ_r in Hfit.
    destruct (memcpy_to_fits output (image x) offset H0) as (out1 & E & Hl).
    { unfold size in *. rewrite Himg. lia. }
    rewrite E. cbn [bind].
    destruct (IH out1 (offset + sizeof)) as (out2 & E2 & Hl2).
    + lia.
    + unfold size in *. rewrite Hl. lia.
    + exists out2. split; [exact E2 | congruence].
Qed.

Section WriteFacts.
Variable P : Platform.

Lemma read_mem_pool_info_length (params : AudioRendererParameter.t)
    (input : list byte) (mem_pool_info : list MemoryPoolInfo.t) :
  AudioRenderer.read_mem_pool_info params input = Ok mem_pool_info ->
  length mem_pool_info
  = Z.to_nat (wrap32 (AudioRendererParameter.effect_count params
                      + wrap32 (AudioRendererParameter.voice_count params * 4))).
Proof.
  unfold AudioRenderer.read_mem_pool_info. intros H.
  bind_ok H. bind_ok H. injection H as <-.
  rewrite length_map, length_seq. reflexivity.
Qed.

(** With the first stage done, the second returns. *)
Lemma response_is_written (r r' : AudioRenderer.t P) (input : list byte) :
  UpdateView.sized P r ->
  UpdateView.taken_in P r input r' ->
  exists output, AudioRenderer.UpdateAudioRenderer P r input = Ok (output, r').
Proof.
  intros (Hnv & Hne & Hs0 & Hfit)
    (mem_pool_info & voices1 & channels1 & effects1 & effects2
     & voice_end & channel_end & effect_end & Hin).
  cbv zeta in Hin. destruct Hin as (H64 & Hm & Hv & Hc & He & Hu & Hq).
  set (params := AudioRenderer.worker_params P r) in *.
  assert (Hv0 : 0 <= AudioRendererParameter.voice_count params)
    by (rewrite <- Hnv; unfold size; lia).
  assert (He0 : 0 <= AudioRendererParameter.effect_count params)
    by (rewrite <- Hne; unfold size; lia).
  destruct (create_sizes params Hv0 He0 Hs0 Hfit) as (Hpools & Hvs & Htotal).
  assert (Hheader : Bytes.memcpy_from input 0 UpdateDataHeader.sizeof
                    = Ok (Layout.slice input 0 UpdateDataHeader.sizeof)).
  { apply memcpy_from_fits; unfold UpdateDataHeader.sizeof; lia. }
  unfold AudioRenderer.UpdateAudioRenderer.
  rewrite Hheader. cbn [bind].
  fold (Layout.config input). fold params.
  rewrite Hm. cbn [bind]. rewrite Hv. cbn [bind]. rewrite Hc. cbn [bind].
  rewrite He. cbn [bind]. rewrite Hu. cbn [bind]. rewrite Hq. cbn [bind].
  destruct (response_header_fields params (Layout.config input))
    as (Hmps & Hvsr & Hvrs & _).
  cbv zeta in Hmps, Hvsr, Hvrs. rewrite Hmps, Hvsr, Hvrs, Hpools, Hvs, Htotal.
  (* the header *)
  destruct (memcpy_to_fits
              (Bytes.zeros (256 + 80 * AudioRendererParameter.voice_count params
                            + 32 * AudioRendererParameter.effect_count params
                            + 32 * AudioRendererParameter.sink_count params))
              (UpdateDataHeader.image
                 (AudioRenderer.response_header params (Layout.config input))) 0)
    as (out1 & E1 & Hl1); [lia | |].
  { unfold size. rewrite length_header_image, length_zeros. lia. }
  rewrite E1. cbn [bind]. rewrite length_zeros in Hl1.
  (* the memory pools *)
  pose proof (read_mem_pool_info_length _ _ _ Hm) as Hcount. fold params in Hcount.
  assert (Hcount' : length mem_pool_info
                    = Z.to_nat (AudioRendererParameter.effect_count params
                                + 4 * AudioRendererParameter.voice_count params)).
  { rewrite Hcount. unfold wrap32.
    rewrite (Z.mod_small (AudioRendererParameter.voice_count params * 4)) by lia.
    rewrite Z.mod_small by lia. f_equal. lia. }
  assert (Hentries : length (concat (map MemoryPoolEntry.image
                                       (AudioRenderer.memory_pool_of mem_pool_info)))
                     = Z.to_nat (16 * (AudioRendererParameter.effect_count params
                                       + 4 * AudioRendererParameter.voice_count params))).
  { rewrite (length_concat_chunks _ 16 _ length_pool_image), memory_pool_of_map,
      length_map, Hcount'. lia. }
  assert (Hpb : Bytes.memcpy_from
                  (concat (map MemoryPoolEntry.image
                             (AudioRenderer.memory_pool_of mem_pool_info))) 0
                  (16 * (AudioRendererParameter.effect_count params
                         + 4 * AudioRendererParameter.voice_count params))
                = Ok (concat (map MemoryPoolEntry.image
                                (AudioRenderer.memory_pool_of mem_pool_info)))).
  { rewrite memcpy_from_fits by (unfold size; rewrite ?Hentries; lia).
    unfold Layout.slice. cbn [Z.to_nat skipn].
    rewrite <- Hentries, firstn_all. reflexivity. }
  rewrite Hpb. cbn [bind].
  destruct (memcpy_to_fits out1
              (concat (map MemoryPoolEntry.image
                         (AudioRenderer.memory_pool_of mem_pool_info)))
              UpdateDataHeader.sizeof)
    as (out2 & E2 & Hl2); [unfold UpdateDataHeader.sizeof; lia | |].
  { unfold size, UpdateDataHeader.sizeof. rewrite Hentries, Hl1. lia. }
  rewrite E2. cbn [bind].
  (* the voices and the effects *)
  destruct (UpdateAudioRenderer_counts_of_stage P r r' voices1 effects1 effects2
              channels1 voice_end effect_end input Hv He Hu Hq) as (Hnv' & Hne').
  destruct (copy_out_fits
              (fun v => VoiceOutStatus.image (VoiceState.GetOutStatus P v))
              VoiceOutStatus.sizeof 16 (AudioRenderer.voices P r') eq_refl
              (fun v => length_voice_status_image _) out2
              (UpdateDataHeader.sizeof
               + 16 * (AudioRendererParameter.effect_count params
                       + 4 * AudioRendererParameter.voice_count params)))
    as (out3 & E3 & Hl3); [unfold UpdateDataHeader.sizeof; lia | |].
  { unfold size in *. unfold UpdateDataHeader.sizeof. rewrite Hl2, Hl1. lia. }
  rewrite E3. cbn [bind].
  destruct (copy_out_fits
              (fun e => EffectOutStatus.image (EffectState.GetOutStatus e))
              EffectOutStatus.sizeof 16 (AudioRenderer.effects P r') eq_refl
              (fun e => length_effect_status_image _) out3
              (UpdateDataHeader.sizeof
               + 16 * (AudioRendererParameter.effect_count params
                       + 4 * AudioRendererParameter.voice_count params)
               + 16 * AudioRendererParameter.voice_count params + 0))
    as (out4 & E4 & Hl4); [unfold UpdateDataHeader.sizeof; lia | |].
  { unfold size in *. unfold UpdateDataHeader.sizeof. rewrite Hl3, Hl2, Hl1. lia. }
  rewrite E4. cbn [bind]. eexists. reflexivity.
Qed.

End WriteFacts.

(** X24.  For a renderer that holds the voices and effects its parameters
    declare, a call returns exactly when its first stage goes through:
    reading the blob, updating the effects and mixing the released frames.
    Writing the response - header, memory pools, voice and effect
    statuses - never leaves the blob that was allocated for it. *)
Theorem update_fails_only_in_first_stage (P : Platform) (r r' : AudioRenderer.t P)
    (input : list byte)
    (Hsized : UpdateView.sized P r) :
  UpdateView.taken_in P r input r'
  <-> exists output, AudioRenderer.UpdateAudioRenderer P r input = Ok (output, r').
Proof.
  split.
  - apply response_is_written. exact Hsized.
  - intros [output Hok].
    destruct (UpdateAudioRenderer_reads P _ _ _ _ Hok)
      as (mem_pool_info & voices1 & channels1 & effects1 & effects2
          & voice_end & channel_end & effect_end & Hreads).
    exists mem_pool_info, voices1, channels1, effects1, effects2,
      voice_end, channel_end, effect_end. exact Hreads.
Qed.

Lemma update_fails_only_in_first_stage_witness :
  let blob := Example.update_blob (Example.REV 52) [0; 0; 0; 0] 1 1 0 in
  exists r0 r',
    AudioRenderer.create Example.silent (Example.params 1 0) = Ok r0
    /\ UpdateView.sized Example.silent r0
    /\ UpdateView.taken_in Example.silent r0 blob r'.
Proof.
  cbv zeta.
  destruct (AudioRenderer.create Example.silent (Example.params 1 0))
    as [r0|f] eqn:E0; [|vm_compute in E0; discriminate E0].
  destruct (AudioRenderer.UpdateAudioRenderer Example.silent r0
              (Example.update_blob (Example.REV 52) [0; 0; 0; 0] 1 1 0))
    as [[output r']|f] eqn:E.
  2: { vm_compute in E0. injection E0 as <-. vm_compute in E. discriminate E. }
  exists r0, r'. split; [reflexivity|].
  assert (Hsized : UpdateView.sized Example.silent r0).
  { vm_compute in E0. injection E0 as <-. unfold UpdateView.sized. cbn.
    repeat split; lia. }
  split; [exact Hsized|].
  apply (proj2 (update_fails_only_in_first_stage Example.silent r0 r' _ Hsized)).
  exists output. exact E.
Defined.

(** ** An update that asks for nothing is always answered *)

Lemma le_range (width : nat) :
  forall (c : list byte) (off : nat), 0 <= Bytes.le width c off < 256 ^ Z.of_nat width.
Proof.
  induction width as [|w IH]; intros c off; cbn [Bytes.le]; [cbn; lia|].
  pose proof (IH c (S off)). unfold Bytes.u8, Bytes.to_Z.
  pose proof (N2Z.is_nonneg (Byte.to_N (nth off c x00))).
  pose proof (Byte.to_N_bounded (nth off c x00)).
  rewrite Nat2Z.inj_succ, Z.pow_succ_r by lia. lia.
Qed.

Lemma le_nonneg (width : nat) (c : list byte) (off : nat) : 0 <= Bytes.le width c off.
Proof. apply le_range. Qed.

Lemma u32_range (c : list byte) (off : nat) : 0 <= Bytes.u32 c off < 2 ^ 32.
Proof. exact (le_range 4 c off). Qed.

Lemma copy_infos_fits {A} (set : A -> list byte -> A) (sizeof : Z)
    (input : list byte) (xs : list A) :
  0 <= sizeof ->
  forall offset,
    0 <= offset ->
    offset + sizeof * size xs <= size input ->
    exists xs',
      AudioRenderer.copy_infos set sizeof input offset xs
      = Ok (xs', offset + sizeof * size xs).
Proof.
  intros Hs. induction xs as [|x xs IH]; intros offset H0 Hfit;
    cbn [AudioRenderer.copy_infos].
  - eexists. unfold size; cbn [length]. rewrite Z.mul_0_r, Z.add_0_r. reflexivity.
  - unfold size in *. cbn [length] in *.
    rewrite memcpy_from_fits by (unfold size; nia). cbn [bind].
    destruct (IH (offset + sizeof)) as (xs' & E); [lia | nia |].
    rewrite E. cbn [bind]. eexists. do 2 f_equal. lia.
Qed.

Lemma Forall_nth_error {A} (Q : A -> Prop) (l : list A) :
  (forall k x, nth_error l k = Some x -> Q x) -> Forall Q l.
Proof.
  intros H. apply Forall_forall. intros x Hx.
  destruct (In_nth_error _ _ Hx) as [k Hk]. eapply H; eauto.
Qed.

Section IdleUpdate.
Variable P : Platform.

Lemma QueueMixedBuffers_idle (tags : list Z) :
  forall r,
    Forall (fun v => VoiceState.IsPlaying P v = false) (AudioRenderer.voices P r) ->
    exists r',
      AudioRenderer.QueueMixedBuffers P r tags = Ok r'
      /\ AudioRenderer.voices P r' = AudioRenderer.voices P r.
Proof.
  induction tags as [|tag more IH]; intros r Hidle;
    cbn [AudioRenderer.QueueMixedBuffers].
  - eexists. split; reflexivity.
  - rewrite (QueueMixedBuffer_idle P r tag Hidle). cbn [bind].
    destruct (IH (AudioRenderer.with_stream P
                    (AudioRenderer.with_voices P r (AudioRenderer.voices P r))
                    (Stream.stream_after
                       (Stream.QueueBuffer P (AudioRenderer.stream P r)
                          {| Stream.GetTag := tag;
                             Stream.GetSamples :=
                               repeat 0
                                 (Z.to_nat (512 * Stream.GetNumChannels
                                                    (AudioRenderer.stream P r))) |}))))
      as (r' & E & Hv); [exact Hidle|].
    exists r'. split; [exact E | exact Hv].
Qed.

Lemma update_effects_passes (es : list EffectState.t) :
  Forall (fun e => EffectInStatus.is_new (EffectState.info e) <> 0
                   \/ EffectInStatus.type (EffectState.info e) <> Effect.Aux) es ->
  exists es', AudioRenderer.update_effects P es = Ok es'.
Proof.
  induction 1 as [|e es He _ [es' IH]]; cbn [AudioRenderer.update_effects].
  - eexists. reflexivity.
  - assert (Hu : exists e', EffectState.UpdateState P e = Ok e').
    { unfold EffectState.UpdateState.
      destruct (Z.eqb_spec (EffectInStatus.is_new (EffectState.info e)) 0) as [Hn|Hn];
        cbn [negb]; [|eexists; reflexivity].
      destruct (Z.eqb_spec (EffectInStatus.type (EffectState.info e)) Effect.Aux)
        as [Ht|Ht]; [|eexists; reflexivity].
      destruct He; contradiction. }
    destruct Hu as [e' Hu]. rewrite Hu, IH. cbn [bind]. eexists. reflexivity.
Qed.

Lemma quiet_update_is_taken_in (r : AudioRenderer.t P) (input : list byte) :
  UpdateView.sized P r ->
  UpdateView.covers P r input ->
  UpdateView.quiet P r input ->
  UpdateView.no_aux_check P r input ->
  exists r',
    UpdateView.taken_in P r input r'
    /\ Forall (fun v => VoiceState.IsPlaying P v = false) (AudioRenderer.voices P r').
Proof.
  intros (Hnv & Hne & Hs0 & Hfit) (Hpools & Hvoices & Heffects) Hquiet Haux.
  unfold UpdateView.quiet, UpdateView.no_aux_check, UpdateView.voice_record,
    UpdateView.effect_record in *.
  cbv zeta in *.
  set (params := AudioRenderer.worker_params P r) in *.
  set (config := Layout.config input) in *.
  assert (Hb : 0 <= UpdateDataHeader.behavior_size config) by apply le_nonneg.
  assert (Hm : 0 <= UpdateDataHeader.memory_pools_size config) by apply le_nonneg.
  assert (Hr : 0 <= UpdateDataHeader.voice_resource_size config) by apply le_nonneg.
  assert (Hvsz : 0 <= UpdateDataHeader.voices_size config) by apply le_nonneg.
  assert (Hv0 : 0 <= AudioRendererParameter.voice_count params)
    by (rewrite <- Hnv; unfold size; lia).
  assert (He0 : 0 <= AudioRendererParameter.effect_count params)
    by (rewrite <- Hne; unfold size; lia).
  (* the memory pools *)
  assert (Hcount : wrap32 (AudioRendererParameter.effect_count params
                           + wrap32 (AudioRendererParameter.voice_count params * 4))
                   = AudioRendererParameter.effect_count params
                     + 4 * AudioRendererParameter.voice_count params).
  { unfold wrap32.
    rewrite (Z.mod_small (AudioRendererParameter.voice_count params * 4)) by lia.
    rewrite Z.mod_small by lia. lia. }
  assert (Hpool : exists mem_pool_info,
             AudioRenderer.read_mem_pool_info params input = Ok mem_pool_info).
  { unfold AudioRenderer.read_mem_pool_info.
    rewrite (memcpy_from_fits input 0 UpdateDataHeader.sizeof)
      by (unfold UpdateDataHeader.sizeof; lia).
    cbn [bind].
    change (UpdateDataHeader.parse (Layout.slice input 0 UpdateDataHeader.sizeof))
      with config.
    rewrite Hcount.
    rewrite memcpy_from_fits
      by (unfold UpdateDataHeader.sizeof, MemoryPoolInfo.sizeof; lia).
    cbn [bind]. eexists. reflexivity. }
  destruct Hpool as [mem_pool_info Hpool].
  (* the voices *)
  destruct (copy_infos_fits (fun v c => VoiceState.SetInfo P v (VoiceInfo.parse c))
              VoiceInfo.sizeof input (AudioRenderer.voices P r)
              ltac:(unfold VoiceInfo.sizeof; lia)
              (UpdateDataHeader.sizeof + UpdateDataHeader.behavior_size config
               + UpdateDataHeader.memory_pools_size config
               + UpdateDataHeader.voice_resource_size config))
    as (voices1 & Hv1); [unfold UpdateDataHeader.sizeof; lia | |].
  { unfold UpdateDataHeader.sizeof, VoiceInfo.sizeof. rewrite Hnv. lia. }
  (* the channels *)
  set (pools_end := UpdateDataHeader.sizeof + UpdateDataHeader.behavior_size config
                    + UpdateDataHeader.memory_pools_size config) in *.
  set (voice_end := pools_end + UpdateDataHeader.voice_resource_size config
                    + VoiceInfo.sizeof * size (AudioRenderer.voices P r)) in *.
  set (channels0 := AudioRenderer.resize (AudioRenderer.channels P r)
                      (wrap64 (voice_end - pools_end) / ChannelInfoIn.sizeof)
                      ChannelState.create).
  assert (Hspan : 0 <= voice_end - pools_end < 2 ^ 64).
  { unfold voice_end, VoiceInfo.sizeof. rewrite Hnv.
    unfold pools_end, UpdateDataHeader.sizeof in *.
    assert (UpdateDataHeader.voice_resource_size config < 2 ^ 32)
      by apply u32_range.
    lia. }
  destruct (copy_infos_fits
              (fun (_ : ChannelState.t) c =>
                 {| ChannelState.info := ChannelInfoIn.parse c |})
              ChannelInfoIn.sizeof input channels0
              ltac:(unfold ChannelInfoIn.sizeof; lia) pools_end)
    as (channels1 & Hc1);
    [unfold pools_end, UpdateDataHeader.sizeof; lia | |].
  { unfold size, channels0. rewrite length_resize.
    unfold wrap64. rewrite Z.mod_small by exact Hspan.
    unfold ChannelInfoIn.sizeof.
    assert (0 <= (voice_end - pools_end) / 112) by (apply Z.div_pos; lia).
    rewrite Z2Nat.id by lia.
    pose proof (Z.mul_div_le (voice_end - pools_end) 112 ltac:(lia)).
    unfold voice_end, VoiceInfo.sizeof in *. rewrite Hnv in *.
    unfold pools_end, UpdateDataHeader.sizeof, size in *. lia. }
  (* the effects *)
  destruct (copy_infos_fits
              (fun e c => EffectState.SetInfo e (EffectInStatus.parse c))
              EffectInStatus.sizeof input (AudioRenderer.effects P r)
              ltac:(unfold EffectInStatus.sizeof; lia)
              (pools_end + UpdateDataHeader.voice_resource_size config
               + UpdateDataHeader.voices_size config))
    as (effects1 & He1); [unfold pools_end, UpdateDataHeader.sizeof; lia | |].
  { unfold pools_end, UpdateDataHeader.sizeof, EffectInStatus.sizeof in *.
    rewrite Hne. lia. }
  destruct (copy_infos_layout _ _ _ _ _ _ _ Hv1) as (_ & Hlv & Hnthv & _).
  destruct (copy_infos_layout _ _ _ _ _ _ _ He1) as (_ & Hle & Hnthe & _).
  (* the effects pass *)
  destruct (update_effects_passes effects1) as [effects2 Hu].
  { apply Forall_nth_error. intros k e1 Hk.
    assert (Hlt : (k < length (AudioRenderer.effects P r))%nat).
    { rewrite <- Hle. apply nth_error_Some. congruence. }
    destruct (nth_error (AudioRenderer.effects P r) k) as [e|] eqn:Hke;
      [|apply nth_error_None in Hke; lia].
    rewrite (Hnthe _ _ Hke) in Hk. injection Hk as <-.
    cbn [EffectState.info EffectState.SetInfo].
    unfold pools_end, UpdateDataHeader.sizeof, EffectInStatus.sizeof.
    exact (Haux k Hlt). }
  (* no voice plays *)
  assert (Hidle : Forall (fun v => VoiceState.IsPlaying P v = false)
                    (map (AudioRenderer.update_voice P) voices1)).
  { apply Forall_nth_error. intros k v2 Hk.
    assert (Hlt : (k < length (AudioRenderer.voices P r))%nat).
    { rewrite <- Hlv, <- (length_map (AudioRenderer.update_voice P)).
      apply nth_error_Some. congruence. }
    destruct (nth_error (AudioRenderer.voices P r) k) as [v|] eqn:Hkv;
      [|apply nth_error_None in Hkv; lia].
    rewrite (map_nth_error (AudioRenderer.update_voice P) k voices1 (Hnthv _ _ Hkv)) in Hk.
    injection Hk as <-.
    match goal with
    | |- VoiceState.IsPlaying P (AudioRenderer.update_voice P ?v1) = false =>
        destruct (update_voice_info P v1) as [Hi Hu1]
    end.
    unfold VoiceState.IsPlaying. rewrite Hi, Hu1.
    assert (Hrec : forall rec,
               VoiceInfo.is_in_use rec = 0
               \/ VoiceInfo.play_state rec <> PlayState.Started ->
               negb (VoiceInfo.is_in_use rec =? 0)
               && (VoiceInfo.play_state rec =? PlayState.Started) = false).
    { intros rec [Huse|Hstate].
      - rewrite Huse. reflexivity.
      - apply Z.eqb_neq in Hstate. rewrite Hstate. apply andb_false_r. }
    apply Hrec. exact (Hquiet k Hlt). }
  (* mixing *)
  set (r1 := {| AudioRenderer.worker_params := params;
                AudioRenderer.channels := channels1;
                AudioRenderer.voices := map (AudioRenderer.update_voice P) voices1;
                AudioRenderer.effects := effects2;
                AudioRenderer.stream := AudioRenderer.stream P r |}).
  assert (Hq : exists r',
             AudioRenderer.ReleaseAndQueueBuffers P r1 = Ok r'
             /\ AudioRenderer.voices P r' = AudioRenderer.voices P r1).
  { rewrite ReleaseAndQueueBuffers_unfold.
    match goal with
    | |- exists r', AudioRenderer.QueueMixedBuffers P ?r0 ?tags = _ /\ _ =>
        exact (QueueMixedBuffers_idle tags r0 Hidle)
    end. }
  destruct Hq as (r' & Hq & Hvr').
  exists r'. split; [|rewrite Hvr'; exact Hidle].
  exists mem_pool_info, voices1, channels1, effects1, effects2,
    voice_end, (pools_end + ChannelInfoIn.sizeof * size channels0),
    (pools_end + UpdateDataHeader.voice_resource_size config
     + UpdateDataHeader.voices_size config
     + EffectInStatus.sizeof * size (AudioRenderer.effects P r)).
  cbv zeta. fold config params pools_end.
  split; [unfold pools_end, UpdateDataHeader.sizeof in *; lia|].
  split; [exact Hpool|]. split; [exact Hv1|]. split; [exact Hc1|].
  split; [exact He1|]. split; [exact Hu | exact Hq].
Qed.

End IdleUpdate.

(** X25.  An update that asks for nothing is always answered.  For a
    renderer that holds the voices and effects its parameters declare, a
    blob that reaches to the end of the ranges the call reads, in which no
    voice record is both in use and started and no effect record is an aux
    effect that is not new, makes the call return, with a response of the
    size computed from the parameters and with no voice playing. *)
Theorem quiet_update_returns (P : Platform) (r : AudioRenderer.t P)
    (input : list byte)
    (Hsized : UpdateView.sized P r)
    (Hcovers : UpdateView.covers P r input)
    (Hquiet : UpdateView.quiet P r input)
    (Haux : UpdateView.no_aux_check P r input) :
  exists output r',
    AudioRenderer.UpdateAudioRenderer P r input = Ok (output, r')
    /\ size output
       = UpdateDataHeader.total_size
           (UpdateDataHeader.create (AudioRenderer.worker_params P r))
    /\ Forall (fun v => VoiceState.IsPlaying P v = false) (AudioRenderer.voices P r')
    /\ UpdateView.sized P r'.
Proof.
  destruct (quiet_update_is_taken_in P r input Hsized Hcovers Hquiet Haux)
    as (r' & Hin & Hidle).
  destruct (response_is_written P r r' input Hsized Hin) as [output Hok].
  exists output, r'. split; [exact Hok|].
  destruct (UpdateAudioRenderer_output P _ _ _ _ Hok) as (header & mpi & Hout).
  cbv zeta in Hout. destruct Hout as (_ & _ & Hsize & _).
  split; [exact Hsize|]. split; [exact Hidle|].
  destruct (UpdateAudioRenderer_counts P _ _ _ _ Hok) as (Hv & He & Hw & _).
  destruct Hsized as (Hnv & Hne & Hs0 & Hfit).
  unfold UpdateView.sized, size in *. rewrite Hw, Hv, He. repeat split; assumption.
Qed.

Lemma quiet_update_returns_witness :
  let blob := Example.update_blob (Example.REV 52) [0; 0; 0; 0] 0 0 0 in
  exists r0 output r',
    AudioRenderer.create Example.silent (Example.params 1 0) = Ok r0
    /\ AudioRenderer.UpdateAudioRenderer Example.silent r0 blob = Ok (output, r')
    /\ size output = 368.
Proof.
  cbv zeta.
  destruct (AudioRenderer.create Example.silent (Example.params 1 0))
    as [r0|f] eqn:E0; [|vm_compute in E0; discriminate E0].
  assert (Hr0 : AudioRenderer.worker_params Example.silent r0 = Example.params 1 0
                /\ length (AudioRenderer.voices Example.silent r0) = 1%nat
                /\ length (AudioRenderer.effects Example.silent r0) = 0%nat).
  { vm_compute in E0. injection E0 as <-. repeat split. }
  destruct Hr0 as (Hw & Hv & He).
  destruct (quiet_update_returns Example.silent r0
              (Example.update_blob (Example.REV 52) [0; 0; 0; 0] 0 0 0))
    as (output & r' & Hok & Hsize & _).
  - unfold UpdateView.sized, size. rewrite Hw, Hv, He. cbn. repeat split; lia.
  - unfold UpdateView.covers. rewrite Hw. vm_compute. repeat split; discriminate.
  - unfold UpdateView.quiet. rewrite Hv. intros k Hk. left.
    destruct k as [|k]; [reflexivity | lia].
  - unfold UpdateView.no_aux_check. rewrite He. intros k Hk. lia.
  - exists r0, output, r'. split; [reflexivity|]. split; [exact Hok|].
    rewrite Hsize, Hw. reflexivity.
Defined.

(** ** A renderer without memory pools *)

Section NoPools.
Variable P : Platform.

Lemma bare_update_is_taken_in (r : AudioRenderer.t P) (input : list byte) :
  UpdateView.sized P r ->
  AudioRenderer.voices P r = [] ->
  AudioRenderer.effects P r = [] ->
  64 <= size input ->
  UpdateDataHeader.voice_resource_size (Layout.config input) < 112 ->
  exists r', UpdateView.taken_in P r input r'.
Proof.
  intros (Hnv & Hne & Hs0 & Hfit) Hv He H64 Hres.
  rewrite Hv in Hnv. rewrite He in Hne. unfold size in Hnv, Hne. cbn [length] in Hnv, Hne.
  set (params := AudioRenderer.worker_params P r) in *.
  set (config := Layout.config input) in *.
  assert (Hr : 0 <= UpdateDataHeader.voice_resource_size config) by apply le_nonneg.
  (* no memory-pool request is copied *)
  assert (Hpool : AudioRenderer.read_mem_pool_info params input = Ok []).
  { unfold AudioRenderer.read_mem_pool_info.
    rewrite (memcpy_from_fits input 0 UpdateDataHeader.sizeof)
      by (unfold UpdateDataHeader.sizeof; lia).
    cbn [bind]. rewrite <- Hnv, <- Hne. reflexivity. }
  (* and no channel *)
  set (pools_end := UpdateDataHeader.sizeof + UpdateDataHeader.behavior_size config
                    + UpdateDataHeader.memory_pools_size config).
  assert (Hchannels :
            AudioRenderer.resize (AudioRenderer.channels P r)
              (wrap64 (pools_end + UpdateDataHeader.voice_resource_size config
                       - pools_end) / ChannelInfoIn.sizeof) ChannelState.create
            = []).
  { replace (pools_end + UpdateDataHeader.voice_resource_size config - pools_end)
      with (UpdateDataHeader.voice_resource_size config) by lia.
    unfold wrap64. rewrite Z.mod_small by lia.
    unfold ChannelInfoIn.sizeof. rewrite Z.div_small by lia.
    unfold AudioRenderer.resize. cbn [Z.to_nat firstn Nat.sub repeat app].
    reflexivity. }
  destruct (QueueMixedBuffers_idle P
              (map Stream.GetTag
                 (firstn 2 (Stream.released_buffers (AudioRenderer.stream P r))))
              (AudioRenderer.with_stream P
                 {| AudioRenderer.worker_params := params;
                    AudioRenderer.channels := [];
                    AudioRenderer.voices := [];
                    AudioRenderer.effects := [];
                    AudioRenderer.stream := AudioRenderer.stream P r |}
                 (Stream.with_queues (AudioRenderer.stream P r)
                    (Stream.queued_buffers (AudioRenderer.stream P r))
                    (Stream.active_buffer (AudioRenderer.stream P r))
                    (skipn 2 (Stream.released_buffers (AudioRenderer.stream P r))))))
    as (r' & Hq & _); [constructor|].
  exists r'.
  exists [], [], [], [], [],
    (pools_end + UpdateDataHeader.voice_resource_size config), pools_end,
    (pools_end + UpdateDataHeader.voice_resource_size config
     + UpdateDataHeader.voices_size config).
  cbv zeta. fold config params pools_end. rewrite Hv, He.
  split; [exact H64|]. split; [exact Hpool|].
  split; [reflexivity|]. split; [rewrite Hchannels; reflexivity|].
  split; [reflexivity|]. split; [reflexivity|].
  rewrite ReleaseAndQueueBuffers_unfold. exact Hq.
Qed.

End NoPools.

(** X26.  A renderer without voices and effects has no memory pool, and
    asks nothing of the blob beyond its header: whatever sizes the header
    declares, as long as the voice resources it announces are smaller than
    one channel record (112 bytes), every blob of 64 bytes or more is
    answered, with the 256 + 32 * sink_count bytes computed from the
    parameters.  The copy of the memory-pool requests moves no bytes, so it
    cannot run past the end of the blob. *)
Theorem update_without_pools (P : Platform) (r : AudioRenderer.t P)
    (input : list byte)
    (Hsized : UpdateView.sized P r)
    (Hvoices : AudioRenderer.voices P r = [])
    (Heffects : AudioRenderer.effects P r = [])
    (Hheader : 64 <= size input)
    (Hresources : UpdateDataHeader.voice_resource_size (Layout.config input) < 112) :
  exists output r',
    AudioRenderer.UpdateAudioRenderer P r input = Ok (output, r')
    /\ size output
       = 256 + 32 * AudioRendererParameter.sink_count (AudioRenderer.worker_params P r)
    /\ AudioRenderer.voices P r' = []
    /\ AudioRenderer.effects P r' = [].
Proof.
  destruct (bare_update_is_taken_in P r input Hsized Hvoices Heffects Hheader Hresources)
    as [r' Hin].
  destruct (response_is_written P r r' input Hsized Hin) as [output Hok].
  exists output, r'. split; [exact Hok|].
  destruct (UpdateAudioRenderer_output P _ _ _ _ Hok) as (header & mpi & Hout).
  cbv zeta in Hout. destruct Hout as (_ & _ & Hsize & _).
  destruct (UpdateAudioRenderer_counts P _ _ _ _ Hok) as (Hv & He & _).
  destruct Hsized as (Hnv & Hne & Hs0 & Hfit).
  rewrite Hvoices in Hnv, Hv. rewrite Heffects in Hne, He.
  unfold size in Hnv, Hne. cbn [length] in Hnv, Hne, Hv, He.
  split.
  - rewrite Hsize.
    destruct (create_sizes (AudioRenderer.worker_params P r)) as (_ & _ & Htotal);
      lia.
  - split; [now apply length_zero_iff_nil | now apply length_zero_iff_nil].
Qed.

Lemma update_without_pools_witness :
  exists r0 output r',
    AudioRenderer.create Example.silent (Example.params 0 0) = Ok r0
    /\ AudioRenderer.UpdateAudioRenderer Example.silent r0 (Bytes.zeros 64)
       = Ok (output, r')
    /\ size output = 288.
Proof.
  destruct (AudioRenderer.create Example.silent (Example.params 0 0))
    as [r0|f] eqn:E0; [|vm_compute in E0; discriminate E0].
  assert (Hr0 : AudioRenderer.worker_params Example.silent r0 = Example.params 0 0
                /\ AudioRenderer.voices Example.silent r0 = []
                /\ AudioRenderer.effects Example.silent r0 = []).
  { vm_compute in E0. injection E0 as <-. repeat split. }
  destruct Hr0 as (Hw & Hv & He).
  destruct (update_without_pools Example.silent r0 (Bytes.zeros 64))
    as (output & r' & Hok & Hsize & _).
  - unfold UpdateView.sized, size. rewrite Hw, Hv, He. cbn. repeat split; lia.
  - exact Hv.
  - exact He.
  - vm_compute. discriminate.
  - vm_compute. reflexivity.
  - exists r0, output, r'. split; [reflexivity|]. split; [exact Hok|].
    rewrite Hsize, Hw. reflexivity.
Defined.
